(** * FireRed bridge: memory readers, text codec and UI classifier

    A shallow embedding of the parts of [firered_bridge] that the
    specification makes claims about, and of the code around them:

    - [util/bytes.py]      tolerant little-endian field readers,
    - [text/encoding.py]   the GBA text decoder,
    - [memory/reader.py]   the live and the snapshot memory readers,
    - [memory/symbols.py]  the lookups in the symbol table,
    - [ui/menus.py]        task matching, list selection arithmetic, the
                           title-screen detector, the START menu, the
                           YES/NO menu and the Berry Crush pressing speed,
    - [ui/battle.py]       the battle UI detector and [get_battle_state],
    - [text/text_printer.py] the text under the print cursor, the scan of
                           the text printers and the pages of a dialog,
    - [ui/dialog.py]       [get_dialog_state] on a snapshot: the snapshot
                           ranges, the buffers read from them, and of
                           [_compute] the default record, the fast path,
                           the first detector and the in-battle branch.

    Conventions.  Python [int] is [Z]; [bytes] is [list byte]; a Python
    [str] is the list of its Unicode code points; a computation that may
    raise is an [exc] value ([Raise e]: exception [e] was raised);
    [Optional[T]] is [option T].  The address table
    [constants/addresses.py] is not part of the sources, so every function
    that consults it takes the table as a record. *)

From Stdlib Require Import ZArith List Bool Lia Permutation.
From Stdlib.Strings Require Import String Ascii Byte.
Import ListNotations.
Local Open Scope Z_scope.

(* ================================================================= *)
(** * Part I: definitions *)
(* ================================================================= *)

(** ** Python primitives *)

(** The exceptions that the modelled code can raise. *)
Inductive pyerror : Type :=
| KeyError      (* the snapshot reader's out-of-range error *)
| IndexError
| ValueError
| IOError       (* a failed request to the emulator *)
| GameDataError. (* a data file of [game_data.py] is missing *)

(** A computation that may raise. *)
Inductive exc (A : Type) : Type :=
| Ok (a : A)
| Raise (e : pyerror).

Arguments Ok {A} a.
Arguments Raise {A} e.

Notation "x <- e ;; k" :=
  (match e with Ok x => k | Raise err => Raise err end)
  (at level 61, e at next level, right associativity).

(** [try: e except Exception: d] *)
Definition try_except {A : Type} (e : exc A) (d : A) : A :=
  match e with Ok v => v | Raise _ => d end.

Definition bytes : Type := list byte.

Definition byte_val (b : byte) : Z := Z.of_N (Byte.to_N b).

(** [len(l)] *)
Definition len {A : Type} (l : list A) : Z := Z.of_nat (List.length l).

(** [l[i]]: negative indices count from the end, anything else outside
    the sequence raises [IndexError]. *)
Definition getitem {A : Type} (l : list A) (i : Z) : exc A :=
  let j := if i <? 0 then i + len l else i in
  if j <? 0 then Raise IndexError
  else match nth_error l (Z.to_nat j) with
       | Some x => Ok x
       | None => Raise IndexError
       end.

(** [raw[i]] on a [bytes] object yields an [int]. *)
Definition byte_at (raw : bytes) (i : Z) : exc Z :=
  b <- getitem raw i ;; Ok (byte_val b).

(** [l[lo:hi]]: both bounds are normalised into [0, len(l)], never raises. *)
Definition slice_bound {A : Type} (l : list A) (i : Z) : Z :=
  if i <? 0 then Z.max 0 (i + len l) else Z.min i (len l).

Definition slice {A : Type} (l : list A) (lo hi : Z) : list A :=
  let a := slice_bound l lo in
  let b := slice_bound l hi in
  firstn (Z.to_nat (b - a)) (skipn (Z.to_nat a) l).

(** [range(n)] *)
Definition range (n : Z) : list Z := map Z.of_nat (seq 0 (Z.to_nat n)).

(** A Python [str]: its code points. *)
Definition pystr : Type := list Z.

(** Reading a source literal: the UTF-8 bytes of a Rocq string literal are
    turned into code points. *)
Fixpoint utf8_points (l : list Z) : pystr :=
  match l with
  | [] => []
  | b0 :: r =>
    if b0 <? 0x80 then b0 :: utf8_points r
    else if b0 <? 0xE0 then
      match r with
      | b1 :: r1 =>
        Z.lor (Z.shiftl (Z.land b0 0x1F) 6) (Z.land b1 0x3F) :: utf8_points r1
      | _ => []
      end
    else if b0 <? 0xF0 then
      match r with
      | b1 :: b2 :: r2 =>
        Z.lor (Z.shiftl (Z.land b0 0x0F) 12)
              (Z.lor (Z.shiftl (Z.land b1 0x3F) 6) (Z.land b2 0x3F))
          :: utf8_points r2
      | _ => []
      end
    else
      match r with
      | b1 :: b2 :: b3 :: r3 =>
        Z.lor (Z.shiftl (Z.land b0 0x07) 18)
              (Z.lor (Z.shiftl (Z.land b1 0x3F) 12)
                     (Z.lor (Z.shiftl (Z.land b2 0x3F) 6) (Z.land b3 0x3F)))
          :: utf8_points r3
      | _ => []
      end
  end.

Definition u (s : string) : pystr :=
  utf8_points (map (fun a => Z.of_nat (nat_of_ascii a)) (list_ascii_of_string s)).

Definition nl : pystr := [10].

(** [str.isspace] on one character (the code points CPython treats as
    whitespace). *)
Definition isspace (c : Z) : bool :=
  ((9 <=? c) && (c <=? 13)) || ((28 <=? c) && (c <=? 32))
  || (c =? 0x85) || (c =? 0xA0) || (c =? 0x1680)
  || ((0x2000 <=? c) && (c <=? 0x200A))
  || (c =? 0x2028) || (c =? 0x2029) || (c =? 0x202F) || (c =? 0x205F)
  || (c =? 0x3000).

Fixpoint lstrip (s : pystr) : pystr :=
  match s with
  | c :: r => if isspace c then lstrip r else s
  | [] => []
  end.

Definition rstrip (s : pystr) : pystr := rev (lstrip (rev s)).

(** [s.strip()] *)
Definition strip (s : pystr) : pystr := rstrip (lstrip s).

(** [sep.join(parts)] *)
Fixpoint join (sep : pystr) (parts : list pystr) : pystr :=
  match parts with
  | [] => []
  | [p] => p
  | p :: ps => p ++ sep ++ join sep ps
  end.

(** ** [util/bytes.py] *)

Definition _u8_from (raw : bytes) (offset : Z) : exc Z :=
  if (offset <? 0) || (offset >=? len raw) then Ok 0
  else byte_at raw offset.

Definition _u16le_from (raw : bytes) (offset : Z) : exc Z :=
  if (offset <? 0) || (offset + 1 >=? len raw) then Ok 0
  else
    b0 <- byte_at raw offset ;;
    b1 <- byte_at raw (offset + 1) ;;
    Ok (Z.lor b0 (Z.shiftl b1 8)).

Definition _u32le_from (raw : bytes) (offset : Z) : exc Z :=
  if (offset <? 0) || (offset + 3 >=? len raw) then Ok 0
  else
    b0 <- byte_at raw offset ;;
    b1 <- byte_at raw (offset + 1) ;;
    b2 <- byte_at raw (offset + 2) ;;
    b3 <- byte_at raw (offset + 3) ;;
    Ok (Z.lor (Z.lor (Z.lor b0 (Z.shiftl b1 8)) (Z.shiftl b2 16)) (Z.shiftl b3 24)).

Definition _s8_from_u8 (val : Z) : Z := if val >? 127 then val - 256 else val.

Definition _s16_from_u16 (val : Z) : Z := if val >? 32767 then val - 65536 else val.

(** ** [text/encoding.py] *)

Definition TEXT_TERMINATOR : byte := xff.

Definition GBA_CHARMAP (b : byte) : option pystr :=
  match b with
  | x00 => Some (u " ")
  | xab => Some (u "!")
  | xac => Some (u "?")
  | xad => Some (u ".")
  | xae => Some (u "-")
  | xaf => Some [0xB7]     (* middle dot *)
  | xb0 => Some [0x2026]   (* horizontal ellipsis *)
  | xb1 => Some [34]       (* double quote *)
  | xb2 => Some [34]
  | xb3 => Some (u "'")
  | xb4 => Some (u "'")
  | xb5 => Some [0x2642]   (* male sign *)
  | xb6 => Some [0x2640]   (* female sign *)
  | xb8 => Some (u ",")
  | xb9 => Some [0xD7]     (* multiplication sign *)
  | xba => Some (u "/")
  | xa1 => Some (u "0")
  | xa2 => Some (u "1")
  | xa3 => Some (u "2")
  | xa4 => Some (u "3")
  | xa5 => Some (u "4")
  | xa6 => Some (u "5")
  | xa7 => Some (u "6")
  | xa8 => Some (u "7")
  | xa9 => Some (u "8")
  | xaa => Some (u "9")
  | xbb => Some (u "A")
  | xbc => Some (u "B")
  | xbd => Some (u "C")
  | xbe => Some (u "D")
  | xbf => Some (u "E")
  | xc0 => Some (u "F")
  | xc1 => Some (u "G")
  | xc2 => Some (u "H")
  | xc3 => Some (u "I")
  | xc4 => Some (u "J")
  | xc5 => Some (u "K")
  | xc6 => Some (u "L")
  | xc7 => Some (u "M")
  | xc8 => Some (u "N")
  | xc9 => Some (u "O")
  | xca => Some (u "P")
  | xcb => Some (u "Q")
  | xcc => Some (u "R")
  | xcd => Some (u "S")
  | xce => Some (u "T")
  | xcf => Some (u "U")
  | xd0 => Some (u "V")
  | xd1 => Some (u "W")
  | xd2 => Some (u "X")
  | xd3 => Some (u "Y")
  | xd4 => Some (u "Z")
  | xd5 => Some (u "a")
  | xd6 => Some (u "b")
  | xd7 => Some (u "c")
  | xd8 => Some (u "d")
  | xd9 => Some (u "e")
  | xda => Some (u "f")
  | xdb => Some (u "g")
  | xdc => Some (u "h")
  | xdd => Some (u "i")
  | xde => Some (u "j")
  | xdf => Some (u "k")
  | xe0 => Some (u "l")
  | xe1 => Some (u "m")
  | xe2 => Some (u "n")
  | xe3 => Some (u "o")
  | xe4 => Some (u "p")
  | xe5 => Some (u "q")
  | xe6 => Some (u "r")
  | xe7 => Some (u "s")
  | xe8 => Some (u "t")
  | xe9 => Some (u "u")
  | xea => Some (u "v")
  | xeb => Some (u "w")
  | xec => Some (u "x")
  | xed => Some (u "y")
  | xee => Some (u "z")
  | xef => Some [0x25BA]   (* right-pointing pointer *)
  | xf0 => Some (u ":")
  | x1b => Some [0xE9]     (* e acute *)
  | xfe => Some nl
  | _ => None
  end.

(** [PROMPT_CHARS = {0xFA, 0xFB}] *)
Definition PROMPT_CHARS : list byte := [xfa; xfb].

Definition in_bytes (b : byte) (s : list byte) : bool := existsb (Byte.eqb b) s.

(** The [while] loop of [decode_gba_string].  [rest] is [raw_bytes[i:]], so
    an empty [rest] is the test [i < len(raw_bytes)] failing; the value is
    the list of pieces appended to [result] from position [i] on. *)
Fixpoint decode_loop (stop_at_prompt : bool) (max_len : Z)
         (rest : bytes) (i : Z) : list pystr :=
  match rest with
  | [] => []
  | byte :: tail =>
    if negb (i <? max_len) then []
    else if Byte.eqb byte TEXT_TERMINATOR then []
    else if stop_at_prompt && in_bytes byte PROMPT_CHARS then []
    else if Byte.eqb byte xfc || Byte.eqb byte xfd then
      match tail with
      | [] => []
      | _ :: tail2 => decode_loop stop_at_prompt max_len tail2 (i + 2)
      end
    else
      match GBA_CHARMAP byte with
      | Some char => char :: decode_loop stop_at_prompt max_len tail (i + 1)
      | None => decode_loop stop_at_prompt max_len tail (i + 1)
      end
  end.

Definition decode_gba_string (raw_bytes : bytes) (max_len : Z)
           (stop_at_prompt : bool) : pystr :=
  strip (join [] (decode_loop stop_at_prompt max_len raw_bytes 0)).


(** ** [memory/reader.py] *)

(** *** [LiveMemoryReader]: a reader backed by callables *)

Record LiveMemoryReader : Type := {
  read8 : Z -> exc Z;
  read16 : Z -> exc Z;
  read32 : Z -> exc Z;
  read_range_bytes : Z -> Z -> exc bytes
}.

(** [bytes(ints)]: every element must be in [range(256)]. *)
Fixpoint bytes_of_ints (l : list Z) : exc bytes :=
  match l with
  | [] => Ok []
  | v :: r =>
    if (v <? 0) || (255 <? v) then Raise ValueError
    else match Byte.of_N (Z.to_N v) with
         | Some b => bs <- bytes_of_ints r ;; Ok (b :: bs)
         | None => Raise ValueError
         end
  end.

(** A list comprehension whose body may raise. *)
Fixpoint for_each {A B : Type} (f : A -> exc B) (l : list A) : exc (list B) :=
  match l with
  | [] => Ok []
  | x :: r => y <- f x ;; ys <- for_each f r ;; Ok (y :: ys)
  end.

Module Live.

Definition u8 (self : LiveMemoryReader) (addr : Z) : exc Z :=
  v <- read8 self addr ;; Ok (Z.land v 0xFF).

Definition u16 (self : LiveMemoryReader) (addr : Z) : exc Z :=
  v <- read16 self addr ;; Ok (Z.land v 0xFFFF).

Definition u32 (self : LiveMemoryReader) (addr : Z) : exc Z :=
  v <- read32 self addr ;; Ok (Z.land v 0xFFFFFFFF).

Definition read_bytes (self : LiveMemoryReader) (addr size : Z) : exc bytes :=
  if size <=? 0 then Ok []
  else
    match read_range_bytes self addr size with
    | Ok raw => Ok raw
    | Raise _ =>
      ints <- for_each (fun i => u8 self (addr + i)) (range size) ;;
      bytes_of_ints ints
    end.

End Live.

(** *** [SnapshotSegment] and [SnapshotMemoryReader] *)

Record SnapshotSegment : Type := {
  start : Z;
  data : bytes
}.

(** The [end] property. *)
Definition seg_end (s : SnapshotSegment) : Z := start s + len (data s).

Record SnapshotMemoryReader : Type := {
  segments : list SnapshotSegment;
  _starts : list Z
}.

(** [segs.sort(key=lambda s: s.start)]: Python's sort is stable, so a
    segment is placed before the already sorted later ones of equal key. *)
Fixpoint insert_segment (s : SnapshotSegment) (l : list SnapshotSegment)
  : list SnapshotSegment :=
  match l with
  | [] => [s]
  | h :: t => if start s <=? start h then s :: l else h :: insert_segment s t
  end.

Fixpoint sort_segments (l : list SnapshotSegment) : list SnapshotSegment :=
  match l with
  | [] => []
  | h :: t => insert_segment h (sort_segments t)
  end.

(** The comprehension of [from_ranges]: [zip] stops at the shorter list; an
    entry is kept when its address is not zero and its chunk is a [bytes]
    object ([None] stands for any other object). *)
Fixpoint captured_segments (ranges : list (Z * Z)) (chunks : list (option bytes))
  : list SnapshotSegment :=
  match ranges, chunks with
  | (addr, _len) :: ranges', chunk :: chunks' =>
    match chunk with
    | Some c =>
      if negb (addr =? 0)
      then {| start := addr; data := c |} :: captured_segments ranges' chunks'
      else captured_segments ranges' chunks'
    | None => captured_segments ranges' chunks'
    end
  | _, _ => []
  end.

(** [bisect.bisect_right(a, x)], the standard library's binary search. *)
Fixpoint bisect_loop (fuel : nat) (a : list Z) (x lo hi : Z) : Z :=
  match fuel with
  | O => lo
  | S fuel' =>
    if lo <? hi then
      let mid := (lo + hi) / 2 in
      if x <? nth (Z.to_nat mid) a 0
      then bisect_loop fuel' a x lo mid
      else bisect_loop fuel' a x (mid + 1) hi
    else lo
  end.

Definition bisect_right (a : list Z) (x : Z) : Z :=
  bisect_loop (List.length a) a x 0 (len a).

Module Snapshot.

Definition from_ranges (ranges : list (Z * Z)) (chunks : list (option bytes))
  : SnapshotMemoryReader :=
  let segs := sort_segments (captured_segments ranges chunks) in
  {| segments := segs; _starts := map start segs |}.

Definition _segment_for (self : SnapshotMemoryReader) (addr size : Z)
  : exc (SnapshotSegment * Z) :=
  if size <=? 0 then Raise KeyError
  else
    let i := bisect_right (_starts self) addr - 1 in
    if (i <? 0) || (i >=? len (segments self)) then Raise KeyError
    else
      seg <- getitem (segments self) i ;;
      let off := addr - start seg in
      let end_ := addr + size in
      if (off <? 0) || (end_ >? seg_end seg) then Raise KeyError
      else Ok (seg, off).

Definition u8 (self : SnapshotMemoryReader) (addr : Z) : exc Z :=
  so <- _segment_for self addr 1 ;;
  let '(seg, off) := so in
  byte_at (data seg) off.

Definition u16 (self : SnapshotMemoryReader) (addr : Z) : exc Z :=
  so <- _segment_for self addr 2 ;;
  let '(seg, off) := so in
  let d := data seg in
  b0 <- byte_at d off ;;
  b1 <- byte_at d (off + 1) ;;
  Ok (Z.lor b0 (Z.shiftl b1 8)).

Definition u32 (self : SnapshotMemoryReader) (addr : Z) : exc Z :=
  so <- _segment_for self addr 4 ;;
  let '(seg, off) := so in
  let d := data seg in
  b0 <- byte_at d off ;;
  b1 <- byte_at d (off + 1) ;;
  b2 <- byte_at d (off + 2) ;;
  b3 <- byte_at d (off + 3) ;;
  Ok (Z.lor (Z.lor (Z.lor b0 (Z.shiftl b1 8)) (Z.shiftl b2 16)) (Z.shiftl b3 24)).

Definition read_bytes (self : SnapshotMemoryReader) (addr size : Z) : exc bytes :=
  so <- _segment_for self addr size ;;
  let '(seg, off) := so in
  Ok (slice (data seg) off (off + size)).

End Snapshot.

(** *** The emulator behind a live reader

    Modelled from the spec: the remote read primitives are outside the
    repository; section 6 describes them as single reads by width and
    ranged reads of the observed process's byte-addressed memory.  A
    memory is a map from addresses to bytes, multi-byte reads are
    little-endian. *)

Definition memory : Type := Z -> byte.

Definition mem_range (mem : memory) (addr size : Z) : bytes :=
  map (fun i => mem (addr + i)) (range size).

Definition emulator (mem : memory) : LiveMemoryReader := {|
  read8 := fun a => Ok (byte_val (mem a));
  read16 := fun a =>
    Ok (Z.lor (byte_val (mem a)) (Z.shiftl (byte_val (mem (a + 1))) 8));
  read32 := fun a =>
    Ok (Z.lor (Z.lor (Z.lor (byte_val (mem a))
                            (Z.shiftl (byte_val (mem (a + 1))) 8))
                     (Z.shiftl (byte_val (mem (a + 2))) 16))
              (Z.shiftl (byte_val (mem (a + 3))) 24));
  read_range_bytes := fun a n => Ok (mem_range mem a n)
|}.

(** The same emulator without the bulk primitive: ranged reads raise, so
    [read_bytes] falls back to byte-by-byte reads. *)
Definition emulator_without_bulk (mem : memory) : LiveMemoryReader := {|
  read8 := read8 (emulator mem);
  read16 := read16 (emulator mem);
  read32 := read32 (emulator mem);
  read_range_bytes := fun _ _ => Raise IOError
|}.

(** One bulk capture of a list of ranges. *)
Definition capture (mem : memory) (ranges : list (Z * Z)) : list (option bytes) :=
  map (fun r => Some (mem_range mem (fst r) (snd r))) ranges.

(** ** [constants/addresses.py]

    The address table is resolved from the ROM's symbol file and is not
    part of the sources; the functions below take it as a record.  A
    symbol that could not be resolved is [0]. *)

Record Addresses : Type := {
  (* scheduler tasks *)
  GTASKS_ADDR : Z;
  NUM_TASKS : Z;
  TASK_SIZE : Z;
  TASK_FUNC_OFFSET : Z;
  TASK_ISACTIVE_OFFSET : Z;
  TASK_DATA_OFFSET : Z;
  (* main callbacks *)
  GMAIN_ADDR : Z;
  GMAIN_CALLBACK2_OFFSET : Z;
  CB2_OVERWORLD_ADDR : Z;
  CB2_INIT_TITLE_SCREEN_ADDR : Z;
  CB2_TITLE_SCREEN_ADDR : Z;
  TASK_TITLE_SCREEN_PHASE1_ADDR : Z;
  TASK_TITLE_SCREEN_PHASE2_ADDR : Z;
  TASK_TITLE_SCREEN_PHASE3_ADDR : Z;
  (* windows and text printers *)
  WINDOW_NONE : Z;
  STEXTPRINTERS_ADDR : Z;
  TEXTPRINTER_SIZE : Z;
  TEXTPRINTER_ACTIVE_OFFSET : Z;
  SSAVE_INFO_WINDOWID_ADDR : Z;
  (* battle *)
  BATTLE_MAX_BATTLERS : Z;
  BATTLE_POKEMON_SIZE : Z;
  BATTLE_TYPE_SAFARI : Z;
  BATTLER_BIT_SIDE : Z;
  BATTLER_BIT_FLANK : Z;
  DISPLAY_HEIGHT : Z;
  BATTLE_PLAYER_HANDLE_YES_NO_INPUT_ADDRS : list Z;
  BATTLE_HANDLE_INPUT_CHOOSE_TARGET_ADDRS : list Z;
  BATTLE_HANDLE_INPUT_CHOOSE_MOVE_ADDRS : list Z;
  BATTLE_HANDLE_INPUT_CHOOSE_ACTION_ADDRS : list Z;
  GDISPLAYEDSTRINGBATTLE_ADDR : Z;
  GDISPLAYEDSTRINGBATTLE_SIZE : Z;
  GBATTLESCRIPTCURRINSTR_ADDR : Z;
  GBATTLECOMMUNICATION_ADDR : Z;
  GBATTLETYPEFLAGS_ADDR : Z;
  GBATTLERSCOUNT_ADDR : Z;
  GABSENTBATTLERFLAGS_ADDR : Z;
  GBATTLERPOSITIONS_ADDR : Z;
  GBATTLEMONS_ADDR : Z;
  GBATTLEMONS_SIZE : Z;
  GACTIVEBATTLER_ADDR : Z;
  GBATTLERCONTROLLERFUNCS_ADDR : Z;
  GACTIONSELECTIONCURSOR_ADDR : Z;
  GMOVESELECTIONCURSOR_ADDR : Z;
  GMULTIUSEPLAYERCURSOR_ADDR : Z;
  GBATTLE_BG0_Y_ADDR : Z;
  GBATTLECOMMUNICATION_SIZE : Z;
  (* the remaining ranges of the dialog snapshot *)
  SCRIPT_LOCK_FIELD_CONTROLS : Z;
  IN_BATTLE_BIT_ADDR : Z;
  IN_BATTLE_BITMASK : Z;
  GSTRINGVAR4_ADDR : Z;
  START_MENU_WINDOW_ID_ADDR : Z;
  START_MENU_NUM_ACTIONS_ADDR : Z;
  START_MENU_CURSOR_POS_ADDR : Z;
  START_MENU_ACTIONS_ADDR : Z;
  SMENU_ADDR : Z;
  SYESNO_WINDOWID_ADDR : Z;
  GWINDOWS_ADDR : Z;
  WINDOW_SIZE : Z;
  GQUEST_LOG_STATE_ADDR : Z;
  GQUEST_LOG_PLAYBACK_STATE_ADDR : Z;
  SQUEST_LOG_WINDOW_IDS_ADDR : Z;
  QUEST_LOG_WINDOW_COUNT : Z;
  GPLAYER_PC_ITEM_PAGE_INFO_ADDR : Z;
  SITEM_STORAGE_MENU_PTR_ADDR : Z;
  SITEM_STORAGE_LIST_MENU_STATE_ADDR : Z;
  SPOKE_STORAGE_PTR_ADDR : Z;
  SPOKE_STORAGE_CHOOSE_BOX_MENU_PTR_ADDR : Z;
  SPOKE_STORAGE_IN_PARTY_MENU_ADDR : Z;
  SPOKE_STORAGE_CURRENT_BOX_OPTION_ADDR : Z;
  SPOKE_STORAGE_DEPOSIT_BOX_ID_ADDR : Z;
  SPOKE_STORAGE_CURSOR_AREA_ADDR : Z;
  SPOKE_STORAGE_CURSOR_POSITION_ADDR : Z;
  GPARTY_MENU_ADDR : Z;
  GPLAYER_PARTY_COUNT_ADDR : Z;
  SPARTY_MENU_INTERNAL_PTR_ADDR : Z;
  PARTY_BASE_ADDR : Z;
  PARTY_SIZE : Z;
  POKEMON_DATA_SIZE : Z
}.

(** The module [memory/mgba.py]: requests to the running emulator.  Its
    functions are the callables of a live reader. *)
Definition Mgba : Type := LiveMemoryReader.

Definition mgba_read8 (io : Mgba) : Z -> exc Z := read8 io.
Definition mgba_read16 (io : Mgba) : Z -> exc Z := read16 io.
Definition mgba_read32 (io : Mgba) : Z -> exc Z := read32 io.
Definition mgba_read_range_bytes (io : Mgba) : Z -> Z -> exc bytes :=
  read_range_bytes io.

(** ** [ui/menus.py]: task matching *)

(** [x in s] for a collection of integers. *)
Definition in_ints (x : Z) (s : list Z) : bool := existsb (Z.eqb x) s.

(** The loop over [gTasks] shared by the task-matching helpers, on a
    captured task table.  [matches] is the test applied to the masked
    function pointer of an active task: [task_func == masked] in
    [_find_active_task_by_func], [task_func in masked_set] in
    [_find_active_task_by_funcs]. *)
Fixpoint scan_tasks_raw (K : Addresses) (matches : Z -> bool)
         (tasks_raw : bytes) (ids : list Z) : exc (option Z) :=
  match ids with
  | [] => Ok None
  | i :: rest =>
    let base := i * TASK_SIZE K in
    if base + TASK_SIZE K >? len tasks_raw then Ok None
    else
      active <- _u8_from tasks_raw (base + TASK_ISACTIVE_OFFSET K) ;;
      if active =? 0 then scan_tasks_raw K matches tasks_raw rest
      else
        func <- _u32le_from tasks_raw (base + TASK_FUNC_OFFSET K) ;;
        let task_func := Z.land func 0xFFFFFFFE in
        if matches task_func then Ok (Some i)
        else scan_tasks_raw K matches tasks_raw rest
  end.

(** The same loop on the live task table. *)
Fixpoint scan_tasks_live (K : Addresses) (io : Mgba) (matches : Z -> bool)
         (ids : list Z) : exc (option Z) :=
  match ids with
  | [] => Ok None
  | i :: rest =>
    let task_addr := GTASKS_ADDR K + i * TASK_SIZE K in
    active <- mgba_read8 io (task_addr + TASK_ISACTIVE_OFFSET K) ;;
    if active =? 0 then scan_tasks_live K io matches rest
    else
      func <- mgba_read32 io (task_addr + TASK_FUNC_OFFSET K) ;;
      let task_func := Z.land func 0xFFFFFFFE in
      if matches task_func then Ok (Some i)
      else scan_tasks_live K io matches rest
  end.

Definition _find_active_task_by_func (K : Addresses) (io : Mgba)
           (func_addr : Z) (tasks_raw : option bytes) : exc (option Z) :=
  if func_addr =? 0 then Ok None
  else
    let masked := Z.land func_addr 0xFFFFFFFE in
    match tasks_raw with
    | Some raw => scan_tasks_raw K (fun task_func => task_func =? masked)
                                 raw (range (NUM_TASKS K))
    | None => scan_tasks_live K io (fun task_func => task_func =? masked)
                              (range (NUM_TASKS K))
    end.

(** [{int(addr) & 0xFFFFFFFE for addr in func_addrs if int(addr) != 0}] *)
Definition masked_nonzero (func_addrs : list Z) : list Z :=
  map (fun addr => Z.land addr 0xFFFFFFFE)
      (filter (fun addr => negb (addr =? 0)) func_addrs).

Definition _find_active_task_by_funcs (K : Addresses) (io : Mgba)
           (func_addrs : list Z) (tasks_raw : option bytes) : exc (option Z) :=
  let masked_set := masked_nonzero func_addrs in
  match masked_set with
  | [] => Ok None
  | _ =>
    match tasks_raw with
    | Some raw => scan_tasks_raw K (fun task_func => in_ints task_func masked_set)
                                 raw (range (NUM_TASKS K))
    | None => scan_tasks_live K io (fun task_func => in_ints task_func masked_set)
                              (range (NUM_TASKS K))
    end
  end.

Definition _read_task_data_u16 (K : Addresses) (io : Mgba)
           (task_id data_index : Z) (tasks_raw : option bytes) : exc Z :=
  match tasks_raw with
  | Some raw =>
    _u16le_from raw (task_id * TASK_SIZE K + TASK_DATA_OFFSET K + data_index * 2)
  | None =>
    mgba_read16 io (GTASKS_ADDR K + task_id * TASK_SIZE K + TASK_DATA_OFFSET K
                    + data_index * 2)
  end.

(** ** [ui/menus.py]: list selection arithmetic *)

(** The variables the list code computes. *)
Record list_window : Type := {
  total_entries : Z;
  selected_index : Z;
  selected_row : Z;
  window_start : Z;
  window_end : Z
}.

(** [get_bag_menu_state], from the clamping of [scroll_pos] to the visible
    window.  [scroll_pos] and [selected_row] are the two unsigned 16-bit
    fields of the bag's list-menu task (or of [gBagPosition]). *)
Definition bag_list_window (scroll_pos selected_row num_item_stacks
                            num_shown_items : Z) (hide_close_bag : bool)
  : list_window :=
  let scroll_pos := if scroll_pos <? 0 then 0 else scroll_pos in
  let selected_row := if selected_row <? 0 then 0 else selected_row in
  let total_entries := num_item_stacks + (if hide_close_bag then 0 else 1) in
  let total_entries := if total_entries <? 0 then 0 else total_entries in
  let selected_index := scroll_pos + selected_row in
  let '(selected_index, selected_row) :=
    if total_entries <=? 0 then (0, 0) else (selected_index, selected_row) in
  let '(selected_index, selected_row) :=
    if (total_entries >? 0) && (selected_index >=? total_entries)
    then (total_entries - 1,
          Z.max 0 (Z.min selected_row (Z.max 0 (num_shown_items - 1))))
    else (selected_index, selected_row) in
  let start := Z.max 0 scroll_pos in
  let start :=
    if (total_entries >? 0) && (start >=? total_entries)
    then Z.max 0 (total_entries - num_shown_items) else start in
  let end_ := start + Z.max 0 num_shown_items in
  let end_ := if total_entries >? 0 then Z.min end_ total_entries else end_ in
  {| total_entries := total_entries;
     selected_index := selected_index;
     selected_row := selected_row;
     window_start := start;
     window_end := end_ |}.

(** [get_tm_case_state], from [total_entries] to the visible window. *)
Definition tm_case_list_window (scroll_pos selected_row num_tms max_shown : Z)
  : list_window :=
  let total_entries := num_tms + 1 in
  let total_entries := if total_entries <=? 0 then 1 else total_entries in
  let scroll_pos := if scroll_pos <? 0 then 0 else scroll_pos in
  let selected_row := if selected_row <? 0 then 0 else selected_row in
  let selected_index := scroll_pos + selected_row in
  let selected_index :=
    if selected_index >=? total_entries then total_entries - 1
    else selected_index in
  let start := scroll_pos in
  let start :=
    if start >=? total_entries then Z.max 0 (total_entries - max_shown)
    else start in
  let end_ := Z.min total_entries (start + max_shown) in
  {| total_entries := total_entries;
     selected_index := selected_index;
     selected_row := selected_row;
     window_start := start;
     window_end := end_ |}.

(** ** [ui/battle.py]: pointer matching *)

Fixpoint _ptr_matches_any_loop (masked : Z) (candidates : list Z) : bool :=
  match candidates with
  | [] => false
  | cand :: rest =>
    if masked =? Z.land cand 0xFFFFFFFE then true
    else _ptr_matches_any_loop masked rest
  end.

Definition _ptr_matches_any (ptr : Z) (candidates : list Z) : bool :=
  match candidates with
  | [] => false
  | _ => _ptr_matches_any_loop (Z.land ptr 0xFFFFFFFE) candidates
  end.

(** ** More Python primitives *)

(** Truth value of a string, of an optional string, of a [bytes] object
    that may be [None]. *)
Definition nonempty {A : Type} (l : list A) : bool :=
  match l with [] => false | _ => true end.

Definition truthy {A : Type} (o : option (list A)) : bool :=
  match o with Some l => nonempty l | None => false end.

Definition pystr_eqb (s t : pystr) : bool :=
  (List.length s =? List.length t)%nat
  && forallb (fun p => fst p =? snd p) (combine s t).

(** [str(n)] for an integer. *)
Fixpoint decimal_digits (fuel : nat) (n : Z) (acc : pystr) : pystr :=
  match fuel with
  | O => acc
  | S fuel' =>
    let acc' := (48 + n mod 10) :: acc in
    if n / 10 =? 0 then acc' else decimal_digits fuel' (n / 10) acc'
  end.

Definition str_of_int (n : Z) : pystr :=
  if n <? 0 then 45 :: decimal_digits (S (Z.to_nat (Z.log2 (- n)))) (- n) []
  else decimal_digits (S (Z.to_nat (Z.log2 n))) n [].

(** [list.sort(key=...)], stable. *)
Fixpoint insert_by_key {A : Type} (key : A -> Z) (x : A) (l : list A) : list A :=
  match l with
  | [] => [x]
  | h :: t => if key x <=? key h then x :: l else h :: insert_by_key key x t
  end.

Fixpoint sort_by_key {A : Type} (key : A -> Z) (l : list A) : list A :=
  match l with
  | [] => []
  | h :: t => insert_by_key key h (sort_by_key key t)
  end.

(** [enumerate(l)] *)
Definition enumerate {A : Type} (l : list A) : list (Z * A) :=
  combine (map Z.of_nat (seq 0 (List.length l))) l.

(** ** [game_data.py] and the other name tables *)

(** [ReferenceTables]; a dict is taken as its [get]. *)
Record ReferenceTables : Type := {
  map_names : Z -> option (Z -> option pystr);
  event_object_names : Z -> option pystr;
  ability_names : Z -> option pystr;
  item_names : Z -> option pystr;
  move_names : Z -> option pystr;
  species_names : Z -> option pystr
}.

(** What the name lookups take from outside the sources.
    [load_reference_tables] reads the mappings file, which is not part of
    the sources: it returns the tables, or raises ([GameDataError] when the
    file is missing, another error when it is malformed).
    [get_status_name_from_mask] belongs to [player/party.py] and
    [POKEMON_TYPE_MAP] to the constants. *)
Record GameData : Type := {
  load_reference_tables : exc ReferenceTables;
  get_status_name_from_mask : Z -> pystr;
  POKEMON_TYPE_MAP : Z -> option pystr
}.

Definition get_map_name (G : GameData) (group num : Z) : exc (option pystr) :=
  tables <- load_reference_tables G ;;
  Ok (match map_names tables group with
      | Some maps => maps num
      | None => None
      end).

Definition get_event_object_name (G : GameData) (graphics_id : Z)
  : exc (option pystr) :=
  tables <- load_reference_tables G ;; Ok (event_object_names tables graphics_id).

Definition get_ability_name (G : GameData) (ability_id : Z) : exc (option pystr) :=
  tables <- load_reference_tables G ;; Ok (ability_names tables ability_id).

Definition get_item_name (G : GameData) (item_id : Z) : exc (option pystr) :=
  tables <- load_reference_tables G ;; Ok (item_names tables item_id).

Definition get_move_name (G : GameData) (move_id : Z) : exc (option pystr) :=
  tables <- load_reference_tables G ;; Ok (move_names tables move_id).

Definition get_species_name (G : GameData) (species_id : Z) : exc (option pystr) :=
  tables <- load_reference_tables G ;; Ok (species_names tables species_id).

(** ** [ui/battle.py] *)

Definition _battle_position_name (pos : Z) : pystr :=
  let k := Z.land pos 0xFF in
  if k =? 0 then u "PLAYER_LEFT"
  else if k =? 1 then u "OPPONENT_LEFT"
  else if k =? 2 then u "PLAYER_RIGHT"
  else if k =? 3 then u "OPPONENT_RIGHT"
  else u "UNKNOWN_" ++ str_of_int pos.

Definition _battle_side_from_pos (K : Addresses) (pos : Z) : pystr :=
  if Z.land pos (BATTLER_BIT_SIDE K) =? 0 then u "player" else u "enemy".

Definition _battle_flank_from_pos (K : Addresses) (pos : Z) : pystr :=
  if Z.land pos (BATTLER_BIT_FLANK K) =? 0 then u "left" else u "right".

Definition _battle_screen_position_name (K : Addresses) (pos : Z) : pystr :=
  let pos_i := Z.land pos 0xFF in
  if pystr_eqb (_battle_side_from_pos K pos_i) (u "enemy") then
    if pystr_eqb (_battle_flank_from_pos K pos_i) (u "left")
    then u "OPPONENT_RIGHT" else u "OPPONENT_LEFT"
  else _battle_position_name pos_i.

Definition _battle_screen_flank_from_pos (K : Addresses) (pos : Z) : pystr :=
  let side := _battle_side_from_pos K pos in
  let flank := _battle_flank_from_pos K pos in
  if pystr_eqb side (u "enemy") then
    if pystr_eqb flank (u "right") then u "left" else u "right"
  else flank.

(** The dictionary built by [_parse_battle_pokemon]. *)
Record battle_pokemon : Type := {
  mon_speciesId : Z;
  mon_species : option pystr;
  mon_nickname : option pystr;
  mon_level : Z;
  mon_hp_current : Z;
  mon_hp_max : Z;
  mon_status : pystr;
  mon_statusRaw : Z;
  mon_movesRaw : list Z;
  mon_moves : list (option pystr);
  mon_pp : list Z;
  mon_itemId : Z;
  mon_itemName : option pystr;
  mon_abilityId : Z;
  mon_ability : option pystr;
  mon_types : list pystr
}.

Definition type_name (G : GameData) (t : Z) : pystr :=
  match POKEMON_TYPE_MAP G t with
  | Some name => name
  | None => u "TYPE_UNKNOWN(" ++ str_of_int t ++ u ")"
  end.

Definition _parse_battle_pokemon (K : Addresses) (G : GameData) (raw : bytes)
  : exc battle_pokemon :=
  if negb (nonempty raw) || (len raw <? BATTLE_POKEMON_SIZE K) then
    Ok {| mon_speciesId := 0; mon_species := None; mon_nickname := None;
          mon_level := 0; mon_hp_current := 0; mon_hp_max := 0;
          mon_status := u "NONE"; mon_statusRaw := 0;
          mon_movesRaw := [0; 0; 0; 0];
          mon_moves := [None; None; None; None];
          mon_pp := [0; 0; 0; 0];
          mon_itemId := 0; mon_itemName := None;
          mon_abilityId := 0; mon_ability := None; mon_types := [] |}
  else
    species_id <- _u16le_from raw 0x00 ;;
    moves_raw <- for_each (fun i => _u16le_from raw (0x0C + i * 2)) (range 4) ;;
    pp <- for_each (fun i => _u8_from raw (0x24 + i)) (range 4) ;;
    hp_cur <- _u16le_from raw 0x28 ;;
    level <- _u8_from raw 0x2A ;;
    hp_max <- _u16le_from raw 0x2C ;;
    item_id <- _u16le_from raw 0x2E ;;
    let nickname_raw := slice raw 0x30 (0x30 + 11) in
    ability_id <- _u8_from raw 0x20 ;;
    t1 <- _u8_from raw 0x21 ;;
    t2 <- _u8_from raw 0x22 ;;
    status_raw <- _u32le_from raw 0x4C ;;
    let types :=
      if negb (species_id =? 0) then
        let t1_name := type_name G t1 in
        (if nonempty t1_name then [t1_name] else [])
        ++ (if negb (t2 =? t1) && negb (t2 =? 255) then
              let t2_name := type_name G t2 in
              if nonempty t2_name then [t2_name] else []
            else [])
      else [] in
    species <- (if negb (species_id =? 0) then get_species_name G species_id
                else Ok None) ;;
    let nickname :=
      if negb (species_id =? 0)
      then Some (decode_gba_string nickname_raw 11 false) else None in
    let status := get_status_name_from_mask G status_raw in
    moves <- for_each (fun m => if negb (m =? 0) then get_move_name G m
                                else Ok None) moves_raw ;;
    item_name <- (if negb (item_id =? 0) then get_item_name G item_id
                  else Ok None) ;;
    ability <- (if negb (ability_id =? 0) then get_ability_name G ability_id
                else Ok None) ;;
    Ok {| mon_speciesId := species_id;
          mon_species := species;
          mon_nickname := nickname;
          mon_level := level;
          mon_hp_current := hp_cur;
          mon_hp_max := hp_max;
          mon_status := status;
          mon_statusRaw := status_raw;
          mon_movesRaw := moves_raw;
          mon_moves := moves;
          mon_pp := pp;
          mon_itemId := item_id;
          mon_itemName := item_name;
          mon_abilityId := ability_id;
          mon_ability := ability;
          mon_types := types |}.

Definition _battle_mon_display_name_from_raw (K : Addresses) (G : GameData)
           (mon_raw : bytes) : exc (option pystr) :=
  if negb (nonempty mon_raw) || (len mon_raw <? BATTLE_POKEMON_SIZE K) then Ok None
  else
    species_id <- _u16le_from mon_raw 0x00 ;;
    if species_id =? 0 then Ok None
    else
      let nickname_raw := slice mon_raw 0x30 (0x30 + 11) in
      let nick := decode_gba_string nickname_raw 11 false in
      if nonempty nick then Ok (Some nick)
      else get_species_name G species_id.

(** One entry of the [targets] list. *)
Record battle_target : Type := {
  target_battlerId : Z;
  target_position : pystr;
  target_side : pystr;
  target_flank : pystr;
  target_name : pystr
}.

(** The dictionary returned by [_build_battle_ui_state]; the last three
    keys are present for particular types only. *)
Record battle_ui_state : Type := {
  ui_type : pystr;
  activeBattlerId : Z;
  cursorPosition : Z;
  selectedOption : option pystr;
  options : list pystr;
  layout : pystr;
  cursorBattlerId : option Z;
  targets : option (list battle_target);
  pp : option (list Z)
}.

(** [l[i] if 0 <= i < len(l) else None] *)
Definition item_or_none {A : Type} (l : list A) (i : Z) : option A :=
  if (0 <=? i) && (i <? len l) then nth_error l (Z.to_nat i) else None.

Definition _target_grid_key (t : battle_target) : Z :=
  let row := if pystr_eqb (target_side t) (u "enemy") then 0 else 1 in
  let col := if pystr_eqb (target_flank t) (u "left") then 0 else 1 in
  row * 2 + col.

(** The loop that looks for the target under the cursor. *)
Fixpoint target_cursor_index (multi_cursor : Z) (ts : list (Z * battle_target))
  : Z :=
  match ts with
  | [] => 0
  | (i, t) :: rest =>
    if target_battlerId t =? multi_cursor then i
    else target_cursor_index multi_cursor rest
  end.

(** [battle_mons_raw[off : off + SIZE] if battle_mons_raw else b""] *)
Definition mon_slice (K : Addresses) (battle_mons_raw : bytes) (battler_id : Z)
  : bytes :=
  let off := battler_id * BATTLE_POKEMON_SIZE K in
  if nonempty battle_mons_raw
  then slice battle_mons_raw off (off + BATTLE_POKEMON_SIZE K) else [].

(** The loop that collects the targets of the target-selection screen. *)
Fixpoint collect_targets (K : Addresses) (G : GameData) (absent_flags : Z)
         (positions : list Z) (battle_mons_raw : bytes) (ids : list Z)
  : exc (list battle_target) :=
  match ids with
  | [] => Ok []
  | battler_id :: rest =>
    if negb (Z.land absent_flags (Z.shiftl 1 battler_id) =? 0)
    then collect_targets K G absent_flags positions battle_mons_raw rest
    else
      pos <- (if battler_id <? len positions then getitem positions battler_id
              else Ok battler_id) ;;
      display <- _battle_mon_display_name_from_raw
                   K G (mon_slice K battle_mons_raw battler_id) ;;
      let name := if truthy display
                  then match display with Some n => n | None => [] end
                  else _battle_screen_position_name K pos in
      others <- collect_targets K G absent_flags positions battle_mons_raw rest ;;
      Ok ({| target_battlerId := battler_id;
             target_position := _battle_screen_position_name K pos;
             target_side := _battle_side_from_pos K pos;
             target_flank := _battle_screen_flank_from_pos K pos;
             target_name := name |} :: others)
  end.

Definition _build_battle_ui_state (K : Addresses) (G : GameData)
           (battle_type_flags battlers_count absent_flags : Z)
           (positions : list Z) (battle_mons_raw : bytes)
           (active_battler controller_func action_cursor move_cursor
            multi_cursor : Z) : exc (option battle_ui_state) :=
  let active_battler := Z.land active_battler 0xFF in
  let action_cursor := Z.land action_cursor 0xFF in
  let move_cursor := Z.land move_cursor 0xFF in
  let multi_cursor := Z.land multi_cursor 0xFF in
  if _ptr_matches_any controller_func (BATTLE_PLAYER_HANDLE_YES_NO_INPUT_ADDRS K)
  then
    let options := [u "YES"; u "NO"] in
    let cursor := if multi_cursor =? 0 then 0 else 1 in
    Ok (Some {| ui_type := u "battleYesNo";
                activeBattlerId := active_battler;
                cursorPosition := cursor;
                selectedOption := item_or_none options cursor;
                options := options;
                layout := u "list";
                cursorBattlerId := None; targets := None; pp := None |})
  else if _ptr_matches_any controller_func
                           (BATTLE_HANDLE_INPUT_CHOOSE_TARGET_ADDRS K)
  then
    let max_id :=
      if (0 <? battlers_count) && (battlers_count <=? BATTLE_MAX_BATTLERS K)
      then battlers_count else BATTLE_MAX_BATTLERS K in
    found <- collect_targets K G absent_flags positions battle_mons_raw
                             (range max_id) ;;
    let sorted := sort_by_key _target_grid_key found in
    let cursor_index := target_cursor_index multi_cursor (enumerate sorted) in
    let options :=
      map (fun t => target_position t ++ u ": " ++ target_name t) sorted in
    Ok (Some {| ui_type := u "battleTarget";
                activeBattlerId := active_battler;
                cursorPosition := cursor_index;
                selectedOption := item_or_none options cursor_index;
                options := options;
                layout := u "list";
                cursorBattlerId := Some multi_cursor;
                targets := Some sorted;
                pp := None |})
  else if _ptr_matches_any controller_func
                           (BATTLE_HANDLE_INPUT_CHOOSE_MOVE_ADDRS K)
  then
    mon <- _parse_battle_pokemon K G (mon_slice K battle_mons_raw active_battler) ;;
    let move_names :=
      map (fun m => if truthy m
                    then match m with Some n => n | None => [] end
                    else [0x2014])
          (mon_moves mon) in
    let move_names :=
      move_names ++ repeat [0x2014] (4 - List.length move_names) in
    let pp_list := mon_pp mon ++ repeat 0 (4 - List.length (mon_pp mon)) in
    let cursor :=
      if (0 <=? move_cursor) && (move_cursor <? len move_names)
      then move_cursor else 0 in
    Ok (Some {| ui_type := u "battleMoves";
                activeBattlerId := active_battler;
                cursorPosition := cursor;
                selectedOption := item_or_none move_names cursor;
                options := move_names;
                layout := u "grid2x2";
                cursorBattlerId := None; targets := None;
                pp := Some pp_list |})
  else if _ptr_matches_any controller_func
                           (BATTLE_HANDLE_INPUT_CHOOSE_ACTION_ADDRS K)
  then
    let options :=
      if negb (Z.land battle_type_flags (BATTLE_TYPE_SAFARI K) =? 0)
      then [u "BALL"; u "POKéBLOCK"; u "GO NEAR"; u "RUN"]
      else [u "FIGHT"; u "BAG"; u "POKéMON"; u "RUN"] in
    let cursor :=
      if (0 <=? action_cursor) && (action_cursor <? 4) then action_cursor else 0 in
    Ok (Some {| ui_type := u "battleActions";
                activeBattlerId := active_battler;
                cursorPosition := cursor;
                selectedOption := item_or_none options cursor;
                options := options;
                layout := u "grid2x2";
                cursorBattlerId := None; targets := None; pp := None |})
  else Ok None.

Definition marker : pystr := [0x25BA].

Definition _format_battle_ui_lines (ui_state : battle_ui_state) : list pystr :=
  let opts := options ui_state in
  let cursor := cursorPosition ui_state in
  if pystr_eqb (layout ui_state) (u "grid2x2") && (len opts >=? 4) then
    let opt i := nth i opts [] in
    let top_left := (if cursor =? 0 then marker else u " ") ++ opt 0%nat in
    let top_right := (if cursor =? 1 then marker else []) ++ opt 1%nat in
    let bottom_left := (if cursor =? 2 then marker else u " ") ++ opt 2%nat in
    let bottom_right := (if cursor =? 3 then marker else []) ++ opt 3%nat in
    [rstrip (top_left ++ u " " ++ top_right);
     rstrip (bottom_left ++ u " " ++ bottom_right)]
  else
    map (fun p => (if fst p =? cursor then marker else u " ") ++ snd p)
        (enumerate opts).

Definition _decode_battle_displayed_string (K : Addresses) (io : Mgba)
           (raw : option bytes) : option pystr :=
  try_except
    (raw' <- (if truthy raw
              then Ok (match raw with Some r => r | None => [] end)
              else mgba_read_range_bytes io (GDISPLAYEDSTRINGBATTLE_ADDR K)
                                         (GDISPLAYEDSTRINGBATTLE_SIZE K)) ;;
     if negb (nonempty raw') then Ok None
     else
       let txt := decode_gba_string raw' 200 true in
       Ok (if nonempty txt then Some txt else None))
    None.

(** The two nested loops over the priority lists and the battlers: the
    first battler, in the first list that has one, whose controller
    function is registered in the list. *)
Fixpoint first_registered (funcs : list (Z * Z)) (addr_list : list Z)
  : option (Z * Z) :=
  match funcs with
  | [] => None
  | (battler_id, func) :: rest =>
    if _ptr_matches_any func addr_list then Some (battler_id, func)
    else first_registered rest addr_list
  end.

Fixpoint first_by_priority (priority_lists : list (list Z)) (funcs : list (Z * Z))
  : option (Z * Z) :=
  match priority_lists with
  | [] => None
  | addr_list :: rest =>
    match first_registered funcs addr_list with
    | Some hit => Some hit
    | None => first_by_priority rest funcs
    end
  end.

Definition _detect_battle_ui_state (K : Addresses) (G : GameData) (io : Mgba)
           (battle_type_flags battlers_count absent_flags : Z)
           (positions : list Z) (battle_mons_raw : bytes)
           (active_battler_fallback : Z)
           (controller_funcs_raw action_selection_cursor_raw
            move_selection_cursor_raw : bytes)
           (multi_cursor : Z) (bg0_y : option Z)
           (battle_script_curr_instr_raw battle_communication_raw : option bytes)
  : exc (option battle_ui_state) :=
  let n := BATTLE_MAX_BATTLERS K in
  controller_funcs <-
    (if nonempty controller_funcs_raw && (len controller_funcs_raw >=? n * 4)
     then for_each (fun i => _u32le_from controller_funcs_raw (i * 4)) (range n)
     else Ok (repeat 0 (Z.to_nat n))) ;;
  let action_cursors :=
    if nonempty action_selection_cursor_raw
       && (len action_selection_cursor_raw >=? n)
    then map byte_val (slice action_selection_cursor_raw 0 n)
    else repeat 0 (Z.to_nat n) in
  let move_cursors :=
    if nonempty move_selection_cursor_raw
       && (len move_selection_cursor_raw >=? n)
    then map byte_val (slice move_selection_cursor_raw 0 n)
    else repeat 0 (Z.to_nat n) in
  let priority_lists :=
    [BATTLE_PLAYER_HANDLE_YES_NO_INPUT_ADDRS K;
     BATTLE_HANDLE_INPUT_CHOOSE_TARGET_ADDRS K;
     BATTLE_HANDLE_INPUT_CHOOSE_MOVE_ADDRS K;
     BATTLE_HANDLE_INPUT_CHOOSE_ACTION_ADDRS K] in
  match first_by_priority priority_lists (enumerate controller_funcs) with
  | Some (battler_id, func) =>
    action_cursor <- getitem action_cursors battler_id ;;
    move_cursor <- getitem move_cursors battler_id ;;
    _build_battle_ui_state K G battle_type_flags battlers_count absent_flags
                           positions battle_mons_raw battler_id func
                           action_cursor move_cursor multi_cursor
  | None =>
    let battler_id := Z.land active_battler_fallback 0xFF in
    let battler_id := if battler_id >=? n then 0 else battler_id in
    let script_ptr :=
      try_except
        (if truthy battle_script_curr_instr_raw
            && (len (match battle_script_curr_instr_raw with
                     | Some r => r | None => [] end) >=? 4)
         then _u32le_from (match battle_script_curr_instr_raw with
                           | Some r => r | None => [] end) 0
         else mgba_read32 io (GBATTLESCRIPTCURRINSTR_ADDR K))
        0 in
    let cmd :=
      if negb (script_ptr =? 0)
      then try_except (v <- mgba_read8 io script_ptr ;; Ok (Z.land v 0xFF)) (-1)
      else (-1) in
    if negb (script_ptr =? 0) && in_ints cmd [0x5A; 0x5B; 0x67] then
      let options := [u "YES"; u "NO"] in
      let cursor_raw :=
        try_except
          (if truthy battle_communication_raw
              && (len (match battle_communication_raw with
                       | Some r => r | None => [] end) >? 1)
           then byte_at (match battle_communication_raw with
                         | Some r => r | None => [] end) 1
           else mgba_read8 io (GBATTLECOMMUNICATION_ADDR K + 1))
          0 in
      let cursor := if cursor_raw =? 0 then 0 else 1 in
      Ok (Some {| ui_type := u "battleYesNo";
                  activeBattlerId := battler_id;
                  cursorPosition := cursor;
                  selectedOption := item_or_none options cursor;
                  options := options;
                  layout := u "list";
                  cursorBattlerId := None; targets := None; pp := None |})
    else
      match bg0_y with
      | None => Ok None
      | Some y =>
        if (y =? DISPLAY_HEIGHT K)
           && nonempty (BATTLE_HANDLE_INPUT_CHOOSE_ACTION_ADDRS K) then
          forced <- getitem (BATTLE_HANDLE_INPUT_CHOOSE_ACTION_ADDRS K) 0 ;;
          action_cursor <- getitem action_cursors battler_id ;;
          move_cursor <- getitem move_cursors battler_id ;;
          _build_battle_ui_state K G battle_type_flags battlers_count
                                 absent_flags positions battle_mons_raw
                                 battler_id forced action_cursor move_cursor
                                 multi_cursor
        else if (y =? DISPLAY_HEIGHT K * 2)
                && nonempty (BATTLE_HANDLE_INPUT_CHOOSE_MOVE_ADDRS K) then
          forced <- getitem (BATTLE_HANDLE_INPUT_CHOOSE_MOVE_ADDRS K) 0 ;;
          action_cursor <- getitem action_cursors battler_id ;;
          move_cursor <- getitem move_cursors battler_id ;;
          _build_battle_ui_state K G battle_type_flags battlers_count
                                 absent_flags positions battle_mons_raw
                                 battler_id forced action_cursor move_cursor
                                 multi_cursor
        else Ok None
      end
  end.

(** ** [ui/menus.py]: the title-screen detector *)

(** The dictionary returned by [get_title_screen_press_start_state]. *)
Record title_screen_state : Type := {
  title_type : pystr;
  phase : option pystr
}.

Definition TITLE_SCREEN_PRESS_START_VISIBLE_TEXT : pystr :=
  u "Pokémon FireRed Version" ++ nl ++ u " PRESS START" ++ nl
    ++ u "2004 Game Freak inc.".

Definition title_cb2_addrs (K : Addresses) : list Z :=
  [Z.land (CB2_INIT_TITLE_SCREEN_ADDR K) 0xFFFFFFFE;
   Z.land (CB2_TITLE_SCREEN_ADDR K) 0xFFFFFFFE].

Definition title_task_addrs (K : Addresses) : list Z :=
  [Z.land (TASK_TITLE_SCREEN_PHASE1_ADDR K) 0xFFFFFFFE;
   Z.land (TASK_TITLE_SCREEN_PHASE2_ADDR K) 0xFFFFFFFE;
   Z.land (TASK_TITLE_SCREEN_PHASE3_ADDR K) 0xFFFFFFFE].

(** The [if]/[elif] chain that names the phase of a matching task. *)
Definition title_phase (K : Addresses) (task_func_masked : Z) : option pystr :=
  if task_func_masked =? Z.land (TASK_TITLE_SCREEN_PHASE1_ADDR K) 0xFFFFFFFE
  then Some (u "phase1")
  else if task_func_masked =? Z.land (TASK_TITLE_SCREEN_PHASE2_ADDR K) 0xFFFFFFFE
  then Some (u "phase2")
  else if task_func_masked =? Z.land (TASK_TITLE_SCREEN_PHASE3_ADDR K) 0xFFFFFFFE
  then Some (u "pressStart")
  else None.

(** The task loop of the detector on a captured table: the value is
    [(any_task_active, phase)] when the loop ends. *)
Fixpoint title_scan_raw (K : Addresses) (tasks_raw : bytes) (ids : list Z)
  : exc (bool * option pystr) :=
  match ids with
  | [] => Ok (false, None)
  | i :: rest =>
    let base := i * TASK_SIZE K in
    active <- _u8_from tasks_raw (base + TASK_ISACTIVE_OFFSET K) ;;
    if active =? 0 then title_scan_raw K tasks_raw rest
    else
      func <- _u32le_from tasks_raw (base + TASK_FUNC_OFFSET K) ;;
      let task_func_masked := Z.land func 0xFFFFFFFE in
      if in_ints task_func_masked (title_task_addrs K)
      then Ok (true, title_phase K task_func_masked)
      else title_scan_raw K tasks_raw rest
  end.

(** The same loop on live memory. *)
Fixpoint title_scan_live (K : Addresses) (io : Mgba) (ids : list Z)
  : exc (bool * option pystr) :=
  match ids with
  | [] => Ok (false, None)
  | i :: rest =>
    let task_addr := GTASKS_ADDR K + i * TASK_SIZE K in
    active <- mgba_read8 io (task_addr + TASK_ISACTIVE_OFFSET K) ;;
    if active =? 0 then title_scan_live K io rest
    else
      func <- mgba_read32 io (task_addr + TASK_FUNC_OFFSET K) ;;
      let task_func_masked := Z.land func 0xFFFFFFFE in
      if in_ints task_func_masked (title_task_addrs K)
      then Ok (true, title_phase K task_func_masked)
      else title_scan_live K io rest
  end.

Definition get_title_screen_press_start_state (K : Addresses) (io : Mgba)
           (callback2 : option Z) (tasks_raw : option bytes)
  : option title_screen_state :=
  try_except
    (callback2 <- (match callback2 with
                   | Some c => Ok c
                   | None => mgba_read32 io (GMAIN_ADDR K + GMAIN_CALLBACK2_OFFSET K)
                   end) ;;
     let callback2_masked := Z.land callback2 0xFFFFFFFE in
     scan <- (match tasks_raw with
              | Some raw =>
                if len raw >=? NUM_TASKS K * TASK_SIZE K
                then title_scan_raw K raw (range (NUM_TASKS K))
                else title_scan_live K io (range (NUM_TASKS K))
              | None => title_scan_live K io (range (NUM_TASKS K))
              end) ;;
     let '(any_task_active, phase) := scan in
     if negb (in_ints callback2_masked (title_cb2_addrs K)) && negb any_task_active
     then Ok None
     else Ok (Some {| title_type := u "titleScreen"; phase := phase |}))
    None.

(** ** [ui/dialog.py]: [get_dialog_state]

    The development follows [_compute] in snapshot mode.  Of the detector
    chain it embeds the first detector and the in-battle branch; the
    detectors in between and the closing plain-text branch, which read
    live memory through modules of their own, enter through the
    environment record below. *)

(** [_DialogBuffers]: the three flags and the captured buffers. *)
Record _DialogBuffers : Type := {
  field_locked : bool;
  in_battle : bool;
  callback2 : Z;
  tasks_raw : option bytes;
  text_printers_raw : option bytes;
  gstringvar4_raw : option bytes;
  start_menu_window_id : option Z;
  start_menu_num_actions : option Z;
  start_menu_cursor_pos : option Z;
  start_menu_actions_raw : option bytes;
  smenu_raw : option bytes;
  yesno_window_id : option Z;
  windows_raw : option bytes;
  save_info_window_id : option Z;
  quest_log_state_raw : option bytes;
  quest_log_playback_state_raw : option bytes;
  quest_log_window_ids_raw : option bytes;
  player_pc_item_page_info_raw : option bytes;
  item_storage_menu_ptr_raw : option bytes;
  item_pc_list_menu_state_raw : option bytes;
  poke_storage_ptr_raw : option bytes;
  poke_choose_box_menu_ptr_raw : option bytes;
  poke_in_party_menu_raw : option bytes;
  poke_current_box_option_raw : option bytes;
  poke_deposit_box_id_raw : option bytes;
  poke_cursor_area_raw : option bytes;
  poke_cursor_position_raw : option bytes;
  gdisplayedstringbattle_raw : option bytes;
  battle_script_curr_instr_raw : option bytes;
  battle_communication_raw : option bytes;
  battle_type_flags_raw : option bytes;
  battlers_count_raw : option bytes;
  absent_battlers_raw : option bytes;
  battler_positions_raw : option bytes;
  battle_mons_raw : option bytes;
  active_battler_raw : option bytes;
  battler_controller_funcs_raw : option bytes;
  action_selection_cursor_raw : option bytes;
  move_selection_cursor_raw : option bytes;
  multi_use_player_cursor_raw : option bytes;
  battle_bg0_y_raw : option bytes;
  party_menu_raw : option bytes;
  party_count_raw : option bytes;
  party_internal_ptr_raw : option bytes;
  party_raw : option bytes
}.

(** The [choiceMenu] entry written by the in-battle branch. *)
Record choice_menu : Type := {
  cm_type : pystr;
  cm_cursorPosition : Z;
  cm_selectedOption : option pystr;
  cm_options : list pystr
}.

(** The result dictionary, with the keys the embedded code writes.  The
    remaining keys of [_default_result] are [None] there and are written
    only by the detectors that are not embedded. *)
Record Result : Type := {
  inDialog : bool;
  fieldControlsLocked : bool;
  textPrinterActive : bool;
  menuType : option pystr;
  visibleText : option pystr;
  allPages : option (list pystr);
  currentPage : Z;
  pageCount : Z;
  titleScreen : option title_screen_state;
  choiceMenu : option choice_menu;
  battleUi : option battle_ui_state
}.

Definition _default_result (field_locked window0_printer_active : bool) : Result := {|
  inDialog := false;
  fieldControlsLocked := field_locked;
  textPrinterActive := window0_printer_active;
  menuType := None;
  visibleText := None;
  allPages := None;
  currentPage := 0;
  pageCount := 0;
  titleScreen := None;
  choiceMenu := None;
  battleUi := None
|}.

(** What [get_dialog_state] takes from code that is not embedded. *)
Record Env : Type := {
  (* the emulator behind [memory/mgba.py] *)
  mgba : Mgba;
  (* the name tables *)
  game_data : GameData;
  (* [player/snapshot.py]: [_is_waiting_for_a_or_b_press] applied to
     [_read_global_script_context_native()] *)
  waiting_for_a_or_b_press : exc bool;
  (* [menus._is_new_game_birch_speech_active] *)
  birch_speech_active : option bytes -> bool;
  (* [text/text_printer.py]: [find_active_textprinter_text] on the captured
     printers and text buffers, with [include_inactive_window0] *)
  find_active_textprinter_text :
    option bytes -> option bytes -> option bytes -> bool -> exc (option pystr);
  (* the detectors from the naming screen to the whiteout-recovery overlay:
     the result returned by the first of them that recognises its screen *)
  later_detectors : _DialogBuffers -> Result -> option Result;
  (* the closing plain-text branch *)
  plain_dialog : _DialogBuffers -> Result -> bool -> bool -> exc Result;
  (* [mgba_client.mgba_read_ranges_bytes]: one bulk capture *)
  read_ranges_bytes : list (Z * Z) -> exc (list (option bytes));
  (* the slow path taken when no snapshot is available *)
  slow_fallback : exc Result
}.

(** Functional update of the result dictionary. *)
Definition with_inDialog (r : Result) (v : bool) : Result := {|
  inDialog := v;
  fieldControlsLocked := fieldControlsLocked r;
  textPrinterActive := textPrinterActive r;
  menuType := menuType r;
  visibleText := visibleText r;
  allPages := allPages r;
  currentPage := currentPage r;
  pageCount := pageCount r;
  titleScreen := titleScreen r;
  choiceMenu := choiceMenu r;
  battleUi := battleUi r
|}.

Definition with_menuType (r : Result) (menu_type : pystr) : Result := {|
  inDialog := inDialog r;
  fieldControlsLocked := fieldControlsLocked r;
  textPrinterActive := textPrinterActive r;
  menuType := Some menu_type;
  visibleText := visibleText r;
  allPages := allPages r;
  currentPage := currentPage r;
  pageCount := pageCount r;
  titleScreen := titleScreen r;
  choiceMenu := choiceMenu r;
  battleUi := battleUi r
|}.

Definition with_visibleText (r : Result) (text : pystr) : Result := {|
  inDialog := inDialog r;
  fieldControlsLocked := fieldControlsLocked r;
  textPrinterActive := textPrinterActive r;
  menuType := menuType r;
  visibleText := Some text;
  allPages := allPages r;
  currentPage := currentPage r;
  pageCount := pageCount r;
  titleScreen := titleScreen r;
  choiceMenu := choiceMenu r;
  battleUi := battleUi r
|}.

Definition with_titleScreen (r : Result) (t : title_screen_state) : Result := {|
  inDialog := inDialog r;
  fieldControlsLocked := fieldControlsLocked r;
  textPrinterActive := textPrinterActive r;
  menuType := menuType r;
  visibleText := visibleText r;
  allPages := allPages r;
  currentPage := currentPage r;
  pageCount := pageCount r;
  titleScreen := Some t;
  choiceMenu := choiceMenu r;
  battleUi := battleUi r
|}.

Definition with_battleUi (r : Result) (s : battle_ui_state) : Result := {|
  inDialog := inDialog r;
  fieldControlsLocked := fieldControlsLocked r;
  textPrinterActive := textPrinterActive r;
  menuType := menuType r;
  visibleText := visibleText r;
  allPages := allPages r;
  currentPage := currentPage r;
  pageCount := pageCount r;
  titleScreen := titleScreen r;
  choiceMenu := Some {| cm_type := ui_type s;
                        cm_cursorPosition := cursorPosition s;
                        cm_selectedOption := selectedOption s;
                        cm_options := options s |};
  battleUi := Some s
|}.

(** [_save_info_window_visible] *)
Definition _save_info_window_visible (K : Addresses) (io : Mgba)
           (buffers : _DialogBuffers) : bool :=
  match (match save_info_window_id buffers with
         | Some w => Ok w
         | None => mgba_read8 io (SSAVE_INFO_WINDOWID_ADDR K)
         end) with
  | Raise _ => false
  | Ok wid => negb (wid =? WINDOW_NONE K) && (0 <=? wid) && (wid <? 32)
  end.

(** The two loops of [_any_text_printer_active]: [true] as soon as a
    printer slot is active. *)
Fixpoint any_printer_active_raw (K : Addresses) (raw : bytes) (ids : list Z)
  : exc bool :=
  match ids with
  | [] => Ok false
  | i :: rest =>
    let off := i * TEXTPRINTER_SIZE K + TEXTPRINTER_ACTIVE_OFFSET K in
    v <- _u8_from raw off ;;
    if negb (v =? 0) then Ok true else any_printer_active_raw K raw rest
  end.

Fixpoint any_printer_active_live (K : Addresses) (io : Mgba) (ids : list Z)
  : exc bool :=
  match ids with
  | [] => Ok false
  | i :: rest =>
    let printer_addr := STEXTPRINTERS_ADDR K + i * TEXTPRINTER_SIZE K in
    v <- mgba_read8 io (printer_addr + TEXTPRINTER_ACTIVE_OFFSET K) ;;
    if negb (v =? 0) then Ok true else any_printer_active_live K io rest
  end.

Definition _any_text_printer_active (K : Addresses) (io : Mgba)
           (buffers : _DialogBuffers) : bool :=
  try_except
    (match text_printers_raw buffers with
     | Some raw =>
       if len raw >=? 32 * TEXTPRINTER_SIZE K
       then any_printer_active_raw K raw (range 32)
       else any_printer_active_live K io (range 32)
     | None => any_printer_active_live K io (range 32)
     end)
    false.

(** The condition of the fast path. *)
Definition fast_path_guard (K : Addresses) (io : Mgba) (buffers : _DialogBuffers)
           (callback2 : Z) : bool :=
  let cb2_masked := Z.land callback2 0xFFFFFFFE in
  let overworld_cb2 :=
    if negb (CB2_OVERWORLD_ADDR K =? 0)
    then Z.land (CB2_OVERWORLD_ADDR K) 0xFFFFFFFE else 0 in
  let start_menu_open :=
    match start_menu_window_id buffers with
    | Some w => negb (w =? WINDOW_NONE K)
    | None => false
    end in
  let yesno_open :=
    match yesno_window_id buffers with
    | Some w => negb (w =? WINDOW_NONE K)
    | None => false
    end in
  negb (in_battle buffers)
  && negb (field_locked buffers)
  && negb (overworld_cb2 =? 0)
  && (cb2_masked =? overworld_cb2)
  && negb start_menu_open
  && negb yesno_open
  && negb (_save_info_window_visible K io buffers)
  && negb (_any_text_printer_active K io buffers).

(** [X if raw and len(raw) >= n else <live read>]: the captured bytes when
    they are usable. *)
Definition usable (raw : option bytes) (n : Z) : option bytes :=
  match raw with
  | Some r => if nonempty r && (len r >=? n) then Some r else None
  | None => None
  end.

(** The in-battle branch of [_compute]. *)
Definition in_battle_branch (K : Addresses) (env : Env) (buffers : _DialogBuffers)
           (result : Result) : exc Result :=
  let io := mgba env in
  scanned <- find_active_textprinter_text env
               (text_printers_raw buffers) (gstringvar4_raw buffers)
               (gdisplayedstringbattle_raw buffers) true ;;
  let battle_text :=
    if truthy scanned then scanned
    else _decode_battle_displayed_string K io (gdisplayedstringbattle_raw buffers) in
  battle_type_flags <-
    (match usable (battle_type_flags_raw buffers) 4 with
     | Some r => _u32le_from r 0
     | None => mgba_read32 io (GBATTLETYPEFLAGS_ADDR K)
     end) ;;
  battlers_count <-
    (match usable (battlers_count_raw buffers) 1 with
     | Some r => byte_at r 0
     | None => mgba_read8 io (GBATTLERSCOUNT_ADDR K)
     end) ;;
  absent_flags <-
    (match usable (absent_battlers_raw buffers) 1 with
     | Some r => byte_at r 0
     | None => mgba_read8 io (GABSENTBATTLERFLAGS_ADDR K)
     end) ;;
  positions <-
    (match usable (battler_positions_raw buffers) (BATTLE_MAX_BATTLERS K) with
     | Some r => Ok (map byte_val (slice r 0 (BATTLE_MAX_BATTLERS K)))
     | None =>
       r <- mgba_read_range_bytes io (GBATTLERPOSITIONS_ADDR K)
                                  (BATTLE_MAX_BATTLERS K) ;;
       Ok (map byte_val r)
     end) ;;
  mons_raw <-
    (match usable (battle_mons_raw buffers) (GBATTLEMONS_SIZE K) with
     | Some r => Ok r
     | None => mgba_read_range_bytes io (GBATTLEMONS_ADDR K) (GBATTLEMONS_SIZE K)
     end) ;;
  active_battler <-
    (match usable (active_battler_raw buffers) 1 with
     | Some r => byte_at r 0
     | None => mgba_read8 io (GACTIVEBATTLER_ADDR K)
     end) ;;
  controller_funcs_raw <-
    (match usable (battler_controller_funcs_raw buffers)
                  (BATTLE_MAX_BATTLERS K * 4) with
     | Some r => Ok r
     | None => mgba_read_range_bytes io (GBATTLERCONTROLLERFUNCS_ADDR K)
                                     (BATTLE_MAX_BATTLERS K * 4)
     end) ;;
  action_cursors <-
    (match usable (action_selection_cursor_raw buffers) (BATTLE_MAX_BATTLERS K) with
     | Some r => Ok r
     | None => mgba_read_range_bytes io (GACTIONSELECTIONCURSOR_ADDR K)
                                     (BATTLE_MAX_BATTLERS K)
     end) ;;
  move_cursors <-
    (match usable (move_selection_cursor_raw buffers) (BATTLE_MAX_BATTLERS K) with
     | Some r => Ok r
     | None => mgba_read_range_bytes io (GMOVESELECTIONCURSOR_ADDR K)
                                     (BATTLE_MAX_BATTLERS K)
     end) ;;
  multi_cursor <-
    (match usable (multi_use_player_cursor_raw buffers) 1 with
     | Some r => byte_at r 0
     | None => mgba_read8 io (GMULTIUSEPLAYERCURSOR_ADDR K)
     end) ;;
  bg0_y <-
    (match usable (battle_bg0_y_raw buffers) 2 with
     | Some r => _u16le_from r 0
     | None => mgba_read16 io (GBATTLE_BG0_Y_ADDR K)
     end) ;;
  ui_state <- _detect_battle_ui_state
                K (game_data env) io battle_type_flags battlers_count
                absent_flags positions mons_raw active_battler
                controller_funcs_raw action_cursors move_cursors multi_cursor
                (Some bg0_y) (battle_script_curr_instr_raw buffers)
                (battle_communication_raw buffers) ;;
  let lines :=
    match battle_text with
    | Some t => if nonempty t then [t] else []
    | None => []
    end in
  let '(result, lines) :=
    match ui_state with
    | Some s =>
      let result := with_battleUi result s in
      let result := with_menuType result (ui_type s) in
      let menu_lines := _format_battle_ui_lines s in
      (result,
       if nonempty menu_lines
       then (if nonempty lines then lines ++ [[]] else lines) ++ menu_lines
       else lines)
    | None => (with_menuType result (u "battle"), lines)
    end in
  Ok (if nonempty lines then with_visibleText result (join nl lines) else result).

(** The detector chain, from the title screen on. *)
Definition detector_chain (K : Addresses) (env : Env) (buffers : _DialogBuffers)
           (callback2 : Z) (in_dialog : bool) (result : Result) : exc Result :=
  let birch := birch_speech_active env (tasks_raw buffers) in
  let dialog_read_safe := in_dialog || birch in
  match get_title_screen_press_start_state K (mgba env) (Some callback2)
                                           (tasks_raw buffers) with
  | Some title_screen =>
    let result := with_inDialog result true in
    let result := with_menuType result (u "titleScreen") in
    let result := with_titleScreen result title_screen in
    Ok (with_visibleText result TITLE_SCREEN_PRESS_START_VISIBLE_TEXT)
  | None =>
    match later_detectors env buffers result with
    | Some recognised => Ok recognised
    | None =>
      if in_battle buffers then in_battle_branch K env buffers result
      else plain_dialog env buffers result in_dialog dialog_read_safe
    end
  end.

(** What [_compute] does before the fast path: the masked callback, the
    state of the window-0 printer, the default record, [in_dialog]. *)
Definition window0_printer_active (K : Addresses) (io : Mgba)
           (buffers : _DialogBuffers) : bool :=
  try_except
    (v <- (match text_printers_raw buffers with
           | Some raw => _u8_from raw (TEXTPRINTER_ACTIVE_OFFSET K)
           | None => mgba_read8 io (STEXTPRINTERS_ADDR K
                                    + TEXTPRINTER_ACTIVE_OFFSET K)
           end) ;;
     Ok (negb (v =? 0)))
    false.

Definition compute_in_dialog (K : Addresses) (env : Env)
           (buffers : _DialogBuffers) : exc bool :=
  if in_battle buffers then Ok true
  else if field_locked buffers then
    if window0_printer_active K (mgba env) buffers then Ok true
    else waiting_for_a_or_b_press env
  else Ok false.

Definition _compute (K : Addresses) (env : Env) (buffers : _DialogBuffers)
  : exc Result :=
  let callback2 := Z.land (callback2 buffers) 0xFFFFFFFF in
  let result :=
    _default_result (field_locked buffers)
                    (window0_printer_active K (mgba env) buffers) in
  in_dialog <- compute_in_dialog K env buffers ;;
  let result := with_inDialog result in_dialog in
  if fast_path_guard K (mgba env) buffers callback2 then Ok result
  else detector_chain K env buffers callback2 in_dialog result.

(** [_DIALOG_SNAPSHOT_RANGES] *)
Definition _DIALOG_SNAPSHOT_RANGES (K : Addresses) : list (Z * Z) :=
  [(SCRIPT_LOCK_FIELD_CONTROLS K, 1);
   (IN_BATTLE_BIT_ADDR K, 1);
   (GMAIN_ADDR K + GMAIN_CALLBACK2_OFFSET K, 4);
   (GTASKS_ADDR K, NUM_TASKS K * TASK_SIZE K);
   (STEXTPRINTERS_ADDR K, 32 * TEXTPRINTER_SIZE K);
   (GSTRINGVAR4_ADDR K, 500);
   (START_MENU_WINDOW_ID_ADDR K, 1);
   (START_MENU_NUM_ACTIONS_ADDR K, 1);
   (START_MENU_CURSOR_POS_ADDR K, 1);
   (START_MENU_ACTIONS_ADDR K, 9);
   (SMENU_ADDR K, 0x0C);
   (SYESNO_WINDOWID_ADDR K, 1);
   (GWINDOWS_ADDR K, 32 * WINDOW_SIZE K);
   (SSAVE_INFO_WINDOWID_ADDR K, 1);
   (GQUEST_LOG_STATE_ADDR K, 1);
   (GQUEST_LOG_PLAYBACK_STATE_ADDR K, 1);
   (SQUEST_LOG_WINDOW_IDS_ADDR K, QUEST_LOG_WINDOW_COUNT K);
   (GPLAYER_PC_ITEM_PAGE_INFO_ADDR K, 0x0C);
   (SITEM_STORAGE_MENU_PTR_ADDR K, 4);
   (SITEM_STORAGE_LIST_MENU_STATE_ADDR K, 0x0C);
   (SPOKE_STORAGE_CHOOSE_BOX_MENU_PTR_ADDR K, 0x80);
   (GDISPLAYEDSTRINGBATTLE_ADDR K, GDISPLAYEDSTRINGBATTLE_SIZE K);
   (GBATTLESCRIPTCURRINSTR_ADDR K, 4);
   (GBATTLECOMMUNICATION_ADDR K, GBATTLECOMMUNICATION_SIZE K);
   (GBATTLETYPEFLAGS_ADDR K, 4);
   (GBATTLERSCOUNT_ADDR K, 1);
   (GABSENTBATTLERFLAGS_ADDR K, 1);
   (GBATTLERPOSITIONS_ADDR K, BATTLE_MAX_BATTLERS K);
   (GBATTLEMONS_ADDR K, GBATTLEMONS_SIZE K);
   (GACTIVEBATTLER_ADDR K, 1);
   (GBATTLERCONTROLLERFUNCS_ADDR K, BATTLE_MAX_BATTLERS K * 4);
   (GACTIONSELECTIONCURSOR_ADDR K, BATTLE_MAX_BATTLERS K);
   (GMOVESELECTIONCURSOR_ADDR K, BATTLE_MAX_BATTLERS K);
   (GMULTIUSEPLAYERCURSOR_ADDR K, 1);
   (GBATTLE_BG0_Y_ADDR K, 2);
   (GPARTY_MENU_ADDR K, 0x14);
   (GPLAYER_PARTY_COUNT_ADDR K, 1);
   (SPARTY_MENU_INTERNAL_PTR_ADDR K, 4);
   (PARTY_BASE_ADDR K, PARTY_SIZE K * POKEMON_DATA_SIZE K)].

(** [_safe_u8], [_safe_u32], [_safe_bytes]: [None] when the read raises. *)
Definition _safe {A : Type} (e : exc A) : option A :=
  match e with Ok v => Some v | Raise _ => None end.

(** A flag of [_read_snapshot_buffers]: from the snapshot, else from the
    emulator, else [0]. *)
Definition snapshot_or_live (snap live : exc Z) : Z :=
  match _safe snap with
  | Some v => v
  | None => try_except live 0
  end.

Definition _read_snapshot_buffers (K : Addresses) (io : Mgba)
           (reader : SnapshotMemoryReader) : _DialogBuffers :=
  let _safe_u8 addr := _safe (Snapshot.u8 reader addr) in
  let _safe_bytes addr size := _safe (Snapshot.read_bytes reader addr size) in
  let field_locked_raw :=
    snapshot_or_live (Snapshot.u8 reader (SCRIPT_LOCK_FIELD_CONTROLS K))
                     (mgba_read8 io (SCRIPT_LOCK_FIELD_CONTROLS K)) in
  let in_battle_raw :=
    snapshot_or_live (Snapshot.u8 reader (IN_BATTLE_BIT_ADDR K))
                     (mgba_read8 io (IN_BATTLE_BIT_ADDR K)) in
  let callback2_raw :=
    snapshot_or_live
      (Snapshot.u32 reader (GMAIN_ADDR K + GMAIN_CALLBACK2_OFFSET K))
      (mgba_read32 io (GMAIN_ADDR K + GMAIN_CALLBACK2_OFFSET K)) in
  {| field_locked := negb (field_locked_raw =? 0);
     in_battle := negb (Z.land in_battle_raw (IN_BATTLE_BITMASK K) =? 0);
     callback2 := callback2_raw;
     tasks_raw := _safe_bytes (GTASKS_ADDR K) (NUM_TASKS K * TASK_SIZE K);
     text_printers_raw :=
       _safe_bytes (STEXTPRINTERS_ADDR K) (32 * TEXTPRINTER_SIZE K);
     gstringvar4_raw := _safe_bytes (GSTRINGVAR4_ADDR K) 500;
     start_menu_window_id := _safe_u8 (START_MENU_WINDOW_ID_ADDR K);
     start_menu_num_actions := _safe_u8 (START_MENU_NUM_ACTIONS_ADDR K);
     start_menu_cursor_pos := _safe_u8 (START_MENU_CURSOR_POS_ADDR K);
     start_menu_actions_raw := _safe_bytes (START_MENU_ACTIONS_ADDR K) 9;
     smenu_raw := _safe_bytes (SMENU_ADDR K) 0x0C;
     yesno_window_id := _safe_u8 (SYESNO_WINDOWID_ADDR K);
     windows_raw := _safe_bytes (GWINDOWS_ADDR K) (32 * WINDOW_SIZE K);
     save_info_window_id := _safe_u8 (SSAVE_INFO_WINDOWID_ADDR K);
     quest_log_state_raw := _safe_bytes (GQUEST_LOG_STATE_ADDR K) 1;
     quest_log_playback_state_raw :=
       _safe_bytes (GQUEST_LOG_PLAYBACK_STATE_ADDR K) 1;
     quest_log_window_ids_raw :=
       _safe_bytes (SQUEST_LOG_WINDOW_IDS_ADDR K) (QUEST_LOG_WINDOW_COUNT K);
     player_pc_item_page_info_raw :=
       _safe_bytes (GPLAYER_PC_ITEM_PAGE_INFO_ADDR K) 0x0C;
     item_storage_menu_ptr_raw :=
       _safe_bytes (SITEM_STORAGE_MENU_PTR_ADDR K) 4;
     item_pc_list_menu_state_raw :=
       _safe_bytes (SITEM_STORAGE_LIST_MENU_STATE_ADDR K) 0x0C;
     poke_storage_ptr_raw := _safe_bytes (SPOKE_STORAGE_PTR_ADDR K) 4;
     poke_choose_box_menu_ptr_raw :=
       _safe_bytes (SPOKE_STORAGE_CHOOSE_BOX_MENU_PTR_ADDR K) 4;
     poke_in_party_menu_raw :=
       _safe_bytes (SPOKE_STORAGE_IN_PARTY_MENU_ADDR K) 1;
     poke_current_box_option_raw :=
       _safe_bytes (SPOKE_STORAGE_CURRENT_BOX_OPTION_ADDR K) 1;
     poke_deposit_box_id_raw :=
       _safe_bytes (SPOKE_STORAGE_DEPOSIT_BOX_ID_ADDR K) 1;
     poke_cursor_area_raw := _safe_bytes (SPOKE_STORAGE_CURSOR_AREA_ADDR K) 1;
     poke_cursor_position_raw :=
       _safe_bytes (SPOKE_STORAGE_CURSOR_POSITION_ADDR K) 1;
     gdisplayedstringbattle_raw :=
       _safe_bytes (GDISPLAYEDSTRINGBATTLE_ADDR K) (GDISPLAYEDSTRINGBATTLE_SIZE K);
     battle_script_curr_instr_raw :=
       _safe_bytes (GBATTLESCRIPTCURRINSTR_ADDR K) 4;
     battle_communication_raw :=
       _safe_bytes (GBATTLECOMMUNICATION_ADDR K) (GBATTLECOMMUNICATION_SIZE K);
     battle_type_flags_raw := _safe_bytes (GBATTLETYPEFLAGS_ADDR K) 4;
     battlers_count_raw := _safe_bytes (GBATTLERSCOUNT_ADDR K) 1;
     absent_battlers_raw := _safe_bytes (GABSENTBATTLERFLAGS_ADDR K) 1;
     battler_positions_raw :=
       _safe_bytes (GBATTLERPOSITIONS_ADDR K) (BATTLE_MAX_BATTLERS K);
     battle_mons_raw := _safe_bytes (GBATTLEMONS_ADDR K) (GBATTLEMONS_SIZE K);
     active_battler_raw := _safe_bytes (GACTIVEBATTLER_ADDR K) 1;
     battler_controller_funcs_raw :=
       _safe_bytes (GBATTLERCONTROLLERFUNCS_ADDR K) (BATTLE_MAX_BATTLERS K * 4);
     action_selection_cursor_raw :=
       _safe_bytes (GACTIONSELECTIONCURSOR_ADDR K) (BATTLE_MAX_BATTLERS K);
     move_selection_cursor_raw :=
       _safe_bytes (GMOVESELECTIONCURSOR_ADDR K) (BATTLE_MAX_BATTLERS K);
     multi_use_player_cursor_raw :=
       _safe_bytes (GMULTIUSEPLAYERCURSOR_ADDR K) 1;
     battle_bg0_y_raw := _safe_bytes (GBATTLE_BG0_Y_ADDR K) 2;
     party_menu_raw := _safe_bytes (GPARTY_MENU_ADDR K) 0x14;
     party_count_raw := _safe_bytes (GPLAYER_PARTY_COUNT_ADDR K) 1;
     party_internal_ptr_raw := _safe_bytes (SPARTY_MENU_INTERNAL_PTR_ADDR K) 4;
     party_raw :=
       _safe_bytes (PARTY_BASE_ADDR K) (PARTY_SIZE K * POKEMON_DATA_SIZE K) |}.

(** The buffers [get_dialog_state] reads from a snapshot that has a chunk
    for every range. *)
Definition snapshot_buffers (K : Addresses) (io : Mgba)
           (snapshot : list (option bytes)) : _DialogBuffers :=
  _read_snapshot_buffers
    K io
    (Snapshot.from_ranges
       (_DIALOG_SNAPSHOT_RANGES K)
       (firstn (List.length (_DIALOG_SNAPSHOT_RANGES K)) snapshot)).

Definition get_dialog_state (K : Addresses) (env : Env)
           (snapshot : option (list (option bytes))) : exc Result :=
  let snapshot :=
    match snapshot with
    | Some s => Some s
    | None => _safe (read_ranges_bytes env (_DIALOG_SNAPSHOT_RANGES K))
    end in
  match snapshot with
  | Some s =>
    if len s >=? len (_DIALOG_SNAPSHOT_RANGES K)
    then _compute K env (snapshot_buffers K (mgba env) s)
    else slow_fallback env
  | None => slow_fallback env
  end.
(** ** Specification vocabulary *)

(** A total view of [raw[i]], used to state what the readers return. *)
Definition peek (raw : bytes) (i : Z) : Z := nth (Z.to_nat i) (map byte_val raw) 0.

Definition out_of_bounds (raw : bytes) (offset width : Z) : bool :=
  (offset <? 0) || (len raw <? offset + width).


(** Bytes at which the decoder neither stops nor skips an operand. *)
Definition plain_byte (stop_at_prompt : bool) (b : byte) : bool :=
  negb (Byte.eqb b TEXT_TERMINATOR)
  && negb (stop_at_prompt && in_bytes b PROMPT_CHARS)
  && negb (Byte.eqb b xfc || Byte.eqb b xfd).

(** The characters of the mapped bytes of a run, unmapped bytes left out. *)
Definition mapped_chars (run : bytes) : list pystr :=
  flat_map (fun b => match GBA_CHARMAP b with Some c => [c] | None => [] end) run.

(** The segment a snapshot lookup lands on: the last one, in the order of
    the list, whose start is not above the address. *)
Fixpoint selected_segment (segs : list SnapshotSegment) (addr : Z)
  : option SnapshotSegment :=
  match segs with
  | [] => None
  | s :: rest =>
    match selected_segment rest addr with
    | Some t => Some t
    | None => if start s <=? addr then Some s else None
    end
  end.

(** [addr, addr + size) lies inside segment [s]. *)
Definition contains (s : SnapshotSegment) (addr size : Z) : Prop :=
  start s <= addr /\ addr + size <= seg_end s.

(** The lookup of a snapshot covers [addr, addr + size). *)
Definition covered (self : SnapshotMemoryReader) (addr size : Z) : Prop :=
  exists s, selected_segment (segments self) addr = Some s /\ contains s addr size.

(** Sorted by start address. *)
Fixpoint sorted_by_start (segs : list SnapshotSegment) : Prop :=
  match segs with
  | [] => True
  | s :: rest => (forall t, In t rest -> start s <= start t) /\ sorted_by_start rest
  end.

(** The readers built by [from_ranges] satisfy this. *)
Definition well_formed (self : SnapshotMemoryReader) : Prop :=
  _starts self = map start (segments self) /\ sorted_by_start (segments self).

(** Non-empty segments that do not overlap, in start order. *)
Fixpoint separated (segs : list SnapshotSegment) : Prop :=
  match segs with
  | [] => True
  | s :: rest =>
    0 < len (data s)
    /\ (forall t, In t rest -> seg_end s <= start t)
    /\ separated rest
  end.

(** Every segment holds the bytes the memory has at its addresses. *)
Definition backed_by (mem : memory) (self : SnapshotMemoryReader) : Prop :=
  forall s, In s (segments self) ->
            data s = mem_range mem (start s) (len (data s)).

(** A default segment for total list access in statements. *)
Definition empty_segment : SnapshotSegment := {| start := 0; data := [] |}.

(** What [_segment_for] computes, stated without the binary search. *)
Definition lookup_result (self : SnapshotMemoryReader) (addr size : Z)
  : exc (SnapshotSegment * Z) :=
  if size <=? 0 then Raise KeyError
  else match selected_segment (segments self) addr with
       | None => Raise KeyError
       | Some seg =>
         if addr + size >? seg_end seg then Raise KeyError
         else Ok (seg, addr - start seg)
       end.

(** A read that succeeds exactly when the lookup covers the range, and
    fails with the snapshot reader's [KeyError] otherwise. *)
Definition covered_or_KeyError {A : Type} (res : exc A)
           (self : SnapshotMemoryReader) (addr size : Z) : Prop :=
  ((exists v, res = Ok v) <-> 0 < size /\ covered self addr size)
  /\ (forall e, res = Raise e -> e = KeyError).

(** The little-endian value of the bytes at an address. *)
Definition mem_u16 (mem : memory) (a : Z) : Z :=
  Z.lor (byte_val (mem a)) (Z.shiftl (byte_val (mem (a + 1))) 8).

Definition mem_u32 (mem : memory) (a : Z) : Z :=
  Z.lor (Z.lor (Z.lor (byte_val (mem a))
                      (Z.shiftl (byte_val (mem (a + 1))) 8))
               (Z.shiftl (byte_val (mem (a + 2))) 16))
        (Z.shiftl (byte_val (mem (a + 3))) 24).

(** An entry of the parallel lists that [from_ranges] keeps: a non-zero
    address paired with a [bytes] chunk. *)
Definition kept_entry (ranges : list (Z * Z)) (chunks : list (option bytes))
           (s : SnapshotSegment) : Prop :=
  start s <> 0
  /\ exists (k : nat) (n : Z),
       nth_error ranges k = Some (start s, n)
       /\ nth_error chunks k = Some (Some (data s)).

(** [clamp(x, lo, hi)] *)
Definition clamp (x lo hi : Z) : Z := Z.max lo (Z.min x hi).

(** Flipping the tag bit of a code pointer. *)
Definition flip_tag (ptr : Z) : Z := Z.lxor ptr 1.

(** Two captured task tables that agree on every task's active flag and on
    every task's function pointer up to the tag bit. *)
Definition same_tasks_up_to_tag (K : Addresses) (raw raw' : bytes) : Prop :=
  len raw = len raw'
  /\ forall i,
       _u8_from raw (i * TASK_SIZE K + TASK_ISACTIVE_OFFSET K)
       = _u8_from raw' (i * TASK_SIZE K + TASK_ISACTIVE_OFFSET K)
       /\ (exists f f',
              _u32le_from raw (i * TASK_SIZE K + TASK_FUNC_OFFSET K) = Ok f
              /\ _u32le_from raw' (i * TASK_SIZE K + TASK_FUNC_OFFSET K) = Ok f'
              /\ (f' = f \/ f' = flip_tag f)).



(** Two live memories that agree on what the task finders read: every
    task's active flag, and every task's function pointer up to the tag
    bit (a read that fails, fails alike in both). *)
Definition same_live_tasks_up_to_tag (K : Addresses) (io io' : Mgba) : Prop :=
  forall i,
    mgba_read8 io' (GTASKS_ADDR K + i * TASK_SIZE K + TASK_ISACTIVE_OFFSET K)
    = mgba_read8 io (GTASKS_ADDR K + i * TASK_SIZE K + TASK_ISACTIVE_OFFSET K)
    /\ match mgba_read32 io (GTASKS_ADDR K + i * TASK_SIZE K
                             + TASK_FUNC_OFFSET K),
             mgba_read32 io' (GTASKS_ADDR K + i * TASK_SIZE K
                              + TASK_FUNC_OFFSET K) with
       | Ok f, Ok f' => f' = f \/ f' = flip_tag f
       | Raise e, Raise e' => e' = e
       | _, _ => False
       end.


(** The values the tolerant readers return. *)
Definition u8_value (raw : bytes) (offset : Z) : Z :=
  if out_of_bounds raw offset 1 then 0 else peek raw offset.

Definition u32_value (raw : bytes) (offset : Z) : Z :=
  if out_of_bounds raw offset 4 then 0
  else Z.lor (Z.lor (Z.lor (peek raw offset)
                           (Z.shiftl (peek raw (offset + 1)) 8))
                    (Z.shiftl (peek raw (offset + 2)) 16))
             (Z.shiftl (peek raw (offset + 3)) 24).

(** The 'none' record: what [_compute] holds when it reaches the fast
    path outside battle and with the field controls free. *)
Definition none_record (K : Addresses) (env : Env) (buffers : _DialogBuffers)
  : Result :=
  _default_result false (window0_printer_active K (mgba env) buffers).











(** A list of integers in non-decreasing order, by index. *)
Definition sorted_ints (a : list Z) : Prop :=
  forall j k, 0 <= j -> j <= k -> k < len a ->
              nth (Z.to_nat j) a 0 <= nth (Z.to_nat k) a 0.

(** The snapshot [get_dialog_state] takes of a memory: one bulk capture of
    its ranges. *)
Definition dialog_snapshot (K : Addresses) (mem : memory) : list (option bytes) :=
  capture mem (_DIALOG_SNAPSHOT_RANGES K).

(** ** Sample data *)

(** A memory whose byte at an address is the low eight bits of the
    address. *)
Definition sample_memory : memory :=
  fun a => match Byte.of_N (Z.to_N (a mod 256)) with
           | Some b => b
           | None => x00
           end.

(** Two captured ranges, the second inside the first. *)
Definition overlapping_ranges : list (Z * Z) := [(0x100, 16); (0x108, 4)].

Definition overlapping_snapshot : SnapshotMemoryReader :=
  Snapshot.from_ranges overlapping_ranges (capture sample_memory overlapping_ranges).

(** The same ranges when the bulk read returned no bytes for the second. *)
Definition shadowed_snapshot : SnapshotMemoryReader :=
  Snapshot.from_ranges overlapping_ranges
    [Some (mem_range sample_memory 0x100 16); Some []].

(** Disjoint ranges, given out of order, with a zero address and an entry
    that is not a [bytes] object among them. *)
Definition sample_ranges : list (Z * Z) :=
  [(0x200, 8); (0, 4); (0x100, 16); (0x300, 2)].

Definition sample_snapshot : SnapshotMemoryReader :=
  Snapshot.from_ranges sample_ranges
    [Some (mem_range sample_memory 0x200 8);
     Some (mem_range sample_memory 0 4);
     Some (mem_range sample_memory 0x100 16);
     None].

(** A sample address table: the structure sizes and offsets of the
    decompiled game, with sample addresses in the ROM and RAM ranges. *)
Definition sample_addresses : Addresses := {|
  GTASKS_ADDR := 0x03005090;
  NUM_TASKS := 16;
  TASK_SIZE := 40;
  TASK_FUNC_OFFSET := 0;
  TASK_ISACTIVE_OFFSET := 4;
  TASK_DATA_OFFSET := 8;
  GMAIN_ADDR := 0x030030F0;
  GMAIN_CALLBACK2_OFFSET := 4;
  CB2_OVERWORLD_ADDR := 0x080565B5;
  CB2_INIT_TITLE_SCREEN_ADDR := 0x08078915;
  CB2_TITLE_SCREEN_ADDR := 0x08078BED;
  TASK_TITLE_SCREEN_PHASE1_ADDR := 0x08078C25;
  TASK_TITLE_SCREEN_PHASE2_ADDR := 0x08078D35;
  TASK_TITLE_SCREEN_PHASE3_ADDR := 0x08078DA5;
  WINDOW_NONE := 0xFF;
  STEXTPRINTERS_ADDR := 0x02002F20;
  TEXTPRINTER_SIZE := 0x24;
  TEXTPRINTER_ACTIVE_OFFSET := 0x1B;
  SSAVE_INFO_WINDOWID_ADDR := 0x02037101;
  BATTLE_MAX_BATTLERS := 4;
  BATTLE_POKEMON_SIZE := 0x58;
  BATTLE_TYPE_SAFARI := 0x80;
  BATTLER_BIT_SIDE := 1;
  BATTLER_BIT_FLANK := 2;
  DISPLAY_HEIGHT := 160;
  BATTLE_PLAYER_HANDLE_YES_NO_INPUT_ADDRS := [0x0802E439];
  BATTLE_HANDLE_INPUT_CHOOSE_TARGET_ADDRS := [0x0802E675];
  BATTLE_HANDLE_INPUT_CHOOSE_MOVE_ADDRS := [0x0802EA11];
  BATTLE_HANDLE_INPUT_CHOOSE_ACTION_ADDRS := [0x0802E3B5];
  GDISPLAYEDSTRINGBATTLE_ADDR := 0x0202298C;
  GDISPLAYEDSTRINGBATTLE_SIZE := 300;
  GBATTLESCRIPTCURRINSTR_ADDR := 0x02023D74;
  GBATTLECOMMUNICATION_ADDR := 0x02023E82;
  GBATTLETYPEFLAGS_ADDR := 0x02022B4C;
  GBATTLERSCOUNT_ADDR := 0x02023BCC;
  GABSENTBATTLERFLAGS_ADDR := 0x02023BDA;
  GBATTLERPOSITIONS_ADDR := 0x02023BD6;
  GBATTLEMONS_ADDR := 0x02023BE4;
  GBATTLEMONS_SIZE := 0x160;
  GACTIVEBATTLER_ADDR := 0x02023BC4;
  GBATTLERCONTROLLERFUNCS_ADDR := 0x03004FE0;
  GACTIONSELECTIONCURSOR_ADDR := 0x02023FF8;
  GMOVESELECTIONCURSOR_ADDR := 0x02023FFC;
  GMULTIUSEPLAYERCURSOR_ADDR := 0x03004FF4;
  GBATTLE_BG0_Y_ADDR := 0x02022976;
  GBATTLECOMMUNICATION_SIZE := 8;
  SCRIPT_LOCK_FIELD_CONTROLS := 0x03000F9C;
  IN_BATTLE_BIT_ADDR := 0x03003529;
  IN_BATTLE_BITMASK := 0x02;
  GSTRINGVAR4_ADDR := 0x02021D18;
  START_MENU_WINDOW_ID_ADDR := 0x020370FF;
  START_MENU_NUM_ACTIONS_ADDR := 0x020370F5;
  START_MENU_CURSOR_POS_ADDR := 0x020370F4;
  START_MENU_ACTIONS_ADDR := 0x020370F6;
  SMENU_ADDR := 0x0203ADE4;
  SYESNO_WINDOWID_ADDR := 0x0203ADF0;
  GWINDOWS_ADDR := 0x020204B4;
  WINDOW_SIZE := 12;
  GQUEST_LOG_STATE_ADDR := 0x0203ADFA;
  GQUEST_LOG_PLAYBACK_STATE_ADDR := 0x03005E88;
  SQUEST_LOG_WINDOW_IDS_ADDR := 0x0203ADFC;
  QUEST_LOG_WINDOW_COUNT := 3;
  GPLAYER_PC_ITEM_PAGE_INFO_ADDR := 0x0203AAC4;
  SITEM_STORAGE_MENU_PTR_ADDR := 0x0203AAC0;
  SITEM_STORAGE_LIST_MENU_STATE_ADDR := 0x0203AAD0;
  SPOKE_STORAGE_PTR_ADDR := 0x02039824;
  SPOKE_STORAGE_CHOOSE_BOX_MENU_PTR_ADDR := 0x02039820;
  SPOKE_STORAGE_IN_PARTY_MENU_ADDR := 0x02039828;
  SPOKE_STORAGE_CURRENT_BOX_OPTION_ADDR := 0x02039829;
  SPOKE_STORAGE_DEPOSIT_BOX_ID_ADDR := 0x0203982A;
  SPOKE_STORAGE_CURSOR_AREA_ADDR := 0x02039840;
  SPOKE_STORAGE_CURSOR_POSITION_ADDR := 0x02039841;
  GPARTY_MENU_ADDR := 0x0203B0A0;
  GPLAYER_PARTY_COUNT_ADDR := 0x02024029;
  SPARTY_MENU_INTERNAL_PTR_ADDR := 0x0203B09C;
  PARTY_BASE_ADDR := 0x02024284;
  PARTY_SIZE := 6;
  POKEMON_DATA_SIZE := 100
|}.

(** No emulator is connected: every request raises. *)
Definition offline : Mgba := {|
  read8 := fun _ => Raise IOError;
  read16 := fun _ => Raise IOError;
  read32 := fun _ => Raise IOError;
  read_range_bytes := fun _ _ => Raise IOError
|}.

(** Writing into a captured buffer, for building examples. *)
Definition poke (raw : bytes) (i : nat) (b : byte) : bytes :=
  firstn i raw ++ b :: skipn (S i) raw.

Definition zeros (n : nat) : bytes := repeat x00 n.


(** A task table in which only task 2 is active, running the third
    title-screen task of the sample table ([0x08078DA5]). *)
Definition title_task_table : bytes :=
  poke (poke (poke (poke (poke (zeros 640) 84 x01) 80 xa5) 81 x8d) 82 x07) 83 x08.


(** Name tables that load and have no entries. *)
Definition empty_tables : ReferenceTables := {|
  map_names := fun _ => None;
  event_object_names := fun _ => None;
  ability_names := fun _ => None;
  item_names := fun _ => None;
  move_names := fun _ => None;
  species_names := fun _ => None
|}.

Definition no_names : GameData := {|
  load_reference_tables := Ok empty_tables;
  get_status_name_from_mask := fun _ => u "NONE";
  POKEMON_TYPE_MAP := fun _ => None
|}.

(** The mappings file is missing. *)
Definition missing_tables : GameData := {|
  load_reference_tables := Raise GameDataError;
  get_status_name_from_mask := fun _ => u "NONE";
  POKEMON_TYPE_MAP := fun _ => None
|}.

(** An environment in which nothing outside the embedded code has
    anything to report: no emulator (so no live snapshot and no slow
    path), empty name tables, no script waiting for a button, no text
    found, no other detector recognising its screen, and a plain-text
    branch that leaves the record as it is. *)
Definition quiet_env : Env := {|
  mgba := offline;
  game_data := no_names;
  waiting_for_a_or_b_press := Ok false;
  birch_speech_active := fun _ => false;
  find_active_textprinter_text := fun _ _ _ _ => Ok None;
  later_detectors := fun _ _ => None;
  plain_dialog := fun _ result _ _ => Ok result;
  read_ranges_bytes := fun _ => Raise IOError;
  slow_fallback := Raise IOError
|}.

(** The buffers of an idle overworld frame under the sample table: the
    overworld callback, no lock, no battle, no task, no printer, no
    window. *)
Definition idle_overworld : _DialogBuffers := {|
  field_locked := false;
  in_battle := false;
  callback2 := 0x080565B5;
  tasks_raw := Some (zeros 640);
  text_printers_raw := Some (zeros 1152);
  gstringvar4_raw := Some (zeros 500);
  start_menu_window_id := Some 0xFF;
  start_menu_num_actions := Some 0;
  start_menu_cursor_pos := Some 0;
  start_menu_actions_raw := Some (zeros 9);
  smenu_raw := Some (zeros 12);
  yesno_window_id := Some 0xFF;
  windows_raw := Some (zeros 384);
  save_info_window_id := Some 0xFF;
  quest_log_state_raw := Some (zeros 1);
  quest_log_playback_state_raw := Some (zeros 1);
  quest_log_window_ids_raw := Some (zeros 3);
  player_pc_item_page_info_raw := Some (zeros 12);
  item_storage_menu_ptr_raw := Some (zeros 4);
  item_pc_list_menu_state_raw := Some (zeros 12);
  poke_storage_ptr_raw := Some (zeros 4);
  poke_choose_box_menu_ptr_raw := Some (zeros 4);
  poke_in_party_menu_raw := Some (zeros 1);
  poke_current_box_option_raw := Some (zeros 1);
  poke_deposit_box_id_raw := Some (zeros 1);
  poke_cursor_area_raw := Some (zeros 1);
  poke_cursor_position_raw := Some (zeros 1);
  gdisplayedstringbattle_raw := Some (zeros 300);
  battle_script_curr_instr_raw := Some (zeros 4);
  battle_communication_raw := Some (zeros 8);
  battle_type_flags_raw := Some (zeros 4);
  battlers_count_raw := Some (zeros 1);
  absent_battlers_raw := Some (zeros 1);
  battler_positions_raw := Some (zeros 4);
  battle_mons_raw := Some (zeros 352);
  active_battler_raw := Some (zeros 1);
  battler_controller_funcs_raw := Some (zeros 16);
  action_selection_cursor_raw := Some (zeros 4);
  move_selection_cursor_raw := Some (zeros 4);
  multi_use_player_cursor_raw := Some (zeros 1);
  battle_bg0_y_raw := Some (zeros 2);
  party_menu_raw := Some (zeros 20);
  party_count_raw := Some (zeros 1);
  party_internal_ptr_raw := Some (zeros 4);
  party_raw := Some (zeros 600)
|}.

(** The same frame with one active task that runs the third title-screen
    task. *)
Definition overworld_with_title_task : _DialogBuffers := {|
  field_locked := false;
  in_battle := false;
  callback2 := 0x080565B5;
  tasks_raw := Some title_task_table;
  text_printers_raw := Some (zeros 1152);
  gstringvar4_raw := Some (zeros 500);
  start_menu_window_id := Some 0xFF;
  start_menu_num_actions := Some 0;
  start_menu_cursor_pos := Some 0;
  start_menu_actions_raw := Some (zeros 9);
  smenu_raw := Some (zeros 12);
  yesno_window_id := Some 0xFF;
  windows_raw := Some (zeros 384);
  save_info_window_id := Some 0xFF;
  quest_log_state_raw := Some (zeros 1);
  quest_log_playback_state_raw := Some (zeros 1);
  quest_log_window_ids_raw := Some (zeros 3);
  player_pc_item_page_info_raw := Some (zeros 12);
  item_storage_menu_ptr_raw := Some (zeros 4);
  item_pc_list_menu_state_raw := Some (zeros 12);
  poke_storage_ptr_raw := Some (zeros 4);
  poke_choose_box_menu_ptr_raw := Some (zeros 4);
  poke_in_party_menu_raw := Some (zeros 1);
  poke_current_box_option_raw := Some (zeros 1);
  poke_deposit_box_id_raw := Some (zeros 1);
  poke_cursor_area_raw := Some (zeros 1);
  poke_cursor_position_raw := Some (zeros 1);
  gdisplayedstringbattle_raw := Some (zeros 300);
  battle_script_curr_instr_raw := Some (zeros 4);
  battle_communication_raw := Some (zeros 8);
  battle_type_flags_raw := Some (zeros 4);
  battlers_count_raw := Some (zeros 1);
  absent_battlers_raw := Some (zeros 1);
  battler_positions_raw := Some (zeros 4);
  battle_mons_raw := Some (zeros 352);
  active_battler_raw := Some (zeros 1);
  battler_controller_funcs_raw := Some (zeros 16);
  action_selection_cursor_raw := Some (zeros 4);
  move_selection_cursor_raw := Some (zeros 4);
  multi_use_player_cursor_raw := Some (zeros 1);
  battle_bg0_y_raw := Some (zeros 2);
  party_menu_raw := Some (zeros 20);
  party_count_raw := Some (zeros 1);
  party_internal_ptr_raw := Some (zeros 4);
  party_raw := Some (zeros 600)
|}.

(** A battle frame: two battlers, none absent, a wild battle, the action
    cursor of battler 0 on the second cell.  [controller_funcs] and
    [action_cursors] are the captured [gBattlerControllerFuncs] and
    [gActionSelectionCursor]. *)
Definition battle_frame (controller_funcs action_cursors : bytes)
  : _DialogBuffers := {|
  field_locked := false;
  in_battle := true;
  callback2 := 0x08011101;
  tasks_raw := Some (zeros 640);
  text_printers_raw := Some (zeros 1152);
  gstringvar4_raw := Some (zeros 500);
  start_menu_window_id := Some 0xFF;
  start_menu_num_actions := Some 0;
  start_menu_cursor_pos := Some 0;
  start_menu_actions_raw := Some (zeros 9);
  smenu_raw := Some (zeros 12);
  yesno_window_id := Some 0xFF;
  windows_raw := Some (zeros 384);
  save_info_window_id := Some 0xFF;
  quest_log_state_raw := Some (zeros 1);
  quest_log_playback_state_raw := Some (zeros 1);
  quest_log_window_ids_raw := Some (zeros 3);
  player_pc_item_page_info_raw := Some (zeros 12);
  item_storage_menu_ptr_raw := Some (zeros 4);
  item_pc_list_menu_state_raw := Some (zeros 12);
  poke_storage_ptr_raw := Some (zeros 4);
  poke_choose_box_menu_ptr_raw := Some (zeros 4);
  poke_in_party_menu_raw := Some (zeros 1);
  poke_current_box_option_raw := Some (zeros 1);
  poke_deposit_box_id_raw := Some (zeros 1);
  poke_cursor_area_raw := Some (zeros 1);
  poke_cursor_position_raw := Some (zeros 1);
  gdisplayedstringbattle_raw := Some (zeros 300);
  battle_script_curr_instr_raw := Some (zeros 4);
  battle_communication_raw := Some (zeros 8);
  battle_type_flags_raw := Some [x04; x00; x00; x00];
  battlers_count_raw := Some [x02];
  absent_battlers_raw := Some [x00];
  battler_positions_raw := Some [x00; x01; x02; x03];
  battle_mons_raw := Some (zeros 352);
  active_battler_raw := Some [x00];
  battler_controller_funcs_raw := Some controller_funcs;
  action_selection_cursor_raw := Some action_cursors;
  move_selection_cursor_raw := Some (zeros 4);
  multi_use_player_cursor_raw := Some [x00];
  battle_bg0_y_raw := Some [x00; x00];
  party_menu_raw := Some (zeros 20);
  party_count_raw := Some (zeros 1);
  party_internal_ptr_raw := Some (zeros 4);
  party_raw := Some (zeros 600)
|}.


(** Battler 1 runs the handler instead; the action cursors are
    [[1, 0, 0, 0]] as before. *)
Definition second_battler_chooses_action : _DialogBuffers :=
  battle_frame (zeros 4 ++ [xb5; xe3; x02; x08] ++ zeros 8) [x01; x00; x00; x00].

(** *** Memory images

    A memory of zeros, and a byte string stored into a memory. *)
Definition blank : memory := fun _ => x00.

Definition store (mem : memory) (addr : Z) (data : bytes) : memory :=
  fun a => if (addr <=? a) && (a <? addr + len data)
           then nth (Z.to_nat (a - addr)) data x00
           else mem a.

(** The memory of an idle overworld frame under the sample table: the
    overworld callback, and no window behind the three window ids. *)
Definition idle_memory : memory :=
  let K := sample_addresses in
  store (store (store (store blank
    (GMAIN_ADDR K + GMAIN_CALLBACK2_OFFSET K) [xb5; x65; x05; x08])
    (START_MENU_WINDOW_ID_ADDR K) [xff])
    (SYESNO_WINDOWID_ADDR K) [xff])
    (SSAVE_INFO_WINDOWID_ADDR K) [xff].

(** The same memory with the task table of [title_task_table]. *)
Definition title_task_memory : memory :=
  store idle_memory (GTASKS_ADDR sample_addresses) title_task_table.

(** The memory of the battle frame. *)
Definition battle_memory (controller_funcs action_cursors : bytes) : memory :=
  let K := sample_addresses in
  store (store (store (store (store (store (store (store (store (store blank
    (IN_BATTLE_BIT_ADDR K) [x02])
    (GMAIN_ADDR K + GMAIN_CALLBACK2_OFFSET K) [x01; x11; x01; x08])
    (START_MENU_WINDOW_ID_ADDR K) [xff])
    (SYESNO_WINDOWID_ADDR K) [xff])
    (SSAVE_INFO_WINDOWID_ADDR K) [xff])
    (GBATTLETYPEFLAGS_ADDR K) [x04; x00; x00; x00])
    (GBATTLERSCOUNT_ADDR K) [x02])
    (GBATTLERPOSITIONS_ADDR K) [x00; x01; x02; x03])
    (GBATTLERCONTROLLERFUNCS_ADDR K) controller_funcs)
    (GACTIONSELECTIONCURSOR_ADDR K) action_cursors.


Definition second_battler_chooses_action_memory : memory :=
  battle_memory (zeros 4 ++ [xb5; xe3; x02; x08] ++ zeros 8)
                [x01; x00; x00; x00].

(** ** Proof automation *)

(** Case analysis on every integer comparison of the goal. *)
Ltac split_comparisons :=
  repeat match goal with
         | |- context [?a <? ?b] =>
           let E := fresh "E" in
           destruct (a <? b) eqn:E;
           [apply Z.ltb_lt in E | apply Z.ltb_ge in E]
         | |- context [?a <=? ?b] =>
           let E := fresh "E" in
           destruct (a <=? b) eqn:E;
           [apply Z.leb_le in E | apply Z.leb_gt in E]
         | |- context [?a >? ?b] =>
           let E := fresh "E" in
           rewrite (Z.gtb_ltb a b);
           destruct (b <? a) eqn:E;
           [apply Z.ltb_lt in E | apply Z.ltb_ge in E]
         | |- context [?a >=? ?b] =>
           let E := fresh "E" in
           rewrite (Z.geb_leb a b);
           destruct (b <=? a) eqn:E;
           [apply Z.leb_le in E | apply Z.leb_gt in E]
         end.

(** ** [text/text_printer.py] *)

(** The addresses and sizes of the text buffers, which
    [constants/addresses.py] defines beside those of [Addresses]. *)
Record TextAddresses : Type := {
  GSTRINGVAR4_SIZE : Z;
  GSTRINGVAR1_ADDR : Z;
  GSTRINGVAR1_SIZE : Z;
  GSTRINGVAR2_ADDR : Z;
  GSTRINGVAR2_SIZE : Z;
  GSTRINGVAR3_ADDR : Z;
  GSTRINGVAR3_SIZE : Z;
  GBATTLETEXTBUFF1_ADDR : Z;
  GBATTLETEXTBUFF2_ADDR : Z;
  GBATTLETEXTBUFF3_ADDR : Z;
  GBATTLETEXTBUFF_SIZE : Z;
  TEXTPRINTER_CURRENTCHAR_OFFSET : Z
}.

(** [range(n - 1, -1, -1)] and [range(a, b)] *)
Definition range_down (n : Z) : list Z := rev (range n).

Definition range_from (a b : Z) : list Z := map (fun i => a + i) (range (b - a)).

Module TextPrinter.

Definition TEXT_POINTER_REGIONS : list (Z * Z) :=
  [(0x02000000, 0x0203FFFF);   (* EWRAM *)
   (0x03000000, 0x03007FFF);   (* IWRAM *)
   (0x08000000, 0x09FFFFFF)].  (* ROM *)

Definition TEXT_BUFFERS (K : Addresses) (T : TextAddresses) : list (Z * Z) :=
  [(GSTRINGVAR4_ADDR K, GSTRINGVAR4_SIZE T);
   (GSTRINGVAR1_ADDR T, GSTRINGVAR1_SIZE T);
   (GSTRINGVAR2_ADDR T, GSTRINGVAR2_SIZE T);
   (GSTRINGVAR3_ADDR T, GSTRINGVAR3_SIZE T);
   (GDISPLAYEDSTRINGBATTLE_ADDR K, GDISPLAYEDSTRINGBATTLE_SIZE K);
   (GBATTLETEXTBUFF1_ADDR T, GBATTLETEXTBUFF_SIZE T);
   (GBATTLETEXTBUFF2_ADDR T, GBATTLETEXTBUFF_SIZE T);
   (GBATTLETEXTBUFF3_ADDR T, GBATTLETEXTBUFF_SIZE T)].

(** The first buffer [(base, size)] with [base <= ptr < base + size]. *)
Definition _get_text_buffer_for_ptr (K : Addresses) (T : TextAddresses) (ptr : Z)
  : option (Z * Z) :=
  find (fun buf => (fst buf <=? ptr) && (ptr <? fst buf + snd buf))
       (TEXT_BUFFERS K T).

(** The first region [(start, end)] with [start <= ptr <= end]. *)
Definition _get_region_bounds (ptr : Z) : option (Z * Z) :=
  find (fun region => (fst region <=? ptr) && (ptr <=? snd region))
       TEXT_POINTER_REGIONS.

(** [b == TEXT_TERMINATOR or b in PROMPT_CHARS] *)
Definition is_page_break (b : byte) : bool :=
  Byte.eqb b TEXT_TERMINATOR || in_bytes b PROMPT_CHARS.

(** The backward loop of [_extract_visible_text_from_raw]: the index after
    the last page break below [search_end], [0] without one. *)
Fixpoint page_start_loop (raw : bytes) (js : list Z) : exc Z :=
  match js with
  | [] => Ok 0
  | j :: rest =>
    b <- getitem raw j ;;
    if is_page_break b then Ok (j + 1) else page_start_loop raw rest
  end.

(** Its forward loop: the index of the first page break from
    [page_start] on, [None] without one. *)
Fixpoint page_end_loop (raw : bytes) (idxs : list Z) : exc (option Z) :=
  match idxs with
  | [] => Ok None
  | idx :: rest =>
    b <- getitem raw idx ;;
    if is_page_break b then Ok (Some idx) else page_end_loop raw rest
  end.

Definition _extract_visible_text_from_raw (raw : bytes) (offset max_len : Z)
  : exc pystr :=
  if negb (nonempty raw) then Ok []
  else
    let offset := if offset <? 0 then 0 else offset in
    let offset := if offset >? len raw then len raw else offset in
    let search_end := offset in
    search_end <-
      (after_prompt <-
         (if offset >? 0
          then b <- getitem raw (offset - 1) ;; Ok (in_bytes b PROMPT_CHARS)
          else Ok false) ;;
       if after_prompt then Ok (offset - 1)
       else
         after_terminator <-
           (if offset >? 0
            then b <- getitem raw (offset - 1) ;; Ok (Byte.eqb b TEXT_TERMINATOR)
            else Ok false) ;;
         if after_terminator then Ok (offset - 1)
         else
           at_break <-
             (if offset <? len raw
              then b <- getitem raw offset ;; Ok (is_page_break b)
              else Ok false) ;;
           if at_break then Ok offset else Ok search_end) ;;
    page_start <- page_start_loop raw (range_down search_end) ;;
    page_end <- page_end_loop raw (range_from page_start (len raw)) ;;
    let search_end :=
      match page_end with
      | Some e => if search_end >? e then e else search_end
      | None => search_end
      end in
    if search_end <? page_start then Ok []
    else Ok (decode_gba_string (slice raw page_start search_end) max_len true).

(** The window read around a pointer that lies in no text buffer. *)
Definition text_window (start end_ current_ptr : Z) : Z * Z :=
  let window := 512 in
  let base := Z.max start (current_ptr - window) in
  let size := Z.min (window * 2) (end_ - base + 1) in
  (base, size).

Definition _extract_visible_text_from_ptr (K : Addresses) (T : TextAddresses)
           (io : Mgba) (current_ptr : Z) : exc pystr :=
  match _get_text_buffer_for_ptr K T current_ptr with
  | Some (base, size) =>
    raw <- mgba_read_range_bytes io base size ;;
    _extract_visible_text_from_raw raw (current_ptr - base) 200
  | None =>
    match _get_region_bounds current_ptr with
    | None => Ok []
    | Some (start, end_) =>
      let '(base, size) := text_window start end_ current_ptr in
      raw <- mgba_read_range_bytes io base size ;;
      _extract_visible_text_from_raw raw (current_ptr - base) 200
    end
  end.

(** [_score] of [find_active_textprinter_text] *)
Definition _score (K : Addresses) (T : TextAddresses) (window_id current_ptr : Z)
  : Z :=
  let score := if window_id =? 0 then 100 else 0 in
  match _get_text_buffer_for_ptr K T current_ptr with
  | Some (base, _size) =>
    if base =? GDISPLAYEDSTRINGBATTLE_ADDR K then score + 90
    else if base =? GSTRINGVAR4_ADDR K then score + 80
    else if in_ints base [GSTRINGVAR1_ADDR T; GSTRINGVAR2_ADDR T;
                          GSTRINGVAR3_ADDR T]
    then score + 70
    else if in_ints base [GBATTLETEXTBUFF1_ADDR T; GBATTLETEXTBUFF2_ADDR T;
                          GBATTLETEXTBUFF3_ADDR T]
    then score + 60
    else score + 50
  | None =>
    match _get_region_bounds current_ptr with
    | None => score
    | Some (start, _end) =>
      if start =? 0x08000000 then score + 20 else score + 40
    end
  end.

(** [text and len(text) > 2] *)
Definition long_enough (text : pystr) : bool := nonempty text && (len text >? 2).

(** The attempt of [_decode_best] to decode a candidate pointer from a
    captured buffer at [base]: [Some text] when it returns. *)
Definition decode_from_buffer (base size ptr : Z) (raw : option bytes)
  : exc (option pystr) :=
  match raw with
  | Some r =>
    if (base <=? ptr) && (ptr <? base + size) then
      let offset := ptr - base in
      if offset <? len r then
        text <- _extract_visible_text_from_raw r offset 200 ;;
        if long_enough text then Ok (Some text) else Ok None
      else Ok None
    else Ok None
  | None => Ok None
  end.

(** The loop of [_decode_best] over the sorted candidates
    [(score, window, ptr)]. *)
Fixpoint decode_best_loop (K : Addresses) (T : TextAddresses) (io : Mgba)
         (gstringvar4_raw gdisplayedstringbattle_raw : option bytes)
         (candidates : list (Z * Z * Z)) : exc (option pystr) :=
  match candidates with
  | [] => Ok None
  | (_score_val, _win, ptr) :: rest =>
    battle <- decode_from_buffer (GDISPLAYEDSTRINGBATTLE_ADDR K)
                                 (GDISPLAYEDSTRINGBATTLE_SIZE K) ptr
                                 gdisplayedstringbattle_raw ;;
    match battle with
    | Some text => Ok (Some text)
    | None =>
      var4 <- decode_from_buffer (GSTRINGVAR4_ADDR K) (GSTRINGVAR4_SIZE T) ptr
                                 gstringvar4_raw ;;
      match var4 with
      | Some text => Ok (Some text)
      | None =>
        text <- _extract_visible_text_from_ptr K T io ptr ;;
        if long_enough text then Ok (Some text)
        else decode_best_loop K T io gstringvar4_raw
                              gdisplayedstringbattle_raw rest
      end
    end
  end.

(** [candidates.sort(key=lambda item: item[0], reverse=True)] keeps the
    order of candidates of equal score. *)
Definition _decode_best (K : Addresses) (T : TextAddresses) (io : Mgba)
           (gstringvar4_raw gdisplayedstringbattle_raw : option bytes)
           (candidates : list (Z * Z * Z)) : exc (option pystr) :=
  match candidates with
  | [] => Ok None
  | _ =>
    decode_best_loop K T io gstringvar4_raw gdisplayedstringbattle_raw
                     (sort_by_key (fun item => - fst (fst item)) candidates)
  end.

(** The candidates of the slow path: the active printers with a non-null
    pointer, read one header at a time. *)
Fixpoint live_candidates (K : Addresses) (T : TextAddresses) (io : Mgba)
         (ids : list Z) : exc (list (Z * Z * Z)) :=
  match ids with
  | [] => Ok []
  | i :: rest =>
    let printer_addr := STEXTPRINTERS_ADDR K + i * TEXTPRINTER_SIZE K in
    active <- mgba_read8 io (printer_addr + TEXTPRINTER_ACTIVE_OFFSET K) ;;
    if active =? 0 then live_candidates K T io rest
    else
      current_ptr <-
        mgba_read32 io (printer_addr + TEXTPRINTER_CURRENTCHAR_OFFSET T) ;;
      if current_ptr =? 0 then live_candidates K T io rest
      else
        others <- live_candidates K T io rest ;;
        Ok ((_score K T i current_ptr, i, current_ptr) :: others)
  end.

(** The candidates of the snapshot path. *)
Fixpoint captured_candidates (K : Addresses) (T : TextAddresses)
         (text_printers_raw : bytes) (ids : list Z) : exc (list (Z * Z * Z)) :=
  match ids with
  | [] => Ok []
  | i :: rest =>
    let off := i * TEXTPRINTER_SIZE K + TEXTPRINTER_CURRENTCHAR_OFFSET T in
    let active_off := i * TEXTPRINTER_SIZE K + TEXTPRINTER_ACTIVE_OFFSET K in
    active <- _u8_from text_printers_raw active_off ;;
    if active =? 0 then captured_candidates K T text_printers_raw rest
    else
      current_ptr <- _u32le_from text_printers_raw off ;;
      if current_ptr =? 0 then captured_candidates K T text_printers_raw rest
      else
        others <- captured_candidates K T text_printers_raw rest ;;
        Ok ((_score K T i current_ptr, i, current_ptr) :: others)
  end.

(** [buf if buf is not None else mgba.mgba_read_range_bytes(addr, size)] *)
Definition captured_or_read (io : Mgba) (raw : option bytes) (addr size : Z)
  : exc (option bytes) :=
  match raw with
  | Some r => Ok (Some r)
  | None => r <- mgba_read_range_bytes io addr size ;; Ok (Some r)
  end.

Definition find_active_textprinter_text (K : Addresses) (T : TextAddresses)
           (io : Mgba)
           (text_printers_raw gstringvar4_raw gdisplayedstringbattle_raw
            : option bytes)
           (include_inactive_window0 : bool) : option pystr :=
  try_except
    (match text_printers_raw with
     | None =>
       candidates <- live_candidates K T io (range 32) ;;
       gstringvar4_raw <-
         captured_or_read io gstringvar4_raw (GSTRINGVAR4_ADDR K) 500 ;;
       gdisplayedstringbattle_raw <-
         captured_or_read io gdisplayedstringbattle_raw
                          (GDISPLAYEDSTRINGBATTLE_ADDR K)
                          (GDISPLAYEDSTRINGBATTLE_SIZE K) ;;
       text <- _decode_best K T io gstringvar4_raw gdisplayedstringbattle_raw
                            candidates ;;
       if truthy text then Ok text
       else if include_inactive_window0 then
         let ptr0 :=
           try_except
             (mgba_read32 io (STEXTPRINTERS_ADDR K
                              + TEXTPRINTER_CURRENTCHAR_OFFSET T)) 0 in
         if negb (ptr0 =? 0)
         then _decode_best K T io gstringvar4_raw gdisplayedstringbattle_raw
                           [(_score K T 0 ptr0, 0, ptr0)]
         else Ok None
       else Ok None
     | Some printers =>
       gstringvar4_raw <-
         captured_or_read io gstringvar4_raw (GSTRINGVAR4_ADDR K) 500 ;;
       gdisplayedstringbattle_raw <-
         captured_or_read io gdisplayedstringbattle_raw
                          (GDISPLAYEDSTRINGBATTLE_ADDR K)
                          (GDISPLAYEDSTRINGBATTLE_SIZE K) ;;
       candidates <- captured_candidates K T printers (range 32) ;;
       text <- _decode_best K T io gstringvar4_raw gdisplayedstringbattle_raw
                            candidates ;;
       if truthy text then Ok text
       else if include_inactive_window0 then
         ptr0 <- _u32le_from printers (TEXTPRINTER_CURRENTCHAR_OFFSET T) ;;
         if negb (ptr0 =? 0)
         then _decode_best K T io gstringvar4_raw gdisplayedstringbattle_raw
                           [(_score K T 0 ptr0, 0, ptr0)]
         else Ok None
       else Ok None
     end)
    None.

(** The dictionary returned by [get_full_dialog_text]. *)
Record full_dialog : Type := {
  pages : list pystr;
  pageCount : Z;
  fullText : pystr
}.

(** Closing a page: it is decoded and kept when the text is not empty. *)
Definition close_page (pages : list pystr) (current_page : bytes) : list pystr :=
  if nonempty current_page then
    let page_text := decode_gba_string current_page 200 false in
    if nonempty page_text then pages ++ [page_text] else pages
  else pages.

(** The [while] loop of [get_full_dialog_text]; [rest] is [raw[i:]], the
    value is [(pages, current_page)] when the loop ends. *)
Fixpoint pages_loop (rest : bytes) (pages : list pystr) (current_page : bytes)
  : list pystr * bytes :=
  match rest with
  | [] => (pages, current_page)
  | byte :: tail =>
    if Byte.eqb byte TEXT_TERMINATOR then (pages, current_page)
    else if in_bytes byte PROMPT_CHARS
    then pages_loop tail (close_page pages current_page) []
    else pages_loop tail pages (current_page ++ [byte])
  end.

Definition get_full_dialog_text (K : Addresses) (io : Mgba) (raw : option bytes)
  : option full_dialog :=
  try_except
    (raw <- (match raw with
             | Some r => Ok r
             | None => mgba_read_range_bytes io (GSTRINGVAR4_ADDR K) 500
             end) ;;
     if negb (nonempty raw) then Ok None
     else
       let '(pages, current_page) := pages_loop raw [] [] in
       let pages := close_page pages current_page in
       if nonempty pages
       then Ok (Some {| pages := pages;
                        pageCount := len pages;
                        fullText := join nl pages |})
       else Ok None)
    None.

End TextPrinter.

(** ** [ui/battle.py]: [get_battle_state] *)

(** The constants of [get_battle_state] beside those of [Addresses]. *)
Record BattleAddresses : Type := {
  BATTLE_TYPE_TRAINER : Z;
  BATTLE_TYPE_DOUBLE : Z;
  GBATTLERPARTYINDEXES_ADDR : Z
}.

(** [s.endswith(suffix)] *)
Definition endswith (s suffix : pystr) : bool :=
  (List.length suffix <=? List.length s)%nat
  && pystr_eqb (skipn (List.length s - List.length suffix) s) suffix.

(** One entry of the [player] and [enemy] lists: the keys added by
    [get_battle_state], and the parsed Pokémon merged into the entry. *)
Record battler_entry : Type := {
  entry_battlerId : Z;
  entry_position : pystr;
  entry_side : pystr;
  entry_flank : pystr;
  entry_partyIndex : Z;
  entry_mon : battle_pokemon
}.

(** The keys present only in the full result. *)
Record battle_details : Type := {
  typeFlags : Z;
  isTrainerBattle : bool;
  isDoubleBattle : bool;
  isSafariBattle : bool;
  battlersCount : Z;
  state_activeBattlerId : Z
}.

Record battle_state : Type := {
  isActive : bool;
  details : option battle_details;
  data_player : list battler_entry;
  data_enemy : list battler_entry
}.

(** [int(raw[0]) if raw else 0] *)
Definition first_byte_or_zero (raw : bytes) : exc Z :=
  if nonempty raw then byte_at raw 0 else Ok 0.

(** The loop over the battlers; the value is [(player, enemy)] when it
    ends. *)
Fixpoint battlers_loop (K : Addresses) (G : GameData) (absent_flags : Z)
         (positions party_indexes : list Z) (mons_raw : bytes) (ids : list Z)
         (player enemy : list battler_entry)
  : exc (list battler_entry * list battler_entry) :=
  match ids with
  | [] => Ok (player, enemy)
  | battler_id :: rest =>
    if negb (Z.land absent_flags (Z.shiftl 1 battler_id) =? 0)
    then battlers_loop K G absent_flags positions party_indexes mons_raw rest
                       player enemy
    else
      let off := battler_id * BATTLE_POKEMON_SIZE K in
      mon <- _parse_battle_pokemon
               K G (slice mons_raw off (off + BATTLE_POKEMON_SIZE K)) ;;
      if mon_speciesId mon =? 0
      then battlers_loop K G absent_flags positions party_indexes mons_raw rest
                         player enemy
      else
        pos <- (if battler_id <? len positions then getitem positions battler_id
                else Ok battler_id) ;;
        let side := _battle_side_from_pos K pos in
        let flank := _battle_flank_from_pos K pos in
        party_index <- (if battler_id <? len party_indexes
                        then getitem party_indexes battler_id else Ok 0) ;;
        let entry := {| entry_battlerId := battler_id;
                        entry_position := _battle_position_name pos;
                        entry_side := side;
                        entry_flank := flank;
                        entry_partyIndex := party_index;
                        entry_mon := mon |} in
        if pystr_eqb side (u "player")
        then battlers_loop K G absent_flags positions party_indexes mons_raw
                           rest (player ++ [entry]) enemy
        else battlers_loop K G absent_flags positions party_indexes mons_raw
                           rest player (enemy ++ [entry])
  end.

(** [_sort_key]: entries on a left position first. *)
Definition _sort_key (entry : battler_entry) : Z :=
  if endswith (entry_position entry) (u "_LEFT") then 0 else 1.

Definition battle_ranges (K : Addresses) (B : BattleAddresses) : list (Z * Z) :=
  [(GBATTLETYPEFLAGS_ADDR K, 4);
   (GBATTLERSCOUNT_ADDR K, 1);
   (GABSENTBATTLERFLAGS_ADDR K, 1);
   (GBATTLERPOSITIONS_ADDR K, BATTLE_MAX_BATTLERS K);
   (GBATTLERPARTYINDEXES_ADDR B, BATTLE_MAX_BATTLERS K * 2);
   (GBATTLEMONS_ADDR K, GBATTLEMONS_SIZE K);
   (GACTIVEBATTLER_ADDR K, 1)].

(** [is_in_battle] and [mgba.mgba_read_ranges_bytes] are the two callables
    the function uses when an argument is left out. *)
Definition get_battle_state (K : Addresses) (B : BattleAddresses) (G : GameData)
           (is_in_battle : exc bool)
           (mgba_read_ranges_bytes : list (Z * Z) -> exc (list bytes))
           (in_battle : option bool) (snapshot : option (list bytes))
  : exc battle_state :=
  in_battle <- (match in_battle with
                | Some b => Ok b
                | None => is_in_battle
                end) ;;
  if negb in_battle
  then Ok {| isActive := false; details := None;
             data_player := []; data_enemy := [] |}
  else
    let ranges := battle_ranges K B in
    let raw :=
      match snapshot with
      | None => try_except (mgba_read_ranges_bytes ranges) []
      | Some s => s
      end in
    if len raw <? len ranges
    then Ok {| isActive := true; details := None;
               data_player := []; data_enemy := [] |}
    else
      raw0 <- getitem raw 0 ;;
      raw1 <- getitem raw 1 ;;
      raw2 <- getitem raw 2 ;;
      raw3 <- getitem raw 3 ;;
      raw4 <- getitem raw 4 ;;
      raw5 <- getitem raw 5 ;;
      raw6 <- getitem raw 6 ;;
      battle_type_flags <- (if len raw0 >=? 4 then _u32le_from raw0 0 else Ok 0) ;;
      battlers_count <- first_byte_or_zero raw1 ;;
      absent_flags <- first_byte_or_zero raw2 ;;
      let positions :=
        if nonempty raw3
        then map byte_val (slice raw3 0 (BATTLE_MAX_BATTLERS K))
        else [0; 1; 2; 3] in
      party_indexes <-
        (if nonempty raw4 && (len raw4 >=? BATTLE_MAX_BATTLERS K * 2)
         then for_each (fun i => _u16le_from raw4 (i * 2))
                       (range (BATTLE_MAX_BATTLERS K))
         else Ok [0; 0; 0; 0]) ;;
      let mons_raw := if nonempty raw5 then raw5 else [] in
      active_battler <- first_byte_or_zero raw6 ;;
      let max_id :=
        if (0 <? battlers_count) && (battlers_count <=? BATTLE_MAX_BATTLERS K)
        then battlers_count else BATTLE_MAX_BATTLERS K in
      sides <- battlers_loop K G absent_flags positions party_indexes mons_raw
                             (range max_id) [] [] ;;
      let '(player, enemy) := sides in
      Ok {| isActive := true;
            details :=
              Some {| typeFlags := battle_type_flags;
                      isTrainerBattle :=
                        negb (Z.land battle_type_flags (BATTLE_TYPE_TRAINER B) =? 0);
                      isDoubleBattle :=
                        negb (Z.land battle_type_flags (BATTLE_TYPE_DOUBLE B) =? 0);
                      isSafariBattle :=
                        negb (Z.land battle_type_flags (BATTLE_TYPE_SAFARI K) =? 0);
                      battlersCount := battlers_count;
                      state_activeBattlerId := active_battler |};
            data_player := sort_by_key _sort_key player;
            data_enemy := sort_by_key _sort_key enemy |}.
(** ** [ui/menus.py]: the Berry Crush pressing speed *)

Definition _BERRY_CRUSH_PRESSING_SPEED_CONVERSION_TABLE : list Z :=
  [50000000; 25000000; 12500000; 6250000;
   3125000; 1562500; 781250; 390625].

(** [f"{n:02d}"] *)
Definition format_02d (n : Z) : pystr :=
  let s := str_of_int n in
  repeat 48 (2 - List.length s) ++ s.

Definition _berry_crush_times_per_sec_from_packing (raw : Z) : pystr :=
  let packed := Z.land raw 0xFFFF in
  let int_part := Z.land (Z.shiftr packed 8) 0xFF in
  let frac_bits := Z.land packed 0xFF in
  let score :=
    fold_left (fun score jv =>
                 if negb (Z.land (Z.shiftr frac_bits (7 - fst jv)) 1 =? 0)
                 then score + snd jv else score)
              (enumerate _BERRY_CRUSH_PRESSING_SPEED_CONVERSION_TABLE) 0 in
  let frac := score / 1000000 in
  str_of_int int_part ++ u "." ++ format_02d frac.

(** ** [memory/symbols.py]

    [_SYM_TABLE] is a dict from a symbol name to its entries
    [(addr, size, sym_type)], filled from the symbol file, which is not
    part of the sources; the table is taken as a list of items in
    insertion order, and [_STRICT_SYMBOLS], read from the environment, as
    a boolean. *)

Definition sym_triple : Type := (Z * Z * pystr)%type.

Definition sym_table : Type := list (pystr * list sym_triple).

(** [_SYM_TABLE.get(name, [])] *)
Definition _resolve_entries (table : sym_table) (name : pystr)
  : list sym_triple :=
  match find (fun item => pystr_eqb (fst item) name) table with
  | Some item => snd item
  | None => []
  end.

(** [sorted(l, key=...)] for a key that is a pair of integers, stable. *)
Definition pair_leb (a b : Z * Z) : bool :=
  (fst a <? fst b) || ((fst a =? fst b) && (snd a <=? snd b)).

Fixpoint insert_by_pair_key {A : Type} (key : A -> Z * Z) (x : A) (l : list A)
  : list A :=
  match l with
  | [] => [x]
  | h :: t => if pair_leb (key x) (key h) then x :: l
              else h :: insert_by_pair_key key x t
  end.

Fixpoint sort_by_pair_key {A : Type} (key : A -> Z * Z) (l : list A) : list A :=
  match l with
  | [] => []
  | h :: t => insert_by_pair_key key h (sort_by_pair_key key t)
  end.

Definition sym_entry (STRICT : bool) (table : sym_table) (name : pystr)
           (size : option Z) (near : option pystr)
           (fallback_addr : option Z) (fallback_size : Z)
           (fallback_type : pystr) : exc sym_triple :=
  let entries := _resolve_entries table name in
  if negb (nonempty entries)
  then match fallback_addr with
       | Some a => Ok (a, fallback_size, fallback_type)
       | None => if STRICT then Raise KeyError else Ok (0, 0, [])
       end
  else
    let entries :=
      match size with
      | Some s =>
        let sized := filter (fun entry => snd (fst entry) =? s) entries in
        if nonempty sized then sized else entries
      | None => entries
      end in
    let by_address :=
      getitem (sort_by_key (fun entry => fst (fst entry)) entries) 0 in
    match near with
    | Some n =>
      if 1 <? len entries
      then
        let near_entries := _resolve_entries table n in
        if nonempty near_entries
        then
          near0 <- getitem near_entries 0 ;;
          let near_addr := fst (fst near0) in
          getitem (sort_by_pair_key
                     (fun entry => (Z.abs (fst (fst entry) - near_addr),
                                    fst (fst entry)))
                     entries) 0
        else by_address
      else by_address
    | None => by_address
    end.

Definition sym_addr (STRICT : bool) (table : sym_table) (name : pystr)
           (size : option Z) (near : option pystr) (fallback : option Z)
  : exc Z :=
  let entries := _resolve_entries table name in
  if negb (nonempty entries)
  then match fallback with
       | Some a => Ok a
       | None => if STRICT then Raise KeyError else Ok 0
       end
  else
    let entries :=
      match size with
      | Some s =>
        let sized := filter (fun entry => snd (fst entry) =? s) entries in
        if nonempty sized then sized else entries
      | None => entries
      end in
    let by_address :=
      first <- getitem (sort_by_key (fun entry => fst (fst entry)) entries) 0 ;;
      Ok (fst (fst first)) in
    match near with
    | Some n =>
      if 1 <? len entries
      then
        let near_entries := _resolve_entries table n in
        if nonempty near_entries
        then
          near0 <- getitem near_entries 0 ;;
          let near_addr := fst (fst near0) in
          first <- getitem (sort_by_pair_key
                              (fun entry => (Z.abs (fst (fst entry) - near_addr),
                                             fst (fst entry)))
                              entries) 0 ;;
          Ok (fst (fst first))
        else by_address
      else by_address
    | None => by_address
    end.

(** [sorted(set(l))] for integers. *)
Definition sorted_set (l : list Z) : list Z :=
  sort_by_key (fun x => x) (nodup Z.eq_dec l).

Definition sym_addrs (table : sym_table) (name : pystr) (size : option Z)
  : list Z :=
  let entries := _resolve_entries table name in
  let entries :=
    match size with
    | Some s => filter (fun entry => snd (fst entry) =? s) entries
    | None => entries
    end in
  sorted_set (map (fun entry => fst (fst entry)) entries).

(** [name.startswith(prefix)] *)
Definition startswith (s prefix : pystr) : bool :=
  (List.length prefix <=? List.length s)%nat
  && pystr_eqb (firstn (List.length prefix) s) prefix.

Definition sym_addrs_by_prefix (table : sym_table) (prefix : pystr) : list Z :=
  sorted_set
    (flat_map (fun item =>
                 if negb (startswith (fst item) prefix) then []
                 else map (fun entry => fst (fst entry)) (snd item))
              table).

(** ** [ui/menus.py]: the START menu and the YES/NO menu *)

(** The constants of the two detectors beside those of [Addresses];
    [START_MENU_ACTION_NAMES] is a dict of the constants. *)
Record MenuAddresses : Type := {
  TASK_SHOW_START_MENU_ADDR : Z;
  START_MENU_TASK_ADDR : Z;
  START_MENU_ACTION_NAMES : Z -> option pystr;
  TASK_HANDLE_YES_NO_INPUT_ADDR : Z;
  TASK_CALL_YES_OR_NO_CALLBACK_ADDR : Z;
  SMENU_WINDOWID_OFFSET : Z;
  SMENU_CURSORPOS_OFFSET : Z;
  SMENU_MINCURSORPOS_OFFSET : Z;
  SMENU_MAXCURSORPOS_OFFSET : Z
}.

(** One entry of ["options"] of the START menu. *)
Record start_menu_option : Type := {
  option_index : Z;
  option_name : pystr;
  option_selected : bool
}.

Record start_menu_state : Type := {
  start_menu_type : pystr;
  start_menu_options : list start_menu_option;
  start_menu_selectedIndex : Z;
  start_menu_selectedOption : option pystr
}.

(** [a is None and b is None], [b] evaluated only when [a] is [None]. *)
Definition both_none (a b : exc (option Z)) : exc bool :=
  first <- a ;;
  match first with
  | Some _ => Ok false
  | None => second <- b ;;
            Ok (match second with None => true | Some _ => false end)
  end.

(** [value if value is not None else read]. *)
Definition given_or_read (value : option Z) (read : exc Z) : exc Z :=
  match value with
  | Some v => Ok v
  | None => read
  end.

Definition get_start_menu_state (K : Addresses) (M : MenuAddresses) (io : Mgba)
           (mgba_read_range : Z -> Z -> exc (list Z))
           (tasks_raw : option bytes)
           (start_menu_window_id start_menu_num_actions
              start_menu_cursor_pos : option Z)
           (start_menu_actions_raw : option (list Z))
  : option start_menu_state :=
  try_except
    (no_task <- both_none
                  (_find_active_task_by_func K io (TASK_SHOW_START_MENU_ADDR M)
                                             tasks_raw)
                  (_find_active_task_by_func K io (START_MENU_TASK_ADDR M)
                                             tasks_raw) ;;
     if no_task then Ok None
     else
       window_id <- given_or_read start_menu_window_id
                                  (mgba_read8 io (START_MENU_WINDOW_ID_ADDR K)) ;;
       if window_id =? WINDOW_NONE K then Ok None
       else
         num_actions <- given_or_read start_menu_num_actions
                                      (mgba_read8 io (START_MENU_NUM_ACTIONS_ADDR K)) ;;
         if (num_actions =? 0) || (num_actions >? 9) then Ok None
         else
           cursor_pos <- given_or_read start_menu_cursor_pos
                                       (mgba_read8 io (START_MENU_CURSOR_POS_ADDR K)) ;;
           action_ids <-
             match start_menu_actions_raw with
             | Some raw => Ok (slice raw 0 num_actions)
             | None => mgba_read_range (START_MENU_ACTIONS_ADDR K) num_actions
             end ;;
           if negb (nonempty action_ids) then Ok None
           else
             let options :=
               map (fun ia =>
                      {| option_index := fst ia;
                         option_name :=
                           match START_MENU_ACTION_NAMES M (snd ia) with
                           | Some name => name
                           | None => u "UNKNOWN_" ++ str_of_int (snd ia)
                           end;
                         option_selected := fst ia =? cursor_pos |})
                   (enumerate action_ids) in
             selected <-
               (if cursor_pos <? len options
                then o <- getitem options cursor_pos ;; Ok (Some (option_name o))
                else Ok None) ;;
             Ok (Some {| start_menu_type := u "startMenu";
                         start_menu_options := options;
                         start_menu_selectedIndex := cursor_pos;
                         start_menu_selectedOption := selected |}))
    None.

Definition _read_menu_cursor_pos (K : Addresses) (M : MenuAddresses) (io : Mgba)
           (smenu_raw : option bytes) : exc Z :=
  match smenu_raw with
  | None => v <- mgba_read8 io (SMENU_ADDR K + SMENU_CURSORPOS_OFFSET M) ;;
            Ok (_s8_from_u8 v)
  | Some raw => v <- _u8_from raw (SMENU_CURSORPOS_OFFSET M) ;;
                Ok (_s8_from_u8 v)
  end.

Record yes_no_state : Type := {
  yes_no_type : pystr;
  yes_no_cursorPosition : Z;
  yes_no_selectedOption : pystr;
  yes_no_options : list pystr
}.

Definition get_yes_no_menu_state (K : Addresses) (M : MenuAddresses) (io : Mgba)
           (tasks_raw : option bytes) (yesno_window_id : option Z)
           (smenu_raw windows_raw : option bytes) : option yes_no_state :=
  try_except
    (let report :=
       cursor_pos <- _read_menu_cursor_pos K M io smenu_raw ;;
       let options := [u "YES"; u "NO"] in
       selected <- (if (0 <=? cursor_pos) && (cursor_pos <? len options)
                    then getitem options cursor_pos
                    else Ok (u "UNKNOWN")) ;;
       Ok (Some {| yes_no_type := u "yesNo";
                   yes_no_cursorPosition := cursor_pos;
                   yes_no_selectedOption := selected;
                   yes_no_options := options |}) in
     no_task <- both_none
                  (_find_active_task_by_func K io (TASK_HANDLE_YES_NO_INPUT_ADDR M)
                                             tasks_raw)
                  (_find_active_task_by_func K io
                                             (TASK_CALL_YES_OR_NO_CALLBACK_ADDR M)
                                             tasks_raw) ;;
     if no_task
     then
       yesno_window_id <- given_or_read yesno_window_id
                                        (mgba_read8 io (SYESNO_WINDOWID_ADDR K)) ;;
       if (yesno_window_id =? WINDOW_NONE K) || (yesno_window_id <? 0)
          || (yesno_window_id >=? 32)
       then Ok None
       else
         win <-
           match windows_raw with
           | Some raw =>
             let win_base := yesno_window_id * WINDOW_SIZE K in
             win_bg <- _u8_from raw (win_base + 0x00) ;;
             win_height <- _u8_from raw (win_base + 0x04) ;;
             Ok (win_bg, win_height)
           | None =>
             let win_base_addr := GWINDOWS_ADDR K + yesno_window_id * WINDOW_SIZE K in
             win_bg <- mgba_read8 io (win_base_addr + 0x00) ;;
             win_height <- mgba_read8 io (win_base_addr + 0x04) ;;
             Ok (win_bg, win_height)
           end ;;
         if fst win =? 0xFF then Ok None
         else if snd win <? 4 then Ok None
         else
           menu <-
             match smenu_raw with
             | Some raw =>
               menu_window_id <- _u8_from raw (SMENU_WINDOWID_OFFSET M) ;;
               min_cursor <- _u8_from raw (SMENU_MINCURSORPOS_OFFSET M) ;;
               max_cursor <- _u8_from raw (SMENU_MAXCURSORPOS_OFFSET M) ;;
               Ok (menu_window_id, _s8_from_u8 min_cursor, _s8_from_u8 max_cursor)
             | None =>
               menu_window_id <- mgba_read8 io (SMENU_ADDR K + SMENU_WINDOWID_OFFSET M) ;;
               min_cursor <- mgba_read8 io (SMENU_ADDR K + SMENU_MINCURSORPOS_OFFSET M) ;;
               max_cursor <- mgba_read8 io (SMENU_ADDR K + SMENU_MAXCURSORPOS_OFFSET M) ;;
               Ok (menu_window_id, _s8_from_u8 min_cursor, _s8_from_u8 max_cursor)
             end ;;
           if negb (fst (fst menu) =? yesno_window_id) then Ok None
           else if negb (snd (fst menu) =? 0) || negb (snd menu =? 1) then Ok None
           else report
     else report)
    None.
(** ** More specification vocabulary *)

(** Ranges that can be captured side by side: every address is non-zero,
    every size positive, and no two ranges overlap. *)
Fixpoint separate_ranges (ranges : list (Z * Z)) : bool :=
  match ranges with
  | [] => true
  | (a, n) :: rest =>
    negb (a =? 0) && (0 <? n)
    && forallb (fun r => (a + n <=? fst r) || (fst r + snd r <=? a)) rest
    && separate_ranges rest
  end.

(** The segment a range is captured as. *)
Definition segment_of (mem : memory) (r : Z * Z) : SnapshotSegment :=
  {| start := fst r; data := mem_range mem (fst r) (snd r) |}.

(** An address that no range contains. *)
Definition outside_ranges (ranges : list (Z * Z)) (addr : Z) : Prop :=
  forall r, In r ranges -> addr < fst r \/ fst r + snd r <= addr.

(** A window of [n] bytes at [a] that lies inside a range. *)
Definition inside_range (r : Z * Z) (a n : Z) : bool :=
  (fst r <=? a) && (a + n <=? fst r + snd r).

(** The range captured for the PC storage statics starts at
    [SPOKE_STORAGE_CHOOSE_BOX_MENU_PTR_ADDR]; the other six storage
    buffers are read at addresses of their own, which the capture holds
    when they lie inside that range. *)
Definition storage_fields_captured (K : Addresses) : bool :=
  let r := (SPOKE_STORAGE_CHOOSE_BOX_MENU_PTR_ADDR K, 0x80) in
  inside_range r (SPOKE_STORAGE_PTR_ADDR K) 4
  && inside_range r (SPOKE_STORAGE_IN_PARTY_MENU_ADDR K) 1
  && inside_range r (SPOKE_STORAGE_CURRENT_BOX_OPTION_ADDR K) 1
  && inside_range r (SPOKE_STORAGE_DEPOSIT_BOX_ID_ADDR K) 1
  && inside_range r (SPOKE_STORAGE_CURSOR_AREA_ADDR K) 1
  && inside_range r (SPOKE_STORAGE_CURSOR_POSITION_ADDR K) 1.

(** The buffers a memory holds: each buffer of [_DialogBuffers] read
    straight from the memory at the address of its range. *)
Definition buffers_of_memory (K : Addresses) (mem : memory) : _DialogBuffers := {|
  field_locked := negb (byte_val (mem (SCRIPT_LOCK_FIELD_CONTROLS K)) =? 0);
  in_battle := negb (Z.land (byte_val (mem (IN_BATTLE_BIT_ADDR K))) (IN_BATTLE_BITMASK K)
          =? 0);
  callback2 := mem_u32 mem (GMAIN_ADDR K + GMAIN_CALLBACK2_OFFSET K);
  tasks_raw :=
    Some (mem_range mem (GTASKS_ADDR K) (NUM_TASKS K * TASK_SIZE K));
  text_printers_raw :=
    Some (mem_range mem (STEXTPRINTERS_ADDR K) (32 * TEXTPRINTER_SIZE K));
  gstringvar4_raw := Some (mem_range mem (GSTRINGVAR4_ADDR K) 500);
  start_menu_window_id := Some (byte_val (mem (START_MENU_WINDOW_ID_ADDR K)));
  start_menu_num_actions :=
    Some (byte_val (mem (START_MENU_NUM_ACTIONS_ADDR K)));
  start_menu_cursor_pos :=
    Some (byte_val (mem (START_MENU_CURSOR_POS_ADDR K)));
  start_menu_actions_raw := Some (mem_range mem (START_MENU_ACTIONS_ADDR K) 9);
  smenu_raw := Some (mem_range mem (SMENU_ADDR K) 0x0C);
  yesno_window_id := Some (byte_val (mem (SYESNO_WINDOWID_ADDR K)));
  windows_raw := Some (mem_range mem (GWINDOWS_ADDR K) (32 * WINDOW_SIZE K));
  save_info_window_id := Some (byte_val (mem (SSAVE_INFO_WINDOWID_ADDR K)));
  quest_log_state_raw := Some (mem_range mem (GQUEST_LOG_STATE_ADDR K) 1);
  quest_log_playback_state_raw :=
    Some (mem_range mem (GQUEST_LOG_PLAYBACK_STATE_ADDR K) 1);
  quest_log_window_ids_raw :=
    Some (mem_range mem (SQUEST_LOG_WINDOW_IDS_ADDR K) (QUEST_LOG_WINDOW_COUNT K));
  player_pc_item_page_info_raw :=
    Some (mem_range mem (GPLAYER_PC_ITEM_PAGE_INFO_ADDR K) 0x0C);
  item_storage_menu_ptr_raw :=
    Some (mem_range mem (SITEM_STORAGE_MENU_PTR_ADDR K) 4);
  item_pc_list_menu_state_raw :=
    Some (mem_range mem (SITEM_STORAGE_LIST_MENU_STATE_ADDR K) 0x0C);
  poke_storage_ptr_raw := Some (mem_range mem (SPOKE_STORAGE_PTR_ADDR K) 4);
  poke_choose_box_menu_ptr_raw :=
    Some (mem_range mem (SPOKE_STORAGE_CHOOSE_BOX_MENU_PTR_ADDR K) 4);
  poke_in_party_menu_raw :=
    Some (mem_range mem (SPOKE_STORAGE_IN_PARTY_MENU_ADDR K) 1);
  poke_current_box_option_raw :=
    Some (mem_range mem (SPOKE_STORAGE_CURRENT_BOX_OPTION_ADDR K) 1);
  poke_deposit_box_id_raw :=
    Some (mem_range mem (SPOKE_STORAGE_DEPOSIT_BOX_ID_ADDR K) 1);
  poke_cursor_area_raw :=
    Some (mem_range mem (SPOKE_STORAGE_CURSOR_AREA_ADDR K) 1);
  poke_cursor_position_raw :=
    Some (mem_range mem (SPOKE_STORAGE_CURSOR_POSITION_ADDR K) 1);
  gdisplayedstringbattle_raw := Some (mem_range mem (GDISPLAYEDSTRINGBATTLE_ADDR K)
                    (GDISPLAYEDSTRINGBATTLE_SIZE K));
  battle_script_curr_instr_raw :=
    Some (mem_range mem (GBATTLESCRIPTCURRINSTR_ADDR K) 4);
  battle_communication_raw := Some (mem_range mem (GBATTLECOMMUNICATION_ADDR K)
                    (GBATTLECOMMUNICATION_SIZE K));
  battle_type_flags_raw := Some (mem_range mem (GBATTLETYPEFLAGS_ADDR K) 4);
  battlers_count_raw := Some (mem_range mem (GBATTLERSCOUNT_ADDR K) 1);
  absent_battlers_raw := Some (mem_range mem (GABSENTBATTLERFLAGS_ADDR K) 1);
  battler_positions_raw :=
    Some (mem_range mem (GBATTLERPOSITIONS_ADDR K) (BATTLE_MAX_BATTLERS K));
  battle_mons_raw :=
    Some (mem_range mem (GBATTLEMONS_ADDR K) (GBATTLEMONS_SIZE K));
  active_battler_raw := Some (mem_range mem (GACTIVEBATTLER_ADDR K) 1);
  battler_controller_funcs_raw := Some (mem_range mem (GBATTLERCONTROLLERFUNCS_ADDR K)
                    (BATTLE_MAX_BATTLERS K * 4));
  action_selection_cursor_raw :=
    Some (mem_range mem (GACTIONSELECTIONCURSOR_ADDR K) (BATTLE_MAX_BATTLERS K));
  move_selection_cursor_raw :=
    Some (mem_range mem (GMOVESELECTIONCURSOR_ADDR K) (BATTLE_MAX_BATTLERS K));
  multi_use_player_cursor_raw :=
    Some (mem_range mem (GMULTIUSEPLAYERCURSOR_ADDR K) 1);
  battle_bg0_y_raw := Some (mem_range mem (GBATTLE_BG0_Y_ADDR K) 2);
  party_menu_raw := Some (mem_range mem (GPARTY_MENU_ADDR K) 0x14);
  party_count_raw := Some (mem_range mem (GPLAYER_PARTY_COUNT_ADDR K) 1);
  party_internal_ptr_raw :=
    Some (mem_range mem (SPARTY_MENU_INTERNAL_PTR_ADDR K) 4);
  party_raw :=
    Some (mem_range mem (PARTY_BASE_ADDR K) (PARTY_SIZE K * POKEMON_DATA_SIZE K))
|}.

(** What the comprehension of [from_ranges] keeps of one zipped pair. *)
Definition kept_segment (p : (Z * Z) * option bytes) : list SnapshotSegment :=
  match snd p with
  | Some c =>
    if negb (fst (fst p) =? 0) then [{| start := fst (fst p); data := c |}]
    else []
  | None => []
  end.

(** Task [i] of a captured task table: whether its slot lies inside the
    table, whether it is active, and its function pointer with the tag
    bit masked off. *)
Definition task_in_table (K : Addresses) (raw : bytes) (i : Z) : Prop :=
  i * TASK_SIZE K + TASK_SIZE K <= len raw.

Definition task_active (K : Addresses) (raw : bytes) (i : Z) : Prop :=
  u8_value raw (i * TASK_SIZE K + TASK_ISACTIVE_OFFSET K) <> 0.

Definition task_func (K : Addresses) (raw : bytes) (i : Z) : Z :=
  Z.land (u32_value raw (i * TASK_SIZE K + TASK_FUNC_OFFSET K)) 0xFFFFFFFE.

(** What a scan of the first [n] tasks with the test [matches] found. *)
Definition first_matching_task (K : Addresses) (raw : bytes)
           (matches : Z -> bool) (n : Z) (r : option Z) : Prop :=
  match r with
  | Some i =>
    0 <= i < n
    /\ task_in_table K raw i /\ task_active K raw i
    /\ matches (task_func K raw i) = true
    /\ forall j, 0 <= j < i ->
                 task_in_table K raw j
                 /\ ~ (task_active K raw j /\ matches (task_func K raw j) = true)
  | None =>
    forall i, 0 <= i < n ->
              (forall j, 0 <= j <= i -> task_in_table K raw j) ->
              ~ (task_active K raw i /\ matches (task_func K raw i) = true)
  end.

(** The controller functions [_detect_battle_ui_state] decodes from the
    captured [gBattlerControllerFuncs], numbered by battler. *)
Definition controller_funcs (K : Addresses) (raw : bytes) : list (Z * Z) :=
  enumerate
    (if nonempty raw && (len raw >=? BATTLE_MAX_BATTLERS K * 4)
     then map (fun i => u32_value raw (i * 4)) (range (BATTLE_MAX_BATTLERS K))
     else repeat 0 (Z.to_nat (BATTLE_MAX_BATTLERS K))).

(** The four handler lists in the order [_detect_battle_ui_state] tries
    them. *)
Definition priority_lists (K : Addresses) : list (list Z) :=
  [BATTLE_PLAYER_HANDLE_YES_NO_INPUT_ADDRS K;
   BATTLE_HANDLE_INPUT_CHOOSE_TARGET_ADDRS K;
   BATTLE_HANDLE_INPUT_CHOOSE_MOVE_ADDRS K;
   BATTLE_HANDLE_INPUT_CHOOSE_ACTION_ADDRS K].

(** The menu a controller function stands for: the first handler list it
    is registered in. *)
Definition menu_of_handler (K : Addresses) (func : Z) : option pystr :=
  if _ptr_matches_any func (BATTLE_PLAYER_HANDLE_YES_NO_INPUT_ADDRS K)
  then Some (u "battleYesNo")
  else if _ptr_matches_any func (BATTLE_HANDLE_INPUT_CHOOSE_TARGET_ADDRS K)
  then Some (u "battleTarget")
  else if _ptr_matches_any func (BATTLE_HANDLE_INPUT_CHOOSE_MOVE_ADDRS K)
  then Some (u "battleMoves")
  else if _ptr_matches_any func (BATTLE_HANDLE_INPUT_CHOOSE_ACTION_ADDRS K)
  then Some (u "battleActions")
  else None.

(** A menu state whose cursor is on one of its options: the selected
    option is the option at the cursor, and the cursor is inside the list
    unless the list is empty. *)
Definition cursor_on_option (st : battle_ui_state) : Prop :=
  0 <= cursorPosition st
  /\ selectedOption st
     = nth_error (options st) (Z.to_nat (cursorPosition st))
  /\ (options st <> [] -> cursorPosition st < len (options st)).

(** What [_build_battle_ui_state] may return for a battler and a
    controller function. *)
Definition built_for (K : Addresses) (active_battler controller_func : Z)
           (r : option battle_ui_state) : Prop :=
  match r with
  | Some st =>
    menu_of_handler K controller_func = Some (ui_type st)
    /\ activeBattlerId st = Z.land active_battler 0xFF
    /\ cursor_on_option st
  | None => menu_of_handler K controller_func = None
  end.

(** The longest prefix whose elements satisfy a test. *)
Fixpoint take_while {A : Type} (p : A -> bool) (l : list A) : list A :=
  match l with
  | [] => []
  | x :: r => if p x then x :: take_while p r else []
  end.

(** The page under the print cursor, given the bytes before the cursor: a
    page break at the very end is dropped, and what follows the last
    remaining page break is the page. *)
Definition drop_final_break (before : bytes) : bytes :=
  match rev before with
  | b :: r => if TextPrinter.is_page_break b then rev r else before
  | [] => []
  end.

Definition last_page (before : bytes) : bytes :=
  rev (take_while (fun b => negb (TextPrinter.is_page_break b)) (rev before)).

Definition visible_page (before : bytes) : bytes :=
  last_page (drop_final_break before).

(** The one range [_extract_visible_text_from_ptr] asks the emulator for:
    the text buffer the pointer lies in, else a window around the pointer
    inside its memory region, else nothing. *)
Definition read_window (K : Addresses) (T : TextAddresses) (ptr : Z)
  : option (Z * Z) :=
  match TextPrinter._get_text_buffer_for_ptr K T ptr with
  | Some buf => Some buf
  | None =>
    match TextPrinter._get_region_bounds ptr with
    | Some (start, end_) => Some (TextPrinter.text_window start end_ ptr)
    | None => None
    end
  end.

(** Two memories that hold the same bytes in a range. *)
Definition same_bytes_in (mem mem' : memory) (base size : Z) : Prop :=
  forall a, base <= a < base + size -> mem a = mem' a.

(** The value [_u16le_from] returns. *)
Definition u16_value (raw : bytes) (offset : Z) : Z :=
  if out_of_bounds raw offset 2 then 0
  else Z.lor (peek raw offset) (Z.shiftl (peek raw (offset + 1)) 8).

(** Chunk [i] of a snapshot, and the first byte of a chunk ([0] for an
    empty chunk). *)
Definition chunk (snapshot : list bytes) (i : nat) : bytes := nth i snapshot [].

Definition first_byte (raw : bytes) : Z := if nonempty raw then peek raw 0 else 0.

(** The species stored in the slot of battler [b] of the captured
    [gBattleMons]: [0] when the slot does not lie inside the capture. *)
Definition species_in_slot (K : Addresses) (mons_raw : bytes) (b : Z) : Z :=
  let off := b * BATTLE_POKEMON_SIZE K in
  let raw := slice mons_raw off (off + BATTLE_POKEMON_SIZE K) in
  if negb (nonempty raw) || (len raw <? BATTLE_POKEMON_SIZE K) then 0
  else u16_value raw 0.

(** A battler that takes part: not flagged absent, with a species. *)
Definition takes_part (K : Addresses) (absent_flags : Z) (mons_raw : bytes)
           (b : Z) : bool :=
  (Z.land absent_flags (Z.shiftl 1 b) =? 0)
  && negb (species_in_slot K mons_raw b =? 0).

(** The battler ids [get_battle_state] goes through. *)
Definition battler_ids (K : Addresses) (snapshot : list bytes) : list Z :=
  let count := first_byte (chunk snapshot 1) in
  range (if (0 <? count) && (count <=? BATTLE_MAX_BATTLERS K)
         then count else BATTLE_MAX_BATTLERS K).

(** A list in non-decreasing order of a key. *)
Fixpoint sorted_by {A : Type} (key : A -> Z) (l : list A) : Prop :=
  match l with
  | [] => True
  | x :: r => (forall y, In y r -> key x <= key y) /\ sorted_by key r
  end.

(** An entry that a lookup of [name] with [size] may return: an entry of
    the name, of the asked size when the name has an entry of that
    size. *)
Definition eligible (table : sym_table) (name : pystr) (size : option Z)
           (e : sym_triple) : Prop :=
  In e (_resolve_entries table name)
  /\ forall s, size = Some s ->
               (exists e', In e' (_resolve_entries table name)
                           /\ snd (fst e') = s) ->
               snd (fst e) = s.

(** Address [a] is at least as good as [a']: nearer to the first entry
    of [near] when [near] is given and known, the lower address on equal
    distance; the lower address otherwise. *)
Definition preferred (table : sym_table) (near : option pystr) (a a' : Z)
  : Prop :=
  match near with
  | Some n =>
    match _resolve_entries table n with
    | near0 :: _ =>
      let d := fun x => Z.abs (x - fst (fst near0)) in
      d a < d a' \/ (d a = d a' /\ a <= a')
    | [] => a <= a'
    end
  | None => a <= a'
  end.

(** A strictly increasing list. *)
Fixpoint increasing (l : list Z) : Prop :=
  match l with
  | [] => True
  | x :: r => (forall y, In y r -> x < y) /\ increasing r
  end.

(** A task runs the function at [func_addr], as the detectors ask it. *)
Definition task_runs (K : Addresses) (io : Mgba) (tasks_raw : option bytes)
           (func_addr : Z) : Prop :=
  exists i, _find_active_task_by_func K io func_addr tasks_raw = Ok (Some i).

(** ** More sample data *)

(** Disjoint ranges with non-zero addresses, given out of order. *)
Definition sample_ranges_nonzero : list (Z * Z) :=
  [(0x200, 8); (0x100, 16); (0x300, 2)].

(** The chunks captured for [sample_ranges_nonzero], and both lists in
    another order. *)
Definition sample_chunks_nonzero : list (option bytes) :=
  capture sample_memory sample_ranges_nonzero.

Definition sample_ranges_reordered : list (Z * Z) :=
  [(0x100, 16); (0x300, 2); (0x200, 8)].

Definition sample_chunks_reordered : list (option bytes) :=
  capture sample_memory sample_ranges_reordered.

(** Captured controller functions: the choose-action handler on battler 0
    and the yes/no handler on battler 1. *)
Definition action_and_yes_no_handlers : bytes :=
  [xb5; xe3; x02; x08; x39; xe4; x02; x08] ++ zeros 8.

(** A sample table of text-buffer addresses, beside [sample_addresses]. *)
Definition sample_text_addresses : TextAddresses := {|
  GSTRINGVAR4_SIZE := 1000;
  GSTRINGVAR1_ADDR := 0x02021CD0;
  GSTRINGVAR1_SIZE := 32;
  GSTRINGVAR2_ADDR := 0x02021CF0;
  GSTRINGVAR2_SIZE := 20;
  GSTRINGVAR3_ADDR := 0x02021D04;
  GSTRINGVAR3_SIZE := 20;
  GBATTLETEXTBUFF1_ADDR := 0x02022AB8;
  GBATTLETEXTBUFF2_ADDR := 0x02022AC8;
  GBATTLETEXTBUFF3_ADDR := 0x02022AD8;
  GBATTLETEXTBUFF_SIZE := 16;
  TEXTPRINTER_CURRENTCHAR_OFFSET := 0
|}.

(** Captured text printers of which only that of window 0 is active, its
    pointer three bytes into [gStringVar4] of the sample table. *)
Definition window0_prints_gstringvar4 : bytes :=
  poke (poke (poke (poke (poke (zeros 1152) 27 x01) 0 x1b) 1 x1d) 2 x02) 3 x02.

Definition sample_battle_addresses : BattleAddresses := {|
  BATTLE_TYPE_TRAINER := 0x08;
  BATTLE_TYPE_DOUBLE := 0x01;
  GBATTLERPARTYINDEXES_ADDR := 0x02023BCE
|}.

(** The seven chunks of a single battle: two battlers, none absent, the
    identity positions, and a species in the first two slots of
    [gBattleMons]. *)
Definition sample_battle_snapshot : list bytes :=
  [zeros 4; [x02]; [x00]; [x00; x01; x02; x03]; zeros 8;
   poke (poke (zeros 352) 0 x19) 88 x10; [x00]].

(** A symbol table with a name that has three entries, two of them of
    the same size, and a name to measure distances from. *)
Definition sample_sym_table : sym_table :=
  [(u "gTasks", [(0x03005090, 640, u "g")]);
   (u "Task_Handler", [(0x08100000, 0x20, u "t");
                       (0x08000100, 0x40, u "t");
                       (0x08200000, 0x20, u "t")]);
   (u "Task_Anchor", [(0x081FFFF0, 4, u "t")])].

(** The constants of the START menu and of the YES/NO menu, with the
    layout of [struct Menu]. *)
Definition sample_menu_addresses : MenuAddresses := {|
  TASK_SHOW_START_MENU_ADDR := 0x0806F1F1;
  START_MENU_TASK_ADDR := 0x0806F281;
  START_MENU_ACTION_NAMES := fun action_id =>
    match action_id with
    | 0 => Some (u "POKEDEX")
    | 1 => Some (u "POKEMON")
    | 2 => Some (u "BAG")
    | 3 => Some (u "PLAYER")
    | 4 => Some (u "SAVE")
    | 5 => Some (u "OPTION")
    | 6 => Some (u "EXIT")
    | _ => None
    end;
  TASK_HANDLE_YES_NO_INPUT_ADDR := 0x0809CCB1;
  TASK_CALL_YES_OR_NO_CALLBACK_ADDR := 0x080F7A75;
  SMENU_WINDOWID_OFFSET := 5;
  SMENU_CURSORPOS_OFFSET := 2;
  SMENU_MINCURSORPOS_OFFSET := 3;
  SMENU_MAXCURSORPOS_OFFSET := 4
|}.

(** A task table in which only task 0 is active, running the START menu
    task of the sample table ([0x0806F281]). *)
Definition start_menu_task_table : bytes :=
  poke (poke (poke (poke (poke (zeros 640) 4 x01) 0 x81) 1 xf2) 2 x06) 3 x08.

(** [sMenu] of a two-option menu on window 1 with the cursor on the
    second option, and a window table in which window 1 is allocated and
    four tiles high. *)
Definition yes_no_smenu : bytes :=
  poke (poke (poke (zeros 12) 2 x01) 4 x01) 5 x01.

Definition yes_no_windows : bytes := poke (zeros 384) 16 x04.

(** Membership in the list of snapshot ranges. *)
Ltac in_ranges :=
  unfold _DIALOG_SNAPSHOT_RANGES; simpl;
  repeat (first [left; reflexivity | right]).

(** The result of code whose only source of errors is the loading of the
    reference tables: a value that satisfies [P], or the error the
    loading raises. *)
Definition unless_tables_fail {A : Type} (G : GameData) (res : exc A)
           (P : A -> Prop) : Prop :=
  match res with
  | Ok v => P v
  | Raise e => load_reference_tables G = Raise e
  end.

(** The slot of a battler with species 25 that knows move 33, padded to
    the four slots of [gBattleMons]. *)
Definition move_slot : bytes := poke (poke (zeros 352) 0 x19) 12 x21.

(** A lookup in the reference tables returns, or raises the error of the
    loading. *)
Ltac tables_or_error G :=
  unfold unless_tables_fail;
  destruct (load_reference_tables G); [exact I|reflexivity].


(** Captured controller functions: the choose-move handler of the sample
    table ([0x0802EA11]) on battler 0. *)
Definition move_handler_on_first : bytes := [x11; xea; x02; x08] ++ zeros 12.

(** The position of battler [b]: its byte of the captured
    [gBattlerPositions], the battler id itself when the capture holds no
    byte for it. *)
Definition battler_position (snapshot : list bytes) (b : Z) : Z :=
  if b <? len (chunk snapshot 3) then peek (chunk snapshot 3) b else b.

(** The party index of battler [b]: its 16-bit entry of the captured
    [gBattlerPartyIndexes], [0] when the array was not captured in
    full. *)
Definition party_index (K : Addresses) (snapshot : list bytes) (b : Z) : Z :=
  if nonempty (chunk snapshot 4)
     && (len (chunk snapshot 4) >=? BATTLE_MAX_BATTLERS K * 2)
  then u16_value (chunk snapshot 4) (b * 2) else 0.

(** A position on the player's side: the side bit is clear. *)
Definition on_player_side (K : Addresses) (pos : Z) : bool :=
  Z.land pos (BATTLER_BIT_SIDE K) =? 0.

(** The two left positions of [enum BattlerPosition]: [B_POSITION_PLAYER_LEFT]
    (0) and [B_POSITION_OPPONENT_LEFT] (1). *)
Definition left_position (pos : Z) : bool :=
  (Z.land pos 0xFF =? 0) || (Z.land pos 0xFF =? 1).

(** The battlers of a list with those on a left position first, each
    group in the order of the list. *)
Definition lefts_first (snapshot : list bytes) (l : list Z) : list Z :=
  filter (fun b => left_position (battler_position snapshot b)) l
  ++ filter (fun b => negb (left_position (battler_position snapshot b))) l.

(** The battlers of one side that take part, in the order of their ids. *)
Definition side_battlers (K : Addresses) (snapshot : list bytes)
           (player_side : bool) : list Z :=
  filter (fun b =>
            takes_part K (first_byte (chunk snapshot 2)) (chunk snapshot 5) b
            && Bool.eqb (on_player_side K (battler_position snapshot b))
                        player_side)
         (battler_ids K snapshot).

(** The entry of a battler says what the snapshot holds for it. *)
Definition entry_of_snapshot (K : Addresses) (G : GameData)
           (snapshot : list bytes) (e : battler_entry) : Prop :=
  let b := entry_battlerId e in
  let pos := battler_position snapshot b in
  entry_position e = _battle_position_name pos
  /\ entry_side e = (if on_player_side K pos then u "player" else u "enemy")
  /\ entry_flank e = _battle_flank_from_pos K pos
  /\ entry_partyIndex e = party_index K snapshot b
  /\ _parse_battle_pokemon
       K G (slice (chunk snapshot 5) (b * BATTLE_POKEMON_SIZE K)
                  (b * BATTLE_POKEMON_SIZE K + BATTLE_POKEMON_SIZE K))
     = Ok (entry_mon e).
(* ================================================================= *)
(** * Part II: properties *)
(* ================================================================= *)

(** ** Python primitives *)

Lemma byte_val_range (b : byte) : 0 <= byte_val b < 256.
Proof.
  unfold byte_val. pose proof (Byte.to_N_bounded b) as H.
  lia.
Qed.

Lemma len_nonneg {A : Type} (l : list A) : 0 <= len l.
Proof. unfold len. lia. Qed.

Lemma getitem_in_range {A : Type} (l : list A) (i : Z) (d : A) :
  0 <= i < len l -> getitem l i = Ok (nth (Z.to_nat i) l d).
Proof.
  intros H. unfold getitem.
  destruct (i <? 0) eqn:E; [apply Z.ltb_lt in E; lia|].
  rewrite E.
  destruct (nth_error l (Z.to_nat i)) eqn:N.
  - f_equal. symmetry. apply nth_error_nth. exact N.
  - apply nth_error_None in N. unfold len in H. lia.
Qed.

Lemma byte_at_peek (raw : bytes) (i : Z) :
  0 <= i < len raw -> byte_at raw i = Ok (peek raw i).
Proof.
  intros H. unfold byte_at, peek.
  rewrite (getitem_in_range raw i x00 H). f_equal.
  rewrite <- (map_nth byte_val raw x00 (Z.to_nat i)).
  apply nth_indep. rewrite length_map. unfold len in H. lia.
Qed.

Lemma peek_range (raw : bytes) (i : Z) : 0 <= peek raw i < 256.
Proof.
  unfold peek.
  destruct (nth_in_or_default (Z.to_nat i) (map byte_val raw) 0) as [H|H].
  - apply in_map_iff in H. destruct H as [b [Hb _]]. rewrite <- Hb.
    apply byte_val_range.
  - rewrite H. lia.
Qed.

Lemma _u8_from_value (raw : bytes) (offset : Z) :
  _u8_from raw offset =
  Ok (if out_of_bounds raw offset 1 then 0 else peek raw offset).
Proof.
  unfold _u8_from, out_of_bounds.
  destruct (offset <? 0) eqn:E0; simpl; [reflexivity|].
  apply Z.ltb_ge in E0.
  destruct (offset >=? len raw) eqn:E1.
  - apply Z.geb_le in E1.
    destruct (len raw <? offset + 1) eqn:E2; [reflexivity|].
    apply Z.ltb_ge in E2. lia.
  - rewrite Z.geb_leb in E1. apply Z.leb_gt in E1.
    destruct (len raw <? offset + 1) eqn:E2; [apply Z.ltb_lt in E2; lia|].
    apply byte_at_peek. lia.
Qed.

Lemma _u16le_from_value (raw : bytes) (offset : Z) :
  _u16le_from raw offset =
  Ok (if out_of_bounds raw offset 2 then 0
        else Z.lor (peek raw offset) (Z.shiftl (peek raw (offset + 1)) 8)).
Proof.
  unfold _u16le_from, out_of_bounds.
  destruct (offset <? 0) eqn:E0; simpl; [reflexivity|].
  apply Z.ltb_ge in E0.
  destruct (offset + 1 >=? len raw) eqn:E1.
  - apply Z.geb_le in E1.
    destruct (len raw <? offset + 2) eqn:E2; [reflexivity|].
    apply Z.ltb_ge in E2. lia.
  - rewrite Z.geb_leb in E1. apply Z.leb_gt in E1.
    destruct (len raw <? offset + 2) eqn:E2; [apply Z.ltb_lt in E2; lia|].
    rewrite !byte_at_peek by lia. reflexivity.
Qed.

Lemma _u32le_from_value (raw : bytes) (offset : Z) :
  _u32le_from raw offset =
  Ok (if out_of_bounds raw offset 4 then 0
        else Z.lor (Z.lor (Z.lor (peek raw offset)
                                 (Z.shiftl (peek raw (offset + 1)) 8))
                          (Z.shiftl (peek raw (offset + 2)) 16))
                   (Z.shiftl (peek raw (offset + 3)) 24)).
Proof.
  unfold _u32le_from, out_of_bounds.
  destruct (offset <? 0) eqn:E0; simpl; [reflexivity|].
  apply Z.ltb_ge in E0.
  destruct (offset + 3 >=? len raw) eqn:E1.
  - apply Z.geb_le in E1.
    destruct (len raw <? offset + 4) eqn:E2; [reflexivity|].
    apply Z.ltb_ge in E2. lia.
  - rewrite Z.geb_leb in E1. apply Z.leb_gt in E1.
    destruct (len raw <? offset + 4) eqn:E2; [apply Z.ltb_lt in E2; lia|].
    rewrite !byte_at_peek by lia. reflexivity.
Qed.

(** ** [util/bytes.py]: the readers are total *)

(** C9.  The byte-field readers never raise: for every slice and every
    integer offset each of [_u8_from], [_u16le_from], [_u32le_from] returns
    a value, which is [0] when the offset is negative or
    [offset + width] exceeds the length of the slice, and the little-endian
    field otherwise. *)
Theorem byte_field_readers_total : forall (raw : bytes) (offset : Z),
  _u8_from raw offset =
    Ok (if (offset <? 0) || (len raw <? offset + 1) then 0
          else peek raw offset)
  /\ _u16le_from raw offset =
    Ok (if (offset <? 0) || (len raw <? offset + 2) then 0
          else Z.lor (peek raw offset) (Z.shiftl (peek raw (offset + 1)) 8))
  /\ _u32le_from raw offset =
    Ok (if (offset <? 0) || (len raw <? offset + 4) then 0
          else Z.lor (Z.lor (Z.lor (peek raw offset)
                                   (Z.shiftl (peek raw (offset + 1)) 8))
                            (Z.shiftl (peek raw (offset + 2)) 16))
                     (Z.shiftl (peek raw (offset + 3)) 24)).
Proof.
  intros raw offset. split; [|split].
  - apply _u8_from_value.
  - apply _u16le_from_value.
  - apply _u32le_from_value.
Qed.

(** ** [text/encoding.py]: the decoder *)

Lemma decode_loop_cons (sp : bool) (m : Z) (b : byte) (tail : bytes) (i : Z) :
  decode_loop sp m (b :: tail) i =
  if negb (i <? m) then []
  else if Byte.eqb b TEXT_TERMINATOR then []
  else if sp && in_bytes b PROMPT_CHARS then []
  else if Byte.eqb b xfc || Byte.eqb b xfd then
    match tail with
    | [] => []
    | _ :: tail2 => decode_loop sp m tail2 (i + 2)
    end
  else
    match GBA_CHARMAP b with
    | Some char => char :: decode_loop sp m tail (i + 1)
    | None => decode_loop sp m tail (i + 1)
    end.
Proof. reflexivity. Qed.

Lemma decode_loop_plain_prefix (sp : bool) (m : Z) (pre rest : bytes) :
  forall i, forallb (plain_byte sp) pre = true -> i + len pre <= m ->
  decode_loop sp m (pre ++ rest) i =
  mapped_chars pre ++ decode_loop sp m rest (i + len pre).
Proof.
  induction pre as [|b pre IH]; intros i Hp Hm.
  - simpl. unfold len. simpl. rewrite Z.add_0_r. reflexivity.
  - simpl in Hp. apply andb_true_iff in Hp. destruct Hp as [Hb Hp].
    unfold plain_byte in Hb.
    apply andb_true_iff in Hb. destruct Hb as [Hb Hc].
    apply andb_true_iff in Hb. destruct Hb as [Ht Hq].
    apply negb_true_iff in Ht, Hq, Hc.
    assert (Hl : len (b :: pre) = 1 + len pre) by (unfold len; cbn [List.length]; lia).
    rewrite Hl in Hm |- *.
    pose proof (len_nonneg pre) as Hn.
    simpl app. rewrite decode_loop_cons.
    assert (Hi : (i <? m) = true) by (apply Z.ltb_lt; lia).
    rewrite Hi, Ht, Hq, Hc. simpl negb. cbv iota.
    rewrite (IH (i + 1) Hp) by lia.
    replace (i + 1 + len pre) with (i + (1 + len pre)) by lia.
    unfold mapped_chars. simpl flat_map.
    destruct (GBA_CHARMAP b); reflexivity.
Qed.

Lemma decode_loop_from_charmap_bounded (sp : bool) (m : Z) (n : nat) :
  forall (raw : bytes) (i : Z), (List.length raw <= n)%nat ->
  Forall (fun piece => exists b, In b raw /\ GBA_CHARMAP b = Some piece)
         (decode_loop sp m raw i).
Proof.
  induction n as [|n IH]; intros raw i Hn.
  - destruct raw; [constructor|simpl in Hn; lia].
  - destruct raw as [|b tail]; [constructor|].
    simpl in Hn. rewrite decode_loop_cons.
    destruct (negb (i <? m)); [constructor|].
    destruct (Byte.eqb b TEXT_TERMINATOR); [constructor|].
    destruct (sp && in_bytes b PROMPT_CHARS); [constructor|].
    destruct (Byte.eqb b xfc || Byte.eqb b xfd).
    + destruct tail as [|o tail2]; [constructor|].
      simpl in Hn.
      eapply Forall_impl; [|apply (IH tail2 (i + 2)); lia].
      simpl. intros p [b' [Hin Hm]]. exists b'. auto.
    + assert (Ht : Forall (fun piece => exists b0, In b0 (b :: tail) /\
                                        GBA_CHARMAP b0 = Some piece)
                          (decode_loop sp m tail (i + 1))).
      { eapply Forall_impl; [|apply (IH tail (i + 1)); lia].
        simpl. intros p [b' [Hin Hm]]. exists b'. auto. }
      destruct (GBA_CHARMAP b) as [c|] eqn:Hc; [|exact Ht].
      constructor; [|exact Ht]. exists b. split; [left; reflexivity|exact Hc].
Qed.

Lemma decode_loop_from_charmap (sp : bool) (m : Z) (raw : bytes) (i : Z) :
  Forall (fun piece => exists b, In b raw /\ GBA_CHARMAP b = Some piece)
         (decode_loop sp m raw i).
Proof. apply (decode_loop_from_charmap_bounded sp m (List.length raw)). lia. Qed.

(** C8.  Decoding stops at the terminator [0xFF] and, when
    [stop_at_prompt] is requested, at either prompt byte [0xFA]/[0xFB]:
    after a run of ordinary bytes that fits in [max_len], the text is that
    of the run alone.  The control bytes [0xFC]/[0xFD] are consumed together
    with their operand and produce nothing.  Unmapped bytes are dropped:
    every piece of the output is the table entry of an input byte.  In
    particular a slice starting with the terminator, and [[prompt, 'A']]
    with [stop_at_prompt], both decode to the empty string. *)
Theorem decode_stops_and_skips :
  (forall (sp : bool) (m : Z) (pre rest : bytes),
      forallb (plain_byte sp) pre = true -> len pre <= m ->
      decode_gba_string (pre ++ xff :: rest) m sp
      = strip (join [] (mapped_chars pre)))
  /\ (forall (m : Z) (pre rest : bytes) (p : byte),
      In p PROMPT_CHARS ->
      forallb (plain_byte true) pre = true -> len pre <= m ->
      decode_gba_string (pre ++ p :: rest) m true
      = strip (join [] (mapped_chars pre)))
  /\ (forall (sp : bool) (m i : Z) (c operand : byte) (tail : bytes),
      In c [xfc; xfd] -> i < m ->
      decode_loop sp m (c :: operand :: tail) i = decode_loop sp m tail (i + 2))
  /\ (forall (sp : bool) (m i : Z) (raw : bytes),
      Forall (fun piece => exists b, In b raw /\ GBA_CHARMAP b = Some piece)
             (decode_loop sp m raw i))
  /\ (forall (sp : bool) (m i : Z) (rest : bytes),
      decode_loop sp m (xff :: rest) i = [])
  /\ (forall (m i : Z) (rest : bytes),
      decode_loop true m (xfa :: rest) i = []
      /\ decode_loop true m (xfb :: rest) i = [])
  /\ (forall (sp : bool) (m : Z) (rest : bytes),
      decode_gba_string (xff :: rest) m sp = [])
  /\ decode_gba_string [xfa; xbb] 500 true = []
  /\ decode_gba_string [xfb; xbb] 500 true = []
  /\ decode_gba_string [xfa; xbb] 500 false = u "A".
Proof.
  split; [|split; [|split; [|split; [|split; [|split; [|split]]]]]].
  - intros sp m pre rest Hp Hm. unfold decode_gba_string.
    rewrite decode_loop_plain_prefix by (auto; lia).
    rewrite decode_loop_cons.
    destruct (negb (0 + len pre <? m)); simpl; rewrite app_nil_r; reflexivity.
  - intros m pre rest p Hin Hp Hm. unfold decode_gba_string.
    rewrite decode_loop_plain_prefix by (auto; lia).
    assert (Hstop : decode_loop true m (p :: rest) (0 + len pre) = []).
    { rewrite decode_loop_cons. destruct (negb (0 + len pre <? m)); [reflexivity|].
      simpl in Hin. destruct Hin as [<-|[<-|[]]]; reflexivity. }
    rewrite Hstop, app_nil_r. reflexivity.
  - intros sp m i c operand tail Hin Hi. rewrite decode_loop_cons.
    apply Z.ltb_lt in Hi. rewrite Hi. simpl negb. cbv iota.
    simpl in Hin. destruct Hin as [<-|[<-|[]]]; simpl.
    + destruct sp; reflexivity.
    + destruct sp; reflexivity.
  - intros sp m i raw. apply decode_loop_from_charmap.
  - intros sp m i rest. rewrite decode_loop_cons.
    destruct (negb (i <? m)); reflexivity.
  - intros m i rest. rewrite !decode_loop_cons.
    destruct (negb (i <? m)); split; reflexivity.
  - intros sp m rest. unfold decode_gba_string. rewrite decode_loop_cons.
    destruct (negb (0 <? m)); reflexivity.
  - vm_compute. auto.
Qed.

Lemma decode_stops_and_skips_witness :
  decode_gba_string ([xc2; xc3] ++ xff :: [xbb]) 500 false = u "HI"
  /\ decode_gba_string ([xc2; xc3] ++ xfb :: [xbb]) 500 true = u "HI"
  /\ decode_loop false 500 [xfc; x01; xbb] 0 = decode_loop false 500 [xbb] 2.
Proof.
  destruct decode_stops_and_skips as [Hterm [Hprompt [Hctl _]]].
  split; [|split].
  - rewrite (Hterm false 500 [xc2; xc3] [xbb]).
    + vm_compute. reflexivity.
    + reflexivity.
    + vm_compute. discriminate.
  - rewrite (Hprompt 500 [xc2; xc3] [xbb] xfb).
    + vm_compute. reflexivity.
    + simpl. auto.
    + reflexivity.
    + vm_compute. discriminate.
  - apply (Hctl false 500 0 xfc x01 [xbb]).
    + simpl. auto.
    + lia.
Defined.

(** *** The result is stripped *)

Lemma lstrip_head (s : pystr) (c : Z) (r : pystr) :
  lstrip s = c :: r -> isspace c = false.
Proof.
  induction s as [|a s IH]; simpl; [discriminate|].
  destruct (isspace a) eqn:Ha; [exact IH|].
  intros E. injection E as <- _. exact Ha.
Qed.

Lemma lstrip_is_suffix (s : pystr) : exists ws, s = ws ++ lstrip s.
Proof.
  induction s as [|a s [ws IH]]; simpl.
  - exists []. reflexivity.
  - destruct (isspace a).
    + exists (a :: ws). simpl. f_equal. exact IH.
    + exists []. reflexivity.
Qed.

Lemma rstrip_is_prefix (s : pystr) : exists ws, s = rstrip s ++ ws.
Proof.
  unfold rstrip. destruct (lstrip_is_suffix (rev s)) as [ws H].
  exists (rev ws). rewrite <- rev_app_distr, <- H, rev_involutive. reflexivity.
Qed.

Lemma strip_head (s : pystr) (c : Z) :
  hd_error (strip s) = Some c -> isspace c = false.
Proof.
  unfold strip. intros H.
  destruct (rstrip_is_prefix (lstrip s)) as [ws E].
  destruct (rstrip (lstrip s)) as [|a r] eqn:R; [discriminate|].
  simpl in H. injection H as ->.
  simpl in E. apply (lstrip_head s c (r ++ ws)). exact E.
Qed.

Lemma strip_last (s : pystr) (c : Z) :
  hd_error (rev (strip s)) = Some c -> isspace c = false.
Proof.
  unfold strip, rstrip. rewrite rev_involutive. intros H.
  destruct (lstrip (rev (lstrip s))) as [|a r] eqn:R; [discriminate|].
  simpl in H. injection H as ->.
  apply (lstrip_head _ _ _ R).
Qed.

(** C10.  The string returned by [decode_gba_string] is stripped: for every
    input it neither begins nor ends with a space (code point 32) or a
    newline (code point 10), even when the raw bytes encode leading or
    trailing spaces ([0x00]) or newlines ([0xFE]). *)
Theorem decode_result_is_stripped :
  forall (raw : bytes) (max_len : Z) (stop_at_prompt : bool),
    let s := decode_gba_string raw max_len stop_at_prompt in
    (hd_error s <> Some 32 /\ hd_error s <> Some 10)
    /\ (hd_error (rev s) <> Some 32 /\ hd_error (rev s) <> Some 10)
    /\ decode_gba_string [x00; xfe; xbb; xbc; xfe; x00] 500 false = u "AB".
Proof.
  intros raw max_len sp s.
  assert (Hh : forall c, isspace c = true -> hd_error s <> Some c).
  { intros c Hc E. apply strip_head in E. congruence. }
  assert (Hl : forall c, isspace c = true -> hd_error (rev s) <> Some c).
  { intros c Hc E. apply strip_last in E. congruence. }
  repeat split; try (apply Hh; reflexivity); try (apply Hl; reflexivity).
Qed.

(** ** [memory/reader.py]: the snapshot lookup *)

(** *** Binary search *)

Lemma bisect_loop_spec (a : list Z) (x : Z) (Hs : sorted_ints a) :
  forall (fuel : nat) (lo hi : Z),
    0 <= lo -> lo <= hi -> hi <= len a -> hi - lo <= Z.of_nat fuel ->
    (forall k, 0 <= k < lo -> nth (Z.to_nat k) a 0 <= x) ->
    (forall k, hi <= k < len a -> x < nth (Z.to_nat k) a 0) ->
    let r := bisect_loop fuel a x lo hi in
    0 <= r <= len a
    /\ (forall k, 0 <= k < r -> nth (Z.to_nat k) a 0 <= x)
    /\ (forall k, r <= k < len a -> x < nth (Z.to_nat k) a 0).
Proof.
  induction fuel as [|fuel IH]; intros lo hi H0 Hlh Hhi Hf Hlow Hhigh.
  - simpl. assert (lo = hi) by lia. subst hi.
    split; [lia|]. split; assumption.
  - simpl. destruct (lo <? hi) eqn:E.
    + apply Z.ltb_lt in E.
      assert (Hmid : lo <= (lo + hi) / 2 < hi).
      { split.
        - apply Z.div_le_lower_bound; lia.
        - apply Z.div_lt_upper_bound; lia. }
      destruct (x <? nth (Z.to_nat ((lo + hi) / 2)) a 0) eqn:C.
      * apply Z.ltb_lt in C. apply IH; try lia; try assumption.
        intros k Hk.
        destruct (Z_lt_le_dec k hi) as [Hlt|Hge].
        -- eapply Z.lt_le_trans; [exact C|]. apply Hs; lia.
        -- apply Hhigh. lia.
      * apply Z.ltb_ge in C. apply IH; try lia; try assumption.
        intros k Hk.
        destruct (Z_lt_le_dec k lo) as [Hlt|Hge].
        -- apply Hlow. lia.
        -- eapply Z.le_trans; [|exact C]. apply Hs; lia.
    + apply Z.ltb_ge in E. assert (lo = hi) by lia. subst hi.
      split; [lia|]. split; assumption.
Qed.

Lemma bisect_right_spec (a : list Z) (x : Z) :
  sorted_ints a ->
  let r := bisect_right a x in
  0 <= r <= len a
  /\ (forall k, 0 <= k < r -> nth (Z.to_nat k) a 0 <= x)
  /\ (forall k, r <= k < len a -> x < nth (Z.to_nat k) a 0).
Proof.
  intros Hs. unfold bisect_right.
  pose proof (len_nonneg a) as Hn.
  apply bisect_loop_spec; try assumption; try lia.
  unfold len. lia.
Qed.

(** *** Sorting *)

Lemma insert_segment_In (s : SnapshotSegment) (l : list SnapshotSegment) (t : SnapshotSegment) :
  In t (insert_segment s l) <-> t = s \/ In t l.
Proof.
  induction l as [|h l IH]; simpl.
  - intuition congruence.
  - destruct (start s <=? start h); simpl; rewrite ?IH; intuition congruence.
Qed.

Lemma insert_segment_sorted (s : SnapshotSegment) (l : list SnapshotSegment) :
  sorted_by_start l -> sorted_by_start (insert_segment s l).
Proof.
  induction l as [|h l IH]; simpl; intros Hl.
  - split; [intros t []|exact I].
  - destruct Hl as [Hh Hl].
    destruct (start s <=? start h) eqn:E.
    + apply Z.leb_le in E. simpl. split; [|split; assumption].
      intros t [<-|Ht]; [exact E|].
      specialize (Hh t Ht). lia.
    + apply Z.leb_gt in E. simpl. split; [|apply IH; exact Hl].
      intros t Ht. apply insert_segment_In in Ht.
      destruct Ht as [->|Ht]; [lia|apply Hh; exact Ht].
Qed.

Lemma sort_segments_sorted (l : list SnapshotSegment) :
  sorted_by_start (sort_segments l).
Proof.
  induction l as [|h l IH]; simpl; [exact I|].
  apply insert_segment_sorted. exact IH.
Qed.

Lemma sort_segments_In (l : list SnapshotSegment) (t : SnapshotSegment) :
  In t (sort_segments l) <-> In t l.
Proof.
  induction l as [|h l IH]; simpl; [tauto|].
  rewrite insert_segment_In, IH. intuition congruence.
Qed.

Lemma insert_segment_length (s : SnapshotSegment) (l : list SnapshotSegment) :
  List.length (insert_segment s l) = S (List.length l).
Proof.
  induction l as [|h l IH]; simpl; [reflexivity|].
  destruct (start s <=? start h); simpl; congruence.
Qed.

Lemma sort_segments_length (l : list SnapshotSegment) :
  List.length (sort_segments l) = List.length l.
Proof.
  induction l as [|h l IH]; simpl; [reflexivity|].
  rewrite insert_segment_length. congruence.
Qed.

Lemma sorted_by_start_ints (segs : list SnapshotSegment) :
  sorted_by_start segs -> sorted_ints (map start segs).
Proof.
  induction segs as [|s segs IH]; intros Hs j k Hj Hjk Hk.
  - unfold len in Hk. simpl in Hk. lia.
  - destruct Hs as [Hh Hs]. specialize (IH Hs).
    assert (Hl : len (map start (s :: segs)) = 1 + len (map start segs))
      by (unfold len; cbn [List.length map]; lia).
    rewrite Hl in Hk.
    destruct (Z.eq_dec j 0) as [->|Hj0].
    + destruct (Z.eq_dec k 0) as [->|Hk0]; [lia|].
      replace (Z.to_nat k) with (S (Z.to_nat (k - 1))) by lia.
      simpl.
      assert (Hin : In (nth (Z.to_nat (k - 1)) (map start segs) 0) (map start segs)).
      { apply nth_In. unfold len in Hk. lia. }
      apply in_map_iff in Hin. destruct Hin as [t [Ht Hin]].
      rewrite <- Ht. apply Hh. exact Hin.
    + replace (Z.to_nat j) with (S (Z.to_nat (j - 1))) by lia.
      replace (Z.to_nat k) with (S (Z.to_nat (k - 1))) by lia.
      simpl. apply IH; lia.
Qed.

(** *** The selected segment *)

Lemma selected_segment_In (segs : list SnapshotSegment) (addr : Z) (s : SnapshotSegment) :
  selected_segment segs addr = Some s -> In s segs /\ start s <= addr.
Proof.
  induction segs as [|h segs IH]; simpl; [discriminate|].
  destruct (selected_segment segs addr) as [t|].
  - intros E. injection E as ->. destruct (IH eq_refl). auto.
  - destruct (start h <=? addr) eqn:E; [|discriminate].
    intros E'. injection E' as ->. apply Z.leb_le in E. auto.
Qed.

Lemma selected_segment_none (segs : list SnapshotSegment) (addr : Z) :
  (forall t, In t segs -> addr < start t) -> selected_segment segs addr = None.
Proof.
  induction segs as [|h segs IH]; simpl; intros H; [reflexivity|].
  rewrite IH by auto.
  destruct (start h <=? addr) eqn:E; [|reflexivity].
  apply Z.leb_le in E. specialize (H h (or_introl eq_refl)). lia.
Qed.

Lemma nth_map_start (segs : list SnapshotSegment) (k : nat) :
  nth k (map start segs) 0 = start (nth k segs empty_segment).
Proof. apply (map_nth start segs empty_segment k). Qed.

Lemma selected_by_index (segs : list SnapshotSegment) (addr : Z) :
  forall r, 0 <= r <= len segs ->
    (forall k, 0 <= k < r -> start (nth (Z.to_nat k) segs empty_segment) <= addr) ->
    (forall k, r <= k < len segs ->
               addr < start (nth (Z.to_nat k) segs empty_segment)) ->
    selected_segment segs addr =
    if r =? 0 then None else Some (nth (Z.to_nat (r - 1)) segs empty_segment).
Proof.
  induction segs as [|s segs IH]; intros r Hr Hlow Hhigh.
  - unfold len in Hr. simpl in Hr. assert (r = 0) by lia. subst r. reflexivity.
  - assert (Hl : len (s :: segs) = 1 + len segs)
      by (unfold len; cbn [List.length]; lia).
    rewrite Hl in Hr, Hhigh. pose proof (len_nonneg segs) as Hn.
    simpl selected_segment.
    destruct (Z.eq_dec r 0) as [->|Hr0].
    + rewrite (IH 0); try lia.
      * simpl. pose proof (Hhigh 0 ltac:(lia)) as H0. cbn [nth Z.to_nat] in H0.
        destruct (start s <=? addr) eqn:E; [|reflexivity].
        apply Z.leb_le in E. lia.
      * intros k Hk. specialize (Hhigh (k + 1)).
        replace (Z.to_nat (k + 1)) with (S (Z.to_nat k)) in Hhigh by lia.
        cbn [nth] in Hhigh. apply Hhigh. lia.
    + rewrite (IH (r - 1)); try lia.
      * destruct (r - 1 =? 0) eqn:E1.
        -- apply Z.eqb_eq in E1. assert (r = 1) by lia. subst r. simpl.
           pose proof (Hlow 0 ltac:(lia)) as H0. cbn [nth Z.to_nat] in H0.
           destruct (start s <=? addr) eqn:E; [reflexivity|].
           apply Z.leb_gt in E. lia.
        -- apply Z.eqb_neq in E1.
           destruct (r =? 0) eqn:E0; [apply Z.eqb_eq in E0; lia|].
           replace (Z.to_nat (r - 1)) with (S (Z.to_nat (r - 1 - 1))) by lia.
           reflexivity.
      * intros k Hk. specialize (Hlow (k + 1)).
        replace (Z.to_nat (k + 1)) with (S (Z.to_nat k)) in Hlow by lia.
        cbn [nth] in Hlow. apply Hlow. lia.
      * intros k Hk. specialize (Hhigh (k + 1)).
        replace (Z.to_nat (k + 1)) with (S (Z.to_nat k)) in Hhigh by lia.
        cbn [nth] in Hhigh. apply Hhigh. lia.
Qed.

Lemma _segment_for_spec (self : SnapshotMemoryReader) (addr size : Z) :
  well_formed self ->
  Snapshot._segment_for self addr size = lookup_result self addr size.
Proof.
  intros [Hst Hso]. unfold Snapshot._segment_for, lookup_result.
  destruct (size <=? 0); [reflexivity|].
  rewrite Hst.
  pose proof (bisect_right_spec (map start (segments self)) addr
                (sorted_by_start_ints _ Hso)) as Hb.
  cbv zeta in Hb.
  set (r := bisect_right (map start (segments self)) addr) in *.
  assert (Hlen : len (map start (segments self)) = len (segments self))
    by (unfold len; rewrite length_map; reflexivity).
  rewrite Hlen in Hb. destruct Hb as [Hr [Hlow Hhigh]].
  rewrite (selected_by_index (segments self) addr r Hr).
  - destruct (Z.eq_dec r 0) as [E|E].
    + rewrite E. reflexivity.
    + destruct (r =? 0) eqn:E0; [apply Z.eqb_eq in E0; lia|].
      destruct (r - 1 <? 0) eqn:E1; [apply Z.ltb_lt in E1; lia|].
      destruct (r - 1 >=? len (segments self)) eqn:E2;
        [apply Z.geb_le in E2; lia|].
      simpl orb. cbv iota.
      rewrite (getitem_in_range (segments self) (r - 1) empty_segment) by lia.
      set (seg := nth (Z.to_nat (r - 1)) (segments self) empty_segment).
      assert (Hs : start seg <= addr).
      { unfold seg. rewrite <- nth_map_start. apply Hlow. lia. }
      destruct (addr - start seg <? 0) eqn:E3; [apply Z.ltb_lt in E3; lia|].
      reflexivity.
  - intros k Hk. rewrite <- nth_map_start. apply Hlow. exact Hk.
  - intros k Hk. rewrite <- nth_map_start. apply Hhigh. exact Hk.
Qed.

Lemma from_ranges_well_formed (ranges : list (Z * Z)) (chunks : list (option bytes)) :
  well_formed (Snapshot.from_ranges ranges chunks).
Proof.
  split; [reflexivity|]. simpl. apply sort_segments_sorted.
Qed.

Lemma lookup_ok_iff (self : SnapshotMemoryReader) (addr size : Z) :
  (exists so, lookup_result self addr size = Ok so)
  <-> 0 < size /\ covered self addr size.
Proof.
  unfold lookup_result, covered, contains. split.
  - intros [so H].
    destruct (size <=? 0) eqn:E; [discriminate|]. apply Z.leb_gt in E.
    destruct (selected_segment (segments self) addr) as [seg|] eqn:S;
      [|discriminate].
    destruct (addr + size >? seg_end seg) eqn:E1; [discriminate|].
    rewrite Z.gtb_ltb in E1. apply Z.ltb_ge in E1.
    split; [exact E|]. exists seg. split; [reflexivity|].
    apply selected_segment_In in S. lia.
  - intros [Hs [seg [S [H1 H2]]]].
    destruct (size <=? 0) eqn:E; [apply Z.leb_le in E; lia|].
    rewrite S.
    destruct (addr + size >? seg_end seg) eqn:E1.
    + rewrite Z.gtb_ltb in E1. apply Z.ltb_lt in E1. lia.
    + eauto.
Qed.

Lemma lookup_raises_KeyError (self : SnapshotMemoryReader) (addr size : Z) (e : pyerror) :
  lookup_result self addr size = Raise e -> e = KeyError.
Proof.
  unfold lookup_result.
  destruct (size <=? 0); [congruence|].
  destruct (selected_segment (segments self) addr) as [seg|]; [|congruence].
  destruct (addr + size >? seg_end seg); congruence.
Qed.

Lemma lookup_ok_bounds (self : SnapshotMemoryReader) (addr size : Z)
      (seg : SnapshotSegment) (off : Z) :
  lookup_result self addr size = Ok (seg, off) ->
  In seg (segments self) /\ off = addr - start seg
  /\ 0 <= off /\ 0 < size /\ off + size <= len (data seg).
Proof.
  unfold lookup_result.
  destruct (size <=? 0) eqn:E; [discriminate|]. apply Z.leb_gt in E.
  destruct (selected_segment (segments self) addr) as [s|] eqn:S; [|discriminate].
  destruct (addr + size >? seg_end s) eqn:E1; [discriminate|].
  rewrite Z.gtb_ltb in E1. apply Z.ltb_ge in E1.
  intros H. injection H as -> <-.
  apply selected_segment_In in S. unfold seg_end in E1.
  repeat split; try tauto; lia.
Qed.

(** With non-empty, non-overlapping segments the lookup finds the segment
    that contains the range, whichever it is. *)
Lemma separated_selected (segs : list SnapshotSegment) (addr size : Z) (s : SnapshotSegment) :
  separated segs -> 0 < size -> In s segs -> contains s addr size ->
  selected_segment segs addr = Some s.
Proof.
  unfold contains.
  induction segs as [|h segs IH]; intros Hsep Hsz Hin Hc; [destruct Hin|].
  destruct Hsep as [Hne [Hend Hsep]].
  simpl.
  destruct (selected_segment segs addr) as [t|] eqn:St.
  - destruct Hin as [->|Hin].
    + apply selected_segment_In in St. destruct St as [Ht Hle].
      specialize (Hend t Ht). lia.
    + pose proof (IH Hsep Hsz Hin Hc) as E. congruence.
  - destruct Hin as [->|Hin].
    + destruct (start s <=? addr) eqn:E; [reflexivity|].
      apply Z.leb_gt in E. lia.
    + pose proof (IH Hsep Hsz Hin Hc) as E. congruence.
Qed.

(** *** The bytes of a memory range *)

Lemma mem_range_seq (mem : memory) (a n : Z) :
  mem_range mem a n = map (fun k => mem (a + Z.of_nat k)) (seq 0 (Z.to_nat n)).
Proof. unfold mem_range, range. rewrite map_map. reflexivity. Qed.

Lemma len_mem_range (mem : memory) (a n : Z) : len (mem_range mem a n) = Z.max 0 n.
Proof.
  unfold len. rewrite mem_range_seq, length_map, length_seq. lia.
Qed.

Lemma firstn_seq_le (k : nat) : forall (s m : nat), (k <= m)%nat ->
  firstn k (seq s m) = seq s k.
Proof.
  induction k as [|k IH]; intros s m H; [reflexivity|].
  destruct m as [|m]; [lia|]. simpl. f_equal. apply IH. lia.
Qed.

Lemma map_seq_from {A : Type} (n : nat) : forall (g : nat -> A) (s : nat),
  map g (seq s n) = map (fun k => g (s + k)%nat) (seq 0 n).
Proof.
  induction n as [|n IH]; intros g s; [reflexivity|].
  simpl. rewrite Nat.add_0_r. f_equal.
  rewrite (IH g (S s)), (IH (fun k => g (s + k)%nat) 1%nat).
  apply map_ext. intros k. f_equal. lia.
Qed.

Lemma mem_range_window (mem : memory) (a n off size : Z) :
  0 <= off -> 0 <= size -> off + size <= n ->
  firstn (Z.to_nat size) (skipn (Z.to_nat off) (mem_range mem a n))
  = mem_range mem (a + off) size.
Proof.
  intros Ho Hs Hn. rewrite !mem_range_seq.
  rewrite skipn_map, firstn_map, skipn_seq, firstn_seq_le by lia.
  rewrite map_seq_from. apply map_ext. intros k. f_equal. lia.
Qed.

Lemma peek_mem_range (mem : memory) (a n i : Z) :
  0 <= i < n -> peek (mem_range mem a n) i = byte_val (mem (a + i)).
Proof.
  intros H. unfold peek. rewrite mem_range_seq, map_map.
  rewrite (nth_indep _ 0 (byte_val (mem (a + Z.of_nat 0))))
    by (rewrite length_map, length_seq; lia).
  rewrite (map_nth (fun k => byte_val (mem (a + Z.of_nat k)))).
  rewrite seq_nth by lia. f_equal. f_equal. lia.
Qed.

Lemma slice_window {A : Type} (l : list A) (off size : Z) :
  0 <= off -> 0 <= size -> off + size <= len l ->
  slice l off (off + size) = firstn (Z.to_nat size) (skipn (Z.to_nat off) l).
Proof.
  intros Ho Hs Hl. unfold slice, slice_bound.
  destruct (off <? 0) eqn:E; [apply Z.ltb_lt in E; lia|].
  destruct (off + size <? 0) eqn:E1; [apply Z.ltb_lt in E1; lia|].
  rewrite !Z.min_l by lia. f_equal. lia.
Qed.

(** *** Masks *)

Lemma land_ones_small (a n : Z) : 0 <= n -> 0 <= a < 2 ^ n -> Z.land a (Z.ones n) = a.
Proof.
  intros Hn Ha. rewrite Z.land_ones by exact Hn. apply Z.mod_small. exact Ha.
Qed.

Lemma shifted_byte_small (b k n : Z) :
  0 <= b < 256 -> 0 <= k -> k + 8 <= n -> 0 <= Z.shiftl b k < 2 ^ n.
Proof.
  intros Hb Hk Hn. rewrite Z.shiftl_mul_pow2 by exact Hk.
  assert (H2 : 0 < 2 ^ k) by (apply Z.pow_pos_nonneg; lia).
  split; [nia|].
  apply Z.lt_le_trans with (256 * 2 ^ k); [nia|].
  change 256 with (2 ^ 8). rewrite <- Z.pow_add_r by lia.
  apply Z.pow_le_mono_r; lia.
Qed.

Lemma land_lor_small (x y n : Z) :
  Z.land x (Z.ones n) = x -> Z.land y (Z.ones n) = y ->
  Z.land (Z.lor x y) (Z.ones n) = Z.lor x y.
Proof.
  intros Hx Hy. rewrite Z.land_lor_distr_l, Hx, Hy. reflexivity.
Qed.

Lemma mask8 (b : Z) : 0 <= b < 256 -> Z.land b 0xFF = b.
Proof. intros H. apply (land_ones_small b 8); [lia|exact H]. Qed.

Lemma mask16 (b0 b1 : Z) : 0 <= b0 < 256 -> 0 <= b1 < 256 ->
  Z.land (Z.lor b0 (Z.shiftl b1 8)) 0xFFFF = Z.lor b0 (Z.shiftl b1 8).
Proof.
  intros H0 H1. change 0xFFFF with (Z.ones 16).
  apply land_lor_small; apply land_ones_small;
    try lia; apply shifted_byte_small; lia.
Qed.

Lemma mask32 (b0 b1 b2 b3 : Z) :
  0 <= b0 < 256 -> 0 <= b1 < 256 -> 0 <= b2 < 256 -> 0 <= b3 < 256 ->
  Z.land (Z.lor (Z.lor (Z.lor b0 (Z.shiftl b1 8)) (Z.shiftl b2 16)) (Z.shiftl b3 24))
         0xFFFFFFFF
  = Z.lor (Z.lor (Z.lor b0 (Z.shiftl b1 8)) (Z.shiftl b2 16)) (Z.shiftl b3 24).
Proof.
  intros H0 H1 H2 H3. change 0xFFFFFFFF with (Z.ones 32).
  repeat apply land_lor_small; apply land_ones_small;
    try lia; apply shifted_byte_small; lia.
Qed.

(** *** Reads through the snapshot *)

Lemma snapshot_u8_lookup (self : SnapshotMemoryReader) (addr : Z) :
  well_formed self ->
  Snapshot.u8 self addr =
  match lookup_result self addr 1 with
  | Ok (seg, off) => Ok (peek (data seg) off)
  | Raise e => Raise e
  end.
Proof.
  intros Hwf. unfold Snapshot.u8. rewrite _segment_for_spec by exact Hwf.
  destruct (lookup_result self addr 1) as [[seg off]|e] eqn:L; [|reflexivity].
  apply lookup_ok_bounds in L. apply byte_at_peek. lia.
Qed.

Lemma snapshot_u16_lookup (self : SnapshotMemoryReader) (addr : Z) :
  well_formed self ->
  Snapshot.u16 self addr =
  match lookup_result self addr 2 with
  | Ok (seg, off) =>
    Ok (Z.lor (peek (data seg) off) (Z.shiftl (peek (data seg) (off + 1)) 8))
  | Raise e => Raise e
  end.
Proof.
  intros Hwf. unfold Snapshot.u16. rewrite _segment_for_spec by exact Hwf.
  destruct (lookup_result self addr 2) as [[seg off]|e] eqn:L; [|reflexivity].
  apply lookup_ok_bounds in L. rewrite !byte_at_peek by lia. reflexivity.
Qed.

Lemma snapshot_u32_lookup (self : SnapshotMemoryReader) (addr : Z) :
  well_formed self ->
  Snapshot.u32 self addr =
  match lookup_result self addr 4 with
  | Ok (seg, off) =>
    Ok (Z.lor (Z.lor (Z.lor (peek (data seg) off)
                            (Z.shiftl (peek (data seg) (off + 1)) 8))
                     (Z.shiftl (peek (data seg) (off + 2)) 16))
              (Z.shiftl (peek (data seg) (off + 3)) 24))
  | Raise e => Raise e
  end.
Proof.
  intros Hwf. unfold Snapshot.u32. rewrite _segment_for_spec by exact Hwf.
  destruct (lookup_result self addr 4) as [[seg off]|e] eqn:L; [|reflexivity].
  apply lookup_ok_bounds in L. rewrite !byte_at_peek by lia. reflexivity.
Qed.

Lemma snapshot_read_bytes_lookup (self : SnapshotMemoryReader) (addr size : Z) :
  well_formed self ->
  Snapshot.read_bytes self addr size =
  match lookup_result self addr size with
  | Ok (seg, off) =>
    Ok (firstn (Z.to_nat size) (skipn (Z.to_nat off) (data seg)))
  | Raise e => Raise e
  end.
Proof.
  intros Hwf. unfold Snapshot.read_bytes. rewrite _segment_for_spec by exact Hwf.
  destruct (lookup_result self addr size) as [[seg off]|e] eqn:L; [|reflexivity].
  apply lookup_ok_bounds in L. rewrite slice_window by lia. reflexivity.
Qed.

Lemma covered_or_KeyError_of_lookup {A : Type} (self : SnapshotMemoryReader)
      (addr size : Z) (res : exc A) (f : SnapshotSegment * Z -> A) :
  res = match lookup_result self addr size with
        | Ok so => Ok (f so)
        | Raise e => Raise e
        end ->
  covered_or_KeyError res self addr size.
Proof.
  intros ->. split.
  - rewrite <- lookup_ok_iff.
    destruct (lookup_result self addr size) as [so|e]; split; intros [v H];
      try discriminate; eauto.
  - intros e. destruct (lookup_result self addr size) as [so|e'] eqn:L;
      [discriminate|].
    intros H. injection H as <-. apply (lookup_raises_KeyError _ _ _ _ L).
Qed.

(** *** Reads through a live reader backed by a memory *)

Lemma live_u8_emulator (mem : memory) (addr : Z) :
  Live.u8 (emulator mem) addr = Ok (byte_val (mem addr)).
Proof.
  unfold Live.u8, emulator. cbn [read8]. rewrite mask8 by apply byte_val_range. reflexivity.
Qed.

Lemma live_u16_emulator (mem : memory) (addr : Z) :
  Live.u16 (emulator mem) addr = Ok (mem_u16 mem addr).
Proof.
  unfold Live.u16, emulator. cbn [read16]. rewrite mask16 by apply byte_val_range. reflexivity.
Qed.

Lemma live_u32_emulator (mem : memory) (addr : Z) :
  Live.u32 (emulator mem) addr = Ok (mem_u32 mem addr).
Proof.
  unfold Live.u32, emulator. cbn [read32]. rewrite mask32 by apply byte_val_range. reflexivity.
Qed.

Lemma live_read_bytes_emulator (mem : memory) (addr size : Z) :
  0 < size -> Live.read_bytes (emulator mem) addr size = Ok (mem_range mem addr size).
Proof.
  intros H. unfold Live.read_bytes.
  destruct (size <=? 0) eqn:E; [apply Z.leb_le in E; lia|]. reflexivity.
Qed.

Lemma for_each_ok {A B : Type} (f : A -> exc B) (g : A -> B) (l : list A) :
  (forall x, f x = Ok (g x)) -> for_each f l = Ok (map g l).
Proof.
  intros H. induction l as [|x l IH]; simpl; [reflexivity|].
  rewrite H, IH. reflexivity.
Qed.

Lemma bytes_of_ints_byte_vals (bs : bytes) : bytes_of_ints (map byte_val bs) = Ok bs.
Proof.
  induction bs as [|b bs IH]; simpl; [reflexivity|].
  pose proof (byte_val_range b) as Hb.
  destruct (byte_val b <? 0) eqn:E0; [apply Z.ltb_lt in E0; lia|].
  destruct (255 <? byte_val b) eqn:E1; [apply Z.ltb_lt in E1; lia|].
  simpl. unfold byte_val at 1. rewrite N2Z.id, Byte.of_to_N, IH. reflexivity.
Qed.

Lemma live_read_bytes_without_bulk (mem : memory) (addr size : Z) :
  0 < size ->
  Live.read_bytes (emulator_without_bulk mem) addr size = Ok (mem_range mem addr size).
Proof.
  intros H. unfold Live.read_bytes.
  destruct (size <=? 0) eqn:E; [apply Z.leb_le in E; lia|]. simpl.
  rewrite (for_each_ok _ (fun i => byte_val (mem (addr + i)))).
  - unfold mem_range. rewrite <- (map_map (fun i => mem (addr + i)) byte_val).
    apply bytes_of_ints_byte_vals.
  - intros i. apply (live_u8_emulator mem (addr + i)).
Qed.

Lemma peek_backed (mem : memory) (self : SnapshotMemoryReader)
      (seg : SnapshotSegment) (i : Z) :
  backed_by mem self -> In seg (segments self) -> 0 <= i < len (data seg) ->
  peek (data seg) i = byte_val (mem (start seg + i)).
Proof.
  intros Hb Hin Hi. rewrite (Hb seg Hin) at 1. apply peek_mem_range. exact Hi.
Qed.

Lemma covered_lookup (self : SnapshotMemoryReader) (addr size : Z) :
  0 < size -> covered self addr size ->
  exists seg, lookup_result self addr size = Ok (seg, addr - start seg)
              /\ In seg (segments self)
              /\ 0 <= addr - start seg
              /\ addr - start seg + size <= len (data seg).
Proof.
  intros Hs Hc.
  destruct (proj2 (lookup_ok_iff self addr size) (conj Hs Hc)) as [[seg off] L].
  pose proof (lookup_ok_bounds _ _ _ _ _ L) as [Hin [-> [H0 [_ H1]]]].
  exists seg. auto.
Qed.

Lemma capture_backed_by (mem : memory) (ranges : list (Z * Z)) :
  backed_by mem (Snapshot.from_ranges ranges (capture mem ranges)).
Proof.
  intros s Hs. simpl in Hs. apply (proj1 (sort_segments_In _ _)) in Hs.
  induction ranges as [|[a n] ranges IH]; simpl in Hs; [destruct Hs|].
  destruct (a =? 0); simpl in Hs; [apply IH; exact Hs|].
  destruct Hs as [<-|Hs]; [|apply IH; exact Hs].
  simpl. rewrite len_mem_range, !mem_range_seq.
  replace (Z.to_nat (Z.max 0 n)) with (Z.to_nat n) by lia. reflexivity.
Qed.

(** ** [memory/reader.py]: snapshot against live reads *)

(** C2, as amended.  Let a snapshot reader be well formed (its start index
    lists its segments, sorted by start, as [from_ranges] builds it) and
    hold the bytes of a memory.  For a region of positive length that
    lies inside the segment the lookup lands on -- the last segment, in
    start order, that starts at or below the address -- every read
    ([u8], [u16], [u32], [read_bytes]) through the snapshot succeeds and
    returns exactly what the same read returns through a live reader on
    that memory, with or without the bulk primitive.  When the segments
    are non-empty and do not overlap, lying inside any segment is
    enough. *)
Theorem snapshot_reads_agree_with_live :
  forall (mem : memory) (self : SnapshotMemoryReader) (addr size : Z),
    well_formed self -> backed_by mem self ->
    (covered self addr 1 ->
       Snapshot.u8 self addr = Ok (byte_val (mem addr))
       /\ Live.u8 (emulator mem) addr = Ok (byte_val (mem addr)))
    /\ (covered self addr 2 ->
       Snapshot.u16 self addr = Ok (mem_u16 mem addr)
       /\ Live.u16 (emulator mem) addr = Ok (mem_u16 mem addr))
    /\ (covered self addr 4 ->
       Snapshot.u32 self addr = Ok (mem_u32 mem addr)
       /\ Live.u32 (emulator mem) addr = Ok (mem_u32 mem addr))
    /\ (0 < size -> covered self addr size ->
       Snapshot.read_bytes self addr size = Ok (mem_range mem addr size)
       /\ Live.read_bytes (emulator mem) addr size = Ok (mem_range mem addr size)
       /\ Live.read_bytes (emulator_without_bulk mem) addr size
          = Ok (mem_range mem addr size))
    /\ (separated (segments self) -> 0 < size ->
        forall s, In s (segments self) -> contains s addr size ->
                  covered self addr size).
Proof.
  intros mem self addr size Hwf Hb.
  split; [|split; [|split; [|split]]].
  - intros Hc. split; [|apply live_u8_emulator].
    destruct (covered_lookup self addr 1 ltac:(lia) Hc) as [seg [L [Hin [H0 H1]]]].
    rewrite snapshot_u8_lookup, L by exact Hwf.
    rewrite (peek_backed mem self seg) by (auto; lia).
    replace (start seg + (addr - start seg)) with addr by lia. reflexivity.
  - intros Hc. split; [|apply live_u16_emulator].
    destruct (covered_lookup self addr 2 ltac:(lia) Hc) as [seg [L [Hin [H0 H1]]]].
    rewrite snapshot_u16_lookup, L by exact Hwf.
    rewrite !(peek_backed mem self seg) by (auto; lia).
    unfold mem_u16.
    replace (start seg + (addr - start seg)) with addr by lia.
    replace (start seg + (addr - start seg + 1)) with (addr + 1) by lia.
    reflexivity.
  - intros Hc. split; [|apply live_u32_emulator].
    destruct (covered_lookup self addr 4 ltac:(lia) Hc) as [seg [L [Hin [H0 H1]]]].
    rewrite snapshot_u32_lookup, L by exact Hwf.
    rewrite !(peek_backed mem self seg) by (auto; lia).
    unfold mem_u32.
    replace (start seg + (addr - start seg)) with addr by lia.
    replace (start seg + (addr - start seg + 1)) with (addr + 1) by lia.
    replace (start seg + (addr - start seg + 2)) with (addr + 2) by lia.
    replace (start seg + (addr - start seg + 3)) with (addr + 3) by lia.
    reflexivity.
  - intros Hs Hc.
    split; [|split;
             [apply live_read_bytes_emulator|apply live_read_bytes_without_bulk];
             exact Hs].
    destruct (covered_lookup self addr size Hs Hc) as [seg [L [Hin [H0 H1]]]].
    rewrite snapshot_read_bytes_lookup, L by exact Hwf.
    rewrite (Hb seg Hin), mem_range_window by lia.
    replace (start seg + (addr - start seg)) with addr by lia. reflexivity.
  - intros Hsep Hs s Hin Hc. exists s. split; [|exact Hc].
    apply (separated_selected _ _ size); assumption.
Qed.

Lemma snapshot_reads_agree_with_live_witness :
  Snapshot.u32 sample_snapshot 0x104 = Live.u32 (emulator sample_memory) 0x104
  /\ Snapshot.read_bytes sample_snapshot 0x202 5
     = Live.read_bytes (emulator_without_bulk sample_memory) 0x202 5.
Proof.
  assert (Hwf : well_formed sample_snapshot) by apply from_ranges_well_formed.
  assert (Hb : backed_by sample_memory sample_snapshot).
  { intros s Hs. simpl in Hs.
    destruct Hs as [<-|[<-|[]]]; vm_compute; reflexivity. }
  split.
  - destruct (snapshot_reads_agree_with_live sample_memory sample_snapshot
                0x104 4 Hwf Hb) as [_ [_ [H32 _]]].
    destruct H32 as [Hs Hl].
    + eexists. split; [vm_compute; reflexivity|].
      unfold contains, seg_end, len. simpl. lia.
    + rewrite Hs, Hl. reflexivity.
  - destruct (snapshot_reads_agree_with_live sample_memory sample_snapshot
                0x202 5 Hwf Hb) as [_ [_ [_ [Hrb _]]]].
    destruct Hrb as [Hs [_ Hl]].
    + lia.
    + eexists. split; [vm_compute; reflexivity|].
      unfold contains, seg_end, len. simpl. lia.
    + rewrite Hs, Hl. reflexivity.
Defined.

(** C2, counterexample.  A snapshot of two overlapping ranges of a memory:
    the byte at [0x10C] lies inside the captured segment
    [[0x100, 0x110)], the live reader returns it, the snapshot reader
    raises, because the lookup lands on the shorter segment that starts at
    [0x108].  An empty region is answered [b""] by the live reader and
    refused by the snapshot reader. *)
Lemma snapshot_live_disagree :
  backed_by sample_memory overlapping_snapshot
  /\ (exists s, In s (segments overlapping_snapshot) /\ contains s 0x10C 1)
  /\ Snapshot.u8 overlapping_snapshot 0x10C = Raise KeyError
  /\ Live.u8 (emulator sample_memory) 0x10C = Ok 12
  /\ (exists s, In s (segments overlapping_snapshot) /\ contains s 0x100 0)
  /\ Snapshot.read_bytes overlapping_snapshot 0x100 0 = Raise KeyError
  /\ Live.read_bytes (emulator sample_memory) 0x100 0 = Ok [].
Proof.
  split; [apply capture_backed_by|].
  split.
  { eexists. split; [left; reflexivity|].
    unfold contains, seg_end, len. simpl. lia. }
  split; [vm_compute; reflexivity|].
  split; [vm_compute; reflexivity|].
  split.
  { eexists. split; [left; reflexivity|].
    unfold contains, seg_end, len. simpl. lia. }
  split; vm_compute; reflexivity.
Qed.

(** ** [memory/reader.py]: when a snapshot read succeeds *)

Lemma insert_segment_perm (s : SnapshotSegment) (l : list SnapshotSegment) :
  Permutation (insert_segment s l) (s :: l).
Proof.
  induction l as [|h l IH]; simpl; [apply Permutation_refl|].
  destruct (start s <=? start h); [apply Permutation_refl|].
  eapply perm_trans; [apply perm_skip; exact IH|apply perm_swap].
Qed.

Lemma sort_segments_perm (l : list SnapshotSegment) :
  Permutation (sort_segments l) l.
Proof.
  induction l as [|h l IH]; simpl; [apply perm_nil|].
  eapply perm_trans; [apply insert_segment_perm|apply perm_skip; exact IH].
Qed.

Lemma captured_segments_kept (ranges : list (Z * Z)) :
  forall (chunks : list (option bytes)) (s : SnapshotSegment),
    In s (captured_segments ranges chunks) <-> kept_entry ranges chunks s.
Proof.
  unfold kept_entry.
  induction ranges as [|[a n] ranges IH]; intros chunks s.
  - simpl. split; [intros []|].
    intros [_ [k [m [H _]]]]. destruct k; discriminate.
  - destruct chunks as [|chunk chunks].
    + simpl. split; [intros []|].
      intros [_ [k [m [_ H]]]]. destruct k; discriminate.
    + assert (Hrest : (start s <> 0 /\ exists k m,
                          nth_error ranges k = Some (start s, m)
                          /\ nth_error chunks k = Some (Some (data s)))
                      -> start s <> 0 /\ exists k m,
                          nth_error ((a, n) :: ranges) k = Some (start s, m)
                          /\ nth_error (chunk :: chunks) k = Some (Some (data s))).
      { intros [H0 [k [m H]]]. split; [exact H0|]. exists (S k), m. exact H. }
      simpl captured_segments.
      destruct chunk as [c|].
      * destruct (a =? 0) eqn:E; simpl negb; cbv iota.
        -- apply Z.eqb_eq in E. rewrite IH. split; [exact Hrest|].
           intros [H0 [k [m [H1 H2]]]]. split; [exact H0|].
           destruct k as [|k]; simpl in H1, H2; [|eauto].
           injection H1 as H1 _. congruence.
        -- apply Z.eqb_neq in E. simpl. rewrite IH. split.
           ++ intros [<-|H]; [|apply Hrest; exact H].
              simpl. split; [exact E|]. exists 0%nat, n. split; reflexivity.
           ++ intros [H0 [k [m [H1 H2]]]].
              destruct k as [|k]; simpl in H1, H2; [|right; eauto].
              left. injection H1 as H1 _. injection H2 as H2.
              destruct s as [ss sd]. simpl in *. congruence.
      * rewrite IH. split; [exact Hrest|].
        intros [H0 [k [m [H1 H2]]]]. split; [exact H0|].
        destruct k as [|k]; simpl in H1, H2; [discriminate|eauto].
Qed.

(** C3, as amended.  [from_ranges] keeps exactly the entries with a
    non-zero address and a [bytes] chunk and sorts them by start address.
    A read of [size] bytes at [addr] through the resulting reader succeeds
    if and only if [size] is positive and [addr, addr + size) lies inside
    the segment the lookup lands on (the last segment in start order that
    starts at or below [addr]); every other read, among them any read that
    spans a gap or a segment boundary and any empty read, raises
    [KeyError].  When the segments are non-empty and do not overlap, the
    condition is that the range lies inside one captured segment. *)
Theorem snapshot_read_succeeds_iff_covered :
  forall (ranges : list (Z * Z)) (chunks : list (option bytes)) (addr size : Z),
    let self := Snapshot.from_ranges ranges chunks in
    (Permutation (segments self) (captured_segments ranges chunks)
     /\ (forall s, In s (captured_segments ranges chunks)
                   <-> kept_entry ranges chunks s)
     /\ sorted_by_start (segments self)
     /\ _starts self = map start (segments self))
    /\ covered_or_KeyError (Snapshot._segment_for self addr size) self addr size
    /\ covered_or_KeyError (Snapshot.u8 self addr) self addr 1
    /\ covered_or_KeyError (Snapshot.u16 self addr) self addr 2
    /\ covered_or_KeyError (Snapshot.u32 self addr) self addr 4
    /\ covered_or_KeyError (Snapshot.read_bytes self addr size) self addr size
    /\ (separated (segments self) -> 0 < size ->
        (covered self addr size
         <-> exists s, In s (segments self) /\ contains s addr size)).
Proof.
  intros ranges chunks addr size self.
  assert (Hwf : well_formed self) by apply from_ranges_well_formed.
  split; [|split; [|split; [|split; [|split; [|split]]]]].
  - split; [apply sort_segments_perm|].
    split; [apply captured_segments_kept|].
    split; [apply sort_segments_sorted|reflexivity].
  - apply (covered_or_KeyError_of_lookup _ _ _ _ (fun so => so)).
    rewrite _segment_for_spec by exact Hwf.
    destruct (lookup_result self addr size); reflexivity.
  - apply (covered_or_KeyError_of_lookup _ _ _ _
             (fun so => peek (data (fst so)) (snd so))).
    rewrite snapshot_u8_lookup by exact Hwf.
    destruct (lookup_result self addr 1) as [[seg off]|]; reflexivity.
  - apply (covered_or_KeyError_of_lookup _ _ _ _
             (fun so => Z.lor (peek (data (fst so)) (snd so))
                              (Z.shiftl (peek (data (fst so)) (snd so + 1)) 8))).
    rewrite snapshot_u16_lookup by exact Hwf.
    destruct (lookup_result self addr 2) as [[seg off]|]; reflexivity.
  - apply (covered_or_KeyError_of_lookup _ _ _ _
             (fun so =>
                Z.lor (Z.lor (Z.lor (peek (data (fst so)) (snd so))
                                    (Z.shiftl (peek (data (fst so)) (snd so + 1)) 8))
                             (Z.shiftl (peek (data (fst so)) (snd so + 2)) 16))
                      (Z.shiftl (peek (data (fst so)) (snd so + 3)) 24))).
    rewrite snapshot_u32_lookup by exact Hwf.
    destruct (lookup_result self addr 4) as [[seg off]|]; reflexivity.
  - apply (covered_or_KeyError_of_lookup _ _ _ _
             (fun so => firstn (Z.to_nat size)
                               (skipn (Z.to_nat (snd so)) (data (fst so))))).
    rewrite snapshot_read_bytes_lookup by exact Hwf.
    destruct (lookup_result self addr size) as [[seg off]|]; reflexivity.
  - intros Hsep Hs. split.
    + intros [s [Hsel Hc]]. exists s. split; [|exact Hc].
      apply (selected_segment_In _ _ _ Hsel).
    + intros [s [Hin Hc]]. exists s. split; [|exact Hc].
      apply (separated_selected _ _ size); assumption.
Qed.

Lemma snapshot_read_succeeds_iff_covered_witness :
  (exists v, Snapshot.u16 sample_snapshot 0x10E = Ok v)
  /\ (covered sample_snapshot 0x204 3
      <-> exists s, In s (segments sample_snapshot) /\ contains s 0x204 3).
Proof.
  pose proof (snapshot_read_succeeds_iff_covered sample_ranges
                [Some (mem_range sample_memory 0x200 8);
                 Some (mem_range sample_memory 0 4);
                 Some (mem_range sample_memory 0x100 16);
                 None] 0x10E 2) as H16.
  pose proof (snapshot_read_succeeds_iff_covered sample_ranges
                [Some (mem_range sample_memory 0x200 8);
                 Some (mem_range sample_memory 0 4);
                 Some (mem_range sample_memory 0x100 16);
                 None] 0x204 3) as H3.
  cbv zeta in H16, H3.
  destruct H16 as [_ [_ [_ [[Hiff _] _]]]].
  destruct H3 as [_ [_ [_ [_ [_ [_ Hsep]]]]]].
  split.
  - apply Hiff. split; [lia|].
    eexists. split; [vm_compute; reflexivity|].
    unfold contains, seg_end, len. simpl. lia.
  - apply Hsep; [|lia].
    simpl. unfold len. simpl.
    repeat split; try lia;
      intros t Ht; repeat (destruct Ht as [<-|Ht]); try (destruct Ht);
      unfold seg_end, len; simpl; lia.
Defined.

(** C3, counterexample.  The bulk read returned sixteen bytes for
    [0x100] and none for [0x108].  The byte at [0x10C] lies inside the
    captured segment [[0x100, 0x110)], yet every read of it raises: the
    lookup lands on the empty segment that starts at [0x108].  An empty
    range inside a segment is refused as well. *)
Lemma contained_read_fails :
  (exists s, In s (segments shadowed_snapshot) /\ contains s 0x10C 1)
  /\ Snapshot.u8 shadowed_snapshot 0x10C = Raise KeyError
  /\ Snapshot.read_bytes shadowed_snapshot 0x10C 1 = Raise KeyError
  /\ (exists s, In s (segments shadowed_snapshot) /\ contains s 0x100 0)
  /\ Snapshot.read_bytes shadowed_snapshot 0x100 0 = Raise KeyError.
Proof.
  split.
  { eexists. split; [left; reflexivity|].
    unfold contains, seg_end, len. simpl. lia. }
  split; [vm_compute; reflexivity|].
  split; [vm_compute; reflexivity|].
  split.
  { eexists. split; [left; reflexivity|].
    unfold contains, seg_end, len. simpl. lia. }
  vm_compute. reflexivity.
Qed.

(** ** [ui/menus.py]: the selected index *)

Lemma bag_selected_index_value (scroll row : N) (stacks shown : Z) (hide : bool) :
  let w := bag_list_window (Z.of_N scroll) (Z.of_N row) stacks shown hide in
  total_entries w = Z.max 0 (stacks + (if hide then 0 else 1))
  /\ selected_index w
     = clamp (Z.of_N scroll + Z.of_N row) 0 (total_entries w - 1).
Proof.
  pose proof (N2Z.is_nonneg scroll) as Hs.
  pose proof (N2Z.is_nonneg row) as Hr.
  unfold bag_list_window, clamp.
  destruct hide; split_comparisons; simpl; lia.
Qed.

Lemma tm_case_selected_index_value (scroll row : N) (num_tms shown : Z) :
  let w := tm_case_list_window (Z.of_N scroll) (Z.of_N row) num_tms shown in
  total_entries w = Z.max 1 (num_tms + 1)
  /\ selected_index w
     = clamp (Z.of_N scroll + Z.of_N row) 0 (total_entries w - 1).
Proof.
  pose proof (N2Z.is_nonneg scroll) as Hs.
  pose proof (N2Z.is_nonneg row) as Hr.
  unfold tm_case_list_window, clamp.
  split_comparisons; simpl; lia.
Qed.

(** C5.  In the bag and in the TM case the selected index is
    [clamp(scroll + cursorRow, 0, total - 1)], where [scroll] and
    [cursorRow] are the unsigned fields the detectors read and [total] is
    the number of list entries, which is never negative (in the bag it
    takes every value from zero up, in the TM case every value from one
    up).  Hence the index lies in [[0, total)] whenever [total > 0], is
    [0] when [total = 0], and equals [scroll + cursorRow] whenever that
    sum is below [total]. *)
Theorem selected_index_is_clamped_sum :
  forall (scroll cursor_row : N) (num_item_stacks num_shown_items : Z)
         (hide_close_bag : bool) (num_tms max_shown : Z),
    let sum := Z.of_N scroll + Z.of_N cursor_row in
    let bag := bag_list_window (Z.of_N scroll) (Z.of_N cursor_row)
                               num_item_stacks num_shown_items hide_close_bag in
    let tm := tm_case_list_window (Z.of_N scroll) (Z.of_N cursor_row)
                                  num_tms max_shown in
    (total_entries bag
       = Z.max 0 (num_item_stacks + (if hide_close_bag then 0 else 1))
     /\ selected_index bag = clamp sum 0 (total_entries bag - 1)
     /\ (total_entries bag = 0 /\ selected_index bag = 0
         \/ 0 <= selected_index bag < total_entries bag)
     /\ (total_entries bag <= sum \/ selected_index bag = sum))
    /\ (total_entries tm = Z.max 1 (num_tms + 1)
        /\ selected_index tm = clamp sum 0 (total_entries tm - 1)
        /\ 0 <= selected_index tm < total_entries tm
        /\ (total_entries tm <= sum \/ selected_index tm = sum)).
Proof.
  intros scroll row stacks shown hide num_tms max_shown sum bag tm.
  pose proof (N2Z.is_nonneg scroll) as Hs.
  pose proof (N2Z.is_nonneg row) as Hr.
  destruct (bag_selected_index_value scroll row stacks shown hide) as [Hbt Hbs].
  destruct (tm_case_selected_index_value scroll row num_tms max_shown) as [Htt Hts].
  fold bag in Hbt, Hbs. fold tm in Htt, Hts. fold sum in Hbs, Hts.
  unfold clamp in *.
  repeat split; try assumption; lia.
Qed.

(** ** Task matching ignores the tag bit *)







Lemma same_live_tasks_refl (K : Addresses) (io : Mgba) :
  same_live_tasks_up_to_tag K io io.
Proof.
  intros i. split; [reflexivity|].
  destruct (mgba_read32 io _); [left|]; reflexivity.
Qed.





Lemma same_tasks_refl (K : Addresses) (raw : bytes) : same_tasks_up_to_tag K raw raw.
Proof.
  split; [reflexivity|]. intros i. split; [reflexivity|].
  rewrite _u32le_from_value.
  eexists. eexists. split; [reflexivity|]. split; [reflexivity|]. left. reflexivity.
Qed.




Lemma len_poke (raw : bytes) (i : nat) (b : byte) :
  (i < List.length raw)%nat -> len (poke raw i b) = len raw.
Proof.
  intros Hi. unfold len, poke.
  rewrite length_app, length_firstn. cbn [List.length]. rewrite length_skipn. lia.
Qed.




(** ** [ui/dialog.py]: the fast path and the chain *)

Lemma fast_path_guard_outside_battle (K : Addresses) (io : Mgba)
      (b : _DialogBuffers) (cb : Z) :
  fast_path_guard K io b cb = true -> in_battle b = false /\ field_locked b = false.
Proof.
  unfold fast_path_guard. intros H.
  repeat (apply andb_true_iff in H; destruct H as [H ?]).
  split; apply negb_true_iff; assumption.
Qed.

Lemma _compute_fast_path (K : Addresses) (env : Env) (b : _DialogBuffers) :
  fast_path_guard K (mgba env) b (Z.land (callback2 b) 0xFFFFFFFF) = true ->
  _compute K env b = Ok (none_record K env b).
Proof.
  intros H. destruct (fast_path_guard_outside_battle _ _ _ _ H) as [Hb Hl].
  unfold _compute, compute_in_dialog, none_record. rewrite Hb, Hl, H. reflexivity.
Qed.


Lemma detector_chain_title (K : Addresses) (env : Env) (b : _DialogBuffers)
      (cb : Z) (in_dialog : bool) (result : Result) (t : title_screen_state) :
  get_title_screen_press_start_state K (mgba env) (Some cb) (tasks_raw b) = Some t ->
  exists r, detector_chain K env b cb in_dialog result = Ok r
            /\ inDialog r = true
            /\ menuType r = Some (u "titleScreen")
            /\ titleScreen r = Some t
            /\ visibleText r = Some TITLE_SCREEN_PRESS_START_VISIBLE_TEXT.
Proof.
  intros H. unfold detector_chain. rewrite H.
  eexists. split; [reflexivity|]. repeat split.
Qed.

Lemma get_dialog_state_of_snapshot (K : Addresses) (env : Env)
      (snapshot : list (option bytes)) :
  len (_DIALOG_SNAPSHOT_RANGES K) <= len snapshot ->
  get_dialog_state K env (Some snapshot)
  = _compute K env (snapshot_buffers K (mgba env) snapshot).
Proof.
  intros H. unfold get_dialog_state.
  destruct (len snapshot >=? len (_DIALOG_SNAPSHOT_RANGES K)) eqn:E;
    [reflexivity|].
  rewrite Z.geb_leb in E. apply Z.leb_gt in E. lia.
Qed.

Lemma get_dialog_state_short_snapshot (K : Addresses) (env : Env)
      (snapshot : list (option bytes)) :
  len snapshot < len (_DIALOG_SNAPSHOT_RANGES K) ->
  get_dialog_state K env (Some snapshot) = slow_fallback env.
Proof.
  intros H. unfold get_dialog_state.
  destruct (len snapshot >=? len (_DIALOG_SNAPSHOT_RANGES K)) eqn:E;
    [|reflexivity].
  rewrite Z.geb_leb in E. apply Z.leb_le in E. lia.
Qed.

Lemma idle_memory_buffers :
  snapshot_buffers sample_addresses offline
                   (dialog_snapshot sample_addresses idle_memory)
  = idle_overworld.
Proof. vm_compute. reflexivity. Qed.

Lemma title_task_memory_buffers :
  snapshot_buffers sample_addresses offline
                   (dialog_snapshot sample_addresses title_task_memory)
  = overworld_with_title_task.
Proof. vm_compute. reflexivity. Qed.

Lemma dialog_snapshot_len (mem : memory) :
  len (_DIALOG_SNAPSHOT_RANGES sample_addresses)
  <= len (dialog_snapshot sample_addresses mem).
Proof.
  unfold dialog_snapshot, capture, len. rewrite length_map. lia.
Qed.

(** C1, as amended.  When the guard of the fast path holds on the buffers
    read from the snapshot, [get_dialog_state] returns the default 'none'
    record at once.  The
    detector chain, run on the same buffers, returns what its detectors
    decide, and the guard does not decide for them: if the title-screen
    detector recognises its screen the chain returns a [titleScreen]
    record, if a later detector does the chain returns that detector's
    record, and otherwise the chain returns what the closing plain-text
    branch makes of the 'none' record.  The two agree exactly when that
    outcome is the 'none' record. *)
Theorem fast_path_returns_none_record :
  forall (K : Addresses) (env : Env) (snapshot : list (option bytes)),
    let b := snapshot_buffers K (mgba env) snapshot in
    let cb := Z.land (callback2 b) 0xFFFFFFFF in
    let none := none_record K env b in
    let title :=
      get_title_screen_press_start_state K (mgba env) (Some cb) (tasks_raw b) in
    len (_DIALOG_SNAPSHOT_RANGES K) <= len snapshot ->
    fast_path_guard K (mgba env) b cb = true ->
    get_dialog_state K env (Some snapshot) = Ok none
    /\ menuType none = None /\ inDialog none = false
    /\ (forall t, title = Some t ->
          exists r, detector_chain K env b cb false none = Ok r
                    /\ menuType r = Some (u "titleScreen")
                    /\ r <> none)
    /\ (forall r, title = None -> later_detectors env b none = Some r ->
          detector_chain K env b cb false none = Ok r)
    /\ (title = None -> later_detectors env b none = None ->
          detector_chain K env b cb false none
          = plain_dialog env b none false
                         (false || birch_speech_active env (tasks_raw b))).
Proof.
  intros K env snapshot b cb none title Hlen Hg.
  destruct (fast_path_guard_outside_battle _ _ _ _ Hg) as [Hb Hl].
  split.
  { rewrite get_dialog_state_of_snapshot by exact Hlen.
    apply _compute_fast_path. exact Hg. }
  split; [reflexivity|]. split; [reflexivity|].
  split; [|split].
  - intros t Ht.
    destruct (detector_chain_title K env b cb false none t Ht)
      as [r [Hr [_ [Hm _]]]].
    exists r. split; [exact Hr|]. split; [exact Hm|].
    intros E. rewrite E in Hm. discriminate.
  - intros r Ht Hlater. unfold detector_chain.
    fold title. rewrite Ht, Hlater. reflexivity.
  - intros Ht Hlater. unfold detector_chain.
    fold title. rewrite Ht, Hlater, Hb. reflexivity.
Qed.

Lemma fast_path_returns_none_record_witness :
  get_dialog_state sample_addresses quiet_env
                   (Some (dialog_snapshot sample_addresses idle_memory))
  = Ok (none_record sample_addresses quiet_env idle_overworld)
  /\ detector_chain sample_addresses quiet_env idle_overworld 0x080565B5 false
                    (none_record sample_addresses quiet_env idle_overworld)
     = Ok (none_record sample_addresses quiet_env idle_overworld).
Proof.
  pose proof (fast_path_returns_none_record
                sample_addresses quiet_env
                (dialog_snapshot sample_addresses idle_memory)
                (dialog_snapshot_len idle_memory)) as H.
  cbv zeta in H. change (mgba quiet_env) with offline in H.
  rewrite idle_memory_buffers in H.
  destruct H as [Hc [_ [_ [_ [_ Hplain]]]]]; [vm_compute; reflexivity|].
  split; [exact Hc|].
  change (Z.land (callback2 idle_overworld) 0xFFFFFFFF) with 0x080565B5 in Hplain.
  rewrite Hplain.
  - reflexivity.
  - vm_compute. reflexivity.
  - reflexivity.
Defined.

(** C1, counterexample.  The snapshot of an overworld frame (overworld
    callback, controls free, no battle, no window, no active printer) in
    which one active task runs a title-screen task: the guard holds and
    [get_dialog_state] returns the 'none' record, while the detector
    chain, whose first detector looks at the tasks, returns a
    [titleScreen] record with the title banner. *)
Lemma fast_path_differs_from_chain :
  snapshot_buffers sample_addresses (mgba quiet_env)
                   (dialog_snapshot sample_addresses title_task_memory)
  = overworld_with_title_task
  /\ fast_path_guard sample_addresses (mgba quiet_env) overworld_with_title_task
                     0x080565B5 = true
  /\ get_dialog_state sample_addresses quiet_env
       (Some (dialog_snapshot sample_addresses title_task_memory))
     = Ok (_default_result false false)
  /\ exists r,
       detector_chain sample_addresses quiet_env overworld_with_title_task
                      0x080565B5 false (_default_result false false) = Ok r
       /\ menuType r = Some (u "titleScreen")
       /\ visibleText r = Some TITLE_SCREEN_PRESS_START_VISIBLE_TEXT
       /\ r <> _default_result false false.
Proof.
  split; [exact title_task_memory_buffers|].
  split; [vm_compute; reflexivity|].
  split; [vm_compute; reflexivity|].
  eexists. split; [vm_compute; reflexivity|].
  split; [vm_compute; reflexivity|].
  split; [vm_compute; reflexivity|].
  vm_compute. discriminate.
Qed.

(** ** [ui/dialog.py]: the [visibleText] entry *)




(** ** [ui/battle.py] and the in-battle branch *)




Lemma slice_prefix {A : Type} (l : list A) (n : Z) :
  0 <= n <= len l -> slice l 0 n = firstn (Z.to_nat n) l.
Proof.
  intros H. replace n with (0 + n) at 1 by lia.
  rewrite slice_window by lia. reflexivity.
Qed.

Lemma item_or_none_nth {A : Type} (l : list A) (i : Z) :
  0 <= i -> item_or_none l i = nth_error l (Z.to_nat i).
Proof.
  intros Hi. unfold item_or_none.
  destruct (0 <=? i) eqn:E0; [|apply Z.leb_gt in E0; lia].
  destruct (i <? len l) eqn:E1; [reflexivity|].
  apply Z.ltb_ge in E1. simpl. symmetry. apply nth_error_None.
  unfold len in E1. lia.
Qed.

Lemma enumerate_In {A : Type} (l : list A) (i : Z) (x : A) :
  In (i, x) (enumerate l) -> 0 <= i < len l.
Proof.
  unfold enumerate. intros H. apply in_combine_l in H.
  apply in_map_iff in H. destruct H as [k [<- Hk]].
  apply in_seq in Hk. unfold len. lia.
Qed.

Lemma first_registered_some (funcs : list (Z * Z)) (addr_list : list Z)
      (b f : Z) :
  first_registered funcs addr_list = Some (b, f) ->
  In (b, f) funcs /\ _ptr_matches_any f addr_list = true.
Proof.
  induction funcs as [|[b' f'] rest IH]; [discriminate|].
  simpl. destruct (_ptr_matches_any f' addr_list) eqn:E.
  - intros H. injection H as <- <-. split; [left; reflexivity|exact E].
  - intros H. destruct (IH H) as [Hin Hm]. split; [right; exact Hin|exact Hm].
Qed.

Lemma first_registered_none (funcs : list (Z * Z)) (addr_list : list Z)
      (b f : Z) :
  first_registered funcs addr_list = None -> In (b, f) funcs ->
  _ptr_matches_any f addr_list = false.
Proof.
  induction funcs as [|[b' f'] rest IH]; [intros _ []|].
  simpl. destruct (_ptr_matches_any f' addr_list) eqn:E; [discriminate|].
  intros H [Heq|Hin]; [injection Heq as <- <-; exact E|auto].
Qed.

(** The cursor of battler [i] in a captured cursor array. *)
Lemma cursor_at (raw : bytes) (n i : Z) :
  0 <= i < n -> n <= len raw ->
  getitem (map byte_val (slice raw 0 n)) i = Ok (peek raw i).
Proof.
  intros Hi Hn. rewrite slice_prefix by lia.
  assert (Hlen : 0 <= i < len (map byte_val (firstn (Z.to_nat n) raw))).
  { unfold len. rewrite length_map, length_firstn. unfold len in Hn. lia. }
  rewrite (getitem_in_range _ i 0 Hlen). f_equal.
  unfold peek. rewrite <- firstn_map, nth_firstn.
  destruct (Nat.ltb_spec (Z.to_nat i) (Z.to_nat n)); [reflexivity|lia].
Qed.






Lemma second_battler_chooses_action_memory_buffers :
  snapshot_buffers sample_addresses offline
    (dialog_snapshot sample_addresses second_battler_chooses_action_memory)
  = second_battler_chooses_action.
Proof. vm_compute. reflexivity. Qed.




(** ** [util/bytes.py]: signed views and field composition *)

Lemma lor_shiftl_add (a b k : Z) :
  0 <= k -> 0 <= a < 2 ^ k -> 0 <= b -> Z.lor a (Z.shiftl b k) = a + b * 2 ^ k.
Proof.
  intros Hk Ha Hb. rewrite Z.shiftl_mul_pow2 by lia.
  assert (Hland : Z.land a (b * 2 ^ k) = 0).
  { apply Z.bits_inj'. intros n Hn. rewrite Z.land_spec, Z.bits_0.
    destruct (Z.ltb_spec n k) as [Hlt|Hge].
    - rewrite Z.mul_pow2_bits_low by lia. apply andb_false_r.
    - destruct (Z.eq_dec a 0) as [->|Hne]; [rewrite Z.bits_0; reflexivity|].
      rewrite (Z.bits_above_log2 a n); [reflexivity|lia|].
      apply Z.log2_lt_pow2; [lia|].
      apply Z.lt_le_trans with (2 ^ k); [lia|].
      apply Z.pow_le_mono_r; lia. }
  rewrite <- Z.lxor_lor by exact Hland.
  symmetry. apply Z.add_nocarry_lxor. exact Hland.
Qed.

(** X1.  [_s8_from_u8] and [_s16_from_u16] are the two's-complement views
    of an unsigned field: whatever integer is reduced to 8 (16) bits, the
    signed view lies in [-128, 128) ([-32768, 32768)), is congruent to the
    field modulo 256 (65536), and is negative exactly when the top bit of
    the field is set. *)
Theorem signed_views_are_twos_complement :
  forall v : Z,
    let b := v mod 256 in
    let h := v mod 65536 in
    (-128 <= _s8_from_u8 b < 128
     /\ (_s8_from_u8 b) mod 256 = b
     /\ (_s8_from_u8 b <? 0) = Z.testbit b 7)
    /\ (-32768 <= _s16_from_u16 h < 32768
        /\ (_s16_from_u16 h) mod 65536 = h
        /\ (_s16_from_u16 h <? 0) = Z.testbit h 15).
Proof.
  intros v b h.
  assert (Hb : 0 <= b < 256) by (apply Z.mod_pos_bound; lia).
  assert (Hh : 0 <= h < 65536) by (apply Z.mod_pos_bound; lia).
  unfold _s8_from_u8, _s16_from_u16. split.
  - rewrite Z.gtb_ltb. destruct (127 <? b) eqn:E.
    + apply Z.ltb_lt in E. split; [lia|]. split.
      * replace (b - 256) with (b + (-1) * 256) by lia.
        rewrite Z.mod_add by lia. apply Z.mod_small. lia.
      * rewrite Z.testbit_eqb by lia.
        replace (b / 2 ^ 7) with 1
          by (change (2 ^ 7) with 128; apply Z.div_unique with (b - 128); lia).
        destruct (b - 256 <? 0) eqn:E2; [reflexivity|apply Z.ltb_ge in E2; lia].
    + apply Z.ltb_ge in E. split; [lia|]. split.
      * apply Z.mod_small. lia.
      * rewrite Z.testbit_eqb by lia.
        rewrite Z.div_small by (simpl; lia).
        destruct (b <? 0) eqn:E2; [apply Z.ltb_lt in E2; lia|reflexivity].
  - rewrite Z.gtb_ltb. destruct (32767 <? h) eqn:E.
    + apply Z.ltb_lt in E. split; [lia|]. split.
      * replace (h - 65536) with (h + (-1) * 65536) by lia.
        rewrite Z.mod_add by lia. apply Z.mod_small. lia.
      * rewrite Z.testbit_eqb by lia.
        replace (h / 2 ^ 15) with 1
          by (change (2 ^ 15) with 32768; apply Z.div_unique with (h - 32768); lia).
        destruct (h - 65536 <? 0) eqn:E2; [reflexivity|apply Z.ltb_ge in E2; lia].
    + apply Z.ltb_ge in E. split; [lia|]. split.
      * apply Z.mod_small. lia.
      * rewrite Z.testbit_eqb by lia.
        rewrite Z.div_small by (simpl; lia).
        destruct (h <? 0) eqn:E2; [apply Z.ltb_lt in E2; lia|reflexivity].
Qed.

Lemma out_of_bounds_false (raw : bytes) (offset width : Z) :
  0 <= offset -> offset + width <= len raw -> out_of_bounds raw offset width = false.
Proof.
  intros H0 H1. unfold out_of_bounds.
  destruct (offset <? 0) eqn:E0; [apply Z.ltb_lt in E0; lia|].
  destruct (len raw <? offset + width) eqn:E1; [apply Z.ltb_lt in E1; lia|].
  reflexivity.
Qed.

(** X2.  Inside the slice the readers compose as little-endian fields: a
    16-bit field is its low byte plus 256 times its high byte, a 32-bit
    field is its low half plus 65536 times its high half, and each value
    lies within its width. *)
Theorem little_endian_fields_compose :
  forall (raw : bytes) (offset : Z),
    0 <= offset -> offset + 4 <= len raw ->
    exists b0 b1 lo hi w,
      _u8_from raw offset = Ok b0
      /\ _u8_from raw (offset + 1) = Ok b1
      /\ _u16le_from raw offset = Ok lo
      /\ _u16le_from raw (offset + 2) = Ok hi
      /\ _u32le_from raw offset = Ok w
      /\ lo = b0 + 256 * b1
      /\ w = lo + 65536 * hi
      /\ 0 <= b0 < 256 /\ 0 <= b1 < 256
      /\ 0 <= lo < 65536 /\ 0 <= hi < 65536
      /\ 0 <= w < 4294967296.
Proof.
  intros raw offset H0 H4.
  pose proof (peek_range raw offset) as R0.
  pose proof (peek_range raw (offset + 1)) as R1.
  pose proof (peek_range raw (offset + 2)) as R2.
  pose proof (peek_range raw (offset + 3)) as R3.
  exists (peek raw offset), (peek raw (offset + 1)),
         (peek raw offset + 256 * peek raw (offset + 1)),
         (peek raw (offset + 2) + 256 * peek raw (offset + 3)),
         (peek raw offset + 256 * peek raw (offset + 1)
          + 65536 * (peek raw (offset + 2) + 256 * peek raw (offset + 3))).
  rewrite !_u8_from_value, !_u16le_from_value, _u32le_from_value.
  rewrite !out_of_bounds_false by lia.
  replace (offset + 2 + 1) with (offset + 3) by lia.
  rewrite (lor_shiftl_add (peek raw offset) (peek raw (offset + 1)) 8)
    by (change (2 ^ 8) with 256; lia).
  rewrite (lor_shiftl_add (peek raw (offset + 2)) (peek raw (offset + 3)) 8)
    by (change (2 ^ 8) with 256; lia).
  rewrite (lor_shiftl_add _ (peek raw (offset + 2)) 16)
    by (change (2 ^ 8) with 256; change (2 ^ 16) with 65536; lia).
  rewrite (lor_shiftl_add _ (peek raw (offset + 3)) 24)
    by (change (2 ^ 8) with 256; change (2 ^ 16) with 65536;
        change (2 ^ 24) with 16777216; lia).
  change (2 ^ 8) with 256. change (2 ^ 16) with 65536.
  change (2 ^ 24) with 16777216.
  repeat split; try lia; f_equal; lia.
Qed.

Lemma little_endian_fields_compose_witness :
  exists b0 b1 lo hi w,
    _u8_from [x78; x56; x34; x12] 0 = Ok b0
    /\ _u8_from [x78; x56; x34; x12] (0 + 1) = Ok b1
    /\ _u16le_from [x78; x56; x34; x12] 0 = Ok lo
    /\ _u16le_from [x78; x56; x34; x12] (0 + 2) = Ok hi
    /\ _u32le_from [x78; x56; x34; x12] 0 = Ok w
    /\ lo = b0 + 256 * b1
    /\ w = lo + 65536 * hi
    /\ 0 <= b0 < 256 /\ 0 <= b1 < 256
    /\ 0 <= lo < 65536 /\ 0 <= hi < 65536
    /\ 0 <= w < 4294967296.
Proof.
  apply (little_endian_fields_compose [x78; x56; x34; x12] 0).
  - lia.
  - vm_compute. discriminate.
Defined.

(** ** [text/encoding.py]: what the decoder reads and how much it writes *)

Lemma decode_loop_past_max (sp : bool) (m : Z) (rest : bytes) (i : Z) :
  m <= i -> decode_loop sp m rest i = [].
Proof.
  intros H. destruct rest as [|b tail]; [reflexivity|].
  rewrite decode_loop_cons.
  destruct (i <? m) eqn:E; [apply Z.ltb_lt in E; lia|reflexivity].
Qed.

Lemma decode_loop_firstn_bounded (sp : bool) (m : Z) (n : nat) :
  forall (rest : bytes) (i : Z), (List.length rest <= n)%nat ->
    decode_loop sp m rest i
    = decode_loop sp m (firstn (Z.to_nat (m - i)) rest) i.
Proof.
  induction n as [|n IH]; intros rest i Hn.
  - destruct rest; [|simpl in Hn; lia]. rewrite firstn_nil. reflexivity.
  - destruct rest as [|b tail]; [rewrite firstn_nil; reflexivity|].
    simpl in Hn.
    destruct (Z.le_gt_cases m i) as [Hle|Hgt].
    + rewrite !decode_loop_past_max by exact Hle. reflexivity.
    + replace (Z.to_nat (m - i)) with (S (Z.to_nat (m - (i + 1)))) by lia.
      rewrite firstn_cons, !decode_loop_cons.
      destruct (negb (i <? m)); [reflexivity|].
      destruct (Byte.eqb b TEXT_TERMINATOR); [reflexivity|].
      destruct (sp && in_bytes b PROMPT_CHARS); [reflexivity|].
      destruct (Byte.eqb b xfc || Byte.eqb b xfd).
      * destruct tail as [|o tail2]; [rewrite firstn_nil; reflexivity|].
        destruct (Z.le_gt_cases m (i + 1)) as [Hle1|Hgt1].
        -- replace (Z.to_nat (m - (i + 1))) with 0%nat by lia.
           rewrite firstn_O. apply decode_loop_past_max. lia.
        -- replace (Z.to_nat (m - (i + 1)))
             with (S (Z.to_nat (m - (i + 2)))) by lia.
           rewrite firstn_cons. apply IH. simpl in Hn. lia.
      * rewrite <- (IH tail (i + 1)) by lia. reflexivity.
Qed.

Lemma firstn_slice {A : Type} (l : list A) (m : Z) :
  0 <= m -> slice l 0 m = firstn (Z.to_nat m) l.
Proof.
  intros Hm. unfold slice, slice_bound.
  pose proof (len_nonneg l) as Hl.
  change (0 <? 0) with false. cbv iota.
  replace (Z.min 0 (len l)) with 0 by lia.
  destruct (m <? 0) eqn:E; [apply Z.ltb_lt in E; lia|].
  change (Z.to_nat 0) with 0%nat. rewrite skipn_O, Z.sub_0_r.
  destruct (Z.le_gt_cases m (len l)) as [Hle|Hgt].
  - rewrite Z.min_l by lia. reflexivity.
  - rewrite Z.min_r by lia. unfold len. rewrite Nat2Z.id.
    rewrite firstn_all. symmetry. apply firstn_all2. unfold len in Hgt. lia.
Qed.

Lemma charmap_single (b : byte) (c : pystr) :
  GBA_CHARMAP b = Some c -> List.length c = 1%nat.
Proof.
  destruct b; simpl; intros H; try discriminate;
    injection H as <-; reflexivity.
Qed.

Lemma join_empty_length (parts : list pystr) :
  Forall (fun p => List.length p = 1%nat) parts ->
  List.length (join [] parts) = List.length parts.
Proof.
  induction parts as [|p ps IH]; intros H; [reflexivity|].
  inversion H as [|? ? Hp Hps]; subst.
  destruct ps as [|q qs]; [simpl; exact Hp|].
  change (join [] (p :: q :: qs)) with (p ++ [] ++ join [] (q :: qs)).
  rewrite app_nil_l, length_app, Hp, (IH Hps). reflexivity.
Qed.

Lemma decode_loop_count (sp : bool) (m : Z) (n : nat) :
  forall (rest : bytes) (i : Z), (List.length rest <= n)%nat ->
    len (decode_loop sp m rest i) <= Z.min (len rest) (Z.max 0 (m - i)).
Proof.
  induction n as [|n IH]; intros rest i Hn.
  - destruct rest; [|simpl in Hn; lia]. unfold len. simpl. lia.
  - destruct rest as [|b tail]; [unfold len; simpl; lia|].
    simpl in Hn. rewrite decode_loop_cons.
    assert (Hz : forall k, len (@nil pystr) <= Z.min (len (b :: tail)) (Z.max 0 k)).
    { intros k. unfold len. simpl. lia. }
    destruct (i <? m) eqn:E; simpl negb; cbv iota; [|apply Hz].
    apply Z.ltb_lt in E.
    destruct (Byte.eqb b TEXT_TERMINATOR); [apply Hz|].
    destruct (sp && in_bytes b PROMPT_CHARS); [apply Hz|].
    destruct (Byte.eqb b xfc || Byte.eqb b xfd).
    + destruct tail as [|o tail2]; [apply Hz|].
      specialize (IH tail2 (i + 2)). simpl in Hn.
      unfold len in *. simpl List.length in *. lia.
    + pose proof (IH tail (i + 1) ltac:(lia)) as IH1.
      destruct (GBA_CHARMAP b);
        unfold len in *; simpl List.length in *; lia.
Qed.

Lemma strip_length (s : pystr) : (List.length (strip s) <= List.length s)%nat.
Proof.
  unfold strip.
  destruct (lstrip_is_suffix s) as [ws Hl].
  destruct (rstrip_is_prefix (lstrip s)) as [ws' Hr].
  rewrite Hl at 2. rewrite Hr at 2. rewrite !length_app. lia.
Qed.

(** X3.  The decoder reads at most [max_len] bytes: the result is the one
    for [raw_bytes[:max_len]], so whatever follows the first [max_len]
    bytes never changes it, and a [max_len] of zero or less gives the
    empty string. *)
Theorem decode_reads_at_most_max_len :
  forall (raw : bytes) (max_len : Z) (stop_at_prompt : bool),
    decode_gba_string raw max_len stop_at_prompt
    = decode_gba_string (slice raw 0 max_len) max_len stop_at_prompt
    /\ (forall rest : bytes,
          max_len <= len raw ->
          decode_gba_string (raw ++ rest) max_len stop_at_prompt
          = decode_gba_string raw max_len stop_at_prompt)
    /\ (max_len <= 0 -> decode_gba_string raw max_len stop_at_prompt = []).
Proof.
  intros raw m sp.
  destruct (Z.le_gt_cases m 0) as [Hle|Hgt].
  - assert (E : forall r, decode_gba_string r m sp = []).
    { intros r. unfold decode_gba_string.
      rewrite decode_loop_past_max by lia. reflexivity. }
    rewrite !E. split; [reflexivity|]. split; [intros; apply E|reflexivity].
  - rewrite firstn_slice by lia.
    assert (E : forall r, decode_gba_string r m sp
                          = decode_gba_string (firstn (Z.to_nat m) r) m sp).
    { intros r. unfold decode_gba_string.
      rewrite (decode_loop_firstn_bounded sp m (List.length r) r 0) by lia.
      rewrite Z.sub_0_r. reflexivity. }
    split; [apply E|]. split; [|lia].
    intros rest Hlen. rewrite (E (raw ++ rest)), (E raw).
    f_equal. rewrite firstn_app.
    replace (Z.to_nat m - List.length raw)%nat with 0%nat
      by (unfold len in Hlen; lia).
    rewrite firstn_O, app_nil_r. reflexivity.
Qed.

Lemma decode_reads_at_most_max_len_witness :
  decode_gba_string ([xbb; xbc] ++ [xbd]) 2 false
  = decode_gba_string [xbb; xbc] 2 false.
Proof.
  apply (proj1 (proj2 (decode_reads_at_most_max_len [xbb; xbc] 2 false))).
  vm_compute. discriminate.
Defined.

(** X4.  The decoded string is never longer than the input, nor than
    [max_len]: every table entry is a single character, and control
    codes, unmapped bytes and stripping only remove characters. *)
Theorem decode_length_bounded :
  forall (raw : bytes) (max_len : Z) (stop_at_prompt : bool),
    len (decode_gba_string raw max_len stop_at_prompt)
    <= Z.min (len raw) (Z.max 0 max_len).
Proof.
  intros raw m sp.
  - unfold decode_gba_string.
    pose proof (strip_length (join [] (decode_loop sp m raw 0))) as Hs.
    pose proof (decode_loop_count sp m (List.length raw) raw 0 (le_n _)) as Hc.
    rewrite Z.sub_0_r in Hc.
    rewrite join_empty_length in Hs.
    + unfold len in *. lia.
    + pose proof (decode_loop_from_charmap sp m raw 0) as Hf.
      eapply Forall_impl; [|exact Hf].
      intros p [b [_ Hb]]. exact (charmap_single b p Hb).
Qed.

(** ** [memory/reader.py]: how the reads compose *)

Lemma _segment_for_bounds (self : SnapshotMemoryReader) (addr size : Z)
      (seg : SnapshotSegment) (off : Z) :
  Snapshot._segment_for self addr size = Ok (seg, off) ->
  0 < size /\ 0 <= off /\ off + size <= len (data seg) /\ off = addr - start seg.
Proof.
  unfold Snapshot._segment_for.
  destruct (size <=? 0) eqn:Es; [discriminate|]. apply Z.leb_gt in Es.
  destruct ((bisect_right (_starts self) addr - 1 <? 0)
            || (bisect_right (_starts self) addr - 1 >=? len (segments self)));
    [discriminate|].
  destruct (getitem (segments self) (bisect_right (_starts self) addr - 1))
    as [s|e]; [|discriminate].
  destruct (addr - start s <? 0) eqn:E0; [discriminate|].
  apply Z.ltb_ge in E0. simpl orb.
  rewrite Z.gtb_ltb.
  destruct (seg_end s <? addr + size) eqn:E1; [discriminate|].
  apply Z.ltb_ge in E1. intros H. injection H as <- <-.
  unfold seg_end in E1. repeat split; lia.
Qed.

Lemma len_firstn_skipn {A : Type} (l : list A) (off size : Z) :
  0 <= off -> 0 <= size -> off + size <= len l ->
  len (firstn (Z.to_nat size) (skipn (Z.to_nat off) l)) = size.
Proof.
  intros H0 H1 H2. unfold len in *.
  rewrite length_firstn, length_skipn. lia.
Qed.

Lemma peek_window (raw : bytes) (off size i : Z) :
  0 <= off -> 0 <= i < size -> off + size <= len raw ->
  peek (firstn (Z.to_nat size) (skipn (Z.to_nat off) raw)) i = peek raw (off + i).
Proof.
  intros H0 Hi H2. unfold peek.
  rewrite <- firstn_map, <- skipn_map.
  rewrite nth_firstn.
  destruct (Nat.ltb_spec (Z.to_nat i) (Z.to_nat size)) as [_|Hn]; [|lia].
  rewrite nth_skipn. f_equal. lia.
Qed.

Lemma snapshot_u8_as_read (self : SnapshotMemoryReader) (addr : Z) :
  Snapshot.u8 self addr
  = (bs <- Snapshot.read_bytes self addr 1 ;; _u8_from bs 0).
Proof.
  unfold Snapshot.u8, Snapshot.read_bytes.
  destruct (Snapshot._segment_for self addr 1) as [[seg off]|e] eqn:E;
    [|reflexivity].
  destruct (_segment_for_bounds _ _ _ _ _ E) as [_ [H0 [H1 _]]].
  rewrite slice_window by lia.
  rewrite _u8_from_value, byte_at_peek by lia.
  rewrite out_of_bounds_false
    by (rewrite ?len_firstn_skipn; lia).
  rewrite (peek_window (data seg) off 1 0) by lia.
  rewrite Z.add_0_r. reflexivity.
Qed.

Lemma snapshot_u16_as_read (self : SnapshotMemoryReader) (addr : Z) :
  Snapshot.u16 self addr
  = (bs <- Snapshot.read_bytes self addr 2 ;; _u16le_from bs 0).
Proof.
  unfold Snapshot.u16, Snapshot.read_bytes.
  destruct (Snapshot._segment_for self addr 2) as [[seg off]|e] eqn:E;
    [|reflexivity].
  destruct (_segment_for_bounds _ _ _ _ _ E) as [_ [H0 [H1 _]]].
  rewrite slice_window by lia.
  rewrite _u16le_from_value, !byte_at_peek by lia.
  rewrite out_of_bounds_false
    by (rewrite ?len_firstn_skipn; lia).
  rewrite (peek_window (data seg) off 2 0) by lia.
  rewrite (peek_window (data seg) off 2 (0 + 1)) by lia.
  rewrite Z.add_0_r. reflexivity.
Qed.

Lemma snapshot_u32_as_read (self : SnapshotMemoryReader) (addr : Z) :
  Snapshot.u32 self addr
  = (bs <- Snapshot.read_bytes self addr 4 ;; _u32le_from bs 0).
Proof.
  unfold Snapshot.u32, Snapshot.read_bytes.
  destruct (Snapshot._segment_for self addr 4) as [[seg off]|e] eqn:E;
    [|reflexivity].
  destruct (_segment_for_bounds _ _ _ _ _ E) as [_ [H0 [H1 _]]].
  rewrite slice_window by lia.
  rewrite _u32le_from_value, !byte_at_peek by lia.
  rewrite out_of_bounds_false
    by (rewrite ?len_firstn_skipn; lia).
  rewrite (peek_window (data seg) off 4 0) by lia.
  rewrite (peek_window (data seg) off 4 (0 + 1)) by lia.
  rewrite (peek_window (data seg) off 4 (0 + 2)) by lia.
  rewrite (peek_window (data seg) off 4 (0 + 3)) by lia.
  rewrite Z.add_0_r. reflexivity.
Qed.

(** X5.  The scalar reads of a snapshot are the byte reads decoded by the
    field readers of [util/bytes.py]: [u8], [u16] and [u32] at an address
    return what [_u8_from], [_u16le_from] and [_u32le_from] return at
    offset 0 of [read_bytes] of 1, 2 and 4 bytes there, and raise the same
    error when that read raises. *)
Theorem snapshot_scalars_are_decoded_reads :
  forall (self : SnapshotMemoryReader) (addr : Z),
    Snapshot.u8 self addr
    = (bs <- Snapshot.read_bytes self addr 1 ;; _u8_from bs 0)
    /\ Snapshot.u16 self addr
       = (bs <- Snapshot.read_bytes self addr 2 ;; _u16le_from bs 0)
    /\ Snapshot.u32 self addr
       = (bs <- Snapshot.read_bytes self addr 4 ;; _u32le_from bs 0).
Proof.
  intros self addr. split; [|split].
  - apply snapshot_u8_as_read.
  - apply snapshot_u16_as_read.
  - apply snapshot_u32_as_read.
Qed.

(** X6.  A snapshot [read_bytes] that succeeds returns exactly [size]
    bytes, and every shorter read at the same address succeeds with the
    corresponding prefix. *)
Theorem snapshot_read_bytes_length_and_prefix :
  forall (self : SnapshotMemoryReader) (addr size : Z) (bs : bytes),
    Snapshot.read_bytes self addr size = Ok bs ->
    len bs = size
    /\ forall k, 0 < k <= size ->
                 Snapshot.read_bytes self addr k = Ok (slice bs 0 k).
Proof.
  intros self addr size bs. unfold Snapshot.read_bytes.
  destruct (Snapshot._segment_for self addr size) as [[seg off]|e] eqn:E;
    [|discriminate].
  destruct (_segment_for_bounds _ _ _ _ _ E) as [Hs [H0 [H1 Hoff]]].
  intros H. injection H as <-.
  rewrite slice_window by lia. split; [apply len_firstn_skipn; lia|].
  intros k Hk.
  assert (Ek : Snapshot._segment_for self addr k = Ok (seg, off)).
  { revert E. unfold Snapshot._segment_for.
    destruct (size <=? 0) eqn:Es; [discriminate|].
    destruct (k <=? 0) eqn:Ek; [apply Z.leb_le in Ek; lia|].
    destruct ((bisect_right (_starts self) addr - 1 <? 0)
              || (bisect_right (_starts self) addr - 1 >=? len (segments self)));
      [discriminate|].
    destruct (getitem (segments self) (bisect_right (_starts self) addr - 1))
      as [s|e]; [|discriminate].
    destruct (addr - start s <? 0) eqn:E0; [discriminate|]. simpl orb.
    rewrite !Z.gtb_ltb.
    destruct (seg_end s <? addr + size) eqn:E1; [discriminate|].
    apply Z.ltb_ge in E1.
    destruct (seg_end s <? addr + k) eqn:E2; [apply Z.ltb_lt in E2; lia|].
    intros H. exact H. }
  rewrite Ek. rewrite slice_window by lia. f_equal.
  rewrite firstn_slice by lia. rewrite firstn_firstn.
  f_equal. lia.
Qed.

Lemma snapshot_read_bytes_length_and_prefix_witness :
  len (mem_range sample_memory 0x102 6) = 6
  /\ Snapshot.read_bytes sample_snapshot 0x102 2
     = Ok (slice (mem_range sample_memory 0x102 6) 0 2).
Proof.
  destruct (snapshot_read_bytes_length_and_prefix
              sample_snapshot 0x102 6 (mem_range sample_memory 0x102 6))
    as [Hl Hp].
  - vm_compute. reflexivity.
  - split; [exact Hl|]. apply Hp. lia.
Defined.

Lemma Ok_inj {A : Type} (a b : A) : Ok a = Ok b -> a = b.
Proof. intros H. congruence. Qed.

Lemma field_values_within_width (raw : bytes) (v : Z) :
  (_u8_from raw 0 = Ok v -> 0 <= v < 2 ^ 8)
  /\ (_u16le_from raw 0 = Ok v -> 0 <= v < 2 ^ 16)
  /\ (_u32le_from raw 0 = Ok v -> 0 <= v < 2 ^ 32).
Proof.
  pose proof (peek_range raw 0) as R0.
  pose proof (peek_range raw (0 + 1)) as R1.
  pose proof (peek_range raw (0 + 2)) as R2.
  pose proof (peek_range raw (0 + 3)) as R3.
  rewrite _u8_from_value, _u16le_from_value, _u32le_from_value.
  split; [|split]; intros H; apply Ok_inj in H; subst v.
  - destruct (out_of_bounds raw 0 1); simpl; lia.
  - destruct (out_of_bounds raw 0 2); [simpl; lia|].
    rewrite lor_shiftl_add by (change (2 ^ 8) with 256; lia).
    change (2 ^ 8) with 256. change (2 ^ 16) with 65536. lia.
  - destruct (out_of_bounds raw 0 4); [simpl; lia|].
    rewrite (lor_shiftl_add (peek raw 0)) by (change (2 ^ 8) with 256; lia).
    rewrite (lor_shiftl_add _ (peek raw (0 + 2)) 16)
      by (change (2 ^ 8) with 256; change (2 ^ 16) with 65536; lia).
    rewrite (lor_shiftl_add _ (peek raw (0 + 3)) 24)
      by (change (2 ^ 8) with 256; change (2 ^ 16) with 65536;
          change (2 ^ 24) with 16777216; lia).
    change (2 ^ 8) with 256. change (2 ^ 16) with 65536.
    change (2 ^ 24) with 16777216. change (2 ^ 32) with 4294967296. lia.
Qed.

(** X7.  Every value a reader returns lies within its width.  The live
    reader masks whatever its callables return, negative or oversized
    values included; the snapshot reader assembles captured bytes. *)
Theorem reader_values_within_width :
  forall (live : LiveMemoryReader) (snap : SnapshotMemoryReader) (addr v : Z),
    (Live.u8 live addr = Ok v -> 0 <= v < 2 ^ 8)
    /\ (Live.u16 live addr = Ok v -> 0 <= v < 2 ^ 16)
    /\ (Live.u32 live addr = Ok v -> 0 <= v < 2 ^ 32)
    /\ (Snapshot.u8 snap addr = Ok v -> 0 <= v < 2 ^ 8)
    /\ (Snapshot.u16 snap addr = Ok v -> 0 <= v < 2 ^ 16)
    /\ (Snapshot.u32 snap addr = Ok v -> 0 <= v < 2 ^ 32).
Proof.
  intros live snap addr v.
  assert (Hland : forall x n, 0 <= n -> 0 <= Z.land x (Z.ones n) < 2 ^ n).
  { intros x n Hn. rewrite Z.land_ones by exact Hn.
    apply Z.mod_pos_bound. apply Z.pow_pos_nonneg; lia. }
  split; [|split; [|split; [|split; [|split]]]].
  - unfold Live.u8. destruct (read8 live addr); [|discriminate].
    intros H; injection H as <-. apply (Hland a 8). lia.
  - unfold Live.u16. destruct (read16 live addr); [|discriminate].
    intros H; injection H as <-. apply (Hland a 16). lia.
  - unfold Live.u32. destruct (read32 live addr); [|discriminate].
    intros H; injection H as <-. apply (Hland a 32). lia.
  - rewrite snapshot_u8_as_read.
    destruct (Snapshot.read_bytes snap addr 1) as [bs|]; [|discriminate].
    apply field_values_within_width.
  - rewrite snapshot_u16_as_read.
    destruct (Snapshot.read_bytes snap addr 2) as [bs|]; [|discriminate].
    apply field_values_within_width.
  - rewrite snapshot_u32_as_read.
    destruct (Snapshot.read_bytes snap addr 4) as [bs|]; [|discriminate].
    apply field_values_within_width.
Qed.

(** An emulator whose callables return values outside the width. *)
Lemma reader_values_within_width_witness :
  Live.u8 {| read8 := fun _ => Ok (-1); read16 := fun _ => Ok 0x12345;
             read32 := fun _ => Ok (-2);
             read_range_bytes := fun _ _ => Raise IOError |} 0 = Ok 255
  /\ 0 <= 255 < 2 ^ 8.
Proof.
  split; [reflexivity|].
  apply (proj1 (reader_values_within_width
                  {| read8 := fun _ => Ok (-1); read16 := fun _ => Ok 0x12345;
                     read32 := fun _ => Ok (-2);
                     read_range_bytes := fun _ _ => Raise IOError |}
                  sample_snapshot 0 255)).
  reflexivity.
Defined.

(** ** [memory/reader.py]: capture and read back *)

Lemma separate_ranges_In (ranges : list (Z * Z)) :
  separate_ranges ranges = true ->
  forall r, In r ranges -> fst r <> 0 /\ 0 < snd r.
Proof.
  induction ranges as [|[a n] rest IH]; intros H r Hr; [destruct Hr|].
  simpl in H. apply andb_true_iff in H. destruct H as [H Hrest].
  apply andb_true_iff in H. destruct H as [H _].
  apply andb_true_iff in H. destruct H as [Ha Hn].
  destruct Hr as [<-|Hr]; [|apply IH; assumption].
  simpl. apply negb_true_iff, Z.eqb_neq in Ha. apply Z.ltb_lt in Hn. auto.
Qed.

Lemma captured_segments_capture (mem : memory) (ranges : list (Z * Z)) :
  separate_ranges ranges = true ->
  captured_segments ranges (capture mem ranges) = map (segment_of mem) ranges.
Proof.
  induction ranges as [|[a n] rest IH]; intros H; [reflexivity|].
  pose proof (separate_ranges_In _ H (a, n) (or_introl eq_refl)) as [Ha _].
  simpl in Ha. simpl in H. apply andb_true_iff in H. destruct H as [_ Hrest].
  simpl. destruct (a =? 0) eqn:E; [apply Z.eqb_eq in E; contradiction|].
  simpl. rewrite (IH Hrest). reflexivity.
Qed.

Lemma separated_nonempty (segs : list SnapshotSegment) :
  separated segs -> forall s, In s segs -> 0 < len (data s).
Proof.
  induction segs as [|h t IH]; intros H s Hs; [destruct Hs|].
  destruct H as [Hh [_ Ht]]. destruct Hs as [<-|Hs]; [exact Hh|auto].
Qed.

Lemma insert_segment_separated (s : SnapshotSegment) (l : list SnapshotSegment) :
  separated l -> 0 < len (data s) ->
  (forall t, In t l -> seg_end s <= start t \/ seg_end t <= start s) ->
  separated (insert_segment s l).
Proof.
  induction l as [|h t IH]; intros Hl Hs Hd.
  - simpl. repeat split; [exact Hs|intros ? []].
  - simpl. destruct Hl as [Hh [Hht Ht]].
    destruct (start s <=? start h) eqn:E.
    + apply Z.leb_le in E. simpl. split; [exact Hs|]. split.
      * intros x Hx.
        assert (Hxn : 0 < len (data x)).
        { destruct Hx as [<-|Hx]; [exact Hh|].
          apply (separated_nonempty t Ht x Hx). }
        assert (Hhx : start h <= start x).
        { destruct Hx as [<-|Hx]; [lia|].
          specialize (Hht x Hx). unfold seg_end in Hht. lia. }
        destruct (Hd x Hx) as [H|H]; [exact H|].
        unfold seg_end in *. lia.
      * repeat split; assumption.
    + apply Z.leb_gt in E. simpl. split; [exact Hh|]. split.
      * intros x Hx. apply insert_segment_In in Hx. destruct Hx as [->|Hx].
        -- destruct (Hd h (or_introl eq_refl)) as [H|H]; [|exact H].
           unfold seg_end in *. lia.
        -- apply Hht. exact Hx.
      * apply IH; [exact Ht|exact Hs|]. intros x Hx. apply Hd. right. exact Hx.
Qed.

Lemma sort_segments_separated (mem : memory) (ranges : list (Z * Z)) :
  separate_ranges ranges = true ->
  separated (sort_segments (map (segment_of mem) ranges)).
Proof.
  induction ranges as [|[a n] rest IH]; intros H; [exact I|].
  simpl in H. apply andb_true_iff in H. destruct H as [H Hrest].
  apply andb_true_iff in H. destruct H as [H Hall].
  apply andb_true_iff in H. destruct H as [Ha Hn]. apply Z.ltb_lt in Hn.
  simpl. apply insert_segment_separated; [apply IH; exact Hrest| |].
  - simpl. rewrite len_mem_range. lia.
  - intros t Ht. apply (proj1 (sort_segments_In _ _)) in Ht.
    apply in_map_iff in Ht. destruct Ht as [[a' n'] [<- Hr]].
    rewrite forallb_forall in Hall. specialize (Hall _ Hr). simpl in Hall.
    pose proof (separate_ranges_In _ Hrest _ Hr) as [_ Hn']. simpl in Hn'.
    unfold seg_end, segment_of. simpl. rewrite !len_mem_range.
    apply orb_true_iff in Hall. destruct Hall as [H|H]; apply Z.leb_le in H; lia.
Qed.

Lemma capture_segments (mem : memory) (ranges : list (Z * Z)) :
  separate_ranges ranges = true ->
  segments (Snapshot.from_ranges ranges (capture mem ranges))
  = sort_segments (map (segment_of mem) ranges).
Proof.
  intros H. simpl. rewrite captured_segments_capture by exact H. reflexivity.
Qed.

Lemma capture_read_back (mem : memory) (ranges : list (Z * Z))
      (a n off size : Z) :
  separate_ranges ranges = true -> In (a, n) ranges ->
  0 <= off -> 0 < size -> off + size <= n ->
  Snapshot.read_bytes (Snapshot.from_ranges ranges (capture mem ranges))
                      (a + off) size
  = Ok (mem_range mem (a + off) size).
Proof.
  intros Hsep Hin H0 Hs H1.
  set (self := Snapshot.from_ranges ranges (capture mem ranges)).
  assert (Hwf : well_formed self) by apply from_ranges_well_formed.
  assert (Hb : backed_by mem self) by apply capture_backed_by.
  assert (Hc : covered self (a + off) size).
  { exists (segment_of mem (a, n)). split.
    - apply (separated_selected _ _ size).
      + unfold self. rewrite capture_segments by exact Hsep.
        apply sort_segments_separated. exact Hsep.
      + exact Hs.
      + unfold self. rewrite capture_segments by exact Hsep.
        apply (proj2 (sort_segments_In _ _)). apply in_map. exact Hin.
      + unfold contains, seg_end, segment_of. simpl.
        rewrite len_mem_range. lia.
    - unfold contains, seg_end, segment_of. simpl.
      rewrite len_mem_range. lia. }
  destruct (covered_lookup self (a + off) size Hs Hc) as [seg [L [Hseg [Hlo Hhi]]]].
  rewrite snapshot_read_bytes_lookup, L by exact Hwf.
  rewrite (Hb seg Hseg), mem_range_window by lia.
  replace (start seg + (a + off - start seg)) with (a + off) by lia.
  reflexivity.
Qed.

Lemma capture_no_read_outside (mem : memory) (ranges : list (Z * Z))
      (addr size : Z) :
  separate_ranges ranges = true -> outside_ranges ranges addr ->
  Snapshot.read_bytes (Snapshot.from_ranges ranges (capture mem ranges)) addr size
  = Raise KeyError.
Proof.
  intros Hsep Hout.
  set (self := Snapshot.from_ranges ranges (capture mem ranges)).
  assert (Hwf : well_formed self) by apply from_ranges_well_formed.
  rewrite snapshot_read_bytes_lookup by exact Hwf.
  destruct (lookup_result self addr size) as [[seg off]|e] eqn:L.
  - exfalso.
    pose proof (lookup_ok_bounds _ _ _ _ _ L) as [Hseg [-> [H0 [Hs H1]]]].
    unfold self in Hseg. rewrite capture_segments in Hseg by exact Hsep.
    apply (proj1 (sort_segments_In _ _)) in Hseg.
    apply in_map_iff in Hseg. destruct Hseg as [[a n] [<- Hr]].
    specialize (Hout _ Hr). simpl in *.
    rewrite len_mem_range in H1. lia.
  - rewrite (lookup_raises_KeyError _ _ _ _ L). reflexivity.
Qed.

(** X8.  Capture and read back.  When the ranges given to one bulk capture
    have non-zero addresses and positive sizes and do not overlap, the
    snapshot built from the capture returns, for every non-empty window
    inside a captured range, exactly the bytes the memory holds there; and
    a read at an address that no range contains raises [KeyError]. *)
Theorem capture_then_read_round_trip :
  forall (mem : memory) (ranges : list (Z * Z)),
    separate_ranges ranges = true ->
    let self := Snapshot.from_ranges ranges (capture mem ranges) in
    (forall a n off size,
        In (a, n) ranges -> 0 <= off -> 0 < size -> off + size <= n ->
        Snapshot.read_bytes self (a + off) size
        = Ok (mem_range mem (a + off) size))
    /\ (forall addr size,
          outside_ranges ranges addr ->
          Snapshot.read_bytes self addr size = Raise KeyError).
Proof.
  intros mem ranges Hsep self. split.
  - intros a n off size Hin H0 Hs H1.
    apply (capture_read_back mem ranges a n off size); assumption.
  - intros addr size Hout. apply capture_no_read_outside; assumption.
Qed.

Lemma capture_then_read_round_trip_witness :
  Snapshot.read_bytes
    (Snapshot.from_ranges sample_ranges_nonzero
                          (capture sample_memory sample_ranges_nonzero))
    (0x100 + 4) 8
  = Ok (mem_range sample_memory (0x100 + 4) 8).
Proof.
  apply (proj1 (capture_then_read_round_trip
                  sample_memory sample_ranges_nonzero eq_refl) 0x100 16 4 8).
  - simpl. auto.
  - lia.
  - lia.
  - lia.
Defined.

(** ** [ui/dialog.py]: the buffers read from a snapshot *)

Lemma capture_read_range (mem : memory) (ranges : list (Z * Z)) (a n : Z) :
  separate_ranges ranges = true -> In (a, n) ranges ->
  Snapshot.read_bytes (Snapshot.from_ranges ranges (capture mem ranges)) a n
  = Ok (mem_range mem a n).
Proof.
  intros Hsep Hin.
  pose proof (separate_ranges_In _ Hsep _ Hin) as [_ Hn]. simpl in Hn.
  pose proof (capture_read_back mem ranges a n 0 n Hsep Hin) as H.
  rewrite Z.add_0_r in H. apply H; lia.
Qed.

Lemma capture_read_u8 (mem : memory) (ranges : list (Z * Z)) (a n : Z) :
  separate_ranges ranges = true -> In (a, n) ranges ->
  Snapshot.u8 (Snapshot.from_ranges ranges (capture mem ranges)) a
  = Ok (byte_val (mem a)).
Proof.
  intros Hsep Hin.
  pose proof (separate_ranges_In _ Hsep _ Hin) as [_ Hn]. simpl in Hn.
  pose proof (capture_read_back mem ranges a n 0 1 Hsep Hin) as H.
  rewrite Z.add_0_r in H.
  rewrite snapshot_u8_as_read, H by lia.
  rewrite _u8_from_value, out_of_bounds_false
    by (rewrite ?len_mem_range; lia).
  rewrite peek_mem_range by lia. rewrite Z.add_0_r. reflexivity.
Qed.

Lemma capture_read_u32 (mem : memory) (ranges : list (Z * Z)) (a n : Z) :
  separate_ranges ranges = true -> In (a, n) ranges -> 4 <= n ->
  Snapshot.u32 (Snapshot.from_ranges ranges (capture mem ranges)) a
  = Ok (mem_u32 mem a).
Proof.
  intros Hsep Hin Hn.
  pose proof (capture_read_back mem ranges a n 0 4 Hsep Hin) as H.
  rewrite Z.add_0_r in H.
  rewrite snapshot_u32_as_read, H by lia.
  rewrite _u32le_from_value, out_of_bounds_false
    by (rewrite ?len_mem_range; lia).
  rewrite !peek_mem_range by lia. rewrite Z.add_0_r. reflexivity.
Qed.

Lemma firstn_capture (mem : memory) (ranges : list (Z * Z)) :
  firstn (List.length ranges) (capture mem ranges) = capture mem ranges.
Proof.
  apply firstn_all2. unfold capture. rewrite length_map. lia.
Qed.

Lemma capture_read_inside (mem : memory) (ranges : list (Z * Z))
      (a n b size : Z) :
  separate_ranges ranges = true -> In (a, n) ranges -> 0 < size ->
  inside_range (a, n) b size = true ->
  Snapshot.read_bytes (Snapshot.from_ranges ranges (capture mem ranges)) b size
  = Ok (mem_range mem b size).
Proof.
  intros Hsep Hin Hsize Hi. unfold inside_range in Hi. simpl in Hi.
  apply andb_true_iff in Hi. destruct Hi as [H1 H2].
  apply Z.leb_le in H1, H2.
  pose proof (capture_read_back mem ranges a n (b - a) size Hsep Hin) as H.
  replace (a + (b - a)) with b in H by lia. apply H; lia.
Qed.

(** X9.  Under an address table whose snapshot ranges have non-zero
    addresses and positive sizes and do not overlap, and whose six PC
    storage addresses without a range of their own lie inside the range
    captured for the PC storage statics, the buffers that
    [get_dialog_state] reads from one bulk capture of a memory are the
    bytes the memory holds at those addresses: the three flags are
    computed from the captured [u8]/[u32] values, the four optional
    integers are the captured bytes, and every one of the 38 raw buffers
    is the memory range of its address.  Nothing is asked of the
    emulator. *)
Theorem snapshot_buffers_are_the_memory :
  forall (K : Addresses) (io : Mgba) (mem : memory),
    separate_ranges (_DIALOG_SNAPSHOT_RANGES K) = true ->
    storage_fields_captured K = true ->
    snapshot_buffers K io (dialog_snapshot K mem) = buffers_of_memory K mem.
Proof.
  intros K io mem Hsep Hstorage.
  unfold storage_fields_captured in Hstorage. cbv zeta in Hstorage.
  do 5 (apply andb_true_iff in Hstorage;
        let H := fresh "Hin" in destruct Hstorage as [Hstorage H]).
  assert (Hrange : In (SPOKE_STORAGE_CHOOSE_BOX_MENU_PTR_ADDR K, 0x80)
                      (_DIALOG_SNAPSHOT_RANGES K)) by in_ranges.
  unfold snapshot_buffers, dialog_snapshot. rewrite firstn_capture.
  unfold _read_snapshot_buffers, buffers_of_memory, snapshot_or_live.
  rewrite (capture_read_u8 mem _ (SCRIPT_LOCK_FIELD_CONTROLS K) 1 Hsep)
    by in_ranges.
  rewrite (capture_read_u8 mem _ (IN_BATTLE_BIT_ADDR K) 1 Hsep) by in_ranges.
  rewrite (capture_read_u32 mem _ (GMAIN_ADDR K + GMAIN_CALLBACK2_OFFSET K) 4 Hsep)
    by (first [lia | in_ranges]).
  rewrite (capture_read_u8 mem _ (START_MENU_WINDOW_ID_ADDR K) 1 Hsep)
    by in_ranges.
  rewrite (capture_read_u8 mem _ (START_MENU_NUM_ACTIONS_ADDR K) 1 Hsep)
    by in_ranges.
  rewrite (capture_read_u8 mem _ (START_MENU_CURSOR_POS_ADDR K) 1 Hsep)
    by in_ranges.
  rewrite (capture_read_u8 mem _ (SYESNO_WINDOWID_ADDR K) 1 Hsep) by in_ranges.
  rewrite (capture_read_u8 mem _ (SSAVE_INFO_WINDOWID_ADDR K) 1 Hsep)
    by in_ranges.
  rewrite (capture_read_inside mem _ _ _ (SPOKE_STORAGE_PTR_ADDR K) 4
                               Hsep Hrange) by (first [lia | assumption]).
  rewrite (capture_read_inside mem _ _ _ (SPOKE_STORAGE_CHOOSE_BOX_MENU_PTR_ADDR K)
                               4 Hsep Hrange)
    by (first [lia | unfold inside_range; simpl;
                     apply andb_true_iff; split; apply Z.leb_le; lia]).
  rewrite (capture_read_inside mem _ _ _ (SPOKE_STORAGE_IN_PARTY_MENU_ADDR K) 1
                               Hsep Hrange) by (first [lia | assumption]).
  rewrite (capture_read_inside mem _ _ _ (SPOKE_STORAGE_CURRENT_BOX_OPTION_ADDR K)
                               1 Hsep Hrange) by (first [lia | assumption]).
  rewrite (capture_read_inside mem _ _ _ (SPOKE_STORAGE_DEPOSIT_BOX_ID_ADDR K) 1
                               Hsep Hrange) by (first [lia | assumption]).
  rewrite (capture_read_inside mem _ _ _ (SPOKE_STORAGE_CURSOR_AREA_ADDR K) 1
                               Hsep Hrange) by (first [lia | assumption]).
  rewrite (capture_read_inside mem _ _ _ (SPOKE_STORAGE_CURSOR_POSITION_ADDR K) 1
                               Hsep Hrange) by (first [lia | assumption]).
  rewrite !(capture_read_range mem _ _ _ Hsep) by in_ranges.
  reflexivity.
Qed.

Lemma snapshot_buffers_are_the_memory_witness :
  snapshot_buffers sample_addresses offline
                   (dialog_snapshot sample_addresses idle_memory)
  = buffers_of_memory sample_addresses idle_memory.
Proof.
  apply (snapshot_buffers_are_the_memory sample_addresses offline idle_memory).
  - vm_compute. reflexivity.
  - vm_compute. reflexivity.
Defined.

(** ** [memory/reader.py]: the order of the captured ranges *)

Lemma captured_segments_combine (ranges : list (Z * Z)) :
  forall chunks : list (option bytes),
    captured_segments ranges chunks
    = flat_map kept_segment (combine ranges chunks).
Proof.
  induction ranges as [|[a n] rest IH]; intros chunks; [reflexivity|].
  destruct chunks as [|c chunks]; [reflexivity|].
  simpl. unfold kept_segment at 1. simpl.
  destruct c as [c|]; [|apply IH].
  destruct (a =? 0); simpl; [apply IH|]. rewrite IH. reflexivity.
Qed.

Lemma flat_map_perm {A B : Type} (f : A -> list B) (l l' : list A) :
  Permutation l l' -> Permutation (flat_map f l) (flat_map f l').
Proof.
  induction 1 as [|x l l' _ IH|x y l|l l' l'' _ IH1 _ IH2]; simpl.
  - constructor.
  - apply Permutation_app_head. exact IH.
  - rewrite !app_assoc. apply Permutation_app_tail. apply Permutation_app_comm.
  - eapply Permutation_trans; eassumption.
Qed.

Lemma captured_starts_NoDup (ranges : list (Z * Z)) :
  forall chunks : list (option bytes),
    NoDup (map fst ranges) ->
    NoDup (map start (captured_segments ranges chunks))
    /\ (forall s, In s (captured_segments ranges chunks) ->
                  In (start s) (map fst ranges)).
Proof.
  induction ranges as [|[a n] rest IH]; intros chunks Hnd.
  - simpl. split; [constructor|intros ? []].
  - destruct chunks as [|c chunks]; [simpl; split; [constructor|intros ? []]|].
    simpl in Hnd. inversion Hnd as [|? ? Hnotin Hrest]; subst.
    destruct (IH chunks Hrest) as [IHn IHi].
    simpl. destruct c as [c|].
    + destruct (a =? 0); simpl.
      * split; [exact IHn|]. intros s Hs. right. auto.
      * split.
        -- constructor; [|exact IHn]. intros Hin.
           apply in_map_iff in Hin. destruct Hin as [s [Es Hs]].
           apply Hnotin. rewrite <- Es. apply IHi. exact Hs.
        -- intros s [<-|Hs]; [left; reflexivity|right; auto].
    + split; [exact IHn|]. intros s Hs. right. auto.
Qed.

Lemma same_start_same_segment (l : list SnapshotSegment) (x y : SnapshotSegment) :
  NoDup (map start l) -> In x l -> In y l -> start x = start y -> x = y.
Proof.
  induction l as [|h t IH]; intros Hnd Hx Hy E; [destruct Hx|].
  simpl in Hnd. inversion Hnd as [|? ? Hnotin Hrest]; subst.
  destruct Hx as [<-|Hx], Hy as [<-|Hy].
  - reflexivity.
  - exfalso. apply Hnotin. rewrite E. apply in_map. exact Hy.
  - exfalso. apply Hnotin. rewrite <- E. apply in_map. exact Hx.
  - apply IH; assumption.
Qed.

Lemma sorted_by_start_unique (a : list SnapshotSegment) :
  forall b : list SnapshotSegment,
    sorted_by_start a -> sorted_by_start b -> Permutation a b ->
    NoDup (map start a) -> a = b.
Proof.
  induction a as [|x a' IH]; intros b Ha Hb Hp Hnd.
  - apply Permutation_nil in Hp. subst. reflexivity.
  - destruct b as [|y b'].
    + apply Permutation_sym, Permutation_nil in Hp. discriminate.
    + destruct Ha as [Hx Ha']. destruct Hb as [Hy Hb'].
      assert (Hyin : In y (x :: a')).
      { apply (Permutation_in y (Permutation_sym Hp)). left. reflexivity. }
      assert (Hxin : In x (y :: b')).
      { apply (Permutation_in x Hp). left. reflexivity. }
      assert (E : start x = start y).
      { apply Z.le_antisymm.
        - destruct Hyin as [->|Hyin]; [lia|apply Hx; exact Hyin].
        - destruct Hxin as [->|Hxin]; [lia|apply Hy; exact Hxin]. }
      assert (Exy : x = y).
      { apply (same_start_same_segment (x :: a')); auto. left. reflexivity. }
      subst y. f_equal.
      apply IH; [exact Ha'|exact Hb'|
                 exact (Permutation_cons_inv Hp)|].
      simpl in Hnd. inversion Hnd. assumption.
Qed.

Lemma sort_segments_of_permutation (l l' : list SnapshotSegment) :
  Permutation l l' -> NoDup (map start l) ->
  sort_segments l = sort_segments l'.
Proof.
  intros Hp Hnd. apply sorted_by_start_unique.
  - apply sort_segments_sorted.
  - apply sort_segments_sorted.
  - eapply Permutation_trans; [apply sort_segments_perm|].
    eapply Permutation_trans; [exact Hp|].
    apply Permutation_sym, sort_segments_perm.
  - apply (Permutation_NoDup (l := map start l)); [|exact Hnd].
    apply Permutation_map, Permutation_sym, sort_segments_perm.
Qed.

(** X10.  The reader [from_ranges] builds does not depend on the order in
    which the ranges were captured: when the range addresses are pairwise
    different, giving the same (range, chunk) pairs in another order
    yields the same segments and the same start index. *)
Theorem from_ranges_ignores_capture_order :
  forall (ranges ranges' : list (Z * Z)) (chunks chunks' : list (option bytes)),
    NoDup (map fst ranges) ->
    Permutation (combine ranges chunks) (combine ranges' chunks') ->
    Snapshot.from_ranges ranges chunks = Snapshot.from_ranges ranges' chunks'.
Proof.
  intros ranges ranges' chunks chunks' Hnd Hp.
  unfold Snapshot.from_ranges.
  assert (E : sort_segments (captured_segments ranges chunks)
              = sort_segments (captured_segments ranges' chunks')).
  { apply sort_segments_of_permutation.
    - rewrite !captured_segments_combine. apply flat_map_perm. exact Hp.
    - apply captured_starts_NoDup. exact Hnd. }
  rewrite E. reflexivity.
Qed.

Lemma from_ranges_ignores_capture_order_witness :
  Snapshot.from_ranges sample_ranges_nonzero sample_chunks_nonzero
  = Snapshot.from_ranges sample_ranges_reordered sample_chunks_reordered.
Proof.
  apply from_ranges_ignores_capture_order.
  - simpl. repeat constructor; simpl; intuition discriminate.
  - unfold sample_chunks_nonzero, sample_chunks_reordered,
           sample_ranges_nonzero, sample_ranges_reordered, capture.
    simpl combine.
    eapply perm_trans; [apply perm_swap|]. apply perm_skip. apply perm_swap.
Defined.

(** ** [ui/menus.py]: what the task finders find *)

Lemma scan_tasks_raw_spec (K : Addresses) (matches : Z -> bool) (raw : bytes) :
  forall (n s : nat),
  exists r,
    scan_tasks_raw K matches raw (map Z.of_nat (seq s n)) = Ok r
    /\ match r with
       | Some i =>
         Z.of_nat s <= i < Z.of_nat (s + n)
         /\ task_in_table K raw i /\ task_active K raw i
         /\ matches (task_func K raw i) = true
         /\ forall j, Z.of_nat s <= j < i ->
                      task_in_table K raw j
                      /\ ~ (task_active K raw j
                            /\ matches (task_func K raw j) = true)
       | None =>
         forall i, Z.of_nat s <= i < Z.of_nat (s + n) ->
                   (forall j, Z.of_nat s <= j <= i -> task_in_table K raw j) ->
                   ~ (task_active K raw i /\ matches (task_func K raw i) = true)
       end.
Proof.
  induction n as [|n IH]; intros s.
  - exists None. split; [reflexivity|]. intros i Hi. lia.
  - simpl seq. simpl map. cbn [scan_tasks_raw].
    rewrite Z.gtb_ltb.
    destruct (len raw <? Z.of_nat s * TASK_SIZE K + TASK_SIZE K) eqn:Et.
    + apply Z.ltb_lt in Et. exists None. split; [reflexivity|].
      intros i Hi Hall. exfalso.
      specialize (Hall (Z.of_nat s) ltac:(lia)). unfold task_in_table in Hall. lia.
    + apply Z.ltb_ge in Et.
      rewrite _u8_from_value, _u32le_from_value.
      fold (u8_value raw (Z.of_nat s * TASK_SIZE K + TASK_ISACTIVE_OFFSET K)).
      fold (u32_value raw (Z.of_nat s * TASK_SIZE K + TASK_FUNC_OFFSET K)).
      fold (task_func K raw (Z.of_nat s)).
      destruct (IH (S s)) as [r [Hr Hspec]].
      assert (Hskip :
                ~ (task_active K raw (Z.of_nat s)
                   /\ matches (task_func K raw (Z.of_nat s)) = true) ->
                exists r0,
                  scan_tasks_raw K matches raw (map Z.of_nat (seq (S s) n)) = Ok r0
                  /\ match r0 with
                     | Some i =>
                       Z.of_nat s <= i < Z.of_nat (s + S n)
                       /\ task_in_table K raw i /\ task_active K raw i
                       /\ matches (task_func K raw i) = true
                       /\ forall j, Z.of_nat s <= j < i ->
                                    task_in_table K raw j
                                    /\ ~ (task_active K raw j
                                          /\ matches (task_func K raw j) = true)
                     | None =>
                       forall i, Z.of_nat s <= i < Z.of_nat (s + S n) ->
                                 (forall j, Z.of_nat s <= j <= i ->
                                            task_in_table K raw j) ->
                                 ~ (task_active K raw i
                                    /\ matches (task_func K raw i) = true)
                     end).
      { intros Hno. exists r. split; [exact Hr|].
        destruct r as [i|].
        - destruct Hspec as [Hi [Hin [Hact [Hm Hbefore]]]].
          split; [lia|]. split; [exact Hin|]. split; [exact Hact|].
          split; [exact Hm|]. intros j Hj.
          destruct (Z.eq_dec j (Z.of_nat s)) as [->|Hne].
          + split; [exact Et|exact Hno].
          + apply Hbefore. lia.
        - intros i Hi Hall.
          destruct (Z.eq_dec i (Z.of_nat s)) as [->|Hne]; [exact Hno|].
          apply Hspec; [lia|]. intros j Hj. apply Hall. lia. }
      destruct (u8_value raw (Z.of_nat s * TASK_SIZE K + TASK_ISACTIVE_OFFSET K)
                =? 0) eqn:Ea.
      * apply Z.eqb_eq in Ea. apply Hskip. intros [Hact _]. apply Hact. exact Ea.
      * apply Z.eqb_neq in Ea.
        destruct (matches (task_func K raw (Z.of_nat s))) eqn:Em.
        -- exists (Some (Z.of_nat s)). split; [reflexivity|].
           split; [lia|]. split; [exact Et|]. split; [exact Ea|].
           split; [exact Em|]. intros j Hj. lia.
        -- apply Hskip. intros [_ Hm]. discriminate.
Qed.

Lemma range_seq (n : Z) : range n = map Z.of_nat (seq 0 (Z.to_nat n)).
Proof. reflexivity. Qed.

Lemma scan_tasks_raw_first (K : Addresses) (matches : Z -> bool) (raw : bytes) :
  exists r,
    scan_tasks_raw K matches raw (range (NUM_TASKS K)) = Ok r
    /\ first_matching_task K raw matches (NUM_TASKS K) r.
Proof.
  destruct (scan_tasks_raw_spec K matches raw (Z.to_nat (NUM_TASKS K)) 0)
    as [r [Hr Hspec]].
  exists r. split; [exact Hr|].
  unfold first_matching_task. destruct r as [i|].
  - destruct Hspec as [Hi [Hin [Hact [Hm Hbefore]]]].
    split; [lia|]. split; [exact Hin|]. split; [exact Hact|].
    split; [exact Hm|]. intros j Hj. apply Hbefore. lia.
  - intros i Hi Hall. apply Hspec; [lia|]. intros j Hj. apply Hall. lia.
Qed.

(** X11.  On a captured task table the task finder never raises and finds
    the first match: a returned id is below [NUM_TASKS], its slot lies
    inside the table, the task is active and its function pointer equals
    the wanted one up to the tag bit, and no task before it is an active
    match; [None] is returned for the null address, and otherwise only
    when no task whose slot and all earlier slots lie inside the table is
    an active match. *)
Theorem task_finder_returns_first_match :
  forall (K : Addresses) (io : Mgba) (func_addr : Z) (raw : bytes),
  exists r,
    _find_active_task_by_func K io func_addr (Some raw) = Ok r
    /\ (func_addr = 0 /\ r = None
        \/ func_addr <> 0
           /\ first_matching_task
                K raw (fun task_func => task_func =? Z.land func_addr 0xFFFFFFFE)
                (NUM_TASKS K) r).
Proof.
  intros K io f raw. unfold _find_active_task_by_func.
  destruct (f =? 0) eqn:E.
  - apply Z.eqb_eq in E. exists None. split; [reflexivity|]. left. auto.
  - apply Z.eqb_neq in E.
    destruct (scan_tasks_raw_first
                K (fun task_func => task_func =? Z.land f 0xFFFFFFFE) raw)
      as [r [Hr Hspec]].
    exists r. split; [exact Hr|]. right. auto.
Qed.

Lemma scan_tasks_raw_ext (K : Addresses) (m m' : Z -> bool) (raw : bytes) :
  (forall x, m x = m' x) ->
  forall ids, scan_tasks_raw K m raw ids = scan_tasks_raw K m' raw ids.
Proof.
  intros H ids. induction ids as [|i rest IH]; [reflexivity|].
  cbn [scan_tasks_raw]. rewrite !_u8_from_value, !_u32le_from_value.
  cbv beta iota. rewrite IH, H. reflexivity.
Qed.

Lemma scan_tasks_live_ext (K : Addresses) (io : Mgba) (m m' : Z -> bool) :
  (forall x, m x = m' x) ->
  forall ids, scan_tasks_live K io m ids = scan_tasks_live K io m' ids.
Proof.
  intros H ids. induction ids as [|i rest IH]; [reflexivity|].
  cbn [scan_tasks_live].
  destruct (mgba_read8 io (GTASKS_ADDR K + i * TASK_SIZE K
                           + TASK_ISACTIVE_OFFSET K)) as [active|];
    [|reflexivity].
  destruct (active =? 0); [exact IH|].
  destruct (mgba_read32 io (GTASKS_ADDR K + i * TASK_SIZE K
                            + TASK_FUNC_OFFSET K)) as [func|];
    [|reflexivity].
  rewrite IH, H. reflexivity.
Qed.

Lemma in_ints_masked_nonzero (f : Z) (fs : list Z) :
  In f fs -> f <> 0 ->
  in_ints (Z.land f 0xFFFFFFFE) (masked_nonzero fs) = true.
Proof.
  intros Hin Hf. unfold in_ints, masked_nonzero.
  apply existsb_exists. exists (Z.land f 0xFFFFFFFE). split; [|apply Z.eqb_refl].
  apply (in_map (fun addr => Z.land addr 0xFFFFFFFE)).
  apply filter_In. split; [exact Hin|].
  apply negb_true_iff, Z.eqb_neq. exact Hf.
Qed.

(** X12.  The two task finders agree.  [_find_active_task_by_funcs] on a
    single address is [_find_active_task_by_func] on that address, on a
    captured table and on live memory alike; and on a captured table,
    whenever [_find_active_task_by_func] finds task [i] for one of the
    addresses of a list, [_find_active_task_by_funcs] on the list finds a
    task at or before [i]. *)
Theorem task_finders_agree :
  forall (K : Addresses) (io : Mgba),
    (forall (func_addr : Z) (tasks_raw : option bytes),
        _find_active_task_by_funcs K io [func_addr] tasks_raw
        = _find_active_task_by_func K io func_addr tasks_raw)
    /\ (forall (func_addrs : list Z) (func_addr i : Z) (raw : bytes),
          In func_addr func_addrs ->
          _find_active_task_by_func K io func_addr (Some raw) = Ok (Some i) ->
          exists j,
            _find_active_task_by_funcs K io func_addrs (Some raw) = Ok (Some j)
            /\ j <= i).
Proof.
  intros K io. split.
  - intros f tasks_raw.
    unfold _find_active_task_by_funcs, _find_active_task_by_func, masked_nonzero.
    simpl filter. destruct (f =? 0); simpl; [reflexivity|].
    destruct tasks_raw as [raw|].
    + apply scan_tasks_raw_ext. intros x. unfold in_ints. simpl.
      apply orb_false_r.
    + apply scan_tasks_live_ext. intros x. unfold in_ints. simpl.
      apply orb_false_r.
  - intros fs f i raw Hin Hfind.
    unfold _find_active_task_by_func in Hfind.
    destruct (f =? 0) eqn:E; [discriminate|]. apply Z.eqb_neq in E.
    destruct (scan_tasks_raw_first
                K (fun task_func => task_func =? Z.land f 0xFFFFFFFE) raw)
      as [r [Hr Hspec]].
    rewrite Hr in Hfind. apply Ok_inj in Hfind. subst r.
    destruct Hspec as [Hi [Hint [Hact [Hm Hbefore]]]].
    apply Z.eqb_eq in Hm.
    pose proof (in_ints_masked_nonzero f fs Hin E) as Hset.
    unfold _find_active_task_by_funcs.
    destruct (masked_nonzero fs) as [|m0 ms] eqn:Ems; [discriminate|].
    rewrite <- Ems in *.
    destruct (scan_tasks_raw_first
                K (fun task_func => in_ints task_func (masked_nonzero fs)) raw)
      as [r [Hr' Hspec']].
    rewrite Hr'. destruct r as [j|].
    + exists j. split; [reflexivity|].
      destruct Hspec' as [Hj [_ [_ [_ Hbefore']]]].
      destruct (Z.le_gt_cases j i) as [Hle|Hgt]; [exact Hle|]. exfalso.
      destruct (Hbefore' i ltac:(lia)) as [_ Hno]. apply Hno.
      split; [exact Hact|]. rewrite Hm. exact Hset.
    + exfalso. apply (Hspec' i Hi).
      * intros j Hj. destruct (Z.eq_dec j i) as [->|Hne]; [exact Hint|].
        apply Hbefore. lia.
      * split; [exact Hact|]. rewrite Hm. exact Hset.
Qed.

Lemma task_finders_agree_witness :
  exists j,
    _find_active_task_by_funcs
      sample_addresses offline [0x08078C25; 0x08078DA5] (Some title_task_table)
    = Ok (Some j)
    /\ j <= 2.
Proof.
  apply (proj2 (task_finders_agree sample_addresses offline)
               [0x08078C25; 0x08078DA5] 0x08078DA5 2 title_task_table).
  - simpl. auto.
  - vm_compute. reflexivity.
Defined.

(** ** [ui/menus.py]: the visible window of a list *)

(** X13.  The visible window of the bag list and of the TM case list.
    With at least one entry and a page size that is not negative, the
    window [[start, end)] lies inside [[0, total_entries)]; and when the
    cursor row is inside the page, the selected entry is inside the
    window. *)
Theorem list_window_holds_the_selection :
  forall (scroll_pos selected_row count shown : Z) (hide_close_bag : bool),
    let bag :=
      bag_list_window scroll_pos selected_row count shown hide_close_bag in
    let tm := tm_case_list_window scroll_pos selected_row count shown in
    0 <= shown ->
    (0 < total_entries bag ->
       0 <= window_start bag <= window_end bag
       /\ window_end bag <= total_entries bag
       /\ (Z.max 0 selected_row < shown ->
           window_start bag <= selected_index bag < window_end bag))
    /\ (0 < total_entries tm
        /\ 0 <= window_start tm <= window_end tm
        /\ window_end tm <= total_entries tm
        /\ (Z.max 0 selected_row < shown ->
            window_start tm <= selected_index tm < window_end tm)).
Proof.
  intros scroll row count shown hide bag tm Hshown. split.
  - subst bag. unfold bag_list_window.
    set (sc := if scroll <? 0 then 0 else scroll).
    set (rw := if row <? 0 then 0 else row).
    set (t0 := count + (if hide then 0 else 1)).
    set (total := if t0 <? 0 then 0 else t0).
    assert (Hsc : sc = Z.max 0 scroll)
      by (subst sc; destruct (scroll <? 0) eqn:E;
          [apply Z.ltb_lt in E|apply Z.ltb_ge in E]; lia).
    assert (Hrw : rw = Z.max 0 row)
      by (subst rw; destruct (row <? 0) eqn:E;
          [apply Z.ltb_lt in E|apply Z.ltb_ge in E]; lia).
    destruct (total <=? 0) eqn:E1;
      [apply Z.leb_le in E1|apply Z.leb_gt in E1].
    + cbv beta iota zeta. rewrite !Z.gtb_ltb.
      destruct (0 <? total) eqn:E2; [apply Z.ltb_lt in E2; lia|].
      simpl. intros H. lia.
    + cbv beta iota zeta. rewrite !Z.gtb_ltb.
      destruct (0 <? total) eqn:E2; [|apply Z.ltb_ge in E2; lia].
      rewrite !andb_true_l.
      destruct (sc + rw >=? total) eqn:E3;
        [apply Z.geb_le in E3|rewrite Z.geb_leb in E3; apply Z.leb_gt in E3];
      destruct (Z.max 0 sc >=? total) eqn:E4;
        [apply Z.geb_le in E4| rewrite Z.geb_leb in E4; apply Z.leb_gt in E4
        |apply Z.geb_le in E4| rewrite Z.geb_leb in E4; apply Z.leb_gt in E4];
      simpl; intros _; lia.
  - subst tm. unfold tm_case_list_window.
    set (t0 := count + 1).
    set (total := if t0 <=? 0 then 1 else t0).
    set (sc := if scroll <? 0 then 0 else scroll).
    set (rw := if row <? 0 then 0 else row).
    assert (Ht : 0 < total)
      by (subst total; destruct (t0 <=? 0) eqn:E;
          [lia|apply Z.leb_gt in E; lia]).
    assert (Hsc : sc = Z.max 0 scroll)
      by (subst sc; destruct (scroll <? 0) eqn:E;
          [apply Z.ltb_lt in E|apply Z.ltb_ge in E]; lia).
    assert (Hrw : rw = Z.max 0 row)
      by (subst rw; destruct (row <? 0) eqn:E;
          [apply Z.ltb_lt in E|apply Z.ltb_ge in E]; lia).
    cbv beta iota zeta.
    destruct (sc + rw >=? total) eqn:E3;
      [apply Z.geb_le in E3|rewrite Z.geb_leb in E3; apply Z.leb_gt in E3];
    destruct (sc >=? total) eqn:E4;
      [apply Z.geb_le in E4| rewrite Z.geb_leb in E4; apply Z.leb_gt in E4
      |apply Z.geb_le in E4| rewrite Z.geb_leb in E4; apply Z.leb_gt in E4];
    simpl; lia.
Qed.

Lemma list_window_holds_the_selection_witness :
  window_start (bag_list_window 3 2 6 4 false)
  <= selected_index (bag_list_window 3 2 6 4 false)
  < window_end (bag_list_window 3 2 6 4 false).
Proof.
  apply (proj1 (list_window_holds_the_selection 3 2 6 4 false ltac:(lia))).
  - vm_compute. reflexivity.
  - vm_compute. reflexivity.
Defined.

(** ** [ui/menus.py]: when the title screen is detected *)

Lemma title_scan_raw_spec (K : Addresses) (raw : bytes) :
  forall (n s : nat),
    (forall i, Z.of_nat s <= i < Z.of_nat (s + n) ->
               ~ (task_active K raw i
                  /\ in_ints (task_func K raw i) (title_task_addrs K) = true)) ->
    title_scan_raw K raw (map Z.of_nat (seq s n)) = Ok (false, None).
Proof.
  induction n as [|n IH]; intros s Hno; [reflexivity|].
  simpl seq. simpl map. cbn [title_scan_raw].
  rewrite _u8_from_value, _u32le_from_value.
  fold (u8_value raw (Z.of_nat s * TASK_SIZE K + TASK_ISACTIVE_OFFSET K)).
  fold (u32_value raw (Z.of_nat s * TASK_SIZE K + TASK_FUNC_OFFSET K)).
  fold (task_func K raw (Z.of_nat s)).
  assert (IH' : title_scan_raw K raw (map Z.of_nat (seq (S s) n))
                = Ok (false, None)).
  { apply IH. intros i Hi. apply Hno. lia. }
  destruct (u8_value raw (Z.of_nat s * TASK_SIZE K + TASK_ISACTIVE_OFFSET K) =? 0)
    eqn:Ea; [exact IH'|].
  apply Z.eqb_neq in Ea.
  destruct (in_ints (task_func K raw (Z.of_nat s)) (title_task_addrs K)) eqn:Em;
    [|exact IH'].
  exfalso. apply (Hno (Z.of_nat s)); [lia|]. split; assumption.
Qed.

Lemma title_scan_raw_hit (K : Addresses) (raw : bytes) (i : Z) :
  forall (n s : nat),
    Z.of_nat s <= i < Z.of_nat (s + n) ->
    task_active K raw i ->
    in_ints (task_func K raw i) (title_task_addrs K) = true ->
    (forall j, Z.of_nat s <= j < i ->
               ~ (task_active K raw j
                  /\ in_ints (task_func K raw j) (title_task_addrs K) = true)) ->
    title_scan_raw K raw (map Z.of_nat (seq s n))
    = Ok (true, title_phase K (task_func K raw i)).
Proof.
  induction n as [|n IH]; intros s Hi Hact Hm Hno; [lia|].
  simpl seq. simpl map. cbn [title_scan_raw].
  rewrite _u8_from_value, _u32le_from_value.
  fold (u8_value raw (Z.of_nat s * TASK_SIZE K + TASK_ISACTIVE_OFFSET K)).
  fold (u32_value raw (Z.of_nat s * TASK_SIZE K + TASK_FUNC_OFFSET K)).
  fold (task_func K raw (Z.of_nat s)).
  destruct (Z.eq_dec i (Z.of_nat s)) as [->|Hne].
  - destruct (u8_value raw (Z.of_nat s * TASK_SIZE K + TASK_ISACTIVE_OFFSET K)
              =? 0) eqn:Ea; [apply Z.eqb_eq in Ea; contradiction|].
    rewrite Hm. reflexivity.
  - assert (IH' : title_scan_raw K raw (map Z.of_nat (seq (S s) n))
                  = Ok (true, title_phase K (task_func K raw i))).
    { apply IH; [lia|exact Hact|exact Hm|]. intros j Hj. apply Hno. lia. }
    destruct (u8_value raw (Z.of_nat s * TASK_SIZE K + TASK_ISACTIVE_OFFSET K)
              =? 0) eqn:Ea; [exact IH'|].
    apply Z.eqb_neq in Ea.
    destruct (in_ints (task_func K raw (Z.of_nat s)) (title_task_addrs K))
      eqn:Em; [|exact IH'].
    exfalso. apply (Hno (Z.of_nat s)); [lia|]. split; assumption.
Qed.

(** X14.  When the title screen is detected.  Given the callback and a
    task table captured in full, the detector asks nothing of the
    emulator.  If no active task runs a title-screen task, the screen is
    detected exactly when the callback is, up to the tag bit, one of the
    two title callbacks, and no phase is reported.  If some active task
    runs a title-screen task, the screen is detected whatever the callback
    is, and the phase is that of the first such task. *)
Theorem title_screen_detection_criterion :
  forall (K : Addresses) (io : Mgba) (callback2 : Z) (raw : bytes),
    NUM_TASKS K * TASK_SIZE K <= len raw ->
    let title_task i :=
      task_active K raw i
      /\ in_ints (task_func K raw i) (title_task_addrs K) = true in
    ((forall i, 0 <= i < NUM_TASKS K -> ~ title_task i) ->
       get_title_screen_press_start_state K io (Some callback2) (Some raw)
       = if in_ints (Z.land callback2 0xFFFFFFFE) (title_cb2_addrs K)
         then Some {| title_type := u "titleScreen"; phase := None |}
         else None)
    /\ (forall i,
          0 <= i < NUM_TASKS K -> title_task i ->
          (forall j, 0 <= j < i -> ~ title_task j) ->
          get_title_screen_press_start_state K io (Some callback2) (Some raw)
          = Some {| title_type := u "titleScreen";
                    phase := title_phase K (task_func K raw i) |}).
Proof.
  intros K io cb raw Hlen title_task.
  assert (Hge : (len raw >=? NUM_TASKS K * TASK_SIZE K) = true)
    by (rewrite Z.geb_leb; apply Z.leb_le; exact Hlen).
  split.
  - intros Hno. unfold get_title_screen_press_start_state. rewrite Hge.
    rewrite range_seq, (title_scan_raw_spec K raw (Z.to_nat (NUM_TASKS K)) 0)
      by (intros i Hi; apply Hno; lia).
    cbv beta iota zeta.
    destruct (in_ints (Z.land cb 0xFFFFFFFE) (title_cb2_addrs K)); reflexivity.
  - intros i Hi [Hact Hm] Hno.
    unfold get_title_screen_press_start_state. rewrite Hge.
    rewrite range_seq,
      (title_scan_raw_hit K raw i (Z.to_nat (NUM_TASKS K)) 0)
      by (try assumption; try lia; intros j Hj; apply Hno; lia).
    cbv beta iota zeta. rewrite andb_false_r. reflexivity.
Qed.

Lemma title_screen_detection_criterion_witness :
  get_title_screen_press_start_state
    sample_addresses offline (Some 0x080565B5) (Some title_task_table)
  = Some {| title_type := u "titleScreen";
            phase := title_phase sample_addresses
                                 (task_func sample_addresses title_task_table 2) |}.
Proof.
  apply (proj2 (title_screen_detection_criterion
                  sample_addresses offline 0x080565B5 title_task_table
                  ltac:(vm_compute; discriminate)) 2).
  - simpl. lia.
  - split; [vm_compute; discriminate|vm_compute; reflexivity].
  - intros j Hj [Hact _]. apply Hact.
    assert (E : j = 0 \/ j = 1) by lia.
    destruct E as [-> | ->]; vm_compute; reflexivity.
Defined.

(** ** [ui/battle.py]: the menu states *)

Lemma get_species_name_ok (G : GameData) (c : bool) (i : Z) :
  unless_tables_fail G (if c then get_species_name G i else Ok None)
                     (fun _ => True).
Proof. destruct c; [|exact I]. unfold get_species_name. tables_or_error G. Qed.

Lemma get_move_name_ok (G : GameData) (c : bool) (i : Z) :
  unless_tables_fail G (if c then get_move_name G i else Ok None)
                     (fun _ => True).
Proof. destruct c; [|exact I]. unfold get_move_name. tables_or_error G. Qed.

Lemma get_item_name_ok (G : GameData) (c : bool) (i : Z) :
  unless_tables_fail G (if c then get_item_name G i else Ok None)
                     (fun _ => True).
Proof. destruct c; [|exact I]. unfold get_item_name. tables_or_error G. Qed.

Lemma get_ability_name_ok (G : GameData) (c : bool) (i : Z) :
  unless_tables_fail G (if c then get_ability_name G i else Ok None)
                     (fun _ => True).
Proof. destruct c; [|exact I]. unfold get_ability_name. tables_or_error G. Qed.

Lemma _battle_mon_display_name_from_raw_ok (K : Addresses) (G : GameData)
      (mon_raw : bytes) :
  unless_tables_fail G (_battle_mon_display_name_from_raw K G mon_raw)
                     (fun _ => True).
Proof.
  unfold _battle_mon_display_name_from_raw.
  destruct (negb (nonempty mon_raw) || (len mon_raw <? BATTLE_POKEMON_SIZE K));
    [exact I|].
  rewrite _u16le_from_value. cbv beta iota.
  match goal with |- context [if ?c =? 0 then _ else _] => destruct (c =? 0) end;
    [exact I|].
  match goal with |- context [if nonempty ?c then _ else _] =>
                  destruct (nonempty c) end; [exact I|].
  apply (get_species_name_ok G true).
Qed.

Lemma collect_targets_ok (K : Addresses) (G : GameData) (absent : Z)
      (positions : list Z) (mons : bytes) (ids : list Z) :
  Forall (fun i => 0 <= i) ids ->
  unless_tables_fail G (collect_targets K G absent positions mons ids)
                     (fun _ => True).
Proof.
  induction ids as [|i rest IH]; intros H; [exact I|].
  inversion H as [|? ? Hi Hrest]; subst.
  specialize (IH Hrest).
  cbn [collect_targets].
  destruct (negb (Z.land absent (Z.shiftl 1 i) =? 0)); [exact IH|].
  pose proof (_battle_mon_display_name_from_raw_ok K G (mon_slice K mons i))
    as Hd.
  assert (Hpos : exists pos,
             (if i <? len positions then getitem positions i else Ok i)
             = Ok pos).
  { destruct (i <? len positions) eqn:E; [|eauto].
    apply Z.ltb_lt in E. rewrite (getitem_in_range positions i 0) by lia.
    eauto. }
  destruct Hpos as [pos Hpos]. rewrite Hpos. cbv beta iota.
  destruct (_battle_mon_display_name_from_raw K G (mon_slice K mons i))
    as [d|e]; [|exact Hd].
  cbv beta iota.
  destruct (collect_targets K G absent positions mons rest) as [ts|e];
    [exact I|exact IH].
Qed.

Lemma range_nonneg (n : Z) : Forall (fun i => 0 <= i) (range n).
Proof.
  unfold range. apply Forall_forall. intros i Hi.
  apply in_map_iff in Hi. destruct Hi as [k [<- _]]. lia.
Qed.

Lemma target_cursor_index_bound (multi : Z) (l : list battle_target) :
  forall s : nat,
    let r := target_cursor_index
               multi (combine (map Z.of_nat (seq s (List.length l))) l) in
    r = 0 \/ Z.of_nat s <= r < Z.of_nat (s + List.length l).
Proof.
  induction l as [|t rest IH]; intros s; [left; reflexivity|].
  simpl. destruct (target_battlerId t =? multi); [right; lia|].
  destruct (IH (S s)) as [H|H]; [left; exact H|right; lia].
Qed.

Lemma move_names_unless_tables_fail (G : GameData) (moves_raw : list Z) :
  unless_tables_fail
    G (for_each (fun m => if negb (m =? 0) then get_move_name G m else Ok None)
                moves_raw)
    (fun moves => List.length moves = List.length moves_raw).
Proof.
  induction moves_raw as [|m rest IH]; [reflexivity|].
  cbn [for_each].
  pose proof (get_move_name_ok G (negb (m =? 0)) m) as Hm.
  destruct (if negb (m =? 0) then get_move_name G m else Ok None) as [name|e];
    [|exact Hm].
  cbv beta iota.
  destruct (for_each _ rest) as [names|e]; [|exact IH].
  simpl. simpl in IH. rewrite IH. reflexivity.
Qed.

(** The fields of a battle slot as [_parse_battle_pokemon] reads them. *)
Lemma _parse_battle_pokemon_fields (K : Addresses) (G : GameData) (raw : bytes) :
  unless_tables_fail
    G (_parse_battle_pokemon K G raw)
    (fun mon =>
       List.length (mon_moves mon) = 4%nat
       /\ List.length (mon_pp mon) = 4%nat
       /\ mon_speciesId mon
          = if negb (nonempty raw) || (len raw <? BATTLE_POKEMON_SIZE K) then 0
            else if out_of_bounds raw 0 2 then 0
                 else Z.lor (peek raw 0) (Z.shiftl (peek raw (0 + 1)) 8)).
Proof.
  unfold _parse_battle_pokemon.
  destruct (negb (nonempty raw) || (len raw <? BATTLE_POKEMON_SIZE K)).
  - split; [reflexivity|]. split; reflexivity.
  - rewrite !_u16le_from_value, !_u8_from_value, _u32le_from_value.
    rewrite (for_each_ok
               (fun i => _u16le_from raw (0x0C + i * 2))
               (fun i => if out_of_bounds raw (0x0C + i * 2) 2 then 0
                         else Z.lor (peek raw (0x0C + i * 2))
                                    (Z.shiftl (peek raw (0x0C + i * 2 + 1)) 8)))
      by (intros i; apply _u16le_from_value).
    rewrite (for_each_ok
               (fun i => _u8_from raw (0x24 + i))
               (fun i => if out_of_bounds raw (0x24 + i) 1 then 0
                         else peek raw (0x24 + i)))
      by (intros i; apply _u8_from_value).
    cbv beta iota zeta.
    match goal with
    | |- unless_tables_fail
           _ (match (if ?c then get_species_name G ?i else Ok None) with _ => _ end)
           _ =>
      pose proof (get_species_name_ok G c i) as Hs;
        destruct (if c then get_species_name G i else Ok None) as [species|e];
        [|exact Hs]
    end.
    cbv beta iota.
    match goal with
    | |- unless_tables_fail _ (match for_each ?f ?l with _ => _ end) _ =>
      pose proof (move_names_unless_tables_fail G l) as Hm;
        destruct (for_each f l) as [moves|e]; [|exact Hm]
    end.
    cbv beta iota.
    match goal with
    | |- unless_tables_fail
           _ (match (if ?c then get_item_name G ?i else Ok None) with _ => _ end)
           _ =>
      pose proof (get_item_name_ok G c i) as Hi;
        destruct (if c then get_item_name G i else Ok None) as [item_name|e];
        [|exact Hi]
    end.
    cbv beta iota.
    match goal with
    | |- unless_tables_fail
           _ (match (if ?c then get_ability_name G ?i else Ok None) with _ => _ end)
           _ =>
      pose proof (get_ability_name_ok G c i) as Ha;
        destruct (if c then get_ability_name G i else Ok None) as [ability|e];
        [|exact Ha]
    end.
    cbv beta iota. unfold unless_tables_fail. cbn [mon_moves mon_pp mon_speciesId].
    split; [exact Hm|]. split; reflexivity.
Qed.

Lemma padded_length {A : Type} (l : list A) (x : A) :
  List.length l = 4%nat -> len (l ++ repeat x (4 - List.length l)) = 4.
Proof.
  intros H. unfold len. rewrite length_app, repeat_length, H. reflexivity.
Qed.

Lemma _build_battle_ui_state_built (K : Addresses) (G : GameData)
      (flags count absent : Z) (positions : list Z) (mons : bytes)
      (active func action_cursor move_cursor multi : Z) :
  match _build_battle_ui_state K G flags count absent positions mons active
                               func action_cursor move_cursor multi with
  | Ok r => built_for K active func r
  | Raise e =>
    load_reference_tables G = Raise e
    /\ (menu_of_handler K func = Some (u "battleTarget")
        \/ menu_of_handler K func = Some (u "battleMoves"))
  end.
Proof.
  unfold _build_battle_ui_state, built_for, menu_of_handler.
  destruct (_ptr_matches_any func (BATTLE_PLAYER_HANDLE_YES_NO_INPUT_ADDRS K)).
  { cbn [ui_type activeBattlerId].
    split; [reflexivity|]. split; [reflexivity|].
    unfold cursor_on_option. cbn [cursorPosition selectedOption options].
    destruct (Z.land multi 0xFF =? 0); repeat split; try lia;
      unfold len; simpl; lia. }
  destruct (_ptr_matches_any func (BATTLE_HANDLE_INPUT_CHOOSE_TARGET_ADDRS K)).
  { match goal with
    | |- context [collect_targets K G absent positions mons (range ?m)] =>
      pose proof (collect_targets_ok K G absent positions mons (range m)
                                     (range_nonneg m)) as Hts;
        destruct (collect_targets K G absent positions mons (range m))
          as [ts|e]
    end; [|split; [exact Hts|left; reflexivity]].
    cbv beta iota zeta. cbn [ui_type activeBattlerId].
    split; [reflexivity|]. split; [reflexivity|].
    unfold cursor_on_option. cbn [cursorPosition selectedOption options].
    set (sorted := sort_by_key _target_grid_key ts).
    pose proof (target_cursor_index_bound (Z.land multi 0xFF) sorted 0) as Hb.
    cbv zeta in Hb. fold (enumerate sorted) in Hb.
    set (ci := target_cursor_index (Z.land multi 0xFF) (enumerate sorted)) in *.
    assert (Hci : 0 <= ci) by lia.
    split; [exact Hci|]. split; [apply item_or_none_nth; exact Hci|].
    intros Hne. unfold len. rewrite length_map.
    destruct sorted as [|t0 sorted']; [exfalso; apply Hne; reflexivity|].
    simpl List.length in *. lia. }
  destruct (_ptr_matches_any func (BATTLE_HANDLE_INPUT_CHOOSE_MOVE_ADDRS K)).
  { pose proof (_parse_battle_pokemon_fields
                  K G (mon_slice K mons (Z.land active 0xFF))) as Hmon.
    destruct (_parse_battle_pokemon K G (mon_slice K mons (Z.land active 0xFF)))
      as [mon|e]; [|split; [exact Hmon|right; reflexivity]].
    destruct Hmon as [Hmoves [Hpp _]].
    cbv beta iota zeta. cbn [ui_type activeBattlerId].
    split; [reflexivity|]. split; [reflexivity|].
    unfold cursor_on_option. cbn [cursorPosition selectedOption options].
    rewrite !padded_length by (rewrite length_map; exact Hmoves).
    assert (Hc : 0 <= (if (0 <=? Z.land move_cursor 0xFF)
                          && (Z.land move_cursor 0xFF <? 4)
                       then Z.land move_cursor 0xFF else 0) < 4).
    { destruct (0 <=? Z.land move_cursor 0xFF) eqn:E0; simpl; [|lia].
      destruct (Z.land move_cursor 0xFF <? 4) eqn:E1; [|lia].
      apply Z.leb_le in E0. apply Z.ltb_lt in E1. lia. }
    split; [lia|]. split; [apply item_or_none_nth; lia|]. intros _. lia. }
  destruct (_ptr_matches_any func (BATTLE_HANDLE_INPUT_CHOOSE_ACTION_ADDRS K)).
  { cbn [ui_type activeBattlerId].
    split; [reflexivity|]. split; [reflexivity|].
    unfold cursor_on_option. cbn [cursorPosition selectedOption options].
    assert (Hc : 0 <= (if (0 <=? Z.land action_cursor 0xFF)
                          && (Z.land action_cursor 0xFF <? 4)
                       then Z.land action_cursor 0xFF else 0) < 4).
    { destruct (0 <=? Z.land action_cursor 0xFF) eqn:E0; simpl; [|lia].
      destruct (Z.land action_cursor 0xFF <? 4) eqn:E1; [|lia].
      apply Z.leb_le in E0. apply Z.ltb_lt in E1. lia. }
    split; [lia|]. split; [apply item_or_none_nth; lia|].
    intros _. destruct (negb (Z.land flags (BATTLE_TYPE_SAFARI K) =? 0));
      unfold len; simpl List.length; lia. }
  reflexivity.
Qed.

(** X15.  What [_build_battle_ui_state] returns.  It raises only when
    the controller function is a target or a move handler and the
    reference tables fail to load, and then it raises the error of the
    loading; in particular it never raises when the tables load, whatever
    the captured bytes are.  It returns a state exactly when the
    controller function is registered in one of the four handler lists;
    the state's type is that of the first such list in the order yes/no,
    target, move, action, its battler is the given one reduced to a byte,
    its cursor is not negative, its selected option is the option at the
    cursor, and the cursor is inside the option list unless the list is
    empty. *)
Theorem battle_menu_cursor_is_on_an_option :
  forall (K : Addresses) (G : GameData)
         (battle_type_flags battlers_count absent_flags : Z)
         (positions : list Z) (battle_mons_raw : bytes)
         (active_battler controller_func action_cursor move_cursor
          multi_cursor : Z),
    let res :=
      _build_battle_ui_state K G battle_type_flags battlers_count absent_flags
                             positions battle_mons_raw active_battler
                             controller_func action_cursor move_cursor
                             multi_cursor in
    match res with
    | Ok r => built_for K active_battler controller_func r
    | Raise e =>
      load_reference_tables G = Raise e
      /\ (menu_of_handler K controller_func = Some (u "battleTarget")
          \/ menu_of_handler K controller_func = Some (u "battleMoves"))
    end
    /\ (forall tables,
          load_reference_tables G = Ok tables -> exists r, res = Ok r).
Proof.
  intros K G flags count absent positions mons active func ac mc multi res.
  pose proof (_build_battle_ui_state_built
                K G flags count absent positions mons active func ac mc multi)
    as H.
  fold res in H. split; [exact H|].
  intros tables Ht. destruct res as [r|e]; [eauto|].
  destruct H as [H _]. congruence.
Qed.

Lemma battle_menu_cursor_is_on_an_option_witness :
  (exists r,
      _build_battle_ui_state sample_addresses no_names 0 2 0 [0; 1; 2; 3]
                             move_slot 0 0x0802EA11 0 1 0 = Ok r)
  /\ _build_battle_ui_state sample_addresses missing_tables 0 2 0 [0; 1; 2; 3]
                             move_slot 0 0x0802EA11 0 1 0
     = Raise GameDataError.
Proof.
  split; [|vm_compute; reflexivity].
  apply (proj2 (battle_menu_cursor_is_on_an_option
                  sample_addresses no_names 0 2 0 [0; 1; 2; 3] move_slot
                  0 0x0802EA11 0 1 0) empty_tables).
  reflexivity.
Defined.

Lemma detect_controller_funcs (K : Addresses) (raw : bytes) :
  exists l,
    (if nonempty raw && (len raw >=? BATTLE_MAX_BATTLERS K * 4)
     then for_each (fun i => _u32le_from raw (i * 4))
                   (range (BATTLE_MAX_BATTLERS K))
     else Ok (repeat 0 (Z.to_nat (BATTLE_MAX_BATTLERS K)))) = Ok l
    /\ enumerate l = controller_funcs K raw
    /\ len l = Z.max 0 (BATTLE_MAX_BATTLERS K).
Proof.
  unfold controller_funcs.
  destruct (nonempty raw && (len raw >=? BATTLE_MAX_BATTLERS K * 4)).
  - rewrite (for_each_ok _ (fun i => u32_value raw (i * 4)))
      by (intros i; apply _u32le_from_value).
    eexists. split; [reflexivity|]. split; [reflexivity|].
    unfold len, range. rewrite !length_map, length_seq. lia.
  - eexists. split; [reflexivity|]. split; [reflexivity|].
    unfold len. rewrite repeat_length. lia.
Qed.

Lemma detect_cursor (K : Addresses) (raw : bytes) (b : Z) :
  0 <= b < BATTLE_MAX_BATTLERS K ->
  exists c,
    getitem (if nonempty raw && (len raw >=? BATTLE_MAX_BATTLERS K)
             then map byte_val (slice raw 0 (BATTLE_MAX_BATTLERS K))
             else repeat 0 (Z.to_nat (BATTLE_MAX_BATTLERS K))) b = Ok c.
Proof.
  intros Hb.
  destruct (nonempty raw) eqn:En; simpl andb.
  - destruct (len raw >=? BATTLE_MAX_BATTLERS K) eqn:E.
    + apply Z.geb_le in E. eexists. apply (getitem_in_range _ _ 0).
      unfold len. rewrite length_map. rewrite slice_prefix by lia.
      rewrite length_firstn. unfold len in E. lia.
    + eexists. apply (getitem_in_range _ _ 0).
      unfold len. rewrite repeat_length. lia.
  - eexists. apply (getitem_in_range _ _ 0).
    unfold len. rewrite repeat_length. lia.
Qed.

Lemma detect_registered (K : Addresses) (G : GameData) (io : Mgba)
      (flags count absent : Z) (positions : list Z) (mons : bytes)
      (active : Z) (ctrl act mov : bytes) (multi : Z) (bg0 : option Z)
      (script comm : option bytes) (b f : Z) :
  first_by_priority (priority_lists K) (controller_funcs K ctrl) = Some (b, f) ->
  In (b, f) (controller_funcs K ctrl) ->
  exists ca cm,
    _detect_battle_ui_state K G io flags count absent positions mons active
                            ctrl act mov multi bg0 script comm
    = _build_battle_ui_state K G flags count absent positions mons b f
                             ca cm multi.
Proof.
  intros Hfirst Hin. unfold _detect_battle_ui_state.
  destruct (detect_controller_funcs K ctrl) as [l [Hl [He Hlen]]].
  rewrite Hl. rewrite He. fold (priority_lists K). rewrite Hfirst.
  rewrite <- He in Hin. apply enumerate_In in Hin.
  assert (Hb : 0 <= b < BATTLE_MAX_BATTLERS K) by lia.
  destruct (detect_cursor K act b Hb) as [ca Hca].
  destruct (detect_cursor K mov b Hb) as [cm Hcm].
  rewrite Hca, Hcm. exists ca, cm. reflexivity.
Qed.

(** X16.  The order in which [_detect_battle_ui_state] recognises the
    battle menus.  A yes/no handler on any battler wins; without one a
    target handler wins, then a move handler, then an action handler.  In
    each case the state returned is built for the first battler whose
    controller function is registered in the winning list, it has the
    type of that list, and its cursor is on one of its options.  The
    target and the move menu look names up, so for them the reference
    tables have to load; the yes/no and the action menu are returned
    whether they load or not. *)
Theorem battle_menu_priority :
  forall (K : Addresses) (G : GameData) (io : Mgba)
         (battle_type_flags battlers_count absent_flags : Z)
         (positions : list Z) (battle_mons_raw : bytes)
         (active_battler_fallback : Z)
         (controller_funcs_raw action_selection_cursor_raw
          move_selection_cursor_raw : bytes)
         (multi_cursor : Z) (bg0_y : option Z)
         (battle_script_curr_instr_raw battle_communication_raw : option bytes)
         (b f : Z),
    let funcs := controller_funcs K controller_funcs_raw in
    let shows (menu : pystr) :=
      exists st,
        _detect_battle_ui_state
          K G io battle_type_flags battlers_count absent_flags positions
          battle_mons_raw active_battler_fallback controller_funcs_raw
          action_selection_cursor_raw move_selection_cursor_raw multi_cursor
          bg0_y battle_script_curr_instr_raw battle_communication_raw
        = Ok (Some st)
        /\ ui_type st = menu
        /\ activeBattlerId st = Z.land b 0xFF
        /\ cursor_on_option st in
    let tables_load := exists tables, load_reference_tables G = Ok tables in
    let yes_no := first_registered funcs (BATTLE_PLAYER_HANDLE_YES_NO_INPUT_ADDRS K) in
    let target := first_registered funcs (BATTLE_HANDLE_INPUT_CHOOSE_TARGET_ADDRS K) in
    let move := first_registered funcs (BATTLE_HANDLE_INPUT_CHOOSE_MOVE_ADDRS K) in
    let action := first_registered funcs (BATTLE_HANDLE_INPUT_CHOOSE_ACTION_ADDRS K) in
    (yes_no = Some (b, f) -> shows (u "battleYesNo"))
    /\ (yes_no = None -> target = Some (b, f) -> tables_load ->
        shows (u "battleTarget"))
    /\ (yes_no = None -> target = None -> move = Some (b, f) -> tables_load ->
        shows (u "battleMoves"))
    /\ (yes_no = None -> target = None -> move = None -> action = Some (b, f) ->
        shows (u "battleActions")).
Proof.
  intros K G io flags count absent positions mons active ctrl act mov multi
         bg0 script comm b f funcs shows tables_load yes_no target move action.
  assert (Hshow : forall menu,
             first_by_priority (priority_lists K) funcs = Some (b, f) ->
             In (b, f) funcs ->
             menu_of_handler K f = Some menu ->
             tables_load
             \/ (menu <> u "battleTarget" /\ menu <> u "battleMoves") ->
             shows menu).
  { intros menu Hfirst Hin Hmenu Hsafe.
    destruct (detect_registered K G io flags count absent positions mons active
                                ctrl act mov multi bg0 script comm b f
                                Hfirst Hin) as [ca [cm Hr]].
    pose proof (_build_battle_ui_state_built
                  K G flags count absent positions mons b f ca cm multi)
      as Hbuilt.
    destruct (_build_battle_ui_state K G flags count absent positions mons b f
                                     ca cm multi) as [r|e].
    - unfold built_for in Hbuilt. destruct r as [st|]; [|congruence].
      destruct Hbuilt as [Hm [Ha Hc]].
      exists st. split; [exact Hr|]. split; [congruence|]. split; assumption.
    - exfalso. destruct Hbuilt as [Hload Hkind].
      destruct Hsafe as [[tables Ht]|[Hnt Hnm]]; [congruence|].
      destruct Hkind as [Hk|Hk]; rewrite Hmenu in Hk; injection Hk as Hk;
        [apply Hnt|apply Hnm]; exact Hk. }
  unfold priority_lists in Hshow. cbn [first_by_priority] in Hshow.
  fold yes_no target move action in Hshow.
  split; [|split; [|split]].
  - intros Hy. destruct (first_registered_some _ _ _ _ Hy) as [Hin Hm].
    apply Hshow; [rewrite Hy; reflexivity|exact Hin| |].
    + unfold menu_of_handler. rewrite Hm. reflexivity.
    + right. split; discriminate.
  - intros Hy Ht Hl. destruct (first_registered_some _ _ _ _ Ht) as [Hin Hm].
    apply Hshow; [rewrite Hy, Ht; reflexivity|exact Hin| |left; exact Hl].
    unfold menu_of_handler.
    rewrite (first_registered_none _ _ b f Hy Hin), Hm. reflexivity.
  - intros Hy Ht Hmv Hl.
    destruct (first_registered_some _ _ _ _ Hmv) as [Hin Hm].
    apply Hshow; [rewrite Hy, Ht, Hmv; reflexivity|exact Hin| |left; exact Hl].
    unfold menu_of_handler.
    rewrite (first_registered_none _ _ b f Hy Hin),
            (first_registered_none _ _ b f Ht Hin), Hm. reflexivity.
  - intros Hy Ht Hmv Ha. destruct (first_registered_some _ _ _ _ Ha) as [Hin Hm].
    apply Hshow; [rewrite Hy, Ht, Hmv, Ha; reflexivity|exact Hin| |].
    + unfold menu_of_handler.
      rewrite (first_registered_none _ _ b f Hy Hin),
              (first_registered_none _ _ b f Ht Hin),
              (first_registered_none _ _ b f Hmv Hin), Hm. reflexivity.
    + right. split; discriminate.
Qed.

Lemma battle_menu_priority_witness :
  (exists st,
      _detect_battle_ui_state
        sample_addresses no_names offline 4 2 0 [0; 1; 2; 3] (zeros 352) 0
        action_and_yes_no_handlers [x01; x00; x00; x00] (zeros 4) 0 None
        None None
      = Ok (Some st)
      /\ ui_type st = u "battleYesNo"
      /\ activeBattlerId st = Z.land 1 0xFF
      /\ cursor_on_option st)
  /\ (exists st,
         _detect_battle_ui_state
           sample_addresses no_names offline 4 2 0 [0; 1; 2; 3] move_slot 0
           move_handler_on_first (zeros 4) [x01; x00; x00; x00] 0 None
           None None
         = Ok (Some st)
         /\ ui_type st = u "battleMoves"
         /\ activeBattlerId st = Z.land 0 0xFF
         /\ cursor_on_option st).
Proof.
  split.
  - apply (proj1 (battle_menu_priority
                    sample_addresses no_names offline 4 2 0 [0; 1; 2; 3]
                    (zeros 352) 0 action_and_yes_no_handlers
                    [x01; x00; x00; x00] (zeros 4) 0 None None None
                    1 0x0802E439)).
    vm_compute. reflexivity.
  - apply (proj1 (proj2 (proj2 (battle_menu_priority
                    sample_addresses no_names offline 4 2 0 [0; 1; 2; 3]
                    move_slot 0 move_handler_on_first
                    (zeros 4) [x01; x00; x00; x00] 0 None None None
                    0 0x0802EA11)))).
    + vm_compute. reflexivity.
    + vm_compute. reflexivity.
    + vm_compute. reflexivity.
    + exists empty_tables. reflexivity.
Defined.

Lemma yes_no_state_cursor (battler cursor_raw : Z) :
  cursor_on_option
    {| ui_type := u "battleYesNo";
       activeBattlerId := battler;
       cursorPosition := if cursor_raw =? 0 then 0 else 1;
       selectedOption :=
         item_or_none [u "YES"; u "NO"] (if cursor_raw =? 0 then 0 else 1);
       options := [u "YES"; u "NO"];
       layout := u "list";
       cursorBattlerId := None; targets := None; pp := None |}.
Proof.
  unfold cursor_on_option. cbn [cursorPosition selectedOption options].
  destruct (cursor_raw =? 0); repeat split; try lia; unfold len; simpl; lia.
Qed.

Lemma built_for_cursor (K : Addresses) (b f : Z) (r : option battle_ui_state) :
  built_for K b f r ->
  match r with Some st => cursor_on_option st | None => True end.
Proof.
  destruct r as [st|]; [|trivial]. intros [_ [_ H]]. exact H.
Qed.

Lemma built_unless_tables_fail (K : Addresses) (G : GameData)
      (flags count absent : Z) (positions : list Z) (mons : bytes)
      (b f ca cm multi : Z) :
  unless_tables_fail
    G (_build_battle_ui_state K G flags count absent positions mons b f
                              ca cm multi)
    (fun r => match r with Some st => cursor_on_option st | None => True end).
Proof.
  pose proof (_build_battle_ui_state_built
                K G flags count absent positions mons b f ca cm multi) as H.
  unfold unless_tables_fail.
  destruct (_build_battle_ui_state K G flags count absent positions mons b f
                                   ca cm multi) as [r|e].
  - exact (built_for_cursor K b f r H).
  - exact (proj1 H).
Qed.

Lemma _detect_battle_ui_state_total (K : Addresses) (G : GameData) (io : Mgba)
      (flags count absent : Z) (positions : list Z) (mons : bytes)
      (active : Z) (ctrl act mov : bytes) (multi : Z) (bg0 : option Z)
      (script comm : option bytes) :
  0 < BATTLE_MAX_BATTLERS K ->
  unless_tables_fail
    G (_detect_battle_ui_state K G io flags count absent positions mons active
                               ctrl act mov multi bg0 script comm)
    (fun r => match r with Some st => cursor_on_option st | None => True end).
Proof.
  intros Hn.
  destruct (first_by_priority (priority_lists K) (controller_funcs K ctrl))
    as [[b f]|] eqn:Hfirst.
  - assert (Hin : In (b, f) (controller_funcs K ctrl)).
    { unfold priority_lists in Hfirst. cbn [first_by_priority] in Hfirst.
      repeat match type of Hfirst with
             | match first_registered ?fs ?l with _ => _ end = _ =>
               let E := fresh "E" in
               destruct (first_registered fs l) as [[b' f']|] eqn:E;
                 [injection Hfirst as -> ->;
                  exact (proj1 (first_registered_some _ _ _ _ E))|]
             end.
      discriminate. }
    destruct (detect_registered K G io flags count absent positions mons active
                                ctrl act mov multi bg0 script comm b f
                                Hfirst Hin) as [ca [cm Hr]].
    rewrite Hr. apply built_unless_tables_fail.
  - unfold _detect_battle_ui_state.
    destruct (detect_controller_funcs K ctrl) as [l [Hl [He Hlen]]].
    rewrite Hl. rewrite He. fold (priority_lists K). rewrite Hfirst.
    cbv zeta.
    set (battler_id := if Z.land active 0xFF >=? BATTLE_MAX_BATTLERS K
                       then 0 else Z.land active 0xFF).
    assert (Hb : 0 <= battler_id < BATTLE_MAX_BATTLERS K).
    { subst battler_id.
      assert (0 <= Z.land active 0xFF)
        by (apply Z.land_nonneg; right; lia).
      destruct (Z.land active 0xFF >=? BATTLE_MAX_BATTLERS K) eqn:E;
        [lia|]. rewrite Z.geb_leb in E. apply Z.leb_gt in E. lia. }
    destruct (detect_cursor K act battler_id Hb) as [ca Hca].
    destruct (detect_cursor K mov battler_id Hb) as [cm Hcm].
    match goal with
    | |- context [if ?c then Ok (Some ?st) else _] => destruct c
    end.
    + apply yes_no_state_cursor.
    + destruct bg0 as [y|]; [|exact I].
      destruct ((y =? DISPLAY_HEIGHT K)
                && nonempty (BATTLE_HANDLE_INPUT_CHOOSE_ACTION_ADDRS K)) eqn:E1.
      * apply andb_true_iff in E1. destruct E1 as [_ E1].
        destruct (BATTLE_HANDLE_INPUT_CHOOSE_ACTION_ADDRS K) as [|forced rest];
          [discriminate|].
        change (getitem (forced :: rest) 0) with (Ok forced).
        rewrite Hca, Hcm. apply built_unless_tables_fail.
      * destruct ((y =? DISPLAY_HEIGHT K * 2)
                  && nonempty (BATTLE_HANDLE_INPUT_CHOOSE_MOVE_ADDRS K)) eqn:E2;
          [|exact I].
        apply andb_true_iff in E2. destruct E2 as [_ E2].
        destruct (BATTLE_HANDLE_INPUT_CHOOSE_MOVE_ADDRS K) as [|forced rest];
          [discriminate|].
        change (getitem (forced :: rest) 0) with (Ok forced).
        rewrite Hca, Hcm. apply built_unless_tables_fail.
Qed.

(** X17.  With at least one battler slot ([BATTLE_MAX_BATTLERS] positive),
    the only error [_detect_battle_ui_state] can raise is the error of
    loading the reference tables: when the tables load it never raises,
    whatever the captured buffers hold and whether or not the emulator
    answers.  It returns a menu state or [None], and the cursor of a
    returned state is on one of its options.  (With no battler slot the
    fallback indexes an empty cursor list.) *)
Theorem battle_menu_detection_raises_only_the_loading_error :
  forall (K : Addresses) (G : GameData) (io : Mgba)
         (battle_type_flags battlers_count absent_flags : Z)
         (positions : list Z) (battle_mons_raw : bytes)
         (active_battler_fallback : Z)
         (controller_funcs_raw action_selection_cursor_raw
          move_selection_cursor_raw : bytes)
         (multi_cursor : Z) (bg0_y : option Z)
         (battle_script_curr_instr_raw battle_communication_raw : option bytes),
    let res :=
      _detect_battle_ui_state
        K G io battle_type_flags battlers_count absent_flags positions
        battle_mons_raw active_battler_fallback controller_funcs_raw
        action_selection_cursor_raw move_selection_cursor_raw multi_cursor
        bg0_y battle_script_curr_instr_raw battle_communication_raw in
    let cursor_ok (r : option battle_ui_state) :=
      match r with Some st => cursor_on_option st | None => True end in
    (0 < BATTLE_MAX_BATTLERS K -> unless_tables_fail G res cursor_ok)
    /\ (0 < BATTLE_MAX_BATTLERS K ->
        forall tables, load_reference_tables G = Ok tables ->
                       exists r, res = Ok r /\ cursor_ok r)
    /\ (BATTLE_MAX_BATTLERS K = 0 ->
        BATTLE_HANDLE_INPUT_CHOOSE_ACTION_ADDRS K <> [] ->
        _detect_battle_ui_state
          K G offline battle_type_flags battlers_count absent_flags positions
          battle_mons_raw active_battler_fallback controller_funcs_raw
          action_selection_cursor_raw move_selection_cursor_raw multi_cursor
          (Some (DISPLAY_HEIGHT K)) (Some []) battle_communication_raw
        = Raise IndexError).
Proof.
  intros K G io battle_type_flags battlers_count absent_flags positions
         battle_mons_raw active_battler_fallback controller_funcs_raw
         action_selection_cursor_raw move_selection_cursor_raw multi_cursor
         bg0_y battle_script_curr_instr_raw battle_communication_raw
         res cursor_ok.
  split; [|split].
  - intros Hn. apply _detect_battle_ui_state_total. exact Hn.
  - intros Hn tables Ht.
    pose proof (_detect_battle_ui_state_total
                  K G io battle_type_flags battlers_count absent_flags
                  positions battle_mons_raw active_battler_fallback
                  controller_funcs_raw action_selection_cursor_raw
                  move_selection_cursor_raw multi_cursor bg0_y
                  battle_script_curr_instr_raw battle_communication_raw Hn)
      as H.
    fold res in H. unfold unless_tables_fail in H.
    destruct res as [r|e]; [eauto|congruence].
  - intros Hz Hne. unfold _detect_battle_ui_state. rewrite Hz.
    change (Z.to_nat 0) with 0%nat. change (range 0) with (@nil Z).
    change (0 * 4) with 0.
    assert (Ef : forall raw : bytes,
               (if nonempty raw && (len raw >=? 0)
                then for_each (fun i => _u32le_from raw (i * 4)) []
                else Ok (repeat 0 0)) = Ok []).
    { intros raw. destruct (nonempty raw && (len raw >=? 0)); reflexivity. }
    rewrite Ef. cbn [enumerate List.length seq map combine first_by_priority
                      first_registered].
    cbv zeta. cbn [truthy nonempty andb try_except mgba_read32 offline read32].
    change (negb (0 =? 0)) with false. cbn [andb].
    rewrite Z.eqb_refl.
    destruct (BATTLE_HANDLE_INPUT_CHOOSE_ACTION_ADDRS K) as [|a rest];
      [contradiction|].
    cbn [nonempty andb]. change (getitem (a :: rest) 0) with (Ok a).
    cbv beta iota.
    assert (Ec : forall raw : bytes,
               (if nonempty raw && (len raw >=? 0)
                then map byte_val (slice raw 0 0) else repeat 0 0) = []).
    { intros raw. destruct (nonempty raw && (len raw >=? 0)); [|reflexivity].
      rewrite slice_prefix by (pose proof (len_nonneg raw); lia). reflexivity. }
    rewrite !Ec.
    assert (Eb : (Z.land active_battler_fallback 255 >=? 0) = true).
    { rewrite Z.geb_leb. apply Z.leb_le. apply Z.land_nonneg. right. lia. }
    rewrite Eb. reflexivity.
Qed.

Lemma battle_menu_detection_raises_only_the_loading_error_witness :
  (exists r,
      _detect_battle_ui_state
        sample_addresses no_names offline 4 2 0 [0; 1; 2; 3] [] 7 [] [] [] 9
        (Some 320) None None = Ok r
      /\ match r with Some st => cursor_on_option st | None => True end)
  /\ _detect_battle_ui_state
       sample_addresses missing_tables offline 4 2 0 [0; 1; 2; 3] move_slot 0
       move_handler_on_first (zeros 4) [x01; x00; x00; x00] 0 None None None
     = Raise GameDataError.
Proof.
  split; [|vm_compute; reflexivity].
  apply (proj1 (proj2 (battle_menu_detection_raises_only_the_loading_error
                  sample_addresses no_names offline 4 2 0 [0; 1; 2; 3] [] 7
                  [] [] [] 9 (Some 320) None None)) ltac:(vm_compute; reflexivity)
               empty_tables).
  reflexivity.
Defined.

(** ** [text/text_printer.py]: the text under the print cursor *)

Lemma firstn_snoc {A : Type} (d : A) (l : list A) :
  forall k : nat, (k < List.length l)%nat ->
                  firstn (S k) l = firstn k l ++ [nth k l d].
Proof.
  induction l as [|x l IH]; intros k Hk; [simpl in Hk; lia|].
  destruct k as [|k]; [reflexivity|].
  simpl in Hk. change (firstn (S (S k)) (x :: l)) with (x :: firstn (S k) l).
  rewrite IH by lia. reflexivity.
Qed.

Lemma range_snoc (k : nat) :
  range (Z.of_nat (S k)) = range (Z.of_nat k) ++ [Z.of_nat k].
Proof.
  unfold range. rewrite !Nat2Z.id. rewrite seq_S, map_app. reflexivity.
Qed.

Lemma range_down_succ (k : nat) :
  range_down (Z.of_nat (S k)) = Z.of_nat k :: range_down (Z.of_nat k).
Proof.
  unfold range_down. rewrite range_snoc, rev_app_distr. reflexivity.
Qed.

Lemma getitem_nth {A : Type} (d : A) (l : list A) (k : nat) :
  (k < List.length l)%nat -> getitem l (Z.of_nat k) = Ok (nth k l d).
Proof.
  intros Hk. rewrite (getitem_in_range l (Z.of_nat k) d) by (unfold len; lia).
  rewrite Nat2Z.id. reflexivity.
Qed.

Lemma take_while_Forall {A : Type} (p : A -> bool) (l : list A) :
  Forall (fun x => p x = true) (take_while p l).
Proof.
  induction l as [|x l IH]; simpl; [constructor|].
  destruct (p x) eqn:E; constructor; assumption.
Qed.

Lemma last_page_snoc (l : bytes) (b : byte) :
  last_page (l ++ [b])
  = if TextPrinter.is_page_break b then [] else last_page l ++ [b].
Proof.
  unfold last_page. rewrite rev_app_distr. simpl.
  destruct (TextPrinter.is_page_break b); reflexivity.
Qed.

Lemma last_page_no_break (l : bytes) :
  Forall (fun b => TextPrinter.is_page_break b = false) (last_page l).
Proof.
  unfold last_page. apply Forall_rev.
  eapply Forall_impl; [|apply take_while_Forall].
  intros b H. apply negb_true_iff. exact H.
Qed.

Lemma page_start_loop_spec (raw : bytes) :
  forall k : nat,
    (k <= List.length raw)%nat ->
    exists ps : nat,
      TextPrinter.page_start_loop raw (range_down (Z.of_nat k))
      = Ok (Z.of_nat ps)
      /\ (ps <= k)%nat
      /\ firstn (k - ps) (skipn ps raw) = last_page (firstn k raw).
Proof.
  induction k as [|k IH]; intros Hk.
  - exists 0%nat. split; [reflexivity|]. split; [lia|reflexivity].
  - rewrite range_down_succ. cbn [TextPrinter.page_start_loop].
    rewrite (getitem_nth x00) by lia.
    rewrite (firstn_snoc x00) by lia. rewrite last_page_snoc.
    destruct (TextPrinter.is_page_break (nth k raw x00)).
    + exists (S k). split; [f_equal; lia|]. split; [lia|].
      rewrite Nat.sub_diag. reflexivity.
    + destruct (IH ltac:(lia)) as [ps [Hps [Hle Hpage]]].
      exists ps. split; [exact Hps|]. split; [lia|].
      rewrite <- Hpage.
      replace (S k - ps)%nat with (S (k - ps)) by lia.
      rewrite (firstn_snoc x00) by (rewrite length_skipn; lia).
      f_equal. f_equal. rewrite nth_skipn. f_equal. lia.
Qed.

Lemma page_end_loop_spec (raw : bytes) (se : nat) :
  forall idxs : list Z,
    Forall (fun idx => 0 <= idx < len raw
                       /\ (idx < Z.of_nat se ->
                           TextPrinter.is_page_break (nth (Z.to_nat idx) raw x00)
                           = false)) idxs ->
    exists r,
      TextPrinter.page_end_loop raw idxs = Ok r
      /\ match r with Some e => Z.of_nat se <= e | None => True end.
Proof.
  induction idxs as [|idx rest IH]; intros H.
  - exists None. split; [reflexivity|trivial].
  - inversion H as [|? ? [Hidx Hnb] Hrest]; subst.
    cbn [TextPrinter.page_end_loop].
    rewrite (getitem_in_range raw idx x00) by exact Hidx.
    destruct (TextPrinter.is_page_break (nth (Z.to_nat idx) raw x00)) eqn:E.
    + exists (Some idx). split; [reflexivity|].
      destruct (Z.lt_ge_cases idx (Z.of_nat se)) as [Hlt|Hge]; [|lia].
      specialize (Hnb Hlt). congruence.
    + apply IH. exact Hrest.
Qed.

Lemma extract_search_end (raw : bytes) (k : nat) :
  (k <= List.length raw)%nat ->
  exists se : nat,
    (after_prompt <-
       (if Z.of_nat k >? 0
        then b <- getitem raw (Z.of_nat k - 1) ;; Ok (in_bytes b PROMPT_CHARS)
        else Ok false) ;;
     if after_prompt then Ok (Z.of_nat k - 1)
     else
       after_terminator <-
         (if Z.of_nat k >? 0
          then b <- getitem raw (Z.of_nat k - 1) ;; Ok (Byte.eqb b TEXT_TERMINATOR)
          else Ok false) ;;
       if after_terminator then Ok (Z.of_nat k - 1)
       else
         at_break <-
           (if Z.of_nat k <? len raw
            then b <- getitem raw (Z.of_nat k) ;; Ok (TextPrinter.is_page_break b)
            else Ok false) ;;
         if at_break then Ok (Z.of_nat k) else Ok (Z.of_nat k))
    = Ok (Z.of_nat se)
    /\ (se <= k)%nat
    /\ firstn se raw = drop_final_break (firstn k raw).
Proof.
  intros Hk.
  assert (Hat : exists at_break,
             (if Z.of_nat k <? len raw
              then b <- getitem raw (Z.of_nat k) ;; Ok (TextPrinter.is_page_break b)
              else Ok false) = Ok at_break).
  { destruct (Z.of_nat k <? len raw) eqn:E; [|eauto].
    apply Z.ltb_lt in E. rewrite (getitem_nth x00) by (unfold len in E; lia).
    eauto. }
  destruct Hat as [at_break Hat]. rewrite Hat.
  destruct k as [|k].
  - exists 0%nat. simpl. destruct at_break; auto.
  - rewrite Z.gtb_ltb.
    destruct (0 <? Z.of_nat (S k)) eqn:E; [|apply Z.ltb_ge in E; lia].
    replace (Z.of_nat (S k) - 1) with (Z.of_nat k) by lia.
    rewrite (getitem_nth x00) by lia. cbv beta iota.
    rewrite (firstn_snoc x00) by lia.
    unfold drop_final_break. rewrite rev_app_distr. simpl rev at 1.
    cbn [app]. unfold TextPrinter.is_page_break at 1.
    destruct (in_bytes (nth k raw x00) PROMPT_CHARS) eqn:Ep.
    + exists k. rewrite orb_true_r, rev_involutive. auto.
    + destruct (Byte.eqb (nth k raw x00) TEXT_TERMINATOR) eqn:Et.
      * exists k. simpl orb. cbv iota. rewrite rev_involutive. auto.
      * exists (S k). simpl orb. cbv iota.
        rewrite (firstn_snoc x00) by lia.
        destruct at_break; auto.
Qed.

Lemma firstn_clamped {A : Type} (l : list A) (offset : Z) :
  let o := if offset <? 0 then 0 else offset in
  let o := if o >? len l then len l else o in
  0 <= o <= len l
  /\ slice l 0 (Z.max 0 offset) = firstn (Z.to_nat o) l.
Proof.
  cbv zeta. pose proof (len_nonneg l) as Hl.
  rewrite firstn_slice by lia.
  destruct (offset <? 0) eqn:E0;
    [apply Z.ltb_lt in E0|apply Z.ltb_ge in E0].
  - rewrite Z.gtb_ltb.
    destruct (len l <? 0) eqn:E1; [apply Z.ltb_lt in E1; lia|].
    split; [lia|]. f_equal. lia.
  - rewrite Z.gtb_ltb.
    destruct (len l <? offset) eqn:E1;
      [apply Z.ltb_lt in E1|apply Z.ltb_ge in E1].
    + split; [lia|]. unfold len. rewrite Nat2Z.id, firstn_all.
      apply firstn_all2. unfold len in E1. lia.
    + split; [lia|]. f_equal. lia.
Qed.

Lemma extract_visible_page (raw : bytes) (offset max_len : Z) :
  TextPrinter._extract_visible_text_from_raw raw offset max_len
  = Ok (decode_gba_string (visible_page (slice raw 0 (Z.max 0 offset)))
                          max_len true).
Proof.
  unfold TextPrinter._extract_visible_text_from_raw.
  destruct raw as [|b0 raw0] eqn:Eraw.
  - simpl negb. cbv iota. unfold slice. simpl. rewrite firstn_nil. reflexivity.
  - rewrite <- Eraw. replace (negb (nonempty raw)) with false by (subst; reflexivity).
    cbv iota. cbv zeta.
    destruct (firstn_clamped raw offset) as [Ho Hslice]. cbv zeta in Ho, Hslice.
    rewrite Hslice.
    set (o := if (if offset <? 0 then 0 else offset) >? len raw
              then len raw else if offset <? 0 then 0 else offset) in *.
    assert (Hk : (Z.to_nat o <= List.length raw)%nat) by (unfold len in Ho; lia).
    destruct (extract_search_end raw (Z.to_nat o) Hk) as [se [Hse [Hle Hdrop]]].
    rewrite Z2Nat.id in Hse by lia.
    unfold TextPrinter.is_page_break in Hse |- *.
    rewrite Hse. cbv beta iota.
    destruct (page_start_loop_spec raw se ltac:(lia)) as [ps [Hps [Hps_le Hpage]]].
    rewrite Hps. cbv beta iota.
    assert (Hidx :
              Forall (fun idx =>
                        0 <= idx < len raw
                        /\ (idx < Z.of_nat se ->
                            TextPrinter.is_page_break (nth (Z.to_nat idx) raw x00)
                            = false))
                     (range_from (Z.of_nat ps) (len raw))).
    { apply Forall_forall. intros idx Hin. unfold range_from in Hin.
      apply in_map_iff in Hin. destruct Hin as [i [<- Hi]].
      unfold range in Hi. apply in_map_iff in Hi. destruct Hi as [n [<- Hn]].
      apply in_seq in Hn. split; [unfold len in *; lia|].
      intros Hlt.
      pose proof (last_page_no_break (firstn se raw)) as Hnb.
      rewrite <- Hpage in Hnb. rewrite Forall_forall in Hnb.
      apply Hnb.
      replace (Z.to_nat (Z.of_nat ps + Z.of_nat n)) with (ps + n)%nat by lia.
      rewrite <- (nth_skipn ps raw n x00)%nat.
      assert (Hn' : (n < se - ps)%nat) by lia.
      assert (E : nth n (firstn (se - ps) (skipn ps raw)) x00
                  = nth n (skipn ps raw) x00).
      { rewrite nth_firstn.
        destruct (Nat.ltb_spec n (se - ps)) as [_|Hge]; [reflexivity|lia]. }
      rewrite <- E.
      apply nth_In. rewrite length_firstn, length_skipn. lia. }
    destruct (page_end_loop_spec raw se _ Hidx) as [pe [Hpe Hbound]].
    rewrite Hpe. cbv beta iota.
    assert (Hsearch : match pe with
                      | Some e => if Z.of_nat se >? e then e else Z.of_nat se
                      | None => Z.of_nat se
                      end = Z.of_nat se).
    { destruct pe as [e|]; [|reflexivity]. rewrite Z.gtb_ltb.
      destruct (e <? Z.of_nat se) eqn:E; [apply Z.ltb_lt in E; lia|reflexivity]. }
    rewrite Hsearch.
    destruct (Z.of_nat se <? Z.of_nat ps) eqn:E; [apply Z.ltb_lt in E; lia|].
    f_equal. f_equal.
    unfold visible_page. rewrite <- Hdrop, <- Hpage.
    replace (Z.of_nat se) with (Z.of_nat ps + Z.of_nat (se - ps)) by lia.
    rewrite slice_window by (unfold len; lia).
    rewrite !Nat2Z.id. reflexivity.
Qed.

(** X18.  The text under the print cursor.  [_extract_visible_text_from_raw]
    never raises, and it decodes the page under the cursor: of the bytes
    before the cursor (the cursor clamped into the buffer), a page break
    right before the cursor is dropped, and the bytes after the last
    remaining terminator or prompt byte are decoded.  No byte at or after
    the cursor contributes, and the decoded page contains no page
    break. *)
Theorem visible_text_is_the_page_before_the_cursor :
  forall (raw : bytes) (offset max_len : Z),
    TextPrinter._extract_visible_text_from_raw raw offset max_len
    = Ok (decode_gba_string (visible_page (slice raw 0 (Z.max 0 offset)))
                            max_len true)
    /\ Forall (fun b => TextPrinter.is_page_break b = false)
              (visible_page (slice raw 0 (Z.max 0 offset)))
    /\ (forall later : bytes,
          0 <= offset <= len raw ->
          TextPrinter._extract_visible_text_from_raw
            (slice raw 0 offset ++ later) offset max_len
          = TextPrinter._extract_visible_text_from_raw raw offset max_len).
Proof.
  intros raw offset max_len. split; [apply extract_visible_page|]. split.
  - apply last_page_no_break.
  - intros later Ho. rewrite !extract_visible_page.
    rewrite Z.max_r by lia. do 3 f_equal.
    rewrite !firstn_slice by lia.
    rewrite firstn_app, firstn_firstn, Nat.min_id.
    rewrite length_firstn.
    replace (Z.to_nat offset - Nat.min (Z.to_nat offset) (List.length raw))%nat
      with 0%nat by (unfold len in Ho; lia).
    rewrite firstn_O, app_nil_r. reflexivity.
Qed.

Lemma visible_text_is_the_page_before_the_cursor_witness :
  TextPrinter._extract_visible_text_from_raw
    (slice [xbb; xbc; xfa; xbd; xbe; xbf; xc0] 0 5 ++ [xc1; xc2]) 5 200
  = TextPrinter._extract_visible_text_from_raw
      [xbb; xbc; xfa; xbd; xbe; xbf; xc0] 5 200.
Proof.
  apply (proj2 (proj2 (visible_text_is_the_page_before_the_cursor
                         [xbb; xbc; xfa; xbd; xbe; xbf; xc0] 5 200))).
  unfold len. simpl. lia.
Defined.

(** ** [text/text_printer.py]: what is read around a pointer *)

Lemma mem_range_same (mem mem' : memory) (base size : Z) :
  same_bytes_in mem mem' base size ->
  mem_range mem base size = mem_range mem' base size.
Proof.
  intros H. unfold mem_range. apply map_ext_in. intros i Hi.
  unfold range in Hi. apply in_map_iff in Hi. destruct Hi as [n [<- Hn]].
  apply in_seq in Hn. apply H. lia.
Qed.

Lemma find_some_Z2 (p : Z * Z -> bool) (l : list (Z * Z)) (x : Z * Z) :
  find p l = Some x -> In x l /\ p x = true.
Proof. apply find_some. Qed.

(** X19.  What [_extract_visible_text_from_ptr] reads.  A pointer is
    looked up in the text buffers first and in the three memory regions
    (EWRAM, IWRAM, ROM) second.  Outside both, the result is the empty
    string and nothing is read.  Otherwise one range is read, and the
    result depends on the bytes of that range only.  For a pointer in a
    buffer the range is the buffer, which contains the pointer; for a
    pointer in a region it is a window of at most 1024 bytes that lies
    inside the region, starts at most 512 bytes before the pointer and
    contains the pointer. *)
Theorem text_is_read_from_one_window :
  forall (K : Addresses) (T : TextAddresses) (current_ptr : Z),
    (read_window K T current_ptr = None ->
     forall io, TextPrinter._extract_visible_text_from_ptr K T io current_ptr
                = Ok [])
    /\ (forall base size mem mem',
          read_window K T current_ptr = Some (base, size) ->
          same_bytes_in mem mem' base size ->
          TextPrinter._extract_visible_text_from_ptr K T (emulator mem)
                                                     current_ptr
          = TextPrinter._extract_visible_text_from_ptr K T (emulator mem')
                                                       current_ptr)
    /\ (forall base size,
          TextPrinter._get_text_buffer_for_ptr K T current_ptr
          = Some (base, size) ->
          In (base, size) (TextPrinter.TEXT_BUFFERS K T)
          /\ base <= current_ptr < base + size)
    /\ (forall start end_,
          TextPrinter._get_region_bounds current_ptr = Some (start, end_) ->
          let '(base, size) :=
            TextPrinter.text_window start end_ current_ptr in
          In (start, end_) TextPrinter.TEXT_POINTER_REGIONS
          /\ start <= base <= current_ptr
          /\ current_ptr < base + size
          /\ base + size - 1 <= end_
          /\ 1 <= size <= 1024
          /\ current_ptr - base <= 512).
Proof.
  intros K T ptr. split; [|split; [|split]].
  - unfold read_window, TextPrinter._extract_visible_text_from_ptr.
    destruct (TextPrinter._get_text_buffer_for_ptr K T ptr) as [buf|];
      [discriminate|].
    destruct (TextPrinter._get_region_bounds ptr) as [[s e]|];
      [discriminate|]. reflexivity.
  - intros base size mem mem' Hw Hsame.
    unfold read_window in Hw.
    unfold TextPrinter._extract_visible_text_from_ptr.
    destruct (TextPrinter._get_text_buffer_for_ptr K T ptr) as [[b s]|].
    + injection Hw as -> ->. simpl.
      rewrite (mem_range_same mem mem' base size Hsame). reflexivity.
    + destruct (TextPrinter._get_region_bounds ptr) as [[s e]|];
        [|discriminate].
      assert (Hw' : TextPrinter.text_window s e ptr = (base, size))
        by congruence.
      rewrite Hw'. simpl.
      rewrite (mem_range_same mem mem' base size Hsame). reflexivity.
  - intros base size H. unfold TextPrinter._get_text_buffer_for_ptr in H.
    apply find_some_Z2 in H. destruct H as [Hin Hp]. split; [exact Hin|].
    simpl in Hp. apply andb_true_iff in Hp. destruct Hp as [H1 H2].
    apply Z.leb_le in H1. apply Z.ltb_lt in H2. lia.
  - intros s e H. unfold TextPrinter._get_region_bounds in H.
    apply find_some_Z2 in H. destruct H as [Hin Hp].
    simpl in Hp. apply andb_true_iff in Hp. destruct Hp as [H1 H2].
    apply Z.leb_le in H1. apply Z.leb_le in H2.
    unfold TextPrinter.text_window. cbv zeta.
    split; [exact Hin|]. lia.
Qed.

Lemma text_is_read_from_one_window_witness :
  TextPrinter._extract_visible_text_from_ptr
    sample_addresses sample_text_addresses
    (emulator (store blank 0x08000FFE [xc2; xc3; xab; xff])) 0x08001001
  = TextPrinter._extract_visible_text_from_ptr
      sample_addresses sample_text_addresses
      (emulator (store (store blank 0x08000FFE [xc2; xc3; xab; xff])
                       0x08002000 [xbb]))
      0x08001001.
Proof.
  apply (proj1 (proj2 (text_is_read_from_one_window
                         sample_addresses sample_text_addresses 0x08001001))
               0x08000E01 1024).
  - vm_compute. reflexivity.
  - intros a Ha. unfold store.
    destruct ((134225920 <=? a) && (a <? 134225920 + len [xbb])) eqn:E;
      [|reflexivity].
    apply andb_true_iff in E. destruct E as [E _]. apply Z.leb_le in E. lia.
Defined.

(** ** [text/text_printer.py]: the pages of a dialog *)

Lemma lstrip_fixed (s : pystr) :
  (forall c, hd_error s = Some c -> isspace c = false) -> lstrip s = s.
Proof.
  destruct s as [|c r]; [reflexivity|]. intros H. simpl.
  rewrite (H c eq_refl). reflexivity.
Qed.

Lemma strip_fixed (s : pystr) : strip (strip s) = strip s.
Proof.
  assert (Hl : lstrip (strip s) = strip s).
  { apply lstrip_fixed. intros c Hc. exact (strip_head s c Hc). }
  unfold strip at 1. rewrite Hl. unfold rstrip.
  rewrite lstrip_fixed; [apply rev_involutive|].
  intros c Hc. exact (strip_last s c Hc).
Qed.

Lemma decode_fixed (raw : bytes) (m : Z) (sp : bool) :
  strip (decode_gba_string raw m sp) = decode_gba_string raw m sp.
Proof. unfold decode_gba_string. apply strip_fixed. Qed.

(** A page as [get_full_dialog_text] keeps it: not empty, and unchanged
    by [strip]. *)
Lemma close_page_kept (pages : list pystr) (current_page : bytes) :
  Forall (fun p => p <> [] /\ strip p = p) pages ->
  Forall (fun p => p <> [] /\ strip p = p)
         (TextPrinter.close_page pages current_page).
Proof.
  intros H. unfold TextPrinter.close_page.
  destruct (nonempty current_page); [|exact H].
  destruct (decode_gba_string current_page 200 false) as [|c r] eqn:E;
    [exact H|].
  simpl nonempty. cbv iota. apply Forall_app. split; [exact H|].
  constructor; [|constructor]. split; [discriminate|].
  rewrite <- E. apply decode_fixed.
Qed.

Lemma pages_loop_kept (rest : bytes) :
  forall (pages : list pystr) (current_page : bytes),
    Forall (fun p => p <> [] /\ strip p = p) pages ->
    Forall (fun p => p <> [] /\ strip p = p)
           (fst (TextPrinter.pages_loop rest pages current_page)).
Proof.
  induction rest as [|b tail IH]; intros pages cp H; [exact H|].
  cbn [TextPrinter.pages_loop].
  destruct (Byte.eqb b TEXT_TERMINATOR); [exact H|].
  destruct (in_bytes b PROMPT_CHARS).
  - apply IH. apply close_page_kept. exact H.
  - apply IH. exact H.
Qed.

Lemma pages_loop_terminator (pre rest : bytes) :
  ~ In xff pre ->
  forall (pages : list pystr) (current_page : bytes),
    TextPrinter.pages_loop (pre ++ xff :: rest) pages current_page
    = TextPrinter.pages_loop pre pages current_page.
Proof.
  induction pre as [|b pre IH]; intros Hnot pages cp; [reflexivity|].
  assert (Hb : Byte.eqb b TEXT_TERMINATOR = false).
  { destruct (Byte.eqb b TEXT_TERMINATOR) eqn:E; [|reflexivity].
    apply Byte.byte_dec_bl in E. exfalso. apply Hnot. left. exact E. }
  assert (Hpre : ~ In xff pre) by (intros Hin; apply Hnot; right; exact Hin).
  simpl app. cbn [TextPrinter.pages_loop]. rewrite Hb.
  destruct (in_bytes b PROMPT_CHARS); apply IH; exact Hpre.
Qed.

(** X20.  The pages of a dialog.  When [get_full_dialog_text] returns a
    record for a given buffer, it has at least one page, [pageCount] is
    the number of pages, [fullText] is the pages joined by newlines, and
    every page is a non-empty string without leading or trailing
    whitespace.  Bytes after the first terminator never contribute: the
    result for a buffer is the result for the bytes before its first
    [0xFF]. *)
Theorem dialog_pages_are_nonempty_and_stop_at_the_terminator :
  forall (K : Addresses) (io : Mgba) (raw : bytes),
    (forall d,
        TextPrinter.get_full_dialog_text K io (Some raw) = Some d ->
        TextPrinter.pages d <> []
        /\ TextPrinter.pageCount d = len (TextPrinter.pages d)
        /\ TextPrinter.fullText d = join nl (TextPrinter.pages d)
        /\ Forall (fun p => p <> [] /\ strip p = p) (TextPrinter.pages d))
    /\ (forall pre rest,
          raw = pre ++ xff :: rest -> ~ In xff pre ->
          TextPrinter.get_full_dialog_text K io (Some raw)
          = TextPrinter.get_full_dialog_text K io (Some pre)).
Proof.
  intros K io raw. split.
  - intros d. unfold TextPrinter.get_full_dialog_text. simpl try_except.
    destruct (nonempty raw); simpl negb; cbv iota; [|discriminate].
    pose proof (pages_loop_kept raw [] [] (Forall_nil _)) as Hkept.
    destruct (TextPrinter.pages_loop raw [] []) as [pages cp].
    simpl fst in Hkept.
    pose proof (close_page_kept pages cp Hkept) as Hclosed.
    destruct (TextPrinter.close_page pages cp) as [|p ps] eqn:E;
      [discriminate|].
    simpl nonempty. cbv iota. intros H. injection H as <-.
    simpl. repeat split; try assumption. discriminate.
  - intros pre rest -> Hnot.
    unfold TextPrinter.get_full_dialog_text. simpl try_except.
    rewrite (pages_loop_terminator pre rest Hnot).
    assert (Hne : nonempty (pre ++ xff :: rest) = true)
      by (destruct pre; reflexivity).
    rewrite Hne. simpl negb. cbv iota.
    destruct pre as [|b pre]; [reflexivity|]. reflexivity.
Qed.

Lemma dialog_pages_are_nonempty_and_stop_at_the_terminator_witness :
  TextPrinter.get_full_dialog_text
    sample_addresses offline (Some ([xc2; xc3; xfa; x00; xfb; xbb] ++ xff :: [xbc]))
  = TextPrinter.get_full_dialog_text
      sample_addresses offline (Some [xc2; xc3; xfa; x00; xfb; xbb]).
Proof.
  apply (proj2 (dialog_pages_are_nonempty_and_stop_at_the_terminator
                  sample_addresses offline
                  ([xc2; xc3; xfa; x00; xfb; xbb] ++ xff :: [xbc]))
               [xc2; xc3; xfa; x00; xfb; xbb] [xbc] eq_refl).
  simpl. intuition discriminate.
Defined.

(** ** [text/text_printer.py]: the scan of the text printers *)

Lemma decode_from_buffer_long (base size ptr : Z) (raw : option bytes)
      (t : pystr) :
  TextPrinter.decode_from_buffer base size ptr raw = Ok (Some t) ->
  TextPrinter.long_enough t = true.
Proof.
  unfold TextPrinter.decode_from_buffer.
  destruct raw as [r|]; [|discriminate].
  destruct ((base <=? ptr) && (ptr <? base + size)); [|discriminate].
  destruct (ptr - base <? len r); [|discriminate].
  destruct (TextPrinter._extract_visible_text_from_raw r (ptr - base) 200)
    as [text|]; [|discriminate].
  destruct (TextPrinter.long_enough text) eqn:E; [|discriminate].
  intros H. injection H as <-. exact E.
Qed.

Lemma decode_best_loop_long (K : Addresses) (T : TextAddresses) (io : Mgba)
      (g d : option bytes) (t : pystr) :
  forall candidates,
    TextPrinter.decode_best_loop K T io g d candidates = Ok (Some t) ->
    TextPrinter.long_enough t = true.
Proof.
  induction candidates as [|[[s w] ptr] rest IH]; [discriminate|].
  cbn [TextPrinter.decode_best_loop].
  destruct (TextPrinter.decode_from_buffer
              (GDISPLAYEDSTRINGBATTLE_ADDR K) (GDISPLAYEDSTRINGBATTLE_SIZE K)
              ptr d) as [[t1|]|] eqn:E1; [| |discriminate].
  - intros H. injection H as <-. exact (decode_from_buffer_long _ _ _ _ _ E1).
  - destruct (TextPrinter.decode_from_buffer
                (GSTRINGVAR4_ADDR K) (GSTRINGVAR4_SIZE T) ptr g)
      as [[t2|]|] eqn:E2; [| |discriminate].
    + intros H. injection H as <-. exact (decode_from_buffer_long _ _ _ _ _ E2).
    + destruct (TextPrinter._extract_visible_text_from_ptr K T io ptr)
        as [text|]; [|discriminate].
      destruct (TextPrinter.long_enough text) eqn:E3; [|exact IH].
      intros H. injection H as <-. exact E3.
Qed.

Lemma _decode_best_long (K : Addresses) (T : TextAddresses) (io : Mgba)
      (g d : option bytes) (candidates : list (Z * Z * Z)) (t : pystr) :
  TextPrinter._decode_best K T io g d candidates = Ok (Some t) ->
  TextPrinter.long_enough t = true.
Proof.
  unfold TextPrinter._decode_best.
  destruct candidates; [discriminate|]. apply decode_best_loop_long.
Qed.

Lemma long_enough_len (t : pystr) :
  TextPrinter.long_enough t = true -> 2 < len t.
Proof.
  unfold TextPrinter.long_enough. intros H.
  apply andb_true_iff in H. destruct H as [_ H].
  rewrite Z.gtb_ltb in H. apply Z.ltb_lt in H. exact H.
Qed.

Lemma captured_candidates_none (K : Addresses) (T : TextAddresses)
      (printers : bytes) (ids : list Z) :
  (forall i, In i ids ->
             u8_value printers
                      (i * TEXTPRINTER_SIZE K + TEXTPRINTER_ACTIVE_OFFSET K) = 0) ->
  TextPrinter.captured_candidates K T printers ids = Ok [].
Proof.
  induction ids as [|i rest IH]; intros H; [reflexivity|].
  cbn [TextPrinter.captured_candidates].
  rewrite _u8_from_value.
  fold (u8_value printers (i * TEXTPRINTER_SIZE K + TEXTPRINTER_ACTIVE_OFFSET K)).
  rewrite (H i (or_introl eq_refl)). simpl.
  apply IH. intros j Hj. apply H. right. exact Hj.
Qed.

(** X21.  The scan of the text printers never returns a short text:
    whatever the emulator and the captured buffers hold, a text returned
    by [find_active_textprinter_text] has more than two characters.  And
    on captured printers none of which is active, without the request to
    consider the inactive printer of window 0, the result is [None]. *)
Theorem printer_scan_returns_long_texts_only :
  forall (K : Addresses) (T : TextAddresses) (io : Mgba)
         (text_printers_raw gstringvar4_raw gdisplayedstringbattle_raw
          : option bytes)
         (include_inactive_window0 : bool),
    (forall t,
        TextPrinter.find_active_textprinter_text
          K T io text_printers_raw gstringvar4_raw gdisplayedstringbattle_raw
          include_inactive_window0 = Some t ->
        2 < len t)
    /\ (forall printers,
          text_printers_raw = Some printers ->
          (forall i, 0 <= i < 32 ->
                     u8_value printers (i * TEXTPRINTER_SIZE K
                                        + TEXTPRINTER_ACTIVE_OFFSET K) = 0) ->
          TextPrinter.find_active_textprinter_text
            K T io text_printers_raw gstringvar4_raw
            gdisplayedstringbattle_raw false = None).
Proof.
  intros K T io printers g d inc. split.
  - intros t. unfold TextPrinter.find_active_textprinter_text.
    assert (Hfinal :
              forall (first second : exc (option pystr)),
                (forall t', first = Ok (Some t') ->
                            TextPrinter.long_enough t' = true) ->
                (forall t', second = Ok (Some t') ->
                            TextPrinter.long_enough t' = true) ->
                try_except
                  (text <- first ;;
                   if truthy text then Ok text
                   else if inc then second else Ok None) None = Some t ->
                2 < len t).
    { intros first second H1 H2.
      destruct first as [[t1|]|]; simpl.
      - destruct (nonempty t1).
        + intros H. injection H as <-. apply long_enough_len. apply H1.
          reflexivity.
        + destruct inc; [|discriminate].
          destruct second as [[t2|]|]; simpl; try discriminate.
          intros H. injection H as <-. apply long_enough_len. apply H2.
          reflexivity.
      - destruct inc; [|discriminate].
        destruct second as [[t2|]|]; simpl; try discriminate.
        intros H. injection H as <-. apply long_enough_len. apply H2.
        reflexivity.
      - discriminate. }
    destruct printers as [raw|].
    + destruct (TextPrinter.captured_or_read io g (GSTRINGVAR4_ADDR K) 500)
        as [g'|]; [|discriminate].
      destruct (TextPrinter.captured_or_read
                  io d (GDISPLAYEDSTRINGBATTLE_ADDR K)
                  (GDISPLAYEDSTRINGBATTLE_SIZE K)) as [d'|]; [|discriminate].
      destruct (TextPrinter.captured_candidates K T raw (range 32))
        as [cands|]; [|discriminate].
      rewrite _u32le_from_value. cbv beta iota.
      match goal with
      | |- try_except (text <- ?first ;;
                       if truthy text then Ok text
                       else if inc then ?second else Ok None) None = _ -> _ =>
        apply (Hfinal first second)
      end.
      * intros t'. apply _decode_best_long.
      * intros t'.
        match goal with
        | |- (if ?c then _ else _) = _ -> _ => destruct c; [|discriminate]
        end.
        apply _decode_best_long.
    + destruct (TextPrinter.live_candidates K T io (range 32))
        as [cands|]; [|discriminate].
      destruct (TextPrinter.captured_or_read io g (GSTRINGVAR4_ADDR K) 500)
        as [g'|]; [|discriminate].
      destruct (TextPrinter.captured_or_read
                  io d (GDISPLAYEDSTRINGBATTLE_ADDR K)
                  (GDISPLAYEDSTRINGBATTLE_SIZE K)) as [d'|]; [|discriminate].
      cbv beta iota zeta.
      match goal with
      | |- try_except (text <- ?first ;;
                       if truthy text then Ok text
                       else if inc then ?second else Ok None) None = _ -> _ =>
        apply (Hfinal first second)
      end.
      * intros t'. apply _decode_best_long.
      * intros t'.
        match goal with
        | |- (if ?c then _ else _) = _ -> _ => destruct c; [|discriminate]
        end.
        apply _decode_best_long.
  - intros raw -> Hidle.
    unfold TextPrinter.find_active_textprinter_text.
    destruct (TextPrinter.captured_or_read io g (GSTRINGVAR4_ADDR K) 500)
      as [g'|]; [|reflexivity].
    destruct (TextPrinter.captured_or_read
                io d (GDISPLAYEDSTRINGBATTLE_ADDR K)
                (GDISPLAYEDSTRINGBATTLE_SIZE K)) as [d'|]; [|reflexivity].
    rewrite captured_candidates_none; [reflexivity|].
    intros i Hi. apply Hidle. unfold range in Hi.
    apply in_map_iff in Hi. destruct Hi as [n [<- Hn]].
    apply in_seq in Hn. simpl in Hn. lia.
Qed.

Lemma printer_scan_returns_long_texts_only_witness :
  TextPrinter.find_active_textprinter_text
    sample_addresses sample_text_addresses offline
    (Some window0_prints_gstringvar4) (Some [xc2; xc3; xab; xff]) (Some [])
    false
  = Some (u "HI!")
  /\ 2 < len (u "HI!").
Proof.
  split; [vm_compute; reflexivity|].
  apply (proj1 (printer_scan_returns_long_texts_only
                  sample_addresses sample_text_addresses offline
                  (Some window0_prints_gstringvar4)
                  (Some [xc2; xc3; xab; xff]) (Some []) false)).
  vm_compute. reflexivity.
Defined.

(** ** [ui/battle.py]: the battlers of [get_battle_state] *)

Lemma insert_by_key_perm {A : Type} (key : A -> Z) (x : A) (l : list A) :
  Permutation (insert_by_key key x l) (x :: l).
Proof.
  induction l as [|h t IH]; [apply Permutation_refl|].
  simpl. destruct (key x <=? key h); [apply Permutation_refl|].
  eapply Permutation_trans; [apply perm_skip; exact IH|apply perm_swap].
Qed.

Lemma sort_by_key_perm {A : Type} (key : A -> Z) (l : list A) :
  Permutation (sort_by_key key l) l.
Proof.
  induction l as [|h t IH]; [apply Permutation_refl|].
  simpl. eapply Permutation_trans; [apply insert_by_key_perm|].
  apply perm_skip. exact IH.
Qed.

Lemma insert_by_key_sorted {A : Type} (key : A -> Z) (x : A) (l : list A) :
  sorted_by key l -> sorted_by key (insert_by_key key x l).
Proof.
  induction l as [|h t IH]; intros H.
  - simpl. split; [intros ? []|exact I].
  - simpl. destruct H as [Hh Ht].
    destruct (key x <=? key h) eqn:E.
    + apply Z.leb_le in E. simpl. split.
      * intros y [<-|Hy]; [exact E|]. specialize (Hh y Hy). lia.
      * split; assumption.
    + apply Z.leb_gt in E. simpl. split.
      * intros y Hy.
        apply (Permutation_in y (insert_by_key_perm key x t)) in Hy.
        destruct Hy as [<-|Hy]; [lia|auto].
      * apply IH. exact Ht.
Qed.

Lemma sort_by_key_sorted {A : Type} (key : A -> Z) (l : list A) :
  sorted_by key (sort_by_key key l).
Proof.
  induction l as [|h t IH]; [exact I|].
  simpl. apply insert_by_key_sorted. exact IH.
Qed.

Lemma _u16le_from_u16_value (raw : bytes) (offset : Z) :
  _u16le_from raw offset = Ok (u16_value raw offset).
Proof. apply _u16le_from_value. Qed.

Lemma pystr_eqb_eq (s t : pystr) : pystr_eqb s t = true -> s = t.
Proof.
  unfold pystr_eqb. revert t.
  induction s as [|a s IH]; intros [|b t] H; try reflexivity;
    try (simpl in H; discriminate H).
  apply andb_true_iff in H. destruct H as [Hl Hc].
  simpl in Hl. simpl in Hc. apply andb_true_iff in Hc. destruct Hc as [Hab Hc].
  apply Z.eqb_eq in Hab. subst b. f_equal.
  apply IH. apply andb_true_iff. split; assumption.
Qed.

Lemma pystr_eqb_refl (s : pystr) : pystr_eqb s s = true.
Proof.
  unfold pystr_eqb. apply andb_true_iff. split; [apply Nat.eqb_refl|].
  induction s as [|a s IH]; [reflexivity|].
  simpl. rewrite Z.eqb_refl. exact IH.
Qed.

(** A stable sort by a key with the values 0 and 1 puts the elements of
    key 0 first and keeps the order inside both groups. *)
Lemma insert_by_key_zero {A : Type} (key : A -> Z) (x : A) (l : list A) :
  key x = 0 -> (forall y, In y l -> 0 <= key y) ->
  insert_by_key key x l = x :: l.
Proof.
  intros Hx Hl. destruct l as [|h t]; [reflexivity|].
  simpl. rewrite Hx.
  replace (0 <=? key h) with true; [reflexivity|].
  symmetry. apply Z.leb_le. apply Hl. left. reflexivity.
Qed.

Lemma insert_by_key_one {A : Type} (key : A -> Z) (x : A) (l0 l1 : list A) :
  key x = 1 ->
  Forall (fun y => key y = 0) l0 -> Forall (fun y => key y = 1) l1 ->
  insert_by_key key x (l0 ++ l1) = l0 ++ x :: l1.
Proof.
  intros Hx H0 H1. induction H0 as [|h t Hh _ IH].
  - simpl. destruct l1 as [|h t]; [reflexivity|].
    inversion H1; subst. simpl. rewrite Hx.
    replace (key h) with 1 by congruence. reflexivity.
  - simpl. rewrite Hx, Hh. simpl. rewrite IH. reflexivity.
Qed.

Lemma sort_by_two_keys {A : Type} (key : A -> Z) (l : list A) :
  (forall x, key x = 0 \/ key x = 1) ->
  sort_by_key key l
  = filter (fun x => key x =? 0) l ++ filter (fun x => negb (key x =? 0)) l.
Proof.
  intros Hk. induction l as [|h t IH]; [reflexivity|].
  cbn [sort_by_key filter]. rewrite IH.
  destruct (Hk h) as [Hh|Hh]; rewrite Hh; simpl.
  - apply insert_by_key_zero; [exact Hh|].
    intros y _. destruct (Hk y); lia.
  - apply insert_by_key_one; [exact Hh| |].
    + apply Forall_forall. intros y Hy. apply filter_In in Hy.
      apply Z.eqb_eq. exact (proj2 Hy).
    + apply Forall_forall. intros y Hy. apply filter_In in Hy.
      destruct Hy as [_ Hy]. destruct (Hk y) as [E|E]; [|exact E].
      rewrite E in Hy. discriminate Hy.
Qed.

Lemma map_filter_ext {A B : Type} (f : A -> B) (p : A -> bool) (q : B -> bool)
      (l : list A) :
  (forall x, In x l -> p x = q (f x)) ->
  map f (filter p l) = filter q (map f l).
Proof.
  induction l as [|h t IH]; intros H; [reflexivity|].
  simpl. rewrite <- (H h (or_introl eq_refl)).
  destruct (p h); simpl; rewrite IH; try reflexivity;
    intros x Hx; apply H; right; exact Hx.
Qed.

(** The name of a position ends in [_LEFT] exactly for the two left
    positions: the name of an unknown position ends in a digit. *)
Lemma decimal_digits_last (fuel : nat) (n : Z) (acc : pystr) (d : Z) :
  acc <> [] -> last (decimal_digits fuel n acc) d = last acc d.
Proof.
  revert n acc. induction fuel as [|fuel IH]; intros n acc Hacc; [reflexivity|].
  cbn [decimal_digits].
  assert (Hlast : last ((48 + n mod 10) :: acc) d = last acc d).
  { destruct acc; [contradiction|reflexivity]. }
  destruct (n / 10 =? 0); [exact Hlast|].
  rewrite IH by discriminate. exact Hlast.
Qed.

Lemma decimal_digits_last_digit (fuel : nat) (n d : Z) :
  48 <= last (decimal_digits (S fuel) n []) d <= 57.
Proof.
  cbn [decimal_digits].
  assert (H : 0 <= n mod 10 < 10) by (apply Z.mod_pos_bound; lia).
  destruct (n / 10 =? 0); [cbn [last]; lia|].
  rewrite decimal_digits_last by discriminate. cbn [last]. lia.
Qed.

Lemma str_of_int_last_digit (n d : Z) : 48 <= last (str_of_int n) d <= 57.
Proof.
  unfold str_of_int. destruct (n <? 0).
  - pose proof (decimal_digits_last_digit
                  (Z.to_nat (Z.log2 (- n))) (- n) d) as H.
    assert (Hne : decimal_digits (S (Z.to_nat (Z.log2 (- n)))) (- n) [] <> []).
    { cbn [decimal_digits]. destruct (- n / 10 =? 0); [discriminate|].
      intros Hnil.
      pose proof (decimal_digits_last
                    (Z.to_nat (Z.log2 (- n))) (- n / 10) [48 + - n mod 10] 0
                    ltac:(discriminate)) as Hl.
      rewrite Hnil in Hl. cbn [last] in Hl.
      assert (0 <= - n mod 10 < 10) by (apply Z.mod_pos_bound; lia). lia. }
    destruct (decimal_digits (S (Z.to_nat (Z.log2 (- n)))) (- n) [])
      as [|c r] eqn:E; [contradiction|].
    change (last (45 :: c :: r) d) with (last (c :: r) d). exact H.
  - apply decimal_digits_last_digit.
Qed.

Lemma last_of_app {A : Type} (l l' : list A) (d : A) :
  l' <> [] -> last (l ++ l') d = last l' d.
Proof.
  intros Hne. induction l as [|h t IH]; [reflexivity|].
  simpl. rewrite IH. destruct (t ++ l') eqn:E; [|reflexivity].
  apply app_eq_nil in E. destruct E as [_ E]. contradiction.
Qed.

Lemma endswith_last (s suffix : pystr) (d : Z) :
  suffix <> [] -> endswith s suffix = true -> last s d = last suffix d.
Proof.
  intros Hne H. unfold endswith in H. apply andb_true_iff in H.
  destruct H as [_ H]. apply pystr_eqb_eq in H.
  rewrite <- (firstn_skipn (List.length s - List.length suffix) s).
  rewrite H. apply last_of_app. exact Hne.
Qed.

Lemma _battle_position_name_left (pos : Z) :
  endswith (_battle_position_name pos) (u "_LEFT") = left_position pos.
Proof.
  unfold _battle_position_name, left_position. cbv zeta.
  destruct (Z.land pos 255 =? 0); [reflexivity|].
  destruct (Z.land pos 255 =? 1); [reflexivity|].
  destruct (Z.land pos 255 =? 2); [reflexivity|].
  destruct (Z.land pos 255 =? 3); [reflexivity|].
  simpl orb.
  destruct (endswith (u "UNKNOWN_" ++ str_of_int pos) (u "_LEFT")) eqn:E;
    [|reflexivity].
  exfalso. apply (endswith_last _ _ 0) in E; [|discriminate].
  pose proof (str_of_int_last_digit pos 0) as Hd.
  assert (Hne : str_of_int pos <> []).
  { unfold str_of_int. destruct (pos <? 0); [discriminate|].
    cbn [decimal_digits]. destruct (pos / 10 =? 0); [discriminate|].
    intros Hnil.
    pose proof (decimal_digits_last
                  (Z.to_nat (Z.log2 pos)) (pos / 10) [48 + pos mod 10] 0
                  ltac:(discriminate)) as Hl.
    rewrite Hnil in Hl. cbn [last] in Hl.
    assert (0 <= pos mod 10 < 10) by (apply Z.mod_pos_bound; lia). lia. }
  rewrite last_of_app in E by exact Hne.
  change (last (u "_LEFT") 0) with 84 in E. lia.
Qed.

Lemma _sort_key_values (e : battler_entry) : _sort_key e = 0 \/ _sort_key e = 1.
Proof.
  unfold _sort_key. destruct (endswith (entry_position e) (u "_LEFT")); auto.
Qed.

Lemma _parse_battle_pokemon_slot (K : Addresses) (G : GameData)
      (mons_raw : bytes) (b : Z) :
  unless_tables_fail
    G (_parse_battle_pokemon
         K G (slice mons_raw (b * BATTLE_POKEMON_SIZE K)
                    (b * BATTLE_POKEMON_SIZE K + BATTLE_POKEMON_SIZE K)))
    (fun mon => mon_speciesId mon = species_in_slot K mons_raw b).
Proof.
  pose proof (_parse_battle_pokemon_fields
                K G (slice mons_raw (b * BATTLE_POKEMON_SIZE K)
                           (b * BATTLE_POKEMON_SIZE K + BATTLE_POKEMON_SIZE K)))
    as H.
  unfold unless_tables_fail in *.
  destruct (_parse_battle_pokemon K G _) as [mon|e]; [|exact H].
  exact (proj2 (proj2 H)).
Qed.

Lemma side_is_player_or_enemy (K : Addresses) (pos : Z) :
  pystr_eqb (_battle_side_from_pos K pos) (u "player") = on_player_side K pos
  /\ _battle_side_from_pos K pos
     = (if on_player_side K pos then u "player" else u "enemy").
Proof.
  unfold _battle_side_from_pos, on_player_side.
  destruct (Z.land pos (BATTLER_BIT_SIDE K) =? 0); split; reflexivity.
Qed.

(** The loop of [get_battle_state].  [pos] and [party] are what the two
    guarded list accesses of the loop give for the battlers of [ids]. *)
Lemma battlers_loop_spec (K : Addresses) (G : GameData) (absent : Z)
      (positions party_indexes : list Z) (mons : bytes) (pos party : Z -> Z) :
  forall (ids : list Z) (player enemy : list battler_entry),
    Forall (fun i =>
              (if i <? len positions then getitem positions i else Ok i)
              = Ok (pos i)
              /\ (if i <? len party_indexes then getitem party_indexes i
                  else Ok 0) = Ok (party i)) ids ->
    let entry_ok := fun e =>
      entry_position e = _battle_position_name (pos (entry_battlerId e))
      /\ entry_side e = (if on_player_side K (pos (entry_battlerId e))
                         then u "player" else u "enemy")
      /\ entry_flank e = _battle_flank_from_pos K (pos (entry_battlerId e))
      /\ entry_partyIndex e = party (entry_battlerId e)
      /\ _parse_battle_pokemon
           K G (slice mons (entry_battlerId e * BATTLE_POKEMON_SIZE K)
                      (entry_battlerId e * BATTLE_POKEMON_SIZE K
                       + BATTLE_POKEMON_SIZE K))
         = Ok (entry_mon e) in
    unless_tables_fail
      G (battlers_loop K G absent positions party_indexes mons ids player enemy)
      (fun sides =>
         exists P E,
           sides = (player ++ P, enemy ++ E)
           /\ map entry_battlerId P
              = filter (fun b => takes_part K absent mons b
                                 && Bool.eqb (on_player_side K (pos b)) true) ids
           /\ map entry_battlerId E
              = filter (fun b => takes_part K absent mons b
                                 && Bool.eqb (on_player_side K (pos b)) false)
                       ids
           /\ Forall entry_ok P /\ Forall entry_ok E).
Proof.
  intros ids. induction ids as [|i rest IH]; intros player enemy Hids entry_ok.
  - exists [], []. rewrite !app_nil_r. simpl. repeat split; constructor.
  - inversion Hids as [|? ? [Hpos Hparty] Hrest]; subst.
    cbn [battlers_loop filter].
    assert (Htp : takes_part K absent mons i
                  = (Z.land absent (Z.shiftl 1 i) =? 0)
                    && negb (species_in_slot K mons i =? 0)) by reflexivity.
    rewrite !Htp. clear Htp.
    destruct (Z.land absent (Z.shiftl 1 i) =? 0) eqn:Ea; simpl negb; cbv iota;
      [|simpl andb; cbv iota; apply IH; exact Hrest].
    pose proof (_parse_battle_pokemon_slot K G mons i) as Hslot.
    destruct (_parse_battle_pokemon
                K G (slice mons (i * BATTLE_POKEMON_SIZE K)
                           (i * BATTLE_POKEMON_SIZE K + BATTLE_POKEMON_SIZE K)))
      as [mon|err] eqn:Hmon; [|exact Hslot].
    unfold unless_tables_fail in Hslot. cbv beta iota. rewrite Hslot.
    destruct (species_in_slot K mons i =? 0) eqn:Es; simpl andb; cbv iota;
      [apply IH; exact Hrest|].
    rewrite Hpos. cbv beta iota zeta. rewrite Hparty. cbv beta iota.
    set (entry := {| entry_battlerId := i;
                     entry_position := _battle_position_name (pos i);
                     entry_side := _battle_side_from_pos K (pos i);
                     entry_flank := _battle_flank_from_pos K (pos i);
                     entry_partyIndex := party i;
                     entry_mon := mon |}).
    destruct (side_is_player_or_enemy K (pos i)) as [Hb Hs].
    assert (Hentry : entry_ok entry).
    { unfold entry_ok. cbn [entry entry_battlerId entry_position entry_side
                                  entry_flank entry_partyIndex entry_mon].
      split; [reflexivity|]. split; [exact Hs|]. split; [reflexivity|].
      split; [reflexivity|exact Hmon]. }
    rewrite Hb.
    destruct (on_player_side K (pos i)) eqn:Eside; simpl Bool.eqb; cbv iota.
    + pose proof (IH (player ++ [entry]) enemy Hrest) as HI.
      unfold unless_tables_fail in *.
      destruct (battlers_loop K G absent positions party_indexes mons rest
                              (player ++ [entry]) enemy)
        as [sides|err]; [|exact HI].
      destruct HI as [P [E [Hl [Hp [He [HP HE]]]]]].
      exists (entry :: P), E. rewrite Hl, <- app_assoc. simpl.
      split; [reflexivity|]. split; [f_equal; exact Hp|].
      split; [exact He|]. split; [constructor; assumption|exact HE].
    + pose proof (IH player (enemy ++ [entry]) Hrest) as HI.
      unfold unless_tables_fail in *.
      destruct (battlers_loop K G absent positions party_indexes mons rest
                              player (enemy ++ [entry]))
        as [sides|err]; [|exact HI].
      destruct HI as [P [E [Hl [Hp [He [HP HE]]]]]].
      exists P, (entry :: E). rewrite Hl, <- app_assoc. simpl.
      split; [reflexivity|]. split; [exact Hp|].
      split; [f_equal; exact He|]. split; [exact HP|constructor; assumption].
Qed.

Lemma first_byte_or_zero_value (raw : bytes) :
  first_byte_or_zero raw = Ok (first_byte raw).
Proof.
  unfold first_byte_or_zero, first_byte.
  destruct raw as [|b r]; [reflexivity|]. reflexivity.
Qed.

Lemma getitem_chunk (snapshot : list bytes) (i : Z) :
  0 <= i < len snapshot ->
  getitem snapshot i = Ok (chunk snapshot (Z.to_nat i)).
Proof.
  intros H. rewrite (getitem_in_range snapshot i []) by lia. reflexivity.
Qed.

Lemma In_range_bounds (n i : Z) : In i (range n) -> 0 <= i < n.
Proof.
  unfold range. intros H. apply in_map_iff in H.
  destruct H as [k [<- Hk]]. apply in_seq in Hk. lia.
Qed.

(** What the guarded access to the position list gives. *)
Lemma position_access (K : Addresses) (snapshot : list bytes) (i : Z) :
  0 <= i < BATTLE_MAX_BATTLERS K ->
  let positions :=
    if nonempty (chunk snapshot 3)
    then map byte_val (slice (chunk snapshot 3) 0 (BATTLE_MAX_BATTLERS K))
    else [0; 1; 2; 3] in
  (if i <? len positions then getitem positions i else Ok i)
  = Ok (battler_position snapshot i).
Proof.
  intros Hi positions. unfold battler_position. subst positions.
  destruct (chunk snapshot 3) as [|c0 cr] eqn:Ec.
  - cbn [nonempty]. change (len (@nil byte)) with 0.
    replace (i <? 0) with false by (symmetry; apply Z.ltb_ge; lia).
    destruct (i <? len [0; 1; 2; 3]) eqn:E; [|reflexivity].
    apply Z.ltb_lt in E. change (len [0; 1; 2; 3]) with 4 in E.
    assert (Hc : i = 0 \/ i = 1 \/ i = 2 \/ i = 3) by lia.
    destruct Hc as [->|[->|[->| ->]]]; reflexivity.
  - cbn [nonempty]. rewrite <- Ec.
    assert (Hlen : len (map byte_val (slice (chunk snapshot 3) 0
                                            (BATTLE_MAX_BATTLERS K)))
                   = Z.min (BATTLE_MAX_BATTLERS K) (len (chunk snapshot 3))).
    { unfold len. rewrite length_map. unfold slice, slice_bound.
      replace (0 <? 0) with false by reflexivity.
      replace (BATTLE_MAX_BATTLERS K <? 0) with false
        by (symmetry; apply Z.ltb_ge; lia).
      rewrite length_firstn, length_skipn. unfold len. lia. }
    rewrite Hlen.
    destruct (i <? len (chunk snapshot 3)) eqn:E.
    + apply Z.ltb_lt in E.
      replace (i <? Z.min (BATTLE_MAX_BATTLERS K) (len (chunk snapshot 3)))
        with true by (symmetry; apply Z.ltb_lt; lia).
      destruct (Z_le_gt_dec (BATTLE_MAX_BATTLERS K) (len (chunk snapshot 3))).
      * apply cursor_at; lia.
      * assert (Hs : slice (chunk snapshot 3) 0 (BATTLE_MAX_BATTLERS K)
                     = chunk snapshot 3).
        { unfold slice, slice_bound.
          replace (0 <? 0) with false by reflexivity.
          replace (BATTLE_MAX_BATTLERS K <? 0) with false
            by (symmetry; apply Z.ltb_ge; lia).
          rewrite Z.min_r by lia. rewrite Z.min_l by apply len_nonneg.
          cbn [Z.to_nat skipn]. rewrite Z.sub_0_r.
          apply firstn_all2. unfold len. lia. }
        rewrite Hs.
        rewrite (getitem_in_range _ i 0)
          by (unfold len; rewrite length_map; unfold len in E; lia).
        reflexivity.
    + apply Z.ltb_ge in E.
      replace (i <? Z.min (BATTLE_MAX_BATTLERS K) (len (chunk snapshot 3)))
        with false by (symmetry; apply Z.ltb_ge; lia).
      reflexivity.
Qed.

Lemma nth_map_range (f : Z -> Z) (n i d : Z) :
  0 <= i < n -> nth (Z.to_nat i) (map f (range n)) d = f i.
Proof.
  intros Hi. unfold range. rewrite map_map.
  rewrite (nth_indep _ d (f (Z.of_nat 0)))
    by (rewrite length_map, length_seq; lia).
  rewrite (map_nth (fun k => f (Z.of_nat k)) (seq 0 (Z.to_nat n)) 0%nat
                   (Z.to_nat i)).
  rewrite seq_nth by lia. f_equal. lia.
Qed.

(** What the guarded access to the party-index list gives. *)
Lemma party_access (K : Addresses) (snapshot : list bytes) (i : Z) :
  0 <= i < BATTLE_MAX_BATTLERS K ->
  forall party_indexes,
    (if nonempty (chunk snapshot 4)
        && (len (chunk snapshot 4) >=? BATTLE_MAX_BATTLERS K * 2)
     then for_each (fun i => _u16le_from (chunk snapshot 4) (i * 2))
                   (range (BATTLE_MAX_BATTLERS K))
     else Ok [0; 0; 0; 0]) = Ok party_indexes ->
    (if i <? len party_indexes then getitem party_indexes i else Ok 0)
    = Ok (party_index K snapshot i).
Proof.
  intros Hi party_indexes. unfold party_index.
  destruct (nonempty (chunk snapshot 4)
            && (len (chunk snapshot 4) >=? BATTLE_MAX_BATTLERS K * 2)).
  - rewrite (for_each_ok _ (fun i => u16_value (chunk snapshot 4) (i * 2)))
      by (intros j; apply _u16le_from_u16_value).
    intros H. apply Ok_inj in H. subst party_indexes.
    assert (Hlen : len (map (fun i => u16_value (chunk snapshot 4) (i * 2))
                            (range (BATTLE_MAX_BATTLERS K)))
                   = BATTLE_MAX_BATTLERS K).
    { unfold len, range. rewrite !length_map, length_seq. lia. }
    rewrite Hlen.
    replace (i <? BATTLE_MAX_BATTLERS K) with true
      by (symmetry; apply Z.ltb_lt; lia).
    rewrite (getitem_in_range _ i 0) by lia. f_equal.
    apply (nth_map_range (fun i => u16_value (chunk snapshot 4) (i * 2))).
    exact Hi.
  - intros H. apply Ok_inj in H. subst party_indexes.
    destruct (i <? len [0; 0; 0; 0]) eqn:E; [|reflexivity].
    apply Z.ltb_lt in E. change (len [0; 0; 0; 0]) with 4 in E.
    assert (Hc : i = 0 \/ i = 1 \/ i = 2 \/ i = 3) by lia.
    destruct Hc as [->|[->|[->| ->]]]; reflexivity.
Qed.

(** One sorted side of the result lists its battlers with the left
    positions first. *)
Lemma sorted_side (snapshot : list bytes) (l : list battler_entry)
      (ids : list Z) :
  Forall (fun e => entry_position e
                   = _battle_position_name
                       (battler_position snapshot (entry_battlerId e))) l ->
  map entry_battlerId l = ids ->
  map entry_battlerId (sort_by_key _sort_key l) = lefts_first snapshot ids.
Proof.
  intros Hpos Hids.
  rewrite (sort_by_two_keys _sort_key l _sort_key_values).
  unfold lefts_first. rewrite map_app, <- Hids. f_equal.
  - apply map_filter_ext. intros e He.
    rewrite Forall_forall in Hpos. specialize (Hpos e He).
    unfold _sort_key. rewrite Hpos, _battle_position_name_left.
    destruct (left_position _); reflexivity.
  - apply map_filter_ext. intros e He.
    rewrite Forall_forall in Hpos. specialize (Hpos e He).
    unfold _sort_key. rewrite Hpos, _battle_position_name_left.
    destruct (left_position _); reflexivity.
Qed.

Lemma Forall_sort_by_key {A : Type} (key : A -> Z) (P : A -> Prop)
      (l : list A) :
  Forall P l -> Forall P (sort_by_key key l).
Proof.
  intros H. apply Forall_forall. intros x Hx.
  rewrite Forall_forall in H. apply H.
  apply (Permutation_in x (sort_by_key_perm key l)). exact Hx.
Qed.

(** X22.  The battlers of [get_battle_state].  In battle, on a snapshot
    with a chunk for each of its seven ranges, the only error the function
    can raise is the one the loading of the reference tables raises, and
    it raises none when the tables load.  When it returns, it reports an
    active battle.  A battler takes part when its id is below the battler
    count (below [BATTLE_MAX_BATTLERS] when the count is zero or exceeds
    it), it is not flagged absent and its slot holds a species; its
    position is its byte of the captured positions (its id when the
    capture holds no byte for it).  [player] lists exactly the battlers
    that take part and whose position has the side bit clear, [enemy]
    those whose position has it set; each list has the battlers on a left
    position (position 0 or 1) first, and keeps the order of the ids
    among these and among the others.  Every entry carries the name, the
    side and the flank of the position of its battler, the party index
    captured for it and the fields parsed from its slot. *)
Theorem battle_state_lists_each_battler_once :
  forall (K : Addresses) (B : BattleAddresses) (G : GameData)
         (is_in_battle : exc bool)
         (mgba_read_ranges_bytes : list (Z * Z) -> exc (list bytes))
         (snapshot : list bytes),
    let res := get_battle_state K B G is_in_battle mgba_read_ranges_bytes
                                (Some true) (Some snapshot) in
    7 <= len snapshot ->
    unless_tables_fail
      G res
      (fun st =>
         isActive st = true
         /\ map entry_battlerId (data_player st)
            = lefts_first snapshot (side_battlers K snapshot true)
         /\ map entry_battlerId (data_enemy st)
            = lefts_first snapshot (side_battlers K snapshot false)
         /\ Forall (entry_of_snapshot K G snapshot)
                   (data_player st ++ data_enemy st))
    /\ (forall tables,
          load_reference_tables G = Ok tables -> exists st, res = Ok st).
Proof.
  intros K B G is_in read snapshot res Hlen.
  assert (Hmain :
    unless_tables_fail
      G res
      (fun st =>
         isActive st = true
         /\ map entry_battlerId (data_player st)
            = lefts_first snapshot (side_battlers K snapshot true)
         /\ map entry_battlerId (data_enemy st)
            = lefts_first snapshot (side_battlers K snapshot false)
         /\ Forall (entry_of_snapshot K G snapshot)
                   (data_player st ++ data_enemy st))).
  2: { split; [exact Hmain|]. intros tables Ht.
       unfold unless_tables_fail in Hmain.
       destruct res as [st|e]; [exists st; reflexivity|congruence]. }
  subst res.
  unfold get_battle_state. simpl negb. cbv iota zeta.
  change (len (battle_ranges K B)) with 7.
  destruct (len snapshot <? 7) eqn:E; [apply Z.ltb_lt in E; lia|].
  rewrite (getitem_chunk snapshot 0), (getitem_chunk snapshot 1),
          (getitem_chunk snapshot 2), (getitem_chunk snapshot 3),
          (getitem_chunk snapshot 4), (getitem_chunk snapshot 5),
          (getitem_chunk snapshot 6) by lia.
  change (Z.to_nat 0) with 0%nat. change (Z.to_nat 1) with 1%nat.
  change (Z.to_nat 2) with 2%nat. change (Z.to_nat 3) with 3%nat.
  change (Z.to_nat 4) with 4%nat. change (Z.to_nat 5) with 5%nat.
  change (Z.to_nat 6) with 6%nat.
  cbv beta iota.
  rewrite _u32le_from_value, !first_byte_or_zero_value.
  assert (Hflags : exists flags,
             (if len (chunk snapshot 0) >=? 4
              then Ok (if out_of_bounds (chunk snapshot 0) 0 4 then 0
                       else Z.lor (Z.lor (Z.lor (peek (chunk snapshot 0) 0)
                                    (Z.shiftl (peek (chunk snapshot 0) (0 + 1)) 8))
                                    (Z.shiftl (peek (chunk snapshot 0) (0 + 2)) 16))
                                  (Z.shiftl (peek (chunk snapshot 0) (0 + 3)) 24))
              else Ok 0) = Ok flags)
    by (destruct (len (chunk snapshot 0) >=? 4); eauto).
  destruct Hflags as [flags Hflags]. rewrite Hflags. cbv beta iota.
  assert (Hparty : exists party,
             (if nonempty (chunk snapshot 4)
                 && (len (chunk snapshot 4) >=? BATTLE_MAX_BATTLERS K * 2)
              then for_each (fun i => _u16le_from (chunk snapshot 4) (i * 2))
                            (range (BATTLE_MAX_BATTLERS K))
              else Ok [0; 0; 0; 0]) = Ok party).
  { destruct (nonempty (chunk snapshot 4)
              && (len (chunk snapshot 4) >=? BATTLE_MAX_BATTLERS K * 2));
      [|eauto].
    rewrite (for_each_ok _ (fun i => u16_value (chunk snapshot 4) (i * 2)))
      by (intros i; apply _u16le_from_u16_value).
    eauto. }
  destruct Hparty as [party Hparty]. rewrite Hparty. cbv beta iota.
  set (positions := if nonempty (chunk snapshot 3)
                    then map byte_val (slice (chunk snapshot 3) 0
                                             (BATTLE_MAX_BATTLERS K))
                    else [0; 1; 2; 3]).
  assert (Hmons : (if nonempty (chunk snapshot 5) then chunk snapshot 5 else [])
                  = chunk snapshot 5)
    by (destruct (chunk snapshot 5); reflexivity).
  rewrite Hmons. fold (battler_ids K snapshot).
  assert (Hids : Forall (fun i => 0 <= i < BATTLE_MAX_BATTLERS K)
                        (battler_ids K snapshot)).
  { apply Forall_forall. intros i Hi. unfold battler_ids in Hi. cbv zeta in Hi.
    apply In_range_bounds in Hi.
    destruct ((0 <? first_byte (chunk snapshot 1))
              && (first_byte (chunk snapshot 1) <=? BATTLE_MAX_BATTLERS K))
             eqn:Ec; [|exact Hi].
    apply andb_true_iff in Ec. destruct Ec as [_ Ec].
    apply Z.leb_le in Ec. lia. }
  pose proof (battlers_loop_spec
                K G (first_byte (chunk snapshot 2)) positions party
                (chunk snapshot 5) (battler_position snapshot)
                (party_index K snapshot) (battler_ids K snapshot) [] [])
    as Hloop.
  cbv zeta in Hloop.
  assert (Haccess :
    Forall (fun i =>
              (if i <? len positions then getitem positions i else Ok i)
              = Ok (battler_position snapshot i)
              /\ (if i <? len party then getitem party i else Ok 0)
                 = Ok (party_index K snapshot i))
           (battler_ids K snapshot)).
  { apply Forall_forall. intros i Hi. rewrite Forall_forall in Hids.
    specialize (Hids i Hi). split.
    - apply position_access. exact Hids.
    - apply (party_access K snapshot i Hids party Hparty). }
  specialize (Hloop Haccess).
  unfold unless_tables_fail in *.
  destruct (battlers_loop K G (first_byte (chunk snapshot 2)) positions party
                          (chunk snapshot 5) (battler_ids K snapshot) [] [])
    as [sides|err]; [|exact Hloop].
  destruct Hloop as [P [E' [Hl [Hp [He [HP HE]]]]]].
  rewrite Hl. cbn [app]. cbv beta iota.
  cbn [isActive data_player data_enemy].
  split; [reflexivity|].
  split; [|split].
  - apply sorted_side; [|exact Hp].
    eapply Forall_impl; [|exact HP]. intros e He'. exact (proj1 He').
  - apply sorted_side; [|exact He].
    eapply Forall_impl; [|exact HE]. intros e He'. exact (proj1 He').
  - apply Forall_app. split; apply Forall_sort_by_key.
    + eapply Forall_impl; [|exact HP]. intros e He'. exact He'.
    + eapply Forall_impl; [|exact HE]. intros e He'. exact He'.
Qed.

Lemma battle_state_lists_each_battler_once_witness :
  7 <= len sample_battle_snapshot
  /\ (exists st,
        get_battle_state sample_addresses sample_battle_addresses no_names
                         (Raise IOError) (fun _ => Raise IOError)
                         (Some true) (Some sample_battle_snapshot) = Ok st
        /\ isActive st = true
        /\ map entry_battlerId (data_player st) = [0]
        /\ map entry_battlerId (data_enemy st) = [1]
        /\ Forall (entry_of_snapshot sample_addresses no_names
                                     sample_battle_snapshot)
                  (data_player st ++ data_enemy st))
  /\ get_battle_state sample_addresses sample_battle_addresses missing_tables
                      (Raise IOError) (fun _ => Raise IOError)
                      (Some true) (Some sample_battle_snapshot)
     = Raise GameDataError.
Proof.
  assert (Hlen : 7 <= len sample_battle_snapshot) by (vm_compute; discriminate).
  split; [exact Hlen|]. split.
  - destruct (battle_state_lists_each_battler_once
                sample_addresses sample_battle_addresses no_names
                (Raise IOError) (fun _ => Raise IOError) sample_battle_snapshot
                Hlen) as [Hres Hok].
    destruct (Hok empty_tables eq_refl) as [st Hst].
    exists st. split; [exact Hst|].
    unfold unless_tables_fail in Hres. rewrite Hst in Hres.
    destruct Hres as [Ha [Hp [He Hf]]].
    split; [exact Ha|]. split; [exact Hp|]. split; [exact He|exact Hf].
  - pose proof (battle_state_lists_each_battler_once
                  sample_addresses sample_battle_addresses missing_tables
                  (Raise IOError) (fun _ => Raise IOError)
                  sample_battle_snapshot Hlen) as [Hres _].
    unfold unless_tables_fail in Hres.
    destruct (get_battle_state sample_addresses sample_battle_addresses
                               missing_tables (Raise IOError)
                               (fun _ => Raise IOError) (Some true)
                               (Some sample_battle_snapshot)) as [st|e] eqn:E.
    + vm_compute in E. discriminate E.
    + f_equal. simpl in Hres. congruence.
Defined.

(** ** [ui/menus.py]: the Berry Crush pressing speed *)

Lemma In_range (n i : Z) : 0 <= i < n -> In i (range n).
Proof.
  intros H. unfold range. apply in_map_iff. exists (Z.to_nat i).
  split; [lia|]. apply in_seq. lia.
Qed.

Lemma berry_crush_fraction (lo : Z) :
  0 <= lo < 256 ->
  format_02d
    (fold_left (fun score jv =>
                  if negb (Z.land (Z.shiftr lo (7 - fst jv)) 1 =? 0)
                  then score + snd jv else score)
               (enumerate _BERRY_CRUSH_PRESSING_SPEED_CONVERSION_TABLE) 0
     / 1000000)
  = [48 + lo * 100 / 256 / 10; 48 + (lo * 100 / 256) mod 10].
Proof.
  intros H.
  assert (Hall :
            forallb
              (fun lo =>
                 pystr_eqb
                   (format_02d
                      (fold_left
                         (fun score jv =>
                            if negb (Z.land (Z.shiftr lo (7 - fst jv)) 1 =? 0)
                            then score + snd jv else score)
                         (enumerate _BERRY_CRUSH_PRESSING_SPEED_CONVERSION_TABLE)
                         0 / 1000000))
                   [48 + lo * 100 / 256 / 10; 48 + (lo * 100 / 256) mod 10])
              (range 256) = true) by (vm_compute; reflexivity).
  rewrite forallb_forall in Hall.
  specialize (Hall lo (In_range 256 lo H)).
  apply pystr_eqb_eq. exact Hall.
Qed.

(** X23.  The Berry Crush pressing speed.  The packed value is taken
    modulo [2^16] and read as a fixed-point number with eight fractional
    bits: the text is the integer part, a point, and exactly two digits,
    the hundredths of the fractional part rounded down. *)
Theorem berry_crush_speed_is_truncated_to_hundredths :
  forall raw : Z,
    let packed := raw mod 65536 in
    let hundredths := (packed mod 256) * 100 / 256 in
    _berry_crush_times_per_sec_from_packing raw
    = str_of_int (packed / 256) ++ u "."
      ++ [48 + hundredths / 10; 48 + hundredths mod 10]
    /\ 0 <= hundredths < 100.
Proof.
  intros raw packed hundredths.
  assert (Hp : 0 <= packed < 65536) by (apply Z.mod_pos_bound; lia).
  assert (Hlo : 0 <= packed mod 256 < 256) by (apply Z.mod_pos_bound; lia).
  split.
  - unfold _berry_crush_times_per_sec_from_packing.
    change 0xFFFF with (Z.ones 16). change 0xFF with (Z.ones 8).
    rewrite (Z.land_ones raw 16) by lia.
    change (2 ^ 16) with 65536. fold packed. cbv zeta.
    rewrite (Z.land_ones packed 8), (Z.land_ones (Z.shiftr packed 8) 8) by lia.
    rewrite Z.shiftr_div_pow2 by lia. change (2 ^ 8) with 256.
    rewrite (Z.mod_small (packed / 256) 256)
      by (split; [apply Z.div_pos; lia|apply Z.div_lt_upper_bound; lia]).
    rewrite (berry_crush_fraction (packed mod 256) Hlo).
    reflexivity.
  - unfold hundredths. split.
    + apply Z.div_pos; lia.
    + apply Z.div_lt_upper_bound; lia.
Qed.

(** ** [memory/symbols.py] *)

Lemma insert_by_pair_key_perm {A : Type} (key : A -> Z * Z) (x : A) (l : list A) :
  Permutation (insert_by_pair_key key x l) (x :: l).
Proof.
  induction l as [|h t IH]; [apply Permutation_refl|].
  simpl. destruct (pair_leb (key x) (key h)); [apply Permutation_refl|].
  eapply Permutation_trans; [apply perm_skip; exact IH|apply perm_swap].
Qed.

Lemma sort_by_pair_key_perm {A : Type} (key : A -> Z * Z) (l : list A) :
  Permutation (sort_by_pair_key key l) l.
Proof.
  induction l as [|h t IH]; [apply Permutation_refl|].
  simpl. eapply Permutation_trans; [apply insert_by_pair_key_perm|].
  apply perm_skip. exact IH.
Qed.

Lemma pair_leb_refl (a : Z * Z) : pair_leb a a = true.
Proof.
  unfold pair_leb. rewrite Z.eqb_refl.
  replace (snd a <=? snd a) with true by (symmetry; apply Z.leb_le; lia).
  apply orb_true_r.
Qed.

Lemma pair_leb_spec (a b : Z * Z) :
  pair_leb a b = true
  <-> fst a < fst b \/ (fst a = fst b /\ snd a <= snd b).
Proof.
  unfold pair_leb.
  rewrite orb_true_iff, andb_true_iff, Z.ltb_lt, Z.eqb_eq, Z.leb_le.
  reflexivity.
Qed.

Lemma pair_leb_trans (a b c : Z * Z) :
  pair_leb a b = true -> pair_leb b c = true -> pair_leb a c = true.
Proof. rewrite !pair_leb_spec. lia. Qed.

Lemma pair_leb_total (a b : Z * Z) :
  pair_leb a b = false -> pair_leb b a = true.
Proof.
  intros H. apply pair_leb_spec.
  destruct (pair_leb a b) eqn:E; [discriminate|].
  assert (~ (fst a < fst b \/ (fst a = fst b /\ snd a <= snd b)))
    by (rewrite <- pair_leb_spec; congruence).
  lia.
Qed.

(** The head of a list sorted by a pair key is least. *)
Lemma insert_by_pair_key_head {A : Type} (key : A -> Z * Z) (x : A) (l : list A) :
  (forall h t, l = h :: t ->
               forall y, In y l -> pair_leb (key h) (key y) = true) ->
  forall h t, insert_by_pair_key key x l = h :: t ->
              forall y, In y (x :: l) -> pair_leb (key h) (key y) = true.
Proof.
  intros Hl h t E y Hy.
  destruct l as [|h0 t0].
  - simpl in E. injection E as <- <-.
    destruct Hy as [<-|[]]. apply pair_leb_refl.
  - simpl in E. specialize (Hl h0 t0 eq_refl).
    destruct (pair_leb (key x) (key h0)) eqn:Ex.
    + injection E as <- <-.
      destruct Hy as [<-|Hy]; [apply pair_leb_refl|].
      eapply pair_leb_trans; [exact Ex|apply Hl; exact Hy].
    + injection E as <- <-.
      destruct Hy as [<-|Hy]; [apply pair_leb_total; exact Ex|].
      apply Hl. exact Hy.
Qed.

Lemma sort_by_pair_key_head {A : Type} (key : A -> Z * Z) (l : list A) :
  forall h t, sort_by_pair_key key l = h :: t ->
              forall y, In y l -> pair_leb (key h) (key y) = true.
Proof.
  induction l as [|x l IH]; intros h t E y Hy; [destruct Hy|].
  simpl in E.
  assert (Hy' : In y (x :: sort_by_pair_key key l)).
  { destruct Hy as [<-|Hy]; [left; reflexivity|right].
    apply (Permutation_in y (Permutation_sym (sort_by_pair_key_perm key l))).
    exact Hy. }
  apply (insert_by_pair_key_head key x (sort_by_pair_key key l)) with (h := h) (t := t);
    [|exact E|exact Hy'].
  intros h0 t0 E0 z Hz. apply (IH h0 t0 E0).
  apply (Permutation_in z (sort_by_pair_key_perm key l)). exact Hz.
Qed.

Lemma getitem_head {A : Type} (h : A) (t : list A) : getitem (h :: t) 0 = Ok h.
Proof. reflexivity. Qed.

Lemma first_by_pair_key {A : Type} (key : A -> Z * Z) (l : list A) :
  l <> [] ->
  exists e, getitem (sort_by_pair_key key l) 0 = Ok e
            /\ In e l
            /\ forall y, In y l -> pair_leb (key e) (key y) = true.
Proof.
  intros Hne.
  destruct (sort_by_pair_key key l) as [|h t] eqn:E.
  - exfalso. apply Hne.
    apply Permutation_nil.
    rewrite <- E. apply sort_by_pair_key_perm.
  - exists h. split; [apply getitem_head|]. split.
    + apply (Permutation_in h (sort_by_pair_key_perm key l)).
      rewrite E. left. reflexivity.
    + apply (sort_by_pair_key_head key l h t E).
Qed.

Lemma first_by_key {A : Type} (key : A -> Z) (l : list A) :
  l <> [] ->
  exists e, getitem (sort_by_key key l) 0 = Ok e
            /\ In e l
            /\ forall y, In y l -> key e <= key y.
Proof.
  intros Hne.
  pose proof (sort_by_key_sorted key l) as Hs.
  pose proof (sort_by_key_perm key l) as Hp.
  destruct (sort_by_key key l) as [|h t].
  - exfalso. apply Hne. apply Permutation_nil. exact Hp.
  - exists h. split; [apply getitem_head|]. split.
    + apply (Permutation_in h Hp). left. reflexivity.
    + intros y Hy. apply (Permutation_in y (Permutation_sym Hp)) in Hy.
      destruct Hy as [<-|Hy]; [lia|]. apply (proj1 Hs). exact Hy.
Qed.

Lemma nonempty_spec {A : Type} (l : list A) : nonempty l = true <-> l <> [].
Proof. destruct l; simpl; split; congruence. Qed.

(** The candidates of a lookup are the eligible entries. *)
Lemma candidates_eligible (table : sym_table) (name : pystr) (size : option Z) :
  let entries := _resolve_entries table name in
  let candidates :=
    match size with
    | Some s =>
      let sized := filter (fun entry => snd (fst entry) =? s) entries in
      if nonempty sized then sized else entries
    | None => entries
    end in
  (entries <> [] -> candidates <> [])
  /\ forall e, In e candidates <-> eligible table name size e.
Proof.
  cbv zeta. unfold eligible.
  set (entries := _resolve_entries table name).
  destruct size as [s|].
  - destruct (filter (fun entry => snd (fst entry) =? s) entries)
      as [|f0 fr] eqn:F; simpl nonempty; cbv iota.
    + split; [tauto|]. intros e. split.
      * intros He. split; [exact He|].
        intros s' Hs' [e' [He' Hsz]]. injection Hs' as <-.
        assert (Hin : In e' (filter (fun entry => snd (fst entry) =? s) entries))
          by (apply filter_In; split; [exact He'|apply Z.eqb_eq; exact Hsz]).
        rewrite F in Hin. destruct Hin.
      * intros [He _]. exact He.
    + split; [intros _; discriminate|]. intros e. rewrite <- F.
      rewrite filter_In. split.
      * intros [He Hsz]. split; [exact He|].
        intros s' Hs' _. injection Hs' as <-. apply Z.eqb_eq. exact Hsz.
      * intros [He Hsz]. split; [exact He|]. apply Z.eqb_eq.
        apply (Hsz s eq_refl).
        assert (Hin : In f0 (filter (fun entry => snd (fst entry) =? s) entries))
          by (rewrite F; left; reflexivity).
        apply filter_In in Hin. destruct Hin as [Hin Hs0].
        exists f0. split; [exact Hin|apply Z.eqb_eq; exact Hs0].
  - split; [tauto|]. intros e. split.
    + intros He. split; [exact He|]. intros s Hs. discriminate Hs.
    + intros [He _]. exact He.
Qed.

Lemma single_candidate {A : Type} (l : list A) (e y : A) :
  l <> [] -> (1 <? len l) = false -> In e l -> In y l -> y = e.
Proof.
  intros Hne H He Hy. apply Z.ltb_ge in H. unfold len in H.
  destruct l as [|a [|b r]]; [contradiction| |simpl in H; lia].
  destruct He as [<-|[]]. destruct Hy as [<-|[]]. reflexivity.
Qed.

(** The entry [sym_entry] settles on. *)
Lemma sym_entry_choice (STRICT : bool) (table : sym_table) (name : pystr)
      (size : option Z) (near : option pystr) (fallback_addr : option Z)
      (fallback_size : Z) (fallback_type : pystr) :
  _resolve_entries table name <> [] ->
  exists e,
    sym_entry STRICT table name size near fallback_addr fallback_size
              fallback_type = Ok e
    /\ sym_addr STRICT table name size near fallback_addr = Ok (fst (fst e))
    /\ eligible table name size e
    /\ forall e', eligible table name size e' ->
                  preferred table near (fst (fst e)) (fst (fst e')).
Proof.
  intros Hne.
  destruct (candidates_eligible table name size) as [Hcne Hel].
  cbv zeta in Hcne, Hel. specialize (Hcne Hne).
  unfold sym_entry, sym_addr, preferred.
  replace (nonempty (_resolve_entries table name)) with true
    by (symmetry; apply nonempty_spec; exact Hne).
  simpl negb. cbv iota zeta.
  set (candidates :=
         match size with
         | Some s =>
           if nonempty (filter (fun entry => snd (fst entry) =? s)
                               (_resolve_entries table name))
           then filter (fun entry => snd (fst entry) =? s)
                       (_resolve_entries table name)
           else _resolve_entries table name
         | None => _resolve_entries table name
         end) in *.
  destruct (first_by_key (fun entry : Z * Z * pystr => fst (fst entry))
                         candidates Hcne) as [e0 [Hg0 [Hin0 Hmin0]]].
  assert (Hdefault :
            forall d : Z -> Z,
              (1 <? len candidates) = false ->
              forall e', eligible table name size e' ->
                         d (fst (fst e0)) < d (fst (fst e'))
                         \/ (d (fst (fst e0)) = d (fst (fst e'))
                             /\ fst (fst e0) <= fst (fst e'))).
  { intros d H1 e' He'. apply Hel in He'.
    rewrite (single_candidate candidates e0 e' Hcne H1 Hin0 He').
    right. split; lia. }
  destruct near as [n|].
  - destruct (1 <? len candidates) eqn:H1.
    + destruct (_resolve_entries table n) as [|near0 nr] eqn:En;
        simpl nonempty; cbv iota.
      * exists e0. rewrite Hg0. split; [reflexivity|]. split; [reflexivity|].
        split; [apply Hel; exact Hin0|].
        intros e' He'. apply Hmin0. apply Hel. exact He'.
      * rewrite getitem_head. cbv beta iota.
        destruct (first_by_pair_key
                    (fun entry : Z * Z * pystr =>
                       (Z.abs (fst (fst entry) - fst (fst near0)),
                        fst (fst entry)))
                    candidates Hcne) as [e1 [Hg1 [Hin1 Hmin1]]].
        exists e1. rewrite Hg1. split; [reflexivity|]. split; [reflexivity|].
        split; [apply Hel; exact Hin1|].
        intros e' He'. apply Hel in He'. specialize (Hmin1 e' He').
        apply pair_leb_spec in Hmin1. simpl in Hmin1. exact Hmin1.
    + exists e0. rewrite Hg0. split; [reflexivity|]. split; [reflexivity|].
      split; [apply Hel; exact Hin0|].
      destruct (_resolve_entries table n) as [|near0 nr].
      * intros e' He'. apply Hmin0. apply Hel. exact He'.
      * apply (Hdefault (fun x => Z.abs (x - fst (fst near0))) eq_refl).
  - exists e0. rewrite Hg0. split; [reflexivity|]. split; [reflexivity|].
    split; [apply Hel; exact Hin0|].
    intros e' He'. apply Hmin0. apply Hel. exact He'.
Qed.

(** X24.  The entry of a symbol.  For a name with entries, [sym_entry]
    returns an eligible entry (an entry of the name, of the asked size
    when the name has one of that size) that is preferred to every other
    eligible entry: the nearest to the first entry of [near] when [near]
    is given and known, the lowest address on equal distance, and the
    lowest address otherwise.  The fallback and the strict mode play no
    part. *)
Theorem sym_entry_is_the_preferred_eligible_entry :
  forall (STRICT : bool) (table : sym_table) (name : pystr)
         (size : option Z) (near : option pystr) (fallback_addr : option Z)
         (fallback_size : Z) (fallback_type : pystr),
    _resolve_entries table name <> [] ->
    exists e,
      sym_entry STRICT table name size near fallback_addr fallback_size
                fallback_type = Ok e
      /\ eligible table name size e
      /\ forall e', eligible table name size e' ->
                    preferred table near (fst (fst e)) (fst (fst e')).
Proof.
  intros STRICT table name size near fa fs ft Hne.
  destruct (sym_entry_choice STRICT table name size near fa fs ft Hne)
    as [e [He [_ [Hel Hpref]]]].
  exists e. split; [exact He|]. split; [exact Hel|exact Hpref].
Qed.

Lemma sym_entry_is_the_preferred_eligible_entry_witness :
  _resolve_entries sample_sym_table (u "Task_Handler") <> []
  /\ exists e,
      sym_entry false sample_sym_table (u "Task_Handler") (Some 0x20)
                (Some (u "Task_Anchor")) None 0 [] = Ok e
      /\ eligible sample_sym_table (u "Task_Handler") (Some 0x20) e
      /\ forall e', eligible sample_sym_table (u "Task_Handler") (Some 0x20) e' ->
                    preferred sample_sym_table (Some (u "Task_Anchor"))
                              (fst (fst e)) (fst (fst e')).
Proof.
  split; [vm_compute; discriminate|].
  apply sym_entry_is_the_preferred_eligible_entry. vm_compute. discriminate.
Defined.

Lemma sorted_increasing (l : list Z) :
  sorted_by (fun x => x) l -> NoDup l -> increasing l.
Proof.
  induction l as [|x r IH]; intros Hs Hn; [exact I|].
  destruct Hs as [Hx Hr]. inversion Hn as [|? ? Hnot Hn']; subst.
  split; [|apply IH; assumption].
  intros y Hy. specialize (Hx y Hy).
  assert (x <> y) by (intros ->; contradiction). lia.
Qed.

Lemma sorted_set_spec (l : list Z) :
  increasing (sorted_set l)
  /\ forall a, In a (sorted_set l) <-> In a l.
Proof.
  unfold sorted_set.
  pose proof (sort_by_key_perm (fun x : Z => x) (nodup Z.eq_dec l)) as Hp.
  split.
  - apply sorted_increasing; [apply sort_by_key_sorted|].
    apply (Permutation_NoDup (Permutation_sym Hp)). apply NoDup_nodup.
  - intros a. rewrite <- (nodup_In Z.eq_dec l a). split.
    + apply (Permutation_in a Hp).
    + apply (Permutation_in a (Permutation_sym Hp)).
Qed.

(** X25.  All addresses of a symbol.  [sym_addrs] and
    [sym_addrs_by_prefix] return a strictly increasing list, so without
    duplicates; the first holds exactly the addresses of the entries of
    the name that have the asked size, if one is asked, the second exactly
    the addresses of the entries of the names that start with the
    prefix. *)
Theorem sym_addrs_lists_each_address_once :
  forall (table : sym_table) (name prefix : pystr) (size : option Z),
    increasing (sym_addrs table name size)
    /\ (forall a,
           In a (sym_addrs table name size)
           <-> exists e, In e (_resolve_entries table name)
                         /\ fst (fst e) = a
                         /\ forall s, size = Some s -> snd (fst e) = s)
    /\ increasing (sym_addrs_by_prefix table prefix)
    /\ (forall a,
           In a (sym_addrs_by_prefix table prefix)
           <-> exists item e, In item table
                              /\ startswith (fst item) prefix = true
                              /\ In e (snd item)
                              /\ fst (fst e) = a).
Proof.
  intros table name prefix size.
  split; [apply sorted_set_spec|]. split.
  - intros a. unfold sym_addrs. cbv zeta.
    rewrite (proj2 (sorted_set_spec _) a), in_map_iff.
    destruct size as [s|].
    + split.
      * intros [e [Ha He]]. apply filter_In in He. destruct He as [He Hs].
        exists e. split; [exact He|]. split; [exact Ha|].
        intros s' Hs'. injection Hs' as <-. apply Z.eqb_eq. exact Hs.
      * intros [e [He [Ha Hs]]]. exists e. split; [exact Ha|].
        apply filter_In. split; [exact He|]. apply Z.eqb_eq. apply Hs.
        reflexivity.
    + split.
      * intros [e [Ha He]]. exists e. split; [exact He|].
        split; [exact Ha|]. intros s Hs. discriminate Hs.
      * intros [e [He [Ha _]]]. exists e. split; assumption.
  - split; [apply sorted_set_spec|].
    intros a. unfold sym_addrs_by_prefix.
    rewrite (proj2 (sorted_set_spec _) a), in_flat_map. split.
    + intros [item [Hitem Ha]].
      cbv beta in Ha.
      destruct (startswith (fst item) prefix) eqn:Hp; simpl in Ha;
        [|destruct Ha].
      apply in_map_iff in Ha. destruct Ha as [e [Ha He]].
      exists item, e. repeat split; assumption.
    + intros [item [e [Hitem [Hp [He Ha]]]]].
      exists item. split; [exact Hitem|]. cbv beta.
      unfold sym_table, sym_triple in *. rewrite Hp. simpl.
      apply in_map_iff. exists e. split; assumption.
Qed.

Lemma _resolve_entries_item (table : sym_table) (name : pystr) :
  _resolve_entries table name <> [] ->
  In (name, _resolve_entries table name) table.
Proof.
  unfold _resolve_entries.
  destruct (find (fun item => pystr_eqb (fst item) name) table)
    as [item|] eqn:F; [|congruence].
  intros _. apply find_some in F. destruct F as [Hin Heq].
  apply pystr_eqb_eq in Heq. destruct item as [k v]. simpl in *. subst k.
  exact Hin.
Qed.

(** X26.  One address among all.  For a name with entries, [sym_addr]
    returns the address of the entry that [sym_entry] returns, and this
    address is one of [sym_addrs] of the name, one of [sym_addrs] with the
    same size whenever that list is not empty, and one of
    [sym_addrs_by_prefix] for every prefix of the name. *)
Theorem sym_addr_is_one_of_sym_addrs :
  forall (STRICT : bool) (table : sym_table) (name : pystr)
         (size : option Z) (near : option pystr) (fallback : option Z)
         (fallback_size : Z) (fallback_type : pystr),
    _resolve_entries table name <> [] ->
    exists e,
      sym_entry STRICT table name size near fallback fallback_size
                fallback_type = Ok e
      /\ sym_addr STRICT table name size near fallback = Ok (fst (fst e))
      /\ In (fst (fst e)) (sym_addrs table name None)
      /\ (sym_addrs table name size <> [] ->
          In (fst (fst e)) (sym_addrs table name size))
      /\ forall prefix, startswith name prefix = true ->
                        In (fst (fst e)) (sym_addrs_by_prefix table prefix).
Proof.
  intros STRICT table name size near fb fs ft Hne.
  destruct (sym_entry_choice STRICT table name size near fb fs ft Hne)
    as [e [He [Ha [[Hin Hsz] _]]]].
  exists e. split; [exact He|]. split; [exact Ha|].
  assert (Hmem : forall l, In (fst (fst e)) (sorted_set l)
                           <-> In (fst (fst e)) l)
    by (intros l; apply sorted_set_spec).
  split; [|split].
  - unfold sym_addrs. apply Hmem.
    apply (in_map (fun entry : Z * Z * pystr => fst (fst entry))). exact Hin.
  - intros Hsized. unfold sym_addrs in *. cbv zeta in *. apply Hmem.
    destruct size as [s|];
      [|apply (in_map (fun entry : Z * Z * pystr => fst (fst entry)));
        exact Hin].
    apply (in_map (fun entry : Z * Z * pystr => fst (fst entry))).
    apply filter_In. split; [exact Hin|]. apply Z.eqb_eq.
    apply (Hsz s eq_refl).
    destruct (filter (fun entry : Z * Z * pystr => snd (fst entry) =? s)
                     (_resolve_entries table name)) as [|f0 fr] eqn:F;
      [exfalso; apply Hsized; reflexivity|].
    assert (Hf : In f0 (filter (fun entry : Z * Z * pystr => snd (fst entry) =? s)
                               (_resolve_entries table name)))
      by (rewrite F; left; reflexivity).
    apply filter_In in Hf. destruct Hf as [Hf Hs].
    exists f0. split; [exact Hf|apply Z.eqb_eq; exact Hs].
  - intros prefix Hp. unfold sym_addrs_by_prefix. apply Hmem.
    apply in_flat_map. exists (name, _resolve_entries table name).
    split; [apply _resolve_entries_item; exact Hne|].
    cbv beta. cbn [fst snd]. rewrite Hp. simpl negb. cbv iota.
    apply (in_map (fun entry : Z * Z * pystr => fst (fst entry))). exact Hin.
Qed.

Lemma sym_addr_is_one_of_sym_addrs_witness :
  _resolve_entries sample_sym_table (u "Task_Handler") <> []
  /\ exists e,
      sym_entry true sample_sym_table (u "Task_Handler") (Some 0x20) None
                None 0 [] = Ok e
      /\ sym_addr true sample_sym_table (u "Task_Handler") (Some 0x20) None
                  None = Ok (fst (fst e))
      /\ In (fst (fst e)) (sym_addrs sample_sym_table (u "Task_Handler") None)
      /\ (sym_addrs sample_sym_table (u "Task_Handler") (Some 0x20) <> [] ->
          In (fst (fst e))
             (sym_addrs sample_sym_table (u "Task_Handler") (Some 0x20)))
      /\ forall prefix, startswith (u "Task_Handler") prefix = true ->
                        In (fst (fst e))
                           (sym_addrs_by_prefix sample_sym_table prefix).
Proof.
  split; [vm_compute; discriminate|].
  apply sym_addr_is_one_of_sym_addrs. vm_compute. discriminate.
Defined.

(** ** [ui/menus.py]: the START menu and the YES/NO menu *)

Lemma both_none_false (a b : exc (option Z)) :
  both_none a b = Ok false ->
  (exists i, a = Ok (Some i)) \/ (exists i, b = Ok (Some i)).
Proof.
  unfold both_none. destruct a as [[i|]|]; [eauto| |discriminate].
  destruct b as [[i|]|]; [eauto|discriminate|discriminate].
Qed.

Lemma find_by_index (cp : Z) (l : list start_menu_option) :
  forall k : nat,
    map option_index l = map Z.of_nat (seq k (List.length l)) ->
    (forall o, In o l -> option_selected o = (option_index o =? cp)) ->
    Z.of_nat k <= cp ->
    find option_selected l = nth_error l (Z.to_nat cp - k).
Proof.
  induction l as [|o r IH]; intros k Hidx Hsel Hk.
  - simpl. destruct (Z.to_nat cp - k)%nat; reflexivity.
  - simpl in Hidx. injection Hidx as Ho Hr.
    simpl find. rewrite (Hsel o (or_introl eq_refl)), Ho.
    destruct (Z.of_nat k =? cp) eqn:E.
    + apply Z.eqb_eq in E.
      replace (Z.to_nat cp - k)%nat with 0%nat by lia. reflexivity.
    + apply Z.eqb_neq in E.
      replace (Z.to_nat cp - k)%nat with (S (Z.to_nat cp - S k)) by lia.
      simpl. apply (IH (S k)); [exact Hr| |lia].
      intros o' Ho'. apply Hsel. right. exact Ho'.
Qed.

Lemma map_fst_combine {A B : Type} (l : list A) (l' : list B) :
  List.length l = List.length l' -> map fst (combine l l') = l.
Proof.
  revert l'. induction l as [|a l IH]; intros [|b l'] H; simpl in *;
    try reflexivity; try discriminate.
  f_equal. apply IH. lia.
Qed.

Lemma enumerate_indexes {A : Type} (l : list A) :
  map fst (enumerate l) = range (len l).
Proof.
  unfold enumerate, range, len. rewrite Nat2Z.id.
  apply map_fst_combine. rewrite length_map, length_seq. reflexivity.
Qed.

Lemma getitem_nth_error {A : Type} (l : list A) (i : Z) :
  0 <= i ->
  getitem l i = match nth_error l (Z.to_nat i) with
                | Some x => Ok x
                | None => Raise IndexError
                end.
Proof.
  intros H. unfold getitem.
  destruct (i <? 0) eqn:E; [apply Z.ltb_lt in E; lia|]. rewrite E. reflexivity.
Qed.

(** X27.  The START menu.  A reported START menu has at least one
    option and one of its two tasks runs; the options are numbered from
    zero in order; an option is flagged selected exactly when its number
    is the reported selected index; and, for a selected index that is not
    negative, the reported selected option is the name of the flagged
    option, and is absent when no option is flagged. *)
Theorem start_menu_selection_is_consistent :
  forall (K : Addresses) (M : MenuAddresses) (io : Mgba)
         (mgba_read_range : Z -> Z -> exc (list Z))
         (tasks_raw : option bytes)
         (start_menu_window_id start_menu_num_actions
            start_menu_cursor_pos : option Z)
         (start_menu_actions_raw : option (list Z))
         (st : start_menu_state),
    get_start_menu_state K M io mgba_read_range tasks_raw
                         start_menu_window_id start_menu_num_actions
                         start_menu_cursor_pos start_menu_actions_raw
    = Some st ->
    (task_runs K io tasks_raw (TASK_SHOW_START_MENU_ADDR M)
     \/ task_runs K io tasks_raw (START_MENU_TASK_ADDR M))
    /\ start_menu_options st <> []
    /\ map option_index (start_menu_options st)
       = range (len (start_menu_options st))
    /\ (forall o, In o (start_menu_options st) ->
                  option_selected o
                  = (option_index o =? start_menu_selectedIndex st))
    /\ (0 <= start_menu_selectedIndex st ->
        start_menu_selectedOption st
        = option_map option_name
                     (find option_selected (start_menu_options st))).
Proof.
  intros K M io rr tasks_raw wid na cp acts st.
  unfold get_start_menu_state, try_except.
  destruct (both_none _ _) as [[|]|] eqn:Hb; cbv beta iota; try discriminate.
  apply both_none_false in Hb.
  destruct (given_or_read wid _) as [w|]; cbv beta iota; [|discriminate].
  destruct (w =? WINDOW_NONE K); [discriminate|].
  destruct (given_or_read na _) as [n|]; cbv beta iota; [|discriminate].
  destruct ((n =? 0) || (n >? 9)); [discriminate|].
  destruct (given_or_read cp _) as [c|]; cbv beta iota; [|discriminate].
  set (ids := match acts with
              | Some raw => Ok (slice raw 0 n)
              | None => rr (START_MENU_ACTIONS_ADDR K) n
              end).
  destruct ids as [action_ids|]; cbv beta iota; [|discriminate].
  destruct action_ids as [|a0 ar] eqn:Eids; [discriminate|]. rewrite <- Eids.
  replace (nonempty action_ids) with true by (rewrite Eids; reflexivity).
  cbv beta iota zeta. simpl negb. cbv beta iota.
  set (options :=
         map (fun ia : Z * Z =>
                {| option_index := fst ia;
                   option_name :=
                     match START_MENU_ACTION_NAMES M (snd ia) with
                     | Some name => name
                     | None => u "UNKNOWN_" ++ str_of_int (snd ia)
                     end;
                   option_selected := fst ia =? c |})
             (enumerate action_ids)).
  assert (Hlen : len options = len action_ids).
  { unfold options, enumerate, len.
    rewrite length_map, length_combine, length_map, length_seq.
    rewrite Nat.min_id. reflexivity. }
  assert (Hidx : map option_index options = range (len options)).
  { rewrite Hlen, <- enumerate_indexes. unfold options.
    rewrite map_map. reflexivity. }
  assert (Hsel : forall o, In o options ->
                           option_selected o = (option_index o =? c)).
  { intros o Ho. unfold options in Ho. apply in_map_iff in Ho.
    destruct Ho as [ia [<- _]]. reflexivity. }
  assert (Hfind : 0 <= c ->
                  find option_selected options
                  = nth_error options (Z.to_nat c)).
  { intros Hc. pose proof (find_by_index c options 0) as Hf.
    rewrite Nat.sub_0_r in Hf. apply Hf; [|exact Hsel|simpl; lia].
    rewrite Hidx. unfold range, len. rewrite Nat2Z.id. reflexivity. }
  assert (Hne : options <> []).
  { intros E. assert (H0 : len options = 0) by (rewrite E; reflexivity).
    rewrite Hlen, Eids in H0. unfold len in H0. simpl in H0. lia. }
  destruct (c <? len options) eqn:Ec.
  - destruct (getitem options c) as [o|] eqn:Eg; cbv beta iota;
      [|discriminate].
    intros H. injection H as <-. cbn [start_menu_options
      start_menu_selectedIndex start_menu_selectedOption].
    split; [exact Hb|]. split; [exact Hne|]. split; [exact Hidx|].
    split; [exact Hsel|].
    intros Hc. rewrite (Hfind Hc).
    rewrite (getitem_nth_error options c Hc) in Eg.
    destruct (nth_error options (Z.to_nat c)) as [o'|]; [|discriminate].
    injection Eg as ->. reflexivity.
  - intros H. injection H as <-. cbn [start_menu_options
      start_menu_selectedIndex start_menu_selectedOption].
    split; [exact Hb|]. split; [exact Hne|]. split; [exact Hidx|].
    split; [exact Hsel|].
    intros Hc. rewrite (Hfind Hc).
    apply Z.ltb_ge in Ec.
    replace (nth_error options (Z.to_nat c)) with (@None start_menu_option);
      [reflexivity|].
    symmetry. apply nth_error_None. unfold len in Ec. lia.
Qed.

Lemma start_menu_selection_is_consistent_witness :
  exists st,
    get_start_menu_state sample_addresses sample_menu_addresses offline
                         (fun _ _ => Raise IOError)
                         (Some start_menu_task_table)
                         (Some 0) (Some 7) (Some 2)
                         (Some [0; 1; 2; 3; 4; 5; 6])
    = Some st
    /\ ((task_runs sample_addresses offline (Some start_menu_task_table)
                   (TASK_SHOW_START_MENU_ADDR sample_menu_addresses)
         \/ task_runs sample_addresses offline (Some start_menu_task_table)
                      (START_MENU_TASK_ADDR sample_menu_addresses))
        /\ start_menu_options st <> []
        /\ map option_index (start_menu_options st)
           = range (len (start_menu_options st))
        /\ (forall o, In o (start_menu_options st) ->
                      option_selected o
                      = (option_index o =? start_menu_selectedIndex st))
        /\ (0 <= start_menu_selectedIndex st ->
            start_menu_selectedOption st
            = option_map option_name
                         (find option_selected (start_menu_options st)))).
Proof.
  eexists. split; [vm_compute; reflexivity|].
  apply (start_menu_selection_is_consistent
           sample_addresses sample_menu_addresses offline
           (fun _ _ => Raise IOError) (Some start_menu_task_table)
           (Some 0) (Some 7) (Some 2) (Some [0; 1; 2; 3; 4; 5; 6])).
  vm_compute. reflexivity.
Defined.

Lemma u8_value_range (raw : bytes) (offset : Z) : 0 <= u8_value raw offset < 256.
Proof.
  unfold u8_value. destruct (out_of_bounds raw offset 1); [lia|].
  apply peek_range.
Qed.

Lemma _u8_from_u8_value (raw : bytes) (offset : Z) :
  _u8_from raw offset = Ok (u8_value raw offset).
Proof. apply _u8_from_value. Qed.

(** The report that ends [get_yes_no_menu_state] on a captured [sMenu]. *)
Lemma yes_no_report (M : MenuAddresses) (smenu : bytes) (st : yes_no_state) :
  let cursor := _s8_from_u8 (u8_value smenu (SMENU_CURSORPOS_OFFSET M)) in
  (selected <- (if (0 <=? cursor) && (cursor <? len [u "YES"; u "NO"])
                then getitem [u "YES"; u "NO"] cursor
                else Ok (u "UNKNOWN")) ;;
   Ok (Some {| yes_no_type := u "yesNo";
               yes_no_cursorPosition := cursor;
               yes_no_selectedOption := selected;
               yes_no_options := [u "YES"; u "NO"] |})) = Ok (Some st) ->
  yes_no_options st = [u "YES"; u "NO"]
  /\ yes_no_cursorPosition st = cursor
  /\ -128 <= cursor <= 127
  /\ yes_no_selectedOption st
     = (if cursor =? 0 then u "YES"
        else if cursor =? 1 then u "NO" else u "UNKNOWN").
Proof.
  intros cursor.
  assert (Hc : -128 <= cursor <= 127).
  { unfold cursor, _s8_from_u8.
    pose proof (u8_value_range smenu (SMENU_CURSORPOS_OFFSET M)) as Hr.
    destruct (u8_value smenu (SMENU_CURSORPOS_OFFSET M) >? 127) eqn:E;
      [apply Z.gtb_lt in E|rewrite Z.gtb_ltb in E; apply Z.ltb_ge in E]; lia. }
  change (len [u "YES"; u "NO"]) with 2.
  destruct (cursor =? 0) eqn:E0.
  - apply Z.eqb_eq in E0. rewrite E0. cbv beta iota. intros H.
    apply Ok_inj in H. injection H as <-. cbn. repeat split; lia.
  - destruct (cursor =? 1) eqn:E1.
    + apply Z.eqb_eq in E1. rewrite E1. intros H.
      apply Ok_inj in H. injection H as <-. cbn. repeat split; lia.
    + apply Z.eqb_neq in E0. apply Z.eqb_neq in E1.
      replace ((0 <=? cursor) && (cursor <? 2)) with false.
      * intros H. apply Ok_inj in H. injection H as <-. cbn.
        repeat split; lia.
      * symmetry. apply andb_false_iff.
        destruct (Z.le_gt_cases 0 cursor);
          [right; apply Z.ltb_ge|left; apply Z.leb_gt]; lia.
Qed.

(** X28.  The YES/NO menu.  On a captured [sMenu], a reported YES/NO
    menu has the options YES and NO, its cursor is the signed cursor byte
    of [sMenu], and the selected option is YES at 0, NO at 1 and UNKNOWN
    anywhere else.  It is reported only when one of the two tasks runs,
    or when the YES/NO window id names one of the 32 windows, [sMenu] is
    on that window with cursor bounds 0 and 1, and the window, if the
    window table is captured, is allocated and at least four tiles
    high. *)
Theorem yes_no_menu_reports_the_cursor :
  forall (K : Addresses) (M : MenuAddresses) (io : Mgba)
         (tasks_raw : option bytes) (yesno_window_id : option Z)
         (smenu : bytes) (windows_raw : option bytes) (st : yes_no_state),
    get_yes_no_menu_state K M io tasks_raw yesno_window_id (Some smenu)
                          windows_raw = Some st ->
    let cursor := _s8_from_u8 (u8_value smenu (SMENU_CURSORPOS_OFFSET M)) in
    (yes_no_options st = [u "YES"; u "NO"]
     /\ yes_no_cursorPosition st = cursor
     /\ -128 <= cursor <= 127
     /\ yes_no_selectedOption st
        = (if cursor =? 0 then u "YES"
           else if cursor =? 1 then u "NO" else u "UNKNOWN"))
    /\ (task_runs K io tasks_raw (TASK_HANDLE_YES_NO_INPUT_ADDR M)
        \/ task_runs K io tasks_raw (TASK_CALL_YES_OR_NO_CALLBACK_ADDR M)
        \/ exists w,
            given_or_read yesno_window_id
                          (mgba_read8 io (SYESNO_WINDOWID_ADDR K)) = Ok w
            /\ w <> WINDOW_NONE K /\ 0 <= w < 32
            /\ u8_value smenu (SMENU_WINDOWID_OFFSET M) = w
            /\ _s8_from_u8 (u8_value smenu (SMENU_MINCURSORPOS_OFFSET M)) = 0
            /\ _s8_from_u8 (u8_value smenu (SMENU_MAXCURSORPOS_OFFSET M)) = 1
            /\ forall raw, windows_raw = Some raw ->
                           u8_value raw (w * WINDOW_SIZE K) <> 0xFF
                           /\ 4 <= u8_value raw (w * WINDOW_SIZE K + 4)).
Proof.
  intros K M io tasks_raw wid smenu windows_raw st.
  unfold get_yes_no_menu_state, try_except, _read_menu_cursor_pos.
  rewrite !_u8_from_u8_value. cbv beta iota zeta.
  destruct (both_none _ _) as [[|]|] eqn:Hb; cbv beta iota; try discriminate.
  - destruct (given_or_read wid _) as [w|] eqn:Ew; cbv beta iota;
      [|discriminate].
    destruct (w =? WINDOW_NONE K) eqn:E1; [discriminate|].
    destruct (w <? 0) eqn:E2; [discriminate|].
    destruct (w >=? 32) eqn:E3; [discriminate|].
    cbn [orb]. cbv iota.
    apply Z.eqb_neq in E1. apply Z.ltb_ge in E2.
    rewrite Z.geb_leb in E3. apply Z.leb_gt in E3.
    set (win := match windows_raw with
                | Some raw =>
                  win_bg <- _u8_from raw (w * WINDOW_SIZE K + 0) ;;
                  win_height <- _u8_from raw (w * WINDOW_SIZE K + 4) ;;
                  Ok (win_bg, win_height)
                | None =>
                  win_bg <- mgba_read8 io (GWINDOWS_ADDR K + w * WINDOW_SIZE K + 0) ;;
                  win_height <- mgba_read8 io (GWINDOWS_ADDR K + w * WINDOW_SIZE K + 4) ;;
                  Ok (win_bg, win_height)
                end).
    assert (Hwin : forall p, win = Ok p ->
                   forall raw, windows_raw = Some raw ->
                               fst p = u8_value raw (w * WINDOW_SIZE K)
                               /\ snd p = u8_value raw (w * WINDOW_SIZE K + 4)).
    { intros p Hp raw ->. unfold win in Hp.
      rewrite !_u8_from_u8_value in Hp. apply Ok_inj in Hp. subst p.
      rewrite Z.add_0_r. split; reflexivity. }
    destruct win as [p|]; cbv beta iota; [|discriminate].
    specialize (Hwin p eq_refl).
    destruct (fst p =? 255) eqn:E4; [discriminate|].
    destruct (snd p <? 4) eqn:E5; [discriminate|].
    apply Z.eqb_neq in E4. apply Z.ltb_ge in E5.
    cbn [fst snd].
    destruct (u8_value smenu (SMENU_WINDOWID_OFFSET M) =? w) eqn:E6;
      [|discriminate].
    destruct (_s8_from_u8 (u8_value smenu (SMENU_MINCURSORPOS_OFFSET M)) =? 0)
      eqn:E7; [|discriminate].
    destruct (_s8_from_u8 (u8_value smenu (SMENU_MAXCURSORPOS_OFFSET M)) =? 1)
      eqn:E8; [|discriminate].
    cbn [negb orb]. cbv iota.
    apply Z.eqb_eq in E6. apply Z.eqb_eq in E7. apply Z.eqb_eq in E8.
    intros H. split.
    + apply (yes_no_report M smenu st).
      destruct (_ : exc pystr) as [s|] eqn:Es in H; [|discriminate].
      cbv zeta. rewrite Es. f_equal. exact H.
    + right. right. exists w. split; [reflexivity|].
      split; [exact E1|]. split; [lia|]. split; [exact E6|].
      split; [exact E7|]. split; [exact E8|].
      intros raw Hraw. destruct (Hwin raw Hraw) as [<- <-]. split; assumption.
  - apply both_none_false in Hb.
    intros H. split.
    + apply (yes_no_report M smenu st).
      destruct (_ : exc pystr) as [s|] eqn:Es in H; [|discriminate].
      cbv zeta. rewrite Es. f_equal. exact H.
    + destruct Hb as [Hb|Hb]; [left|right; left]; exact Hb.
Qed.

Lemma yes_no_menu_reports_the_cursor_witness :
  exists st,
    get_yes_no_menu_state sample_addresses sample_menu_addresses offline
                          (Some (zeros 640)) (Some 1) (Some yes_no_smenu)
                          (Some yes_no_windows) = Some st
    /\ yes_no_selectedOption st = u "NO"
    /\ let cursor :=
           _s8_from_u8 (u8_value yes_no_smenu
                                 (SMENU_CURSORPOS_OFFSET sample_menu_addresses)) in
       (yes_no_options st = [u "YES"; u "NO"]
        /\ yes_no_cursorPosition st = cursor
        /\ -128 <= cursor <= 127
        /\ yes_no_selectedOption st
           = (if cursor =? 0 then u "YES"
              else if cursor =? 1 then u "NO" else u "UNKNOWN"))
       /\ (task_runs sample_addresses offline (Some (zeros 640))
                     (TASK_HANDLE_YES_NO_INPUT_ADDR sample_menu_addresses)
           \/ task_runs sample_addresses offline (Some (zeros 640))
                        (TASK_CALL_YES_OR_NO_CALLBACK_ADDR sample_menu_addresses)
           \/ exists w,
               given_or_read (Some 1)
                             (mgba_read8 offline
                                         (SYESNO_WINDOWID_ADDR sample_addresses))
               = Ok w
               /\ w <> WINDOW_NONE sample_addresses /\ 0 <= w < 32
               /\ u8_value yes_no_smenu
                           (SMENU_WINDOWID_OFFSET sample_menu_addresses) = w
               /\ _s8_from_u8
                    (u8_value yes_no_smenu
                              (SMENU_MINCURSORPOS_OFFSET sample_menu_addresses))
                  = 0
               /\ _s8_from_u8
                    (u8_value yes_no_smenu
                              (SMENU_MAXCURSORPOS_OFFSET sample_menu_addresses))
                  = 1
               /\ forall raw,
                   Some yes_no_windows = Some raw ->
                   u8_value raw (w * WINDOW_SIZE sample_addresses) <> 0xFF
                   /\ 4 <= u8_value raw (w * WINDOW_SIZE sample_addresses + 4)).
Proof.
  eexists. split; [vm_compute; reflexivity|].
  split; [vm_compute; reflexivity|].
  apply (yes_no_menu_reports_the_cursor
           sample_addresses sample_menu_addresses offline (Some (zeros 640))
           (Some 1) yes_no_smenu (Some yes_no_windows)).
  vm_compute. reflexivity.
Defined.
